(* ===== verification/_CoqProject ===== *)
-Q . S2P
Prelude.v
Diag.v
Pi.v
Kinds.v
Crc.v
Ebcdic.v
Fpdu.v
FpduNum.v
FpduCodec.v
State.v
StateProps.v
Params.v
Frame.v
Compress.v
CompressProps.v
Article.v
CutterProps.v
PackerProps.v
Builder.v
Setters.v
BuilderProps.v
FileSpecProps.v
ControlFpdus.v
Checkpoint.v
ArticleIo.v
ArticleIoProps.v
Link.v
LinkProps.v
Transport.v
Datapath.v
DataFlow.v
SendProps.v
ReceiveProps.v
TransferProps.v
Requester.v
Responder.v
ExchangeProps.v
ConnectProps.v
TransportProps.v
OpenProps.v
CloseProps.v
MessageProps.v
DocStore.v
NodeModel.v
NodeHandler.v
NodeProps.v
NodeRecords.v
Totality.v
TotalityData.v
TotalityEngines.v
TotalityRequester.v
TotalityNode.v
ClientModel.v
ClientEngine.v
ClientProps.v
ClientApi.v
Schedule.v
ScheduleProps.v
Listeners.v
ListenersProps.v
Replicas.v
Admin.v
ReplicasProps.v
ClusterProps.v
EventLog.v
EventLogProps.v
Connectors.v
ConnectorsProps.v
Certs.v
CertsProps.v
Monitor.v
Issuing.v
PkiApi.v
PkiApiProps.v
Tls.v
TlsProps.v
Members.v
Uploads.v
Process.v
ProcessProps.v
