(* ===== verification/Prelude.v ===== *)
(** * PeSIT Wizard: verification of the protocol core and its applications

    PeSIT Wizard transfers files and messages with the PeSIT E protocol. Its
    sources are the crates of [src/crates]: [pesit-core] (the wire format, the
    state machine and the transformations of data), [pesit-io] (sessions over a
    connection), [pesit-node] (the server and the process), [pesit-client] (the
    client), [pesit-app] (what both share), [pesit-cluster] (members, leader and
    replication), [pesit-connector] (external storage) and [pesit-pki]
    (certificates). This library models them from the bytes on the wire up to
    the records, the configuration and the process of a node, and proves what
    makes them correct.

    ** The parts and the files

    Each component has a file of definitions, in a module of the same name when
    its names are short ones, and files of properties; a small one has its
    properties at the end of its file.

    - The wire ([pesit-core]). [Diag]: diagnostics ([diag.rs]). [Pi]: parameters
      and groups ([pi.rs]). [Kinds], [Fpdu], [FpduNum], [FpduCodec]: kinds,
      templates, encoding and decoding of FPDUs ([fpdu.rs]). [Crc]: check bytes
      ([crc.rs]). [Ebcdic]: code pages and pre-connection ([ebcdic.rs]).
      [Params]: typed parameters and negotiation ([params.rs]). [Frame]: entities
      of several FPDUs ([frame.rs]). [Builder], [Setters], [BuilderProps],
      [ControlFpdus], [FileSpecProps]: the constructors of FPDUs and the
      description of a file ([builder.rs]).
    - The rules ([pesit-core]). [State], [StateProps]: the tables of the protocol
      ([state.rs]).
    - The data ([pesit-core], [pesit-io]). [Compress], [CompressProps]:
      compression ([compress.rs]). [Article], [CutterProps], [PackerProps]:
      cutting a file into articles, packing them into FPDUs and reassembling
      ([article.rs]). [Checkpoint]: synchronisation points in memory and on disk
      ([checkpoint.rs]). [ArticleIo], [ArticleIoProps]: the files and vectors that
      articles come from and go to ([io.rs]).
    - Sessions ([pesit-io]). [Transport], [TransportProps]: entities on a stream
      of bytes ([transport.rs]). [Link], [LinkProps]: the queue of FPDUs of a
      connection and the errors of a session ([link.rs], [error.rs]). [Datapath],
      [DataFlow], [SendProps], [ReceiveProps], [TransferProps]: the data phase
      ([datapath.rs]). [Requester], [Responder]: the two engines
      ([requester.rs], [responder.rs]); [ExchangeProps], [ConnectProps],
      [OpenProps], [CloseProps], [MessageProps]: what they do together, phase by
      phase. [Tls], [TlsProps]: connectors and acceptors from their settings, and
      how the client opens a connection ([tls.rs], [Engine::open]).
    - Termination. [Totality], [TotalityData], [TotalityEngines],
      [TotalityRequester], [TotalityNode].
    - Transfers of the applications. [DocStore]: texts and the document store
      ([store.rs] of [pesit-app]). [NodeModel], [NodeHandler], [NodeProps],
      [NodeRecords]: the server's documents and its handler of transfers
      ([model.rs], [handler.rs] of [pesit-node]). [ClientModel], [ClientEngine],
      [ClientProps], [ClientApi], [Uploads]: the client's
      documents, transfers and interface ([model.rs], [engine.rs], [api.rs] of
      [pesit-client]). [Schedule], [ScheduleProps]: recurring transfers, shared
      out in a cluster ([schedule.rs]).
    - The node. [Listeners], [ListenersProps]: the listeners, their accept loops
      and their operations ([manager.rs], [api.rs]). [Admin]: the generic
      operations on the configuration ([api.rs], [schedule.rs], [model.rs]).
      [Replicas], [ReplicasProps], [ClusterProps]: backups, the replication of the
      configuration and the lease of the leader ([backup.rs], [cluster.rs],
      [pesit-cluster]). [Members]: heartbeats and the members of a
      cluster ([pesit-cluster]). [Monitor]: lists, statistics and
      metrics ([api.rs], [metrics.rs], [cluster.rs], [audit.rs]). [EventLog],
      [EventLogProps]: the audit log and the key of the interface ([audit.rs],
      [http.rs] of [pesit-app]). [Connectors], [ConnectorsProps]: the copies to and
      from external storage ([pesit-connector], [connector.rs]). [Process],
      [ProcessProps]: options, bootstrap and reload, commands, start and end
      ([config.rs], [main.rs]).
    - Certificates. [Certs], [CertsProps]: the stores on disk, revocation, export
      and import ([store.rs], [ocsp.rs], [pki.rs]). [Issuing]: the
      names of a request, the local authority and the client of Vault
      ([provider.rs], [ca.rs], [vault.rs]). [PkiApi], [PkiApiProps]: the operations
      of the interface, with issue and rotation ([pki.rs]).

    They are stacked as the program is. An engine ([Requester.send_file],
    [Responder.serve]) is a computation on the link and the state machine of its
    connection; [Datapath.send_data] and [Datapath.receive_data] run on an
    environment ([Datapath.Env]) made of these two, a store of checkpoints, the
    cancellation flag and the progress reports, and on a source or sink. Stores,
    sources, sinks and the application of the server are type classes
    ([Checkpoint.CheckpointStore], [ArticleIo.ArticleSource],
    [ArticleIo.ArticleSink], [Responder.ServerHandler]) as they are traits in
    the code, with their laws apart ([CheckpointLaws], [ArticleSinkLaws],
    [TameSource], [TameSink], [TameHandler]); the theorems of the clients are
    proved from the laws, which the instances (memory and file stores, vectors,
    files, the node's handler) are proved to have. The documents of the
    configuration are the instances of [Admin.Entity] and [Admin.Serde], and the
    buckets of the message server those of [Replicas.Bucket] and
    [Members.KeyValue], with laws and a concrete instance.

    ** How code becomes definitions

    - [usize] is [nat]; [u8], [u16], [u32] and [u64] are [Z] with their wrap
      written out; bytes are a list of [Z] between 0 and 255, strings a list of
      code points ([ustring]). The running totals of a transfer, its bytes, its
      articles and its positions in a file, are not wrapped: they would have to
      count 2^64 bytes.
    - A fallible function returns an [outcome]: [Ok], [Err] or [Panic], the last
      for a slice or index out of range, an underflow or a fuel used up, so that
      "never [Panic]" is at once memory safety and termination.
    - Code on [&mut self] is a computation [Link.M S A] on the state [S], which
      keeps the state when it fails; [Link.zoom] runs one on a part. The server's
      handler ([NodeHandler.H]), the manager of listeners ([Listeners.Mgr]), the
      requests of the interfaces ([ClientEngine.ApiM]), the statements on tables
      of JSON documents ([Replicas.Q]), the calls on the disk of the certificates
      ([Certs.OnDisk]) and those of the client of Vault ([Issuing.OnVault]) have
      an error type of their own.
    - What runs at the same time as the calls of an operator, the accept loops of
      the listeners, is a step relation ([Listeners.step]).
    - What the outside does is data: what arrives on a link ([Link.Arrival]) and
      which writes fail, what each call of the operating system gives
      ([ArticleIo.FileSource], [ArticleIo.FileSink]), at which step the checkpoint
      file fails ([Checkpoint.fault]), which statements of the database
      ([DocStore.Db]) and which calls on the disk ([Certs.Disk]) fail, what each
      call of the server finds ([NodeHandler.World], [Listeners.Call]) and each
      attempt of the client ([ClientEngine.Attempt]), and what a node finds when it
      starts ([Process.World]). Theorems quantify over it.
    - Libraries outside the sources are parameters: JSON texts, time stamps, cron
      expressions and their calendar, certificates and signatures
      ([Issuing.Signing]), TLS ([Tls.TlsLibrary]), HTTP, S3 and SSH clients.

    ** Fuel

    Loops on arrivals have fuel. [Totality] gives each computation a load (what
    is queued and the bytes that may still arrive, and the articles that are
    left) and proves that every turn takes something off it; [turns n x] =
    (n + 1) (x + 1) bounds the turns of a session on a load [x] with sources of
    at most [n] articles, and a file has no more articles than bytes. Any fuel
    above it gives the result. Other fuels are computed from their argument:
    lengths for decoding, splitting and compression, and what is left of the
    file for a source.

    ** What the theorems show

    - Wire: decoding inverts encoding and never panics; what it accepts conforms
      to the templates; all constructors give acceptable FPDUs; a file
      description survives; entities and the stream keep FPDUs in order, with
      and without check bytes; which errors the check bytes detect.
    - Rules: two machines that exchange FPDUs stay synchronised; phases nest;
      data flows in its lane; every state is reachable and left.
    - Data: compression and packing are inverted by the peer for whole transfers;
      the receiving side is safe on any input; cutting does not depend on how the
      file is read; sources resume and sinks restore exactly at a checkpoint; the
      checkpoint file is never torn.
    - Sessions: the requester and the responder agree on the connection, on the
      opening and the end of a transfer, and on messages; what the sender's
      source holds is what the receiver's sink gets, within the bound on
      compressed articles that the receiver sets ([TransferProps]); a TLS
      connection is to a server whose chain verifies, and a listener asks its
      clients for certificates when its settings do ([TlsProps], [ProcessProps]).
    - Server: who is admitted and which transfers are authorised; the records,
      handles and flags of the transfers stay consistent over every sequence of
      calls, and a finished record is final.
    - Termination: a session of the node ends whatever the peer, the disk and the
      store do ([TotalityNode]); a transfer of the client ends with a final record
      and without a flag, after at most one full transfer for a refused restart
      ([ClientProps]).
    - Scheduler: members that see each other run each due schedule once; who sees
      whom follows the heartbeats ([Members]).
    - Listeners: loops, entries and documents agree over every sequence of calls
      and events, and how many sessions a listener may have; a reload leaves the
      listeners that run, the end of the process stops all of them and waits for
      no session, and a start that fails stops none.
    - Configuration: a backup that is restored gives the configuration back, from
      the interface as from the command; a node that follows another has its
      configuration, also after it joins late, apart from the last runs of
      schedules outside their plan; after a round one node leads, or none while an
      absent holder has the lease.
    - Certificates: what is revoked is published in both ways; stores are kept
      apart; what is issued under a name is renewed with the same names by the same
      backend, and a rotation replaces both texts or nothing; the names of a
      request are hosts or addresses; the client of Vault logs in once.
    - Around them: the audit log is bounded and keeps the newest; a copy is retried
      as often as its connector allows; metrics agree with the records.

    Theorems and examples about what goes wrong (a resynchronisation under
    compression, a long compressed article, a message that overflows its entity, a
    reload that forgets the status of a listener, a run that is not told to the
    other nodes, client certificates that are required and not asked for) state behaviours that the code has and should not
    have.

    ** Not modelled

    - Input and output through third-party libraries: sockets, TLS handshakes, the
      HTTP server with its routes and the web page, the parsing of command lines,
      YAML, forms and JSON texts, SQL, DER and PEM, the clients of S3 and SSH, the
      message server itself. What they give is data or a parameter, as above; the
      inspection of a certificate ([cert.rs]), the bytes of a signature ([sign.rs])
      and the encoding of an OCSP answer are such calls only.
    - Log messages, the audit entry that an operation of an interface writes, and
      the texts that only feed them (the renderings of an FPDU).
    - Tasks that run at the same time share the document store, the cancellation
      flags and the state of the listeners; but for the accept loops, a transfer or
      a call is one step on them here, with what it may read from others (the flag)
      as data: a handler has the flags of its own transfers ([NodeHandler]), and the
      progress reports of a data phase are taken at its end. Timeouts are arrivals
      of the link.
    - The runtime: when [main] returns its tasks are dropped, and sessions with
      them; [Process.serve_to_end] gives the tables that are left.

    Nothing of the program's own logic is planned beyond this: what is left are
    these calls of libraries and the wiring of tasks around them. *)

From stdpp Require Export base tactics list numbers option gmap.
From Stdlib Require Export ZArith Lia Bool.
From Stdlib Require List.

Global Set Default Goal Selector "!".

(** ** Outcomes

    The result of a fallible Rust function: [Ok] and [Err] are the two
    variants of [Result], and [Panic] is what the process does on an
    out-of-range index or slice or on an arithmetic underflow. *)

Inductive outcome (E A : Type) : Type :=
| Ok (a : A)
| Err (e : E)
| Panic.
Arguments Ok {E A} a.
Arguments Err {E A} e.
Arguments Panic {E A}.

#[global] Instance outcome_ret {E} : MRet (outcome E) := λ _ a, Ok a.
#[global] Instance outcome_bind {E} : MBind (outcome E) := λ _ _ f m,
  match m with Ok a => f a | Err e => Err e | Panic => Panic end.
#[global] Instance outcome_fmap {E} : FMap (outcome E) := λ _ _ f m,
  match m with Ok a => Ok (f a) | Err e => Err e | Panic => Panic end.

(** [Result::map_err] and the conversion done by the [?] operator. *)
Definition map_err {E F A} (f : E → F) (m : outcome E A) : outcome F A :=
  match m with Ok a => Ok a | Err e => Err (f e) | Panic => Panic end.

(** [Option::ok_or]. *)
Definition ok_or {E A} (o : option A) (e : E) : outcome E A :=
  match o with Some a => Ok a | None => Err e end.

Definition is_ok {E A} (m : outcome E A) : bool :=
  match m with Ok _ => true | _ => false end.

Definition no_panic {E A} (m : outcome E A) : Prop := m ≠ Panic.

Lemma no_panic_bind {E A B} (m : outcome E A) (f : A → outcome E B) :
  no_panic m → (∀ a, m = Ok a → no_panic (f a)) → no_panic (m ≫= f).
Proof. unfold no_panic. destruct m; simpl; naive_solver. Qed.

Lemma bind_ok {E A B} (m : outcome E A) (f : A → outcome E B) b :
  m ≫= f = Ok b ↔ ∃ a, m = Ok a ∧ f a = Ok b.
Proof. destruct m; simpl; naive_solver. Qed.

(** [m] does not panic, and what it returns satisfies [P]. *)
Definition safe {E A} (m : outcome E A) (P : A → Prop) : Prop :=
  match m with Ok a => P a | Err _ => True | Panic => False end.

Lemma safe_bind {E A B} (m : outcome E A) (f : A → outcome E B) P Q :
  safe m P → (∀ a, P a → safe (f a) Q) → safe (m ≫= f) Q.
Proof. destruct m; simpl; auto. Qed.

Lemma safe_mono {E A} (m : outcome E A) (P Q : A → Prop) :
  safe m P → (∀ a, P a → Q a) → safe m Q.
Proof. destruct m; simpl; auto. Qed.

Lemma safe_map_err {E F A} (f : E → F) (m : outcome E A) P : safe m P → safe (map_err f m) P.
Proof. by destruct m. Qed.

Lemma safe_ok_or {E A} (o : option A) (e : E) P : (∀ a, o = Some a → P a) → safe (ok_or o e) P.
Proof. destruct o; simpl; auto. Qed.

Lemma safe_ok {E A} (m : outcome E A) P a : safe m P → m = Ok a → P a.
Proof. by intros H ->. Qed.

Lemma safe_no_panic {E A} (m : outcome E A) P : safe m P → no_panic m.
Proof. unfold no_panic. by destruct m. Qed.

(** [l[i]], [&l[lo..hi]], [l.get(lo..hi)] and [a - b] on [usize]. *)
Definition idx {E A} (l : list A) (i : nat) : outcome E A :=
  match l !! i with Some x => Ok x | None => Panic end.

Definition get_range {A} (l : list A) (lo hi : nat) : option (list A) :=
  if (lo <=? hi) && (hi <=? length l) then Some (take (hi - lo) (drop lo l)) else None.

Definition slice {E A} (l : list A) (lo hi : nat) : outcome E (list A) :=
  match get_range l lo hi with Some s => Ok s | None => Panic end.

Definition sub_usize {E} (a b : nat) : outcome E nat :=
  if b <=? a then Ok (a - b) else Panic.

Lemma sub_usize_ok {E} a b : b ≤ a → sub_usize (E:=E) a b = Ok (a - b).
Proof. intros H. unfold sub_usize. by destruct (Nat.leb_spec b a); [|lia]. Qed.

Lemma idx_lookup {E A} (l : list A) i x : l !! i = Some x → idx (E:=E) l i = Ok x.
Proof. intros H. unfold idx. by rewrite H. Qed.

Lemma idx_lt {E A} (l : list A) i :
  i < length l → ∃ x, idx (E:=E) l i = Ok x ∧ l !! i = Some x.
Proof. intros [x Hx]%lookup_lt_is_Some_2. exists x. by rewrite (idx_lookup _ _ x). Qed.

Lemma get_range_Some {A} (l : list A) lo hi s :
  get_range l lo hi = Some s ↔ lo ≤ hi ∧ hi ≤ length l ∧ s = take (hi - lo) (drop lo l).
Proof.
  unfold get_range. destruct (Nat.leb_spec lo hi), (Nat.leb_spec hi (length l));
    simpl; naive_solver lia.
Qed.

Lemma get_range_is_Some {A} (l : list A) lo hi :
  lo ≤ hi → hi ≤ length l → get_range l lo hi = Some (take (hi - lo) (drop lo l)).
Proof. intros. by apply get_range_Some. Qed.

Lemma get_range_None {A} (l : list A) lo hi :
  get_range l lo hi = None ↔ hi < lo ∨ length l < hi.
Proof.
  unfold get_range. destruct (Nat.leb_spec lo hi), (Nat.leb_spec hi (length l));
    simpl; naive_solver lia.
Qed.

Lemma get_range_length {A} (l : list A) lo hi s :
  get_range l lo hi = Some s → length s = hi - lo.
Proof.
  intros (?&?&->)%get_range_Some. rewrite length_take, length_drop. lia.
Qed.

Lemma get_range_app_mid {A} (p m s : list A) :
  get_range (p ++ m ++ s) (length p) (length p + length m) = Some m.
Proof.
  apply get_range_Some. rewrite !length_app. split_and!; [lia..|].
  rewrite drop_app_length.
  replace (length p + length m - length p) with (length m) by lia.
  by rewrite take_app_length.
Qed.

Lemma lookup_app_add {A} (l k : list A) n : (l ++ k) !! (length l + n) = k !! n.
Proof. rewrite lookup_app_r by lia. f_equal. lia. Qed.

Lemma lookup_app_0 {A} (l k : list A) : (l ++ k) !! length l = k !! 0.
Proof. rewrite <-(Nat.add_0_r (length l)). apply lookup_app_add. Qed.

Lemma get_range_all {A} (l : list A) : get_range l 0 (length l) = Some l.
Proof. apply get_range_Some. rewrite drop_0, Nat.sub_0_r, take_ge by lia. auto with lia. Qed.

Lemma slice_ok {E A} (l : list A) lo hi :
  lo ≤ hi → hi ≤ length l → slice (E:=E) l lo hi = Ok (take (hi - lo) (drop lo l)).
Proof. intros. unfold slice. by rewrite get_range_is_Some. Qed.

Lemma safe_idx {E A} (l : list A) i P :
  i < length l → (∀ x, l !! i = Some x → P x) → safe (idx (E:=E) l i) P.
Proof. intros Hi HP. destruct (idx_lt (E:=E) l i Hi) as (x&->&Hx). simpl. auto. Qed.

Lemma safe_slice {E A} (l : list A) lo hi P :
  lo ≤ hi → hi ≤ length l → P (take (hi - lo) (drop lo l)) → safe (slice (E:=E) l lo hi) P.
Proof. intros. by rewrite slice_ok. Qed.

(** ** Machine integers

    A byte and the wider unsigned integers are values of [Z] in their range;
    [as u8] and the like are the wrap functions. *)

Definition u8 (z : Z) : Z := (z mod 256)%Z.
Definition u16 (z : Z) : Z := (z mod 65536)%Z.
Definition u32 (z : Z) : Z := (z mod 4294967296)%Z.
Definition u64 (z : Z) : Z := (z mod 18446744073709551616)%Z.

Definition byte_ok (b : Z) : Prop := (0 ≤ b < 256)%Z.
Definition u16_ok (z : Z) : Prop := (0 ≤ z < 65536)%Z.
Definition u32_ok (z : Z) : Prop := (0 ≤ z < 4294967296)%Z.
Definition u64_ok (z : Z) : Prop := (0 ≤ z < 18446744073709551616)%Z.

Abbreviation bytes := (list Z).
Definition bytes_ok (l : bytes) : Prop := Forall byte_ok l.

#[global] Instance byte_ok_dec b : Decision (byte_ok b).
Proof. unfold byte_ok. apply _. Defined.
#[global] Instance bytes_ok_dec l : Decision (bytes_ok l).
Proof. unfold bytes_ok. apply _. Defined.

(** [lia] with division and modulo by constants. *)
Ltac lia_dm := intros; Z.to_euclidean_division_equations; lia.

(** [u16::to_be_bytes] and [u16::from_be_bytes]. *)
Definition be16 (v : Z) : bytes := [(v / 256) mod 256; v mod 256]%Z.
Definition of_be16 (hi lo : Z) : Z := (hi * 256 + lo)%Z.

Lemma of_be16_be16 v : u16_ok v → of_be16 ((v / 256) mod 256) (v mod 256) = v.
Proof. unfold u16_ok, of_be16. lia_dm. Qed.

Lemma of_be16_range hi lo : byte_ok hi → byte_ok lo → u16_ok (of_be16 hi lo).
Proof. unfold byte_ok, u16_ok, of_be16. lia. Qed.

Lemma be16_bytes_ok v : bytes_ok (be16 v).
Proof. unfold be16, bytes_ok, byte_ok. repeat constructor; lia_dm. Qed.

(** [to_be_bytes] of an [8 * n]-bit integer. *)
Fixpoint be_bytes (n : nat) (v : Z) : bytes :=
  match n with
  | O => []
  | S n => be_bytes n (v / 256)%Z ++ [(v mod 256)%Z]
  end.

Lemma length_be_bytes n v : length (be_bytes n v) = n.
Proof. revert v. induction n; intros; simpl; [done|]. rewrite length_app, IHn. simpl. lia. Qed.

Lemma be_bytes_ok n v : bytes_ok (be_bytes n v).
Proof.
  revert v. induction n; intros v; simpl; [constructor|].
  apply Forall_app; split; [apply IHn|]. repeat constructor; lia_dm.
Qed.

Lemma be_bytes_S n v : be_bytes (S n) v = be_bytes n (v / 256) ++ [(v mod 256)%Z].
Proof. done. Qed.
#[global] Arguments be_bytes : simpl never.

Create HintDb bytes.
#[export] Hint Resolve be16_bytes_ok be_bytes_ok : bytes.

Lemma bytes_ok_app l k : bytes_ok (l ++ k) ↔ bytes_ok l ∧ bytes_ok k.
Proof. apply Forall_app. Qed.
Lemma bytes_ok_cons b l : bytes_ok (b :: l) ↔ byte_ok b ∧ bytes_ok l.
Proof. apply Forall_cons. Qed.
Lemma bytes_ok_take n l : bytes_ok l → bytes_ok (take n l).
Proof. apply Forall_take. Qed.
Lemma bytes_ok_drop n l : bytes_ok l → bytes_ok (drop n l).
Proof. apply Forall_drop. Qed.
#[export] Hint Resolve bytes_ok_take bytes_ok_drop : bytes.

(** ** Lists *)

(** [slice::chunks]: pieces of [n] elements, the last one possibly shorter. *)
Fixpoint chunks_fuel {A} (fuel n : nat) (l : list A) : list (list A) :=
  match fuel, l with
  | O, _ | _, [] => []
  | S fuel, _ => take n l :: chunks_fuel fuel n (drop n l)
  end.
Definition chunks {A} (n : nat) (l : list A) : list (list A) := chunks_fuel (length l) n l.

Lemma chunks_fuel_irrel {A} n (l : list A) f g :
  0 < n → length l ≤ f → length l ≤ g → chunks_fuel f n l = chunks_fuel g n l.
Proof.
  intros Hn. revert l g. induction f as [|f IH]; intros l g Hf Hg.
  { destruct l; simpl in *; [by destruct g|lia]. }
  destruct l as [|x l]; [by destruct g|]. destruct g as [|g]; simpl in *; [lia|].
  f_equal. apply IH; rewrite length_drop; simpl; lia.
Qed.

Lemma chunks_step {A} n (l : list A) :
  0 < n → l ≠ [] → chunks n l = take n l :: chunks n (drop n l).
Proof.
  intros Hn Hl. unfold chunks. destruct l as [|x l]; [done|]. simpl. f_equal.
  apply chunks_fuel_irrel; rewrite ?length_drop; simpl; lia.
Qed.

(** Induction along [chunks]. *)
Lemma chunks_ind {A} (P : list A → Prop) n :
  0 < n → P [] → (∀ l, l ≠ [] → P (drop n l) → P l) → ∀ l, P l.
Proof.
  intros Hn H0 HS l. induction l as [l IH] using (induction_ltof1 _ length).
  destruct l as [|x l]; [done|]. apply HS; [done|].
  apply IH. unfold ltof. rewrite length_drop. simpl. lia.
Qed.

Lemma concat_chunks {A} n (l : list A) : 0 < n → concat (chunks n l) = l.
Proof.
  intros Hn. revert l. apply (chunks_ind _ n Hn); [done|]. intros l Hl IH.
  rewrite (chunks_step n l Hn Hl). simpl. by rewrite IH, take_drop.
Qed.

Lemma chunks_length_le {A} n (l : list A) :
  0 < n → Forall (λ c, length c ≤ n) (chunks n l).
Proof.
  intros Hn. revert l. apply (chunks_ind _ n Hn); [constructor|]. intros l Hl IH.
  rewrite (chunks_step n l Hn Hl). constructor; [rewrite length_take; lia|done].
Qed.

(** Drop the longest suffix whose elements satisfy [p]. *)
Fixpoint strip_trailing {A} (p : A → bool) (l : list A) : list A :=
  match l with
  | [] => []
  | x :: l =>
      match strip_trailing p l with
      | [] => if p x then [] else [x]
      | r => x :: r
      end
  end.

Lemma strip_trailing_all {A} (p : A → bool) l k :
  Forall (λ x, p x = true) k → strip_trailing p (l ++ k) = strip_trailing p l.
Proof.
  intros Hk. induction l as [|x l IH]; simpl; [|by rewrite IH].
  induction Hk as [|x k Hx Hk IH]; simpl; [done|]. by rewrite IH, Hx.
Qed.

Lemma strip_trailing_replicate {A} (p : A → bool) l n x :
  p x = true → strip_trailing p (l ++ replicate n x) = strip_trailing p l.
Proof. intros Hx. apply strip_trailing_all, Forall_replicate, Hx. Qed.

Lemma strip_trailing_idemp {A} (p : A → bool) l :
  strip_trailing p (strip_trailing p l) = strip_trailing p l.
Proof.
  induction l as [|x l IH]; simpl; [done|].
  destruct (strip_trailing p l) as [|y r] eqn:E.
  - destruct (p x) eqn:Hx; simpl; [done|by rewrite Hx].
  - simpl. simpl in IH. by rewrite IH.
Qed.

(** Either nothing is left or the last element does not satisfy [p]. *)
Lemma strip_trailing_last {A} (p : A → bool) l :
  strip_trailing p l = [] ∨ ∃ k x, strip_trailing p l = k ++ [x] ∧ p x = false.
Proof.
  induction l as [|x l IH]; simpl; [by left|].
  destruct IH as [->|(k&y&->&Hy)].
  - destruct (p x) eqn:Hx; [by left|right]. by exists [], x.
  - right. exists (x :: k), y. by destruct k.
Qed.

Lemma strip_trailing_prefix {A} (p : A → bool) l :
  ∃ k, l = strip_trailing p l ++ k ∧ Forall (λ x, p x = true) k.
Proof.
  induction l as [|x l (k&E&Hk)]; simpl; [by exists []|].
  destruct (strip_trailing p l) as [|y r] eqn:Es.
  - simpl in E. subst k. destruct (p x) eqn:Hx; [|by exists l].
    exists (x :: l). split; [done|by constructor].
  - exists k. split; [|done]. by rewrite E at 1.
Qed.

Lemma strip_trailing_id {A} (p : A → bool) l x :
  p x = false → strip_trailing p (l ++ [x]) = l ++ [x].
Proof.
  intros Hx. induction l as [|y l IH]; simpl; [by rewrite Hx|].
  rewrite IH. by destruct l.
Qed.

Lemma Forall_strip_trailing {A} (P : A → Prop) p l :
  Forall P l → Forall P (strip_trailing p l).
Proof.
  destruct (strip_trailing_prefix p l) as (k&E&_). rewrite E at 1.
  by intros [? _]%Forall_app.
Qed.

(** ** Strings

    A [String] is the list of its Unicode scalar values. *)

Abbreviation ustring := (list Z) (only parsing).

(** [char::is_whitespace] (the Unicode property White_Space). *)
Definition is_whitespace (c : Z) : bool :=
  ((9 <=? c) && (c <=? 13) || (c =? 32) || (c =? 133) || (c =? 160) || (c =? 5760)
   || (8192 <=? c) && (c <=? 8202) || (c =? 8232) || (c =? 8233) || (c =? 8239)
   || (c =? 8287) || (c =? 12288))%Z.

(** [str::trim_end]. *)
Definition trim_end (s : ustring) : ustring := strip_trailing is_whitespace s.

(** Closed decidable goals by evaluation. *)
Ltac by_compute := apply (bool_decide_unpack _); vm_compute; exact I.

(** ** Enumerations *)

(** Decidable equality of an enumeration from a numbering of it. *)
Definition numbered_eq_dec {A B} `{EqDecision B} (f : A → B) (g : B → option A)
  (Hfg : ∀ x, g (f x) = Some x) : EqDecision A.
Proof.
  intros x y. destruct (decide (f x = f y)) as [He|Hne].
  - left. apply (inj Some). by rewrite <-!Hfg, He.
  - right. congruence.
Defined.
