(* ===== verification/Diag.v ===== *)
(** * Diagnostics ([crates/pesit-core/src/diag.rs])

    The diagnostic carried by PI 2: an error type and a 16-bit reason code,
    the named diagnostics with their texts, the 3-byte wire form. *)

From stdpp Require Import strings.
From S2P Require Import Prelude.
Open Scope Z_scope.

Module Diagnostic.

Record Diagnostic : Type := Diag { kind : Z; code : Z }.

#[global] Instance diagnostic_eq_dec : EqDecision Diagnostic.
Proof. solve_decision. Defined.

(** The named diagnostics of the [diags!] table. *)
Definition OK : Diagnostic := Diag 0 0.
Definition TRANSMISSION_ERROR : Diagnostic := Diag 1 100.
Definition INSUFFICIENT_FILE_CHARACTERISTICS : Diagnostic := Diag 2 200.
Definition SYSTEM_RESOURCES : Diagnostic := Diag 2 201.
Definition USER_RESOURCES : Diagnostic := Diag 2 202.
Definition NON_PRIORITY_TRANSFER : Diagnostic := Diag 2 203.
Definition FILE_EXISTS : Diagnostic := Diag 2 204.
Definition FILE_NOT_FOUND : Diagnostic := Diag 2 205.
Definition DISK_QUOTA : Diagnostic := Diag 2 206.
Definition FILE_BUSY : Diagnostic := Diag 2 207.
Definition FILE_TOO_OLD : Diagnostic := Diag 2 208.
Definition MESSAGE_NOT_ACCEPTED : Diagnostic := Diag 2 209.
Definition PRESENTATION_NEGOTIATION : Diagnostic := Diag 2 210.
Definition CANNOT_OPEN : Diagnostic := Diag 2 211.
Definition CANNOT_CLOSE : Diagnostic := Diag 2 212.
Definition IO_ERROR : Diagnostic := Diag 2 213.
Definition RESTART_POINT_NEGOTIATION : Diagnostic := Diag 2 214.
Definition SYSTEM_ERROR : Diagnostic := Diag 2 215.
Definition VOLUNTARY_STOP : Diagnostic := Diag 2 216.
Definition TOO_MANY_UNACKED_SYNC : Diagnostic := Diag 2 217.
Definition RESYNC_IMPOSSIBLE : Diagnostic := Diag 2 218.
Definition FILE_SPACE_EXHAUSTED : Diagnostic := Diag 2 219.
Definition RECORD_TOO_LONG : Diagnostic := Diag 2 220.
Definition END_OF_TRANSMISSION_TIMEOUT : Diagnostic := Diag 2 221.
Definition TOO_MUCH_DATA_WITHOUT_SYNC : Diagnostic := Diag 2 222.
Definition ABNORMAL_END : Diagnostic := Diag 2 223.
Definition FILE_LARGER_THAN_ANNOUNCED : Diagnostic := Diag 2 224.
Definition APPLICATION_CONGESTED : Diagnostic := Diag 2 225.
Definition TRANSFER_REFUSED : Diagnostic := Diag 2 226.
Definition RESTART_NOT_RESTARTABLE : Diagnostic := Diag 2 227.
Definition RESTART_UNKNOWN_SYNC : Diagnostic := Diag 2 228.
Definition RESTART_FILE_MODIFIED : Diagnostic := Diag 2 229.
Definition RESTART_DELAY_EXCEEDED : Diagnostic := Diag 2 230.
Definition NO_RESTART_CONTEXT : Diagnostic := Diag 2 233.
Definition OTHER_FILE_ERROR : Diagnostic := Diag 2 299.
Definition LOCAL_CONGESTION : Diagnostic := Diag 3 300.
Definition CALLER_UNKNOWN : Diagnostic := Diag 3 301.
Definition NOT_ATTACHED_TO_SSAP : Diagnostic := Diag 3 302.
Definition REMOTE_CONGESTION : Diagnostic := Diag 3 303.
Definition CALLER_NOT_AUTHORISED : Diagnostic := Diag 3 304.
Definition SELECT_NEGOTIATION : Diagnostic := Diag 3 305.
Definition RESYNC_NEGOTIATION : Diagnostic := Diag 3 306.
Definition SYNC_NEGOTIATION : Diagnostic := Diag 3 307.
Definition VERSION_NOT_SUPPORTED : Diagnostic := Diag 3 308.
Definition TOO_MANY_CONNECTIONS : Diagnostic := Diag 3 309.
Definition NETWORK_INCIDENT : Diagnostic := Diag 3 310.
Definition REMOTE_PROTOCOL_ERROR : Diagnostic := Diag 3 311.
Definition SERVICE_CLOSED : Diagnostic := Diag 3 312.
Definition IDLE_CONNECTION_CUT : Diagnostic := Diag 3 313.
Definition UNUSED_CONNECTION_CUT : Diagnostic := Diag 3 314.
Definition NEGOTIATION_FAILURE : Diagnostic := Diag 3 315.
Definition ADMINISTRATIVE_CUT : Diagnostic := Diag 3 316.
Definition TIMEOUT : Diagnostic := Diag 3 317.
Definition INVALID_PARAMETER : Diagnostic := Diag 3 318.
Definition INVALID_COUNTS : Diagnostic := Diag 3 319.
Definition TOO_MANY_RESYNC : Diagnostic := Diag 3 320.
Definition CALL_BACKUP_NUMBER : Diagnostic := Diag 3 321.
Definition CALL_BACK_LATER : Diagnostic := Diag 3 322.
Definition OTHER_CONNECTION_ERROR : Diagnostic := Diag 3 399.

Definition table : list (Diagnostic * string) :=
  ([
   (OK, "Success");
   (TRANSMISSION_ERROR, "Transmission error");
   (INSUFFICIENT_FILE_CHARACTERISTICS, "Insufficient file characteristics");
   (SYSTEM_RESOURCES, "System resources temporarily insufficient");
   (USER_RESOURCES, "User resources temporarily insufficient");
   (NON_PRIORITY_TRANSFER, "Non-priority transfer");
   (FILE_EXISTS, "File already exists");
   (FILE_NOT_FOUND, "File not found");
   (DISK_QUOTA, "Disk quota would be exceeded");
   (FILE_BUSY, "File busy");
   (FILE_TOO_OLD, "File too old");
   (MESSAGE_NOT_ACCEPTED, "Message of this type not accepted");
   (PRESENTATION_NEGOTIATION, "Presentation context negotiation failed");
   (CANNOT_OPEN, "Cannot open file");
   (CANNOT_CLOSE, "Cannot close file normally");
   (IO_ERROR, "Blocking input/output error");
   (RESTART_POINT_NEGOTIATION, "Restart point negotiation failed");
   (SYSTEM_ERROR, "System-specific error");
   (VOLUNTARY_STOP, "Voluntary premature stop");
   (TOO_MANY_UNACKED_SYNC, "Too many synchronisation points without acknowledgement");
   (RESYNC_IMPOSSIBLE, "Resynchronisation impossible");
   (FILE_SPACE_EXHAUSTED, "File space exhausted");
   (RECORD_TOO_LONG, "Article longer than expected");
   (END_OF_TRANSMISSION_TIMEOUT, "End of transmission timer expired");
   (TOO_MUCH_DATA_WITHOUT_SYNC, "Too much data without synchronisation point");
   (ABNORMAL_END, "Abnormal end of transfer");
   (FILE_LARGER_THAN_ANNOUNCED, "File larger than announced in F.CREATE");
   (APPLICATION_CONGESTED, "Application congested, file received but not delivered");
   (TRANSFER_REFUSED, "Transfer refused");
   (RESTART_NOT_RESTARTABLE, "Restart impossible: transfer not restartable");
   (RESTART_UNKNOWN_SYNC, "Restart impossible: unknown synchronisation point");
   (RESTART_FILE_MODIFIED, "Restart impossible: file modified");
   (RESTART_DELAY_EXCEEDED, "Restart impossible: delay exceeded");
   (NO_RESTART_CONTEXT, "No transfer restart context available");
   (OTHER_FILE_ERROR, "Other file/transfer error");
   (LOCAL_CONGESTION, "Local communication system congested");
   (CALLER_UNKNOWN, "Requested identification unknown");
   (NOT_ATTACHED_TO_SSAP, "Requester not attached to an SSAP / unauthorised caller");
   (REMOTE_CONGESTION, "Remote communication system congested / called partner unknown");
   (CALLER_NOT_AUTHORISED, "Requester identification not authorised (security)");
   (SELECT_NEGOTIATION, "Negotiation failure: SELECT");
   (RESYNC_NEGOTIATION, "Negotiation failure: RESYNC");
   (SYNC_NEGOTIATION, "Negotiation failure: SYNC");
   (VERSION_NOT_SUPPORTED, "Version number not supported");
   (TOO_MANY_CONNECTIONS, "Too many connections already in progress");
   (NETWORK_INCIDENT, "Network incident");
   (REMOTE_PROTOCOL_ERROR, "Remote PeSIT protocol error");
   (SERVICE_CLOSED, "Closure of service requested by user");
   (IDLE_CONNECTION_CUT, "Connection cut at end of inactivity timer");
   (UNUSED_CONNECTION_CUT, "Unused connection cut to accept a new one");
   (NEGOTIATION_FAILURE, "Negotiation failure");
   (ADMINISTRATIVE_CUT, "Connection cut by administration");
   (TIMEOUT, "Timer expired");
   (INVALID_PARAMETER, "Mandatory parameter absent or illegal parameter content");
   (INVALID_COUNTS, "Incorrect number of bytes or articles");
   (TOO_MANY_RESYNC, "Too many resynchronisations for a transfer");
   (CALL_BACKUP_NUMBER, "Call the backup number");
   (CALL_BACK_LATER, "Call back later");
   (OTHER_CONNECTION_ERROR, "Other connection/protocol error")
  ])%string.

Definition known_description (d : Diagnostic) : option string :=
  snd <$> List.find (λ e, bool_decide (e.1 = d)) table.

Definition new (kind code : Z) : Diagnostic := Diag kind code.

Definition from_bytes (b : bytes) : option Diagnostic :=
  match b with
  | [] => None
  | [k] => Some (new k 0)
  | [k; c] => Some (new k c)
  | k :: hi :: lo :: _ => Some (new k (of_be16 hi lo))
  end.

Definition to_bytes (d : Diagnostic) : bytes := kind d :: be16 (code d).

Definition is_ok (d : Diagnostic) : bool := (kind d =? 0) && (code d =? 0).

Definition description (d : Diagnostic) : string :=
  default
    (if kind d =? 0 then "Success"%string
     else if kind d =? 1 then "Transmission error"%string
     else if kind d =? 2 then "File or transfer error"%string
     else if kind d =? 3 then "Connection or protocol error"%string
     else "Unknown diagnostic"%string)
    (known_description d).

Definition forbids_restart (d : Diagnostic) : bool :=
  existsb (Z.eqb (code d)) [214; 218; 227; 228; 229; 230; 233] && (kind d =? 2).

(** The ranges of the Rust fields. *)
Definition wf (d : Diagnostic) : Prop := byte_ok (kind d) ∧ u16_ok (code d).

#[global] Instance wf_dec d : Decision (wf d).
Proof. unfold wf, byte_ok, u16_ok. apply _. Defined.

Lemma is_ok_iff d : is_ok d = true ↔ d = OK.
Proof.
  unfold is_ok, OK. destruct d as [k c]. simpl.
  rewrite andb_true_iff, !Z.eqb_eq. naive_solver.
Qed.

Lemma from_to_bytes d : wf d → from_bytes (to_bytes d) = Some d.
Proof.
  intros [_ Hc]. unfold from_bytes, to_bytes, be16, new.
  rewrite of_be16_be16 by done. by destruct d.
Qed.

Lemma to_bytes_ok d : wf d → bytes_ok (to_bytes d).
Proof. intros [Hk _]. apply bytes_ok_cons; auto with bytes. Qed.

Lemma from_bytes_wf b d : bytes_ok b → from_bytes b = Some d → wf d.
Proof.
  unfold from_bytes, new. intros Hb Hd.
  destruct b as [|k [|c [|lo b]]]; simplify_eq; unfold wf; simpl;
    repeat (apply bytes_ok_cons in Hb as [? Hb]); unfold byte_ok, u16_ok, of_be16 in *;
    lia.
Qed.

Lemma table_wf : Forall (λ e, wf e.1) table.
Proof. by_compute. Qed.

Lemma table_nodup : NoDup table.*1.
Proof. by_compute. Qed.

End Diagnostic.

Abbreviation Diagnostic := Diagnostic.Diagnostic.
