(* ===== verification/Pi.v ===== *)
(** * Parameter identifiers and groups ([crates/pesit-core/src/pi.rs])

    The catalogue of the parameters (PI) and of the parameter groups (PGI):
    wire codes, value kinds, maximum lengths, group members. *)

From stdpp Require Import strings.
From S2P Require Import Prelude.
Open Scope Z_scope.

Inductive ValueKind : Type :=
| Text
| Number
| Symbol
| Mask
| DateTime
| Aggregate.

Module Pi.

Inductive Pi : Type :=
| Crc
| Diag
| Requester
| Server
| AccessControl
| Version
| SyncOption
| FileType
| FileName
| TransferId
| RequestedAttributes
| Restarted
| DataCode
| Priority
| RestartPoint
| EndCode
| SyncNumber
| Compression
| AccessType
| Resync
| MaxEntitySize
| Timeout
| ByteCount
| ArticleCount
| DiagComplement
| ArticleFormat
| ArticleLength
| FileOrganisation
| SignatureFlag
| SitSeal
| FileLabel
| KeyLength
| KeyOffset
| ReservationUnit
| MaxReservation
| CreationDate
| ExtractionDate
| ClientId
| BankId
| FileAccessControl
| ServerDate
| AuthType
| AuthElements
| SealType
| SealElements
| CipherType
| CipherElements
| SignatureType
| Seal
| Signature
| Accreditation
| SignatureAck
| SecondSignature
| SecondAccreditation
| Message
| FreeMessage.

Definition ALL : list Pi :=
  [Crc; Diag; Requester; Server; AccessControl; Version; SyncOption; FileType; FileName; TransferId; RequestedAttributes; Restarted; DataCode; Priority; RestartPoint; EndCode; SyncNumber; Compression; AccessType; Resync; MaxEntitySize; Timeout; ByteCount; ArticleCount; DiagComplement; ArticleFormat; ArticleLength; FileOrganisation; SignatureFlag; SitSeal; FileLabel; KeyLength; KeyOffset; ReservationUnit; MaxReservation; CreationDate; ExtractionDate; ClientId; BankId; FileAccessControl; ServerDate; AuthType; AuthElements; SealType; SealElements; CipherType; CipherElements; SignatureType; Seal; Signature; Accreditation; SignatureAck; SecondSignature; SecondAccreditation; Message; FreeMessage].

Definition code (pi : Pi) : Z :=
  match pi with
  | Crc => 1
  | Diag => 2
  | Requester => 3
  | Server => 4
  | AccessControl => 5
  | Version => 6
  | SyncOption => 7
  | FileType => 11
  | FileName => 12
  | TransferId => 13
  | RequestedAttributes => 14
  | Restarted => 15
  | DataCode => 16
  | Priority => 17
  | RestartPoint => 18
  | EndCode => 19
  | SyncNumber => 20
  | Compression => 21
  | AccessType => 22
  | Resync => 23
  | MaxEntitySize => 25
  | Timeout => 26
  | ByteCount => 27
  | ArticleCount => 28
  | DiagComplement => 29
  | ArticleFormat => 31
  | ArticleLength => 32
  | FileOrganisation => 33
  | SignatureFlag => 34
  | SitSeal => 36
  | FileLabel => 37
  | KeyLength => 38
  | KeyOffset => 39
  | ReservationUnit => 41
  | MaxReservation => 42
  | CreationDate => 51
  | ExtractionDate => 52
  | ClientId => 61
  | BankId => 62
  | FileAccessControl => 63
  | ServerDate => 64
  | AuthType => 71
  | AuthElements => 72
  | SealType => 73
  | SealElements => 74
  | CipherType => 75
  | CipherElements => 76
  | SignatureType => 77
  | Seal => 78
  | Signature => 79
  | Accreditation => 80
  | SignatureAck => 81
  | SecondSignature => 82
  | SecondAccreditation => 83
  | Message => 91
  | FreeMessage => 99
  end.

Definition from_code (code : Z) : option Pi :=
  match code with
  | 1 => Some Crc
  | 2 => Some Diag
  | 3 => Some Requester
  | 4 => Some Server
  | 5 => Some AccessControl
  | 6 => Some Version
  | 7 => Some SyncOption
  | 11 => Some FileType
  | 12 => Some FileName
  | 13 => Some TransferId
  | 14 => Some RequestedAttributes
  | 15 => Some Restarted
  | 16 => Some DataCode
  | 17 => Some Priority
  | 18 => Some RestartPoint
  | 19 => Some EndCode
  | 20 => Some SyncNumber
  | 21 => Some Compression
  | 22 => Some AccessType
  | 23 => Some Resync
  | 25 => Some MaxEntitySize
  | 26 => Some Timeout
  | 27 => Some ByteCount
  | 28 => Some ArticleCount
  | 29 => Some DiagComplement
  | 31 => Some ArticleFormat
  | 32 => Some ArticleLength
  | 33 => Some FileOrganisation
  | 34 => Some SignatureFlag
  | 36 => Some SitSeal
  | 37 => Some FileLabel
  | 38 => Some KeyLength
  | 39 => Some KeyOffset
  | 41 => Some ReservationUnit
  | 42 => Some MaxReservation
  | 51 => Some CreationDate
  | 52 => Some ExtractionDate
  | 61 => Some ClientId
  | 62 => Some BankId
  | 63 => Some FileAccessControl
  | 64 => Some ServerDate
  | 71 => Some AuthType
  | 72 => Some AuthElements
  | 73 => Some SealType
  | 74 => Some SealElements
  | 75 => Some CipherType
  | 76 => Some CipherElements
  | 77 => Some SignatureType
  | 78 => Some Seal
  | 79 => Some Signature
  | 80 => Some Accreditation
  | 81 => Some SignatureAck
  | 82 => Some SecondSignature
  | 83 => Some SecondAccreditation
  | 91 => Some Message
  | 99 => Some FreeMessage
  | _ => None
  end.

Definition kind (pi : Pi) : ValueKind :=
  match pi with
  | Crc => Symbol
  | Diag => Aggregate
  | Requester => Text
  | Server => Text
  | AccessControl => Text
  | Version => Number
  | SyncOption => Aggregate
  | FileType => Number
  | FileName => Text
  | TransferId => Number
  | RequestedAttributes => Mask
  | Restarted => Symbol
  | DataCode => Symbol
  | Priority => Symbol
  | RestartPoint => Number
  | EndCode => Symbol
  | SyncNumber => Number
  | Compression => Aggregate
  | AccessType => Symbol
  | Resync => Symbol
  | MaxEntitySize => Number
  | Timeout => Number
  | ByteCount => Number
  | ArticleCount => Number
  | DiagComplement => Aggregate
  | ArticleFormat => Mask
  | ArticleLength => Number
  | FileOrganisation => Symbol
  | SignatureFlag => Number
  | SitSeal => Number
  | FileLabel => Text
  | KeyLength => Number
  | KeyOffset => Number
  | ReservationUnit => Symbol
  | MaxReservation => Number
  | CreationDate => DateTime
  | ExtractionDate => DateTime
  | ClientId => Text
  | BankId => Text
  | FileAccessControl => Text
  | ServerDate => DateTime
  | AuthType => Aggregate
  | AuthElements => Number
  | SealType => Aggregate
  | SealElements => Number
  | CipherType => Aggregate
  | CipherElements => Number
  | SignatureType => Aggregate
  | Seal => Number
  | Signature => Number
  | Accreditation => Number
  | SignatureAck => Number
  | SecondSignature => Number
  | SecondAccreditation => Number
  | Message => Text
  | FreeMessage => Text
  end.

Definition max_len (pi : Pi) : nat :=
  (match pi with
  | Crc => 1
  | Diag => 3
  | Requester => 24
  | Server => 24
  | AccessControl => 16
  | Version => 2
  | SyncOption => 3
  | FileType => 8
  | FileName => 76
  | TransferId => 3
  | RequestedAttributes => 1
  | Restarted => 1
  | DataCode => 1
  | Priority => 1
  | RestartPoint => 3
  | EndCode => 1
  | SyncNumber => 3
  | Compression => 2
  | AccessType => 1
  | Resync => 1
  | MaxEntitySize => 2
  | Timeout => 2
  | ByteCount => 8
  | ArticleCount => 4
  | DiagComplement => 254
  | ArticleFormat => 1
  | ArticleLength => 2
  | FileOrganisation => 1
  | SignatureFlag => 2
  | SitSeal => 64
  | FileLabel => 80
  | KeyLength => 2
  | KeyOffset => 2
  | ReservationUnit => 1
  | MaxReservation => 4
  | CreationDate => 12
  | ExtractionDate => 12
  | ClientId => 24
  | BankId => 24
  | FileAccessControl => 16
  | ServerDate => 12
  | AuthType => 3
  | AuthElements => 0
  | SealType => 4
  | SealElements => 0
  | CipherType => 4
  | CipherElements => 0
  | SignatureType => 4
  | Seal => 0
  | Signature => 0
  | Accreditation => 0
  | SignatureAck => 0
  | SecondSignature => 0
  | SecondAccreditation => 0
  | Message => 4096
  | FreeMessage => 254
  end)%nat.

Definition name (pi : Pi) : string :=
  (match pi with
  | Crc => "CRC usage"
  | Diag => "Diagnostic"
  | Requester => "Requester identification"
  | Server => "Server identification"
  | AccessControl => "Access control (password)"
  | Version => "Protocol version"
  | SyncOption => "Synchronisation points option"
  | FileType => "File type"
  | FileName => "File name"
  | TransferId => "Transfer identifier"
  | RequestedAttributes => "Requested attributes"
  | Restarted => "Transfer restarted"
  | DataCode => "Data code"
  | Priority => "Transfer priority"
  | RestartPoint => "Restart point"
  | EndCode => "End of transfer code"
  | SyncNumber => "Synchronisation point number"
  | Compression => "Compression"
  | AccessType => "Access type"
  | Resync => "Resynchronisation"
  | MaxEntitySize => "Maximum data entity size"
  | Timeout => "Watchdog timer"
  | ByteCount => "Number of data bytes"
  | ArticleCount => "Number of articles"
  | DiagComplement => "Diagnostic complement"
  | ArticleFormat => "Article format"
  | ArticleLength => "Article length"
  | FileOrganisation => "File organisation"
  | SignatureFlag => "Signature taken into account"
  | SitSeal => "SIT seal"
  | FileLabel => "File label"
  | KeyLength => "Key length"
  | KeyOffset => "Key offset"
  | ReservationUnit => "Space reservation unit"
  | MaxReservation => "Maximum space reservation"
  | CreationDate => "Creation date and time"
  | ExtractionDate => "Last extraction date and time"
  | ClientId => "Client identifier"
  | BankId => "Bank identifier"
  | FileAccessControl => "File access control"
  | ServerDate => "Server date and time"
  | AuthType => "Authentication type"
  | AuthElements => "Authentication elements"
  | SealType => "Sealing type"
  | SealElements => "Sealing elements"
  | CipherType => "Encryption type"
  | CipherElements => "Encryption elements"
  | SignatureType => "Signature type"
  | Seal => "Seal"
  | Signature => "Signature"
  | Accreditation => "Accreditation"
  | SignatureAck => "Signature acknowledgement"
  | SecondSignature => "Second signature"
  | SecondAccreditation => "Second accreditation"
  | Message => "Message"
  | FreeMessage => "Free message"
  end)%string.

#[global] Instance pi_eq_dec : EqDecision Pi.
Proof. refine (numbered_eq_dec code from_code _). by intros []. Defined.

Lemma from_code_code pi : from_code (code pi) = Some pi.
Proof. by destruct pi. Qed.

Lemma code_from_code c pi : from_code c = Some pi → code pi = c.
Proof. unfold from_code. intros H. repeat case_match; by simplify_eq. Qed.

Lemma code_range pi : 1 ≤ code pi < 100.
Proof. destruct pi; vm_compute; intuition congruence. Qed.

#[global] Instance code_inj : Inj (=) (=) code.
Proof. intros x y H. apply (inj Some). by rewrite <-!from_code_code, H. Qed.

End Pi.

Abbreviation Pi := Pi.Pi.

Module Pgi.

Inductive Pgi : Type :=
| FileId
| LogicalAttributes
| PhysicalAttributes
| HistoricalAttributes.

Definition ALL : list Pgi :=
  [FileId; LogicalAttributes; PhysicalAttributes; HistoricalAttributes].

Definition from_code (code : Z) : option Pgi :=
  match code with
  | 9 => Some FileId
  | 30 => Some LogicalAttributes
  | 40 => Some PhysicalAttributes
  | 50 => Some HistoricalAttributes
  | _ => None
  end.

Definition code (pgi : Pgi) : Z :=
  match pgi with
  | FileId => 9
  | LogicalAttributes => 30
  | PhysicalAttributes => 40
  | HistoricalAttributes => 50
  end.

Definition name (pgi : Pgi) : string :=
  (match pgi with
  | FileId => "File identifier"
  | LogicalAttributes => "Logical attributes"
  | PhysicalAttributes => "Physical attributes"
  | HistoricalAttributes => "Historical attributes"
  end)%string.

(** The members of a group with their mandatory flag. *)
Definition members (pgi : Pgi) : list (Pi * bool) :=
  match pgi with
  | FileId =>
      [(Pi.Requester, false); (Pi.Server, false); (Pi.FileType, true); (Pi.FileName, true)]
  | LogicalAttributes =>
      [(Pi.ArticleFormat, false); (Pi.ArticleLength, true); (Pi.FileOrganisation, false);
       (Pi.SignatureFlag, false); (Pi.SitSeal, false); (Pi.FileLabel, false);
       (Pi.KeyLength, false); (Pi.KeyOffset, false)]
  | PhysicalAttributes => [(Pi.ReservationUnit, false); (Pi.MaxReservation, true)]
  | HistoricalAttributes => [(Pi.CreationDate, true); (Pi.ExtractionDate, false)]
  end.

Definition contains (pgi : Pgi) (pi : Pi) : bool :=
  existsb (λ m, bool_decide (m.1 = pi)) (members pgi).

Definition of_pi (pi : Pi) : option Pgi := List.find (λ g, contains g pi) ALL.

#[global] Instance pgi_eq_dec : EqDecision Pgi.
Proof. refine (numbered_eq_dec code from_code _). by intros []. Defined.

Lemma pgi_from_code_code pgi : from_code (code pgi) = Some pgi.
Proof. by destruct pgi. Qed.

Lemma pgi_code_from_code c pgi : from_code c = Some pgi → code pgi = c.
Proof. unfold from_code. intros H. repeat case_match; by simplify_eq. Qed.

(** A code names a parameter or a group, never both. *)
Lemma code_disjoint pi : from_code (Pi.code pi) = None.
Proof. by destruct pi. Qed.

Lemma pgi_code_range pgi : 1 ≤ code pgi < 100.
Proof. destruct pgi; vm_compute; intuition congruence. Qed.

(** The groups are disjoint: a member belongs to the group that [of_pi] finds. *)
Lemma of_contains pi pgi : contains pgi pi = true ↔ of_pi pi = Some pgi.
Proof. destruct pi, pgi; by vm_compute. Qed.

End Pgi.

Abbreviation Pgi := Pgi.Pgi.
