(* ===== verification/Kinds.v ===== *)
(** * FPDU kinds ([crates/pesit-core/src/fpdu.rs], first part)

    The kinds of FPDU with their phase and type bytes, the acknowledgement
    relation between them, and the parameter template of each kind. *)

From stdpp Require Import strings.
From S2P Require Import Prelude Diag Pi.
Open Scope Z_scope.

(** One entry of a parameter template. *)
Record ParamRule : Type := Rule { rule_code : Z; mandatory : bool }.

Module FpduKind.

Inductive FpduKind : Type :=
| Connect
| Aconnect
| Rconnect
| Release
| Relconf
| Abort
| Read
| Write
| Syn
| DtfEnd
| Resyn
| Idt
| TransEnd
| Create
| Select
| Deselect
| Orf
| Crf
| Msg
| MsgDm
| MsgMm
| MsgFm
| AckCreate
| AckSelect
| AckDeselect
| AckOrf
| AckCrf
| AckRead
| AckWrite
| AckTransEnd
| AckSyn
| AckResyn
| AckIdt
| AckMsg
| Dtf
| DtfMa
| DtfDa
| DtfFa.

Definition ALL : list FpduKind :=
  [Connect; Aconnect; Rconnect; Release; Relconf; Abort; Read; Write; Syn; DtfEnd; Resyn; Idt; TransEnd; Create; Select; Deselect; Orf; Crf; Msg; MsgDm; MsgMm; MsgFm; AckCreate; AckSelect; AckDeselect; AckOrf; AckCrf; AckRead; AckWrite; AckTransEnd; AckSyn; AckResyn; AckIdt; AckMsg; Dtf; DtfMa; DtfDa; DtfFa].

Definition phase (k : FpduKind) : Z :=
  match k with
  | Connect => 0x40
  | Aconnect => 0x40
  | Rconnect => 0x40
  | Release => 0x40
  | Relconf => 0x40
  | Abort => 0x40
  | Read => 0xC0
  | Write => 0xC0
  | Syn => 0xC0
  | DtfEnd => 0xC0
  | Resyn => 0xC0
  | Idt => 0xC0
  | TransEnd => 0xC0
  | Create => 0xC0
  | Select => 0xC0
  | Deselect => 0xC0
  | Orf => 0xC0
  | Crf => 0xC0
  | Msg => 0xC0
  | MsgDm => 0xC0
  | MsgMm => 0xC0
  | MsgFm => 0xC0
  | AckCreate => 0xC0
  | AckSelect => 0xC0
  | AckDeselect => 0xC0
  | AckOrf => 0xC0
  | AckCrf => 0xC0
  | AckRead => 0xC0
  | AckWrite => 0xC0
  | AckTransEnd => 0xC0
  | AckSyn => 0xC0
  | AckResyn => 0xC0
  | AckIdt => 0xC0
  | AckMsg => 0xC0
  | Dtf => 0x00
  | DtfMa => 0x00
  | DtfDa => 0x00
  | DtfFa => 0x00
  end.

Definition type_code (k : FpduKind) : Z :=
  match k with
  | Connect => 0x20
  | Aconnect => 0x21
  | Rconnect => 0x22
  | Release => 0x23
  | Relconf => 0x24
  | Abort => 0x25
  | Read => 0x01
  | Write => 0x02
  | Syn => 0x03
  | DtfEnd => 0x04
  | Resyn => 0x05
  | Idt => 0x06
  | TransEnd => 0x08
  | Create => 0x11
  | Select => 0x12
  | Deselect => 0x13
  | Orf => 0x14
  | Crf => 0x15
  | Msg => 0x16
  | MsgDm => 0x17
  | MsgMm => 0x18
  | MsgFm => 0x19
  | AckCreate => 0x30
  | AckSelect => 0x31
  | AckDeselect => 0x32
  | AckOrf => 0x33
  | AckCrf => 0x34
  | AckRead => 0x35
  | AckWrite => 0x36
  | AckTransEnd => 0x37
  | AckSyn => 0x38
  | AckResyn => 0x39
  | AckIdt => 0x3A
  | AckMsg => 0x3B
  | Dtf => 0x00
  | DtfMa => 0x40
  | DtfDa => 0x41
  | DtfFa => 0x42
  end.

Definition name (k : FpduKind) : string :=
  (match k with
  | Connect => "FPDU.CONNECT"
  | Aconnect => "FPDU.ACONNECT"
  | Rconnect => "FPDU.RCONNECT"
  | Release => "FPDU.RELEASE"
  | Relconf => "FPDU.RELCONF"
  | Abort => "FPDU.ABORT"
  | Read => "FPDU.READ"
  | Write => "FPDU.WRITE"
  | Syn => "FPDU.SYN"
  | DtfEnd => "FPDU.DTF.END"
  | Resyn => "FPDU.RESYN"
  | Idt => "FPDU.IDT"
  | TransEnd => "FPDU.TRANS.END"
  | Create => "FPDU.CREATE"
  | Select => "FPDU.SELECT"
  | Deselect => "FPDU.DESELECT"
  | Orf => "FPDU.ORF"
  | Crf => "FPDU.CRF"
  | Msg => "FPDU.MSG"
  | MsgDm => "FPDU.MSGDM"
  | MsgMm => "FPDU.MSGMM"
  | MsgFm => "FPDU.MSGFM"
  | AckCreate => "FPDU.ACK(CREATE)"
  | AckSelect => "FPDU.ACK(SELECT)"
  | AckDeselect => "FPDU.ACK(DESELECT)"
  | AckOrf => "FPDU.ACK(ORF)"
  | AckCrf => "FPDU.ACK(CRF)"
  | AckRead => "FPDU.ACK(READ)"
  | AckWrite => "FPDU.ACK(WRITE)"
  | AckTransEnd => "FPDU.ACK(TRANS.END)"
  | AckSyn => "FPDU.ACK(SYN)"
  | AckResyn => "FPDU.ACK(RESYN)"
  | AckIdt => "FPDU.ACK(IDT)"
  | AckMsg => "FPDU.ACK(MSG)"
  | Dtf => "FPDU.DTF"
  | DtfMa => "FPDU.DTFMA"
  | DtfDa => "FPDU.DTFDA"
  | DtfFa => "FPDU.DTFFA"
  end)%string.

Definition from_codes (phase type_code : Z) : option FpduKind :=
  match phase, type_code with
  | 0x40, 0x20 => Some Connect
  | 0x40, 0x21 => Some Aconnect
  | 0x40, 0x22 => Some Rconnect
  | 0x40, 0x23 => Some Release
  | 0x40, 0x24 => Some Relconf
  | 0x40, 0x25 => Some Abort
  | 0xC0, 0x01 => Some Read
  | 0xC0, 0x02 => Some Write
  | 0xC0, 0x03 => Some Syn
  | 0xC0, 0x04 => Some DtfEnd
  | 0xC0, 0x05 => Some Resyn
  | 0xC0, 0x06 => Some Idt
  | 0xC0, 0x08 => Some TransEnd
  | 0xC0, 0x11 => Some Create
  | 0xC0, 0x12 => Some Select
  | 0xC0, 0x13 => Some Deselect
  | 0xC0, 0x14 => Some Orf
  | 0xC0, 0x15 => Some Crf
  | 0xC0, 0x16 => Some Msg
  | 0xC0, 0x17 => Some MsgDm
  | 0xC0, 0x18 => Some MsgMm
  | 0xC0, 0x19 => Some MsgFm
  | 0xC0, 0x30 => Some AckCreate
  | 0xC0, 0x31 => Some AckSelect
  | 0xC0, 0x32 => Some AckDeselect
  | 0xC0, 0x33 => Some AckOrf
  | 0xC0, 0x34 => Some AckCrf
  | 0xC0, 0x35 => Some AckRead
  | 0xC0, 0x36 => Some AckWrite
  | 0xC0, 0x37 => Some AckTransEnd
  | 0xC0, 0x38 => Some AckSyn
  | 0xC0, 0x39 => Some AckResyn
  | 0xC0, 0x3A => Some AckIdt
  | 0xC0, 0x3B => Some AckMsg
  | 0x00, 0x00 => Some Dtf
  | 0x00, 0x40 => Some DtfMa
  | 0x00, 0x41 => Some DtfDa
  | 0x00, 0x42 => Some DtfFa
  | _, _ => None
  end.

(** *** Parameter templates *)

Definition m (code : Z) : ParamRule := Rule code true.
Definition o (code : Z) : ParamRule := Rule code false.

Definition T_CONNECT : list ParamRule :=
  [o 1; m 3; m 4; o 5; m 6; o 7; m 22; o 23; o 26; o 99].

Definition T_ACONNECT : list ParamRule :=
  [o 5; m 6; o 7; o 23; o 99].

Definition T_DIAG_ONLY : list ParamRule :=
  [m 2; o 29].

Definition T_DIAG_MSG : list ParamRule :=
  [m 2; o 29; o 99].

Definition T_RELCONF : list ParamRule :=
  [o 99].

Definition T_CREATE : list ParamRule :=
  [m 9; m 13; o 15; o 16; m 17; m 25; m 30; m 40; o 50; o 61; o 62; o 63; o 71; o 72; o 73; o 75; o 77; o 80; o 99].

Definition T_ACK_CREATE : list ParamRule :=
  [m 2; o 13; o 25; o 29; o 64; o 72; o 80; o 83; o 99].

Definition T_SELECT : list ParamRule :=
  [m 9; m 13; o 14; o 15; m 17; m 25; o 61; o 62; o 63; o 71; o 72; o 73; o 75; o 77; o 80; o 99].

Definition T_ACK_SELECT : list ParamRule :=
  [m 2; o 9; o 13; o 16; o 25; o 29; o 30; o 40; o 50; o 61; o 62; o 64; o 72; o 80; o 83; o 99].

Definition T_ORF : list ParamRule :=
  [o 21; o 72; o 74; o 76; o 80; o 83].

Definition T_ACK_ORF : list ParamRule :=
  [m 2; o 21; o 29; o 74; o 76].

Definition T_READ : list ParamRule :=
  [m 18].

Definition T_ACK_WRITE : list ParamRule :=
  [m 2; m 18; o 29].

Definition T_DTF_END : list ParamRule :=
  [m 2; o 29; o 78; o 79; o 82].

Definition T_SYN : list ParamRule :=
  [m 20; o 78].

Definition T_ACK_SYN : list ParamRule :=
  [m 20].

Definition T_RESYN : list ParamRule :=
  [m 2; m 18; o 29].

Definition T_ACK_RESYN : list ParamRule :=
  [m 18].

Definition T_IDT : list ParamRule :=
  [m 2; o 19; o 29].

Definition T_TRANS_END : list ParamRule :=
  [o 27; o 28; o 81].

Definition T_ACK_TRANS_END : list ParamRule :=
  [m 2; o 27; o 28; o 29; o 81].

Definition T_MSG : list ParamRule :=
  [m 9; m 13; o 14; o 16; m 17; o 30; o 40; o 50; o 61; o 62; o 73; o 74; o 77; o 78; o 79; o 80; o 81; o 91].

Definition T_MSG_SEGMENT : list ParamRule :=
  [o 91].

Definition T_ACK_MSG : list ParamRule :=
  [m 2; o 13; o 16; o 29; o 79; o 80; o 81; o 91].

Definition T_NONE : list ParamRule :=
  [].

Definition template (k : FpduKind) : list ParamRule :=
  match k with
  | Connect => T_CONNECT
  | Aconnect => T_ACONNECT
  | Rconnect | Release | Deselect | AckDeselect => T_DIAG_MSG
  | Relconf => T_RELCONF
  | Abort | Crf | AckCrf | AckRead => T_DIAG_ONLY
  | Create => T_CREATE
  | AckCreate => T_ACK_CREATE
  | Select => T_SELECT
  | AckSelect => T_ACK_SELECT
  | Orf => T_ORF
  | AckOrf => T_ACK_ORF
  | Read => T_READ
  | Write | AckIdt | Dtf | DtfDa | DtfMa | DtfFa => T_NONE
  | AckWrite => T_ACK_WRITE
  | DtfEnd => T_DTF_END
  | Syn => T_SYN
  | AckSyn => T_ACK_SYN
  | Resyn => T_RESYN
  | AckResyn => T_ACK_RESYN
  | Idt => T_IDT
  | TransEnd => T_TRANS_END
  | AckTransEnd => T_ACK_TRANS_END
  | Msg | MsgDm => T_MSG
  | MsgMm | MsgFm => T_MSG_SEGMENT
  | AckMsg => T_ACK_MSG
  end.

Definition is_data (k : FpduKind) : bool :=
  match k with Dtf | DtfDa | DtfMa | DtfFa => true | _ => false end.

Definition ack (k : FpduKind) : option FpduKind :=
  match k with
  | Connect => Some Aconnect
  | Release => Some Relconf
  | Create => Some AckCreate
  | Select => Some AckSelect
  | Deselect => Some AckDeselect
  | Orf => Some AckOrf
  | Crf => Some AckCrf
  | Read => Some AckRead
  | Write => Some AckWrite
  | TransEnd => Some AckTransEnd
  | Syn => Some AckSyn
  | Resyn => Some AckResyn
  | Idt => Some AckIdt
  | Msg | MsgFm => Some AckMsg
  | _ => None
  end.

Definition is_ack (k : FpduKind) : bool :=
  match k with
  | Aconnect | Rconnect | Relconf | AckCreate | AckSelect | AckDeselect | AckOrf | AckCrf
  | AckRead | AckWrite | AckTransEnd | AckSyn | AckResyn | AckIdt | AckMsg => true
  | _ => false
  end.

Definition concatenable (k : FpduKind) : bool :=
  match k with Dtf | DtfDa | DtfMa | DtfFa | DtfEnd | Syn => true | _ => false end.

Lemma from_codes_codes k : from_codes (phase k) (type_code k) = Some k.
Proof. by destruct k. Qed.

Lemma codes_from_codes p c k : from_codes p c = Some k → phase k = p ∧ type_code k = c.
Proof. unfold from_codes. intros H. repeat case_match; by simplify_eq. Qed.

#[global] Instance kind_eq_dec : EqDecision FpduKind.
Proof.
  refine (numbered_eq_dec (λ k, (phase k, type_code k)) (λ pc, from_codes pc.1 pc.2) _).
  by intros [].
Defined.

Lemma codes_byte_ok k : byte_ok (phase k) ∧ byte_ok (type_code k).
Proof. destruct k; vm_compute; intuition congruence. Qed.

End FpduKind.

Abbreviation FpduKind := FpduKind.FpduKind.
