(* ===== verification/Crc.v ===== *)
(** * The error-control checksum ([crates/pesit-core/src/crc.rs])

    The ISO 8073 Fletcher checksum modulo 255 and its two check bytes, with
    the Connect:Express formulation of the same sum that the crate's test
    uses as reference. *)

From S2P Require Import Prelude.
Open Scope Z_scope.

Module Crc.

Definition CRC_LEN : nat := 2.

(** The loop body of [sums]: both accumulators are [u32] below 255. *)
Definition sum_step (s : Z * Z) (b : Z) : Z * Z :=
  let s1 := (s.1 + b) mod 255 in (s1, (s.2 + s1) mod 255).

Definition sums (l : bytes) : Z * Z := foldl sum_step (0, 0) l.

Definition compute (fpdu : bytes) : bytes :=
  let '(s1, s2) := sums (fpdu ++ [0; 0]) in
  let x := (s1 + 255 - s2) mod 255 in
  let y := (s2 + 2 * (255 - s1)) mod 255 in
  [u8 x; u8 y].

Definition verify (fpdu_with_crc : bytes) : bool :=
  if (length fpdu_with_crc <? CRC_LEN)%nat then false
  else let '(s1, s2) := sums fpdu_with_crc in (s1 =? 0) && (s2 =? 0).

Definition append (fpdu : bytes) : bytes := fpdu ++ compute fpdu.

(** The Connect:Express algorithm: [u16] accumulators reduced by conditional
    subtraction, wrapping [u8] subtraction in the results. *)
Definition cx_step (s : Z * Z) (b : Z) : Z * Z :=
  let s1 := s.1 + b in
  let s1 := if 0xFE <? s1 then s1 - 0xFF else s1 in
  let s2 := s.2 + s1 in
  let s2 := if 0xFE <? s2 then s2 - 0xFF else s2 in
  (s1, s2).

Definition cx (msg : bytes) : bytes :=
  let '(s1, s2) := foldl cx_step (0, 0) (msg ++ [0; 0]) in
  let s1 := s1 mod 255 in
  let s2 := s2 mod 255 in
  let c0 := if s2 <=? s1 then u8 (s1 - s2) else u8 (u8 (u16 (s1 - s2)) - 1) in
  let s1b := (2 * s1) mod 255 in
  let c1 := if s1b <=? s2 then u8 (s2 - s1b) else u8 (u8 (u16 (s2 - s1b)) - 1) in
  [c0; c1].

(** ** The sums without reduction *)

Definition raw_step (s : Z * Z) (b : Z) : Z * Z := (s.1 + b, s.2 + (s.1 + b)).
Definition raw (s : Z * Z) (l : bytes) : Z * Z := foldl raw_step s l.
Definition mod255 (s : Z * Z) : Z * Z := (s.1 mod 255, s.2 mod 255).

Lemma sum_step_mod s b : sum_step (mod255 s) b = mod255 (raw_step s b).
Proof. unfold sum_step, raw_step, mod255. simpl. f_equal; lia_dm. Qed.

Lemma sums_raw_from s l : foldl sum_step (mod255 s) l = mod255 (raw s l).
Proof.
  revert s. induction l as [|b l IH]; intros s; [done|]. simpl.
  by rewrite sum_step_mod, IH.
Qed.

Lemma sums_raw l : sums l = mod255 (raw (0, 0) l).
Proof. apply (sums_raw_from (0, 0)). Qed.

Lemma raw_app s l k : raw s (l ++ k) = raw (raw s l) k.
Proof. apply foldl_app. Qed.

(** The tail adds a linear function of the state it starts from. *)
Lemma raw_linear s l :
  (raw s l).1 = s.1 + (raw (0, 0) l).1 ∧
  (raw s l).2 = s.2 + Z.of_nat (length l) * s.1 + (raw (0, 0) l).2.
Proof.
  revert s. induction l as [|b l IH]; intros s; cbn -[Z.of_nat].
  { split; lia. }
  rewrite !(proj1 (IH (raw_step _ _))), !(proj2 (IH (raw_step _ _))).
  unfold raw_step. simpl. split; lia.
Qed.

Lemma verify_raw l :
  (2 ≤ length l)%nat →
  verify l = (((raw (0, 0) l).1 mod 255 =? 0) && ((raw (0, 0) l).2 mod 255 =? 0)).
Proof.
  intros Hl. unfold verify, CRC_LEN.
  destruct (Nat.ltb_spec (length l) 2); [lia|]. by rewrite sums_raw.
Qed.

Lemma compute_length l : length (compute l) = CRC_LEN.
Proof. unfold compute. by destruct (sums _). Qed.

Lemma compute_bytes_ok l : bytes_ok (compute l).
Proof.
  unfold compute, bytes_ok, byte_ok, u8. destruct (sums _).
  repeat constructor; lia_dm.
Qed.

Lemma compute_raw l :
  compute l = [(- ((raw (0, 0) l).1 + (raw (0, 0) l).2)) mod 255; (raw (0, 0) l).2 mod 255].
Proof.
  unfold compute. rewrite sums_raw, raw_app.
  destruct (raw (0, 0) l) as [a b]. cbn. unfold u8. f_equal; [|f_equal]; lia_dm.
Qed.

Lemma length_append l : length (append l) = (length l + CRC_LEN)%nat.
Proof. unfold append. by rewrite length_app, compute_length. Qed.

(** A message followed by its check bytes verifies. *)
Lemma verify_append_ok l : verify (append l) = true.
Proof.
  rewrite verify_raw by (rewrite length_append; unfold CRC_LEN; lia).
  unfold append. rewrite raw_app, compute_raw.
  destruct (raw (0, 0) l) as [a b]. cbn.
  apply andb_true_intro; split; apply Z.eqb_eq; lia_dm.
Qed.

(** What replacing the bytes at one place of a message changes. *)
Lemma raw_replace p m m' s :
  length m = length m' →
  (raw (0, 0) (p ++ m' ++ s)).1 - (raw (0, 0) (p ++ m ++ s)).1
    = (raw (0, 0) m').1 - (raw (0, 0) m).1 ∧
  (raw (0, 0) (p ++ m' ++ s)).2 - (raw (0, 0) (p ++ m ++ s)).2
    = Z.of_nat (length s) * ((raw (0, 0) m').1 - (raw (0, 0) m).1)
      + ((raw (0, 0) m').2 - (raw (0, 0) m).2).
Proof.
  intros Hl. rewrite !raw_app. generalize (raw (0, 0) p) as q. intros q.
  rewrite !(proj1 (raw_linear (raw q _) s)), !(proj2 (raw_linear (raw q _) s)).
  rewrite !(proj1 (raw_linear q _)), !(proj2 (raw_linear q _)), Hl. split; lia.
Qed.

Lemma verify_replace_differs p m m' s :
  length m = length m' → (2 ≤ length (p ++ m ++ s))%nat →
  verify (p ++ m ++ s) = true →
  ((raw (0, 0) m').1 - (raw (0, 0) m).1) mod 255 ≠ 0
    ∨ ((raw (0, 0) m').1 = (raw (0, 0) m).1
       ∧ ((raw (0, 0) m').2 - (raw (0, 0) m).2) mod 255 ≠ 0) →
  verify (p ++ m' ++ s) = false.
Proof.
  intros Hl Hlen Hv Hd.
  rewrite verify_raw in Hv by done.
  rewrite verify_raw by (revert Hlen; rewrite !length_app, Hl; done).
  pose proof (raw_replace p m m' s Hl) as [H1 H2].
  apply andb_prop in Hv as [Hv1%Z.eqb_eq Hv2%Z.eqb_eq].
  apply andb_false_iff. destruct Hd as [Hd|[He Hd]].
  - left. apply Z.eqb_neq. lia_dm.
  - right. apply Z.eqb_neq. rewrite He, Z.sub_diag, Z.mul_0_r in H2. lia_dm.
Qed.

Lemma verify_replace_same p m m' s :
  length m = length m' → (2 ≤ length (p ++ m ++ s))%nat →
  (raw (0, 0) m').1 mod 255 = (raw (0, 0) m).1 mod 255 →
  (raw (0, 0) m').2 mod 255 = (raw (0, 0) m).2 mod 255 →
  verify (p ++ m' ++ s) = verify (p ++ m ++ s).
Proof.
  intros Hl Hlen E1 E2.
  rewrite !verify_raw by (revert Hlen; rewrite !length_app, Hl; done).
  pose proof (raw_replace p m m' s Hl) as [H1 H2].
  assert (((raw (0, 0) m').1 - (raw (0, 0) m).1) mod 255 = 0) as D1 by lia_dm.
  assert (((raw (0, 0) m').2 - (raw (0, 0) m).2) mod 255 = 0) as D2 by lia_dm.
  apply Z.mod_divide in D1 as [k1 D1]; [|lia].
  apply Z.mod_divide in D2 as [k2 D2]; [|lia].
  rewrite D1 in H1, H2. rewrite D2 in H2.
  replace ((raw (0, 0) (p ++ m' ++ s)).1)
    with ((raw (0, 0) (p ++ m ++ s)).1 + k1 * 255) by lia.
  replace ((raw (0, 0) (p ++ m' ++ s)).2)
    with ((raw (0, 0) (p ++ m ++ s)).2 + (Z.of_nat (length s) * k1 + k2) * 255) by lia.
  by rewrite !Z.mod_add by lia.
Qed.

(** ** The Connect:Express formulation *)

Lemma cx_step_mod s b :
  byte_ok b → 0 ≤ s.1 < 255 → 0 ≤ s.2 < 255 → cx_step s b = sum_step s b.
Proof.
  unfold byte_ok, cx_step, sum_step. destruct s as [a c]. simpl. intros Hb Ha Hc.
  destruct (Z.ltb_spec 254 (a + b)) as [H1|H1].
  - replace ((a + b) mod 255) with (a + b - 255) by lia_dm.
    destruct (Z.ltb_spec 254 (c + (a + b - 255))); f_equal; lia_dm.
  - rewrite (Z.mod_small (a + b)) by lia.
    destruct (Z.ltb_spec 254 (c + (a + b))); f_equal; lia_dm.
Qed.

Lemma sum_step_range s b : 0 ≤ (sum_step s b).1 < 255 ∧ 0 ≤ (sum_step s b).2 < 255.
Proof. unfold sum_step. simpl. split; apply Z.mod_pos_bound; lia. Qed.

Lemma cx_sums s l :
  bytes_ok l → 0 ≤ s.1 < 255 → 0 ≤ s.2 < 255 → foldl cx_step s l = foldl sum_step s l.
Proof.
  intros Hl. revert s. induction Hl as [|b l Hb Hl IH]; intros s H1 H2; [done|]. simpl.
  rewrite cx_step_mod by done. apply IH; apply sum_step_range.
Qed.

Lemma sums_range l : 0 ≤ (sums l).1 < 255 ∧ 0 ≤ (sums l).2 < 255.
Proof. rewrite sums_raw. unfold mod255. simpl. split; apply Z.mod_pos_bound; lia. Qed.

(** ** Properties *)

(** A message followed by the two check bytes that [append] computes is
    accepted by [verify], whatever the message. *)
Theorem crc_roundtrip l : verify (append l) = true.
Proof. apply verify_append_ok. Qed.

(** Error detection. In an accepted message, changing one byte to a value
    that differs modulo 255, or exchanging two adjacent bytes that differ
    modulo 255, is always detected; the one pair of values that the sum
    cannot tell apart is 0x00 and 0xFF. *)
Theorem crc_detects p s a b :
  (2 ≤ length p + length s)%nat →
  ((a - b) mod 255 ≠ 0 →
     (verify (p ++ [a] ++ s) = true → verify (p ++ [b] ++ s) = false)
     ∧ (verify (p ++ [a; b] ++ s) = true → verify (p ++ [b; a] ++ s) = false))
  ∧ verify (p ++ [0x00] ++ s) = verify (p ++ [0xFF] ++ s).
Proof.
  intros Hl. split; [intros Hne; split; intros Hv|].
  - refine (verify_replace_differs p [a] [b] s eq_refl _ Hv _); [rewrite !length_app; simpl; lia|].
    left. cbn. lia_dm.
  - refine (verify_replace_differs p [a; b] [b; a] s eq_refl _ Hv _); [rewrite !length_app; simpl; lia|].
    right. cbn. split; lia_dm.
  - refine (verify_replace_same p [255] [0] s eq_refl _ _ _); [rewrite !length_app; simpl; lia|done..].
Qed.

Example crc_detects_witness :
  (2 ≤ length [0; 6]%Z + length (compute [0; 6; 7]%Z))%nat
  ∧ verify ([0; 6] ++ [0x00] ++ compute [0; 6; 7])
    = verify ([0; 6] ++ [0xFF] ++ compute [0; 6; 7]).
Proof.
  split; [vm_compute; lia|].
  apply (proj2 (crc_detects [0; 6] (compute [0; 6; 7]) 7 8 ltac:(vm_compute; lia))).
Defined.

(** The check bytes are those of the Connect:Express algorithm on every
    byte string. *)
Theorem crc_matches_connect_express l : bytes_ok l → compute l = cx l.
Proof.
  intros Hl. unfold compute, cx.
  assert (bytes_ok (l ++ [0; 0])) as Hl0
    by (apply bytes_ok_app; split; [done|by_compute]).
  rewrite cx_sums by (simpl; lia || done).
  fold (sums (l ++ [0; 0])). pose proof (sums_range (l ++ [0; 0])) as [H1 H2].
  destruct (sums (l ++ [0; 0])) as [s1 s2]. simpl in H1, H2.
  rewrite (Z.mod_small s1), (Z.mod_small s2) by lia.
  unfold u8, u16. f_equal; [|f_equal].
  - destruct (Z.leb_spec s2 s1); lia_dm.
  - destruct (Z.leb_spec ((2 * s1) mod 255) s2); lia_dm.
Qed.

Example crc_matches_connect_express_witness :
  bytes_ok [0x00; 0x06; 0xC0; 0x02; 0x05; 0x00]
  ∧ compute [0x00; 0x06; 0xC0; 0x02; 0x05; 0x00] = cx [0x00; 0x06; 0xC0; 0x02; 0x05; 0x00].
Proof.
  assert (bytes_ok [0x00; 0x06; 0xC0; 0x02; 0x05; 0x00]) as H
    by by_compute.
  split; [exact H|exact (crc_matches_connect_express _ H)].
Defined.

End Crc.
