(* ===== verification/Ebcdic.v ===== *)
(** * EBCDIC and the pre-connection messages ([crates/pesit-core/src/ebcdic.rs])

    The code page 037 tables, the inverse table computed from the first one,
    the translations, and the 24-byte pre-connection message with its parser. *)

From S2P Require Import Prelude.
Open Scope Z_scope.

Module Ebcdic.

Definition EBCDIC_TO_LATIN1 : bytes :=
  [0x00; 0x01; 0x02; 0x03; 0x9C; 0x09; 0x86; 0x7F; 0x97; 0x8D; 0x8E; 0x0B; 0x0C; 0x0D; 0x0E; 0x0F;
   0x10; 0x11; 0x12; 0x13; 0x9D; 0x85; 0x08; 0x87; 0x18; 0x19; 0x92; 0x8F; 0x1C; 0x1D; 0x1E; 0x1F;
   0x80; 0x81; 0x82; 0x83; 0x84; 0x0A; 0x17; 0x1B; 0x88; 0x89; 0x8A; 0x8B; 0x8C; 0x05; 0x06; 0x07;
   0x90; 0x91; 0x16; 0x93; 0x94; 0x95; 0x96; 0x04; 0x98; 0x99; 0x9A; 0x9B; 0x14; 0x15; 0x9E; 0x1A;
   0x20; 0xA0; 0xE2; 0xE4; 0xE0; 0xE1; 0xE3; 0xE5; 0xE7; 0xF1; 0xA2; 0x2E; 0x3C; 0x28; 0x2B; 0x7C;
   0x26; 0xE9; 0xEA; 0xEB; 0xE8; 0xED; 0xEE; 0xEF; 0xEC; 0xDF; 0x21; 0x24; 0x2A; 0x29; 0x3B; 0xAC;
   0x2D; 0x2F; 0xC2; 0xC4; 0xC0; 0xC1; 0xC3; 0xC5; 0xC7; 0xD1; 0xA6; 0x2C; 0x25; 0x5F; 0x3E; 0x3F;
   0xF8; 0xC9; 0xCA; 0xCB; 0xC8; 0xCD; 0xCE; 0xCF; 0xCC; 0x60; 0x3A; 0x23; 0x40; 0x27; 0x3D; 0x22;
   0xD8; 0x61; 0x62; 0x63; 0x64; 0x65; 0x66; 0x67; 0x68; 0x69; 0xAB; 0xBB; 0xF0; 0xFD; 0xFE; 0xB1;
   0xB0; 0x6A; 0x6B; 0x6C; 0x6D; 0x6E; 0x6F; 0x70; 0x71; 0x72; 0xAA; 0xBA; 0xE6; 0xB8; 0xC6; 0xA4;
   0xB5; 0x7E; 0x73; 0x74; 0x75; 0x76; 0x77; 0x78; 0x79; 0x7A; 0xA1; 0xBF; 0xD0; 0xDD; 0xDE; 0xAE;
   0x5E; 0xA3; 0xA5; 0xB7; 0xA9; 0xA7; 0xB6; 0xBC; 0xBD; 0xBE; 0x5B; 0x5D; 0xAF; 0xA8; 0xB4; 0xD7;
   0x7B; 0x41; 0x42; 0x43; 0x44; 0x45; 0x46; 0x47; 0x48; 0x49; 0xAD; 0xF4; 0xF6; 0xF2; 0xF3; 0xF5;
   0x7D; 0x4A; 0x4B; 0x4C; 0x4D; 0x4E; 0x4F; 0x50; 0x51; 0x52; 0xB9; 0xFB; 0xFC; 0xF9; 0xFA; 0xFF;
   0x5C; 0xF7; 0x53; 0x54; 0x55; 0x56; 0x57; 0x58; 0x59; 0x5A; 0xB2; 0xD4; 0xD6; 0xD2; 0xD3; 0xD5;
   0x30; 0x31; 0x32; 0x33; 0x34; 0x35; 0x36; 0x37; 0x38; 0x39; 0xB3; 0xDB; 0xDC; 0xD9; 0xDA; 0x9F].

(** [invert]: the [while] loop over [i], [out[table[i]] = i]. *)
Fixpoint invert_loop (table : bytes) (fuel i : nat) (out : bytes) : bytes :=
  match fuel with
  | O => out
  | S fuel =>
      invert_loop table fuel (S i) (<[Z.to_nat (nth i table 0) := u8 (Z.of_nat i)]> out)
  end.
Definition invert (table : bytes) : bytes := invert_loop table 256 0 (replicate 256 0).

Definition LATIN1_TO_EBCDIC : bytes := Eval vm_compute in invert EBCDIC_TO_LATIN1.

(** [TABLE[b as usize]] for a byte [b]. *)
Definition translate (table : bytes) (b : Z) : Z := nth (Z.to_nat b) table 0.

Definition to_latin1 (buf : bytes) : bytes := map (translate EBCDIC_TO_LATIN1) buf.
Definition to_ebcdic (buf : bytes) : bytes := map (translate LATIN1_TO_EBCDIC) buf.

Definition PRECONNECT_LEN : nat := 24.
Definition PRECONNECT_MAGIC : bytes := [0xD7; 0xC5; 0xE2; 0xC9; 0xE3; 0x40; 0x40; 0x40].
Definition PRECONNECT_ACK : bytes := [0xC1; 0xC3; 0xD2; 0xF0].
Definition PRECONNECT_NAK : bytes := [0xD5; 0xC1; 0xD2; 0xF0].

(** [str::bytes]: the UTF-8 encoding of a character. *)
Definition utf8_char (c : Z) : bytes :=
  if c <? 0x80 then [c]
  else if c <? 0x800 then [0xC0 + c / 64; 0x80 + c mod 64]
  else if c <? 0x10000 then [0xE0 + c / 4096; 0x80 + (c / 64) mod 64; 0x80 + c mod 64]
  else [0xF0 + c / 262144; 0x80 + (c / 4096) mod 64; 0x80 + (c / 64) mod 64; 0x80 + c mod 64].
Definition utf8 (s : ustring) : bytes := concat (map utf8_char s).

(** The blank-padded 8-byte field written by the two [zip] loops. *)
Definition preconnect_field (s : ustring) : bytes :=
  let t := map (translate LATIN1_TO_EBCDIC) (take 8 (utf8 s)) in
  t ++ replicate (8 - length t) 0x40.

Definition preconnect_message (identifier password : ustring) : bytes :=
  PRECONNECT_MAGIC ++ preconnect_field identifier ++ preconnect_field password.

Definition is_preconnect (data : bytes) : bool :=
  (5 <=? length data)%nat && bool_decide (take 5 data = take 5 PRECONNECT_MAGIC).

Definition parse_field (data : bytes) (lo hi : nat) : ustring :=
  trim_end (map (translate EBCDIC_TO_LATIN1) (take (hi - lo) (drop lo data))).

Definition parse_preconnect (data : bytes) : option (ustring * ustring) :=
  if negb (is_preconnect data) || (length data <? PRECONNECT_LEN)%nat then None
  else Some (parse_field data 8 16, parse_field data 16 24).

(** ** The tables *)

Lemma latin1_to_ebcdic_invert : LATIN1_TO_EBCDIC = invert EBCDIC_TO_LATIN1.
Proof. vm_compute. reflexivity. Qed.

Lemma tables_length :
  length EBCDIC_TO_LATIN1 = 256%nat ∧ length LATIN1_TO_EBCDIC = 256%nat.
Proof. by vm_compute. Qed.

(** A property of every byte, by evaluation on the 256 of them. *)
Lemma all_bytes (P : Z → bool) :
  forallb (λ i, P (Z.of_nat i)) (seq 0 256) = true → ∀ b, byte_ok b → P b = true.
Proof.
  intros H b [Hb1 Hb2]. rewrite forallb_forall in H.
  rewrite <-(Z2Nat.id b) by done. apply H. apply in_seq. lia.
Qed.

Lemma translate_ok_table table b :
  forallb (λ x, (0 <=? x) && (x <? 256)) table = true → byte_ok (translate table b).
Proof.
  intros H. unfold translate. rewrite forallb_forall in H.
  destruct (decide (Z.to_nat b < length table)%nat) as [Hl|Hl].
  - specialize (H _ (nth_In table 0 Hl)). unfold byte_ok. lia.
  - rewrite nth_overflow by lia. by unfold byte_ok.
Qed.

Lemma to_latin1_bytes_ok l : bytes_ok (to_latin1 l).
Proof.
  apply Forall_forall. intros x [b [-> _]]%list_elem_of_fmap.
  by apply translate_ok_table; vm_compute.
Qed.

Lemma to_ebcdic_bytes_ok l : bytes_ok (to_ebcdic l).
Proof.
  apply Forall_forall. intros x [b [-> _]]%list_elem_of_fmap.
  by apply translate_ok_table; vm_compute.
Qed.
#[global] Hint Resolve to_latin1_bytes_ok to_ebcdic_bytes_ok : bytes.

Lemma latin1_of_ebcdic b :
  byte_ok b → translate EBCDIC_TO_LATIN1 (translate LATIN1_TO_EBCDIC b) = b.
Proof.
  intros Hb. apply Z.eqb_eq.
  exact (all_bytes (λ b, translate EBCDIC_TO_LATIN1 (translate LATIN1_TO_EBCDIC b) =? b)
           ltac:(by vm_compute) b Hb).
Qed.

Lemma ebcdic_of_latin1 b :
  byte_ok b → translate LATIN1_TO_EBCDIC (translate EBCDIC_TO_LATIN1 b) = b.
Proof.
  intros Hb. apply Z.eqb_eq.
  exact (all_bytes (λ b, translate LATIN1_TO_EBCDIC (translate EBCDIC_TO_LATIN1 b) =? b)
           ltac:(by vm_compute) b Hb).
Qed.

Lemma to_latin1_to_ebcdic l : bytes_ok l → to_latin1 (to_ebcdic l) = l.
Proof.
  unfold to_latin1, to_ebcdic. induction 1 as [|b l Hb Hl IH]; simpl; [done|].
  by rewrite latin1_of_ebcdic, IH.
Qed.

Lemma to_ebcdic_to_latin1 l : bytes_ok l → to_ebcdic (to_latin1 l) = l.
Proof.
  unfold to_latin1, to_ebcdic. induction 1 as [|b l Hb Hl IH]; simpl; [done|].
  by rewrite ebcdic_of_latin1, IH.
Qed.

(** ** The pre-connection message *)

Definition ascii (s : ustring) : Prop := Forall (λ c, 0 ≤ c < 128) s.

Lemma utf8_ascii s : ascii s → utf8 s = s.
Proof.
  unfold utf8. induction 1 as [|c s Hc Hs IH]; simpl; [done|].
  unfold utf8_char at 1. destruct (Z.ltb_spec c 128); [|lia]. simpl. by rewrite IH.
Qed.

Lemma preconnect_field_length s : length (preconnect_field s) = 8%nat.
Proof.
  unfold preconnect_field. rewrite length_app, length_replicate, length_map, length_take. lia.
Qed.

Lemma preconnect_message_length id pw : length (preconnect_message id pw) = PRECONNECT_LEN.
Proof. unfold preconnect_message. by rewrite !length_app, !preconnect_field_length. Qed.

Lemma preconnect_field_decode s :
  ascii s →
  map (translate EBCDIC_TO_LATIN1) (preconnect_field s)
    = take 8 s ++ replicate (8 - length (take 8 s)) 32.
Proof.
  intros Hs. unfold preconnect_field. rewrite utf8_ascii by done.
  rewrite map_app. f_equal.
  - change (to_latin1 (to_ebcdic (take 8 s)) = take 8 s). apply to_latin1_to_ebcdic.
    apply bytes_ok_take. eapply Forall_impl; [exact Hs|]. unfold byte_ok. simpl. lia.
  - rewrite length_map. generalize (8 - length (take 8 s))%nat as n.
    induction n; simpl; [done|]. by f_equal.
Qed.

Lemma is_preconnect_message id pw : is_preconnect (preconnect_message id pw) = true.
Proof. by unfold is_preconnect, preconnect_message. Qed.

(** The fields of a message, as its parser cuts them. *)
Lemma parse_preconnect_message id pw :
  parse_preconnect (preconnect_message id pw)
    = Some (trim_end (map (translate EBCDIC_TO_LATIN1) (preconnect_field id)),
            trim_end (map (translate EBCDIC_TO_LATIN1) (preconnect_field pw))).
Proof.
  unfold parse_preconnect. rewrite is_preconnect_message, preconnect_message_length.
  unfold PRECONNECT_LEN, parse_field, preconnect_message. simpl. f_equal. f_equal.
  - rewrite drop_0. by rewrite take_app_le, take_ge by (rewrite preconnect_field_length; lia).
  - rewrite <-(preconnect_field_length id) at 2. rewrite drop_app_length.
    by rewrite take_ge by (rewrite preconnect_field_length; lia).
Qed.

(** ** Properties *)

(** the two code page tables are inverse of each other on every byte, so
    translating an article to EBCDIC and back, or back and forth, gives the
    article. *)
Theorem ebcdic_roundtrip l :
  bytes_ok l → to_latin1 (to_ebcdic l) = l ∧ to_ebcdic (to_latin1 l) = l.
Proof. intros Hl. split; [by apply to_latin1_to_ebcdic|by apply to_ebcdic_to_latin1]. Qed.

Example ebcdic_roundtrip_witness :
  bytes_ok [65; 66; 32; 48]
  ∧ to_latin1 (to_ebcdic [65; 66; 32; 48]) = [65; 66; 32; 48]
  ∧ to_ebcdic (to_latin1 [65; 66; 32; 48]) = [65; 66; 32; 48].
Proof.
  assert (bytes_ok [65; 66; 32; 48]) as H by by_compute.
  split; [exact H|exact (ebcdic_roundtrip _ H)].
Defined.

(** The pre-connection message is 24 bytes long, is recognised as one, and
    the server reads from it the ASCII identifier and password cut to 8
    characters and right-trimmed. *)
Lemma preconnect_roundtrip id pw :
  ascii id → ascii pw →
  length (preconnect_message id pw) = PRECONNECT_LEN
  ∧ is_preconnect (preconnect_message id pw) = true
  ∧ parse_preconnect (preconnect_message id pw)
    = Some (trim_end (take 8 id), trim_end (take 8 pw)).
Proof.
  intros Hi Hp. split; [apply preconnect_message_length|].
  split; [apply is_preconnect_message|].
  rewrite parse_preconnect_message, !preconnect_field_decode by done.
  unfold trim_end. by rewrite !strip_trailing_replicate.
Qed.

End Ebcdic.
