(* ===== verification/Fpdu.v ===== *)
(** * FPDUs ([crates/pesit-core/src/fpdu.rs], second part)

    The FPDU structure, its setters and accessors, the encoder and the strict
    and lenient decoders, with the correctness of the wire format. *)

From S2P Require Import Prelude Diag Pi Kinds.
Open Scope Z_scope.

Module Fpdu.

Definition HEADER_LEN : nat := 6.
Definition MAX_FPDU_LEN : nat := Z.to_nat 0xFFFF.

(** A parameter unit: a single PI or a group of PIs. *)
Inductive Param : Type :=
| Param_Pi (pi : Pi) (value : bytes)
| Param_Pgi (pgi : Pgi) (items : list (Pi * bytes)).

Definition param_code (p : Param) : Z :=
  match p with Param_Pi pi _ => Pi.code pi | Param_Pgi pgi _ => Pgi.code pgi end.

Record Fpdu : Type := mkFpdu {
  kind : FpduKind;
  id_dst : Z;
  id_src : Z;
  params : list Param;
  data : bytes;
}.

#[global] Instance param_eq_dec : EqDecision Param.
Proof. solve_decision. Defined.
#[global] Instance fpdu_eq_dec : EqDecision Fpdu.
Proof. solve_decision. Defined.

(** What the text of a decoding error reports. *)
Inductive Detail : Type :=
| TooShort (len : nat)
| LengthMismatch (declared actual : nat)
| UnknownKind (phase type_code : Z)
| WrongOrder (code last : Z)
| UnknownPiInside (code : Z) (pgi : Pgi)
| NotAllowedInside (pi : Pi) (pgi : Pgi)
| OutOfOrderInside (pi : Pi) (pgi : Pgi)
| UnknownCode (code : Z)
| NotAllowed (code : Z) (kind : FpduKind)
| ValueTooLong (pi : Pi) (len max : nat)
| MissingInside (pi : Pi) (pgi : Pgi)
| MissingParam (code : Z) (kind : FpduKind)
| MissingLength (code : Z)
| TruncatedLength (code : Z)
| ZeroLength (code : Z)
| LengthExceeds (code : Z) (len remaining : nat)
| TrailingBytes (n : nat)
| InvalidFpduLength (len pos total : nat)
| MissingCrc
| CrcError
| TruncatedArticleLength
| ArticleExceeds
| ArticleCount (announced : Z) (found : nat)
| CrcFlagMismatch.

Record DecodeError : Type := mkDecodeError { diag : Diagnostic; detail : Detail }.

Definition err_param (d : Detail) : DecodeError :=
  mkDecodeError Diagnostic.INVALID_PARAMETER d.
Definition err_protocol (d : Detail) : DecodeError :=
  mkDecodeError Diagnostic.REMOTE_PROTOCOL_ERROR d.

Inductive EncodeError : Type :=
| TooLong (len : nat)
| EmptyValue (code : Z).

Definition new (kind : FpduKind) : Fpdu := mkFpdu kind 0 0 [] [].
Definition data_fpdu (kind : FpduKind) (id_dst id_src : Z) (data : bytes) : Fpdu :=
  mkFpdu kind id_dst id_src [] data.
Definition with_ids (f : Fpdu) (id_dst id_src : Z) : Fpdu :=
  mkFpdu (kind f) id_dst id_src (params f) (data f).
Definition with_params (f : Fpdu) (ps : list Param) : Fpdu :=
  mkFpdu (kind f) (id_dst f) (id_src f) ps (data f).

(** *** Numbers *)

Fixpoint position_nonzero (l : bytes) : option nat :=
  match l with
  | [] => None
  | b :: l => if b =? 0 then S <$> position_nonzero l else Some 0%nat
  end.

Definition encode_num (value : Z) : bytes :=
  let b := be_bytes 8 value in
  drop (default 7%nat (position_nonzero b)) b.

(** [(acc << 8) | b] on [u64]: the high byte is shifted out. *)
Definition decode_num (b : bytes) : Z :=
  foldl (λ acc b, Z.lor (u64 (Z.shiftl acc 8)) b) 0 b.

(** *** Setters *)

(** Binary search for the code in the sorted parameters, then replacement at
    the index found or insertion at the insertion point. *)
Fixpoint set_param (p : Param) (l : list Param) : list Param :=
  match l with
  | [] => [p]
  | q :: l' =>
      if param_code q =? param_code p then p :: l'
      else if param_code p <? param_code q then p :: q :: l'
      else q :: set_param p l'
  end.

Definition set (f : Fpdu) (pi : Pi) (value : bytes) : Fpdu :=
  with_params f (set_param (Param_Pi pi value) (params f)).

Definition set_num (f : Fpdu) (pi : Pi) (value : Z) : Fpdu := set f pi (encode_num value).

(** ISO-8859-1, trailing blanks removed, ['?'] for other characters. *)
Definition encode_text (s : ustring) : bytes :=
  map (λ c, if c <? 256 then u8 c else 63) (trim_end s).

Definition set_text (f : Fpdu) (pi : Pi) (value : ustring) : Fpdu :=
  set f pi (encode_text value).

Definition set_diag (f : Fpdu) (d : Diagnostic) : Fpdu :=
  set f Pi.Diag (Diagnostic.to_bytes d).

(** [sort_by_key] on the code, a stable sort. *)
Fixpoint insert_item (x : Pi * bytes) (l : list (Pi * bytes)) : list (Pi * bytes) :=
  match l with
  | [] => [x]
  | y :: l' => if Pi.code x.1 <=? Pi.code y.1 then x :: y :: l' else y :: insert_item x l'
  end.
Definition sort_items (l : list (Pi * bytes)) : list (Pi * bytes) := foldr insert_item [] l.

Definition set_pgi (f : Fpdu) (pgi : Pgi) (items : list (Pi * bytes)) : Fpdu :=
  with_params f (set_param (Param_Pgi pgi (sort_items items)) (params f)).

(** *** Accessors *)

Fixpoint remove_pi (pi : Pi) (l : list Param) : list Param * option bytes :=
  match l with
  | [] => ([], None)
  | Param_Pi q value :: l' =>
      if decide (q = pi) then (l', Some value)
      else let r := remove_pi pi l' in (Param_Pi q value :: r.1, r.2)
  | p :: l' => let r := remove_pi pi l' in (p :: r.1, r.2)
  end.
Definition remove (f : Fpdu) (pi : Pi) : Fpdu * option bytes :=
  let r := remove_pi pi (params f) in (with_params f r.1, r.2).

Definition find_item (pi : Pi) (items : list (Pi * bytes)) : option bytes :=
  snd <$> List.find (λ q, bool_decide (q.1 = pi)) items.

Fixpoint get_in (pi : Pi) (l : list Param) : option bytes :=
  match l with
  | [] => None
  | Param_Pi q value :: l' => if decide (q = pi) then Some value else get_in pi l'
  | Param_Pgi _ items :: l' =>
      match find_item pi items with Some v => Some v | None => get_in pi l' end
  end.
Definition get (f : Fpdu) (pi : Pi) : option bytes := get_in pi (params f).

Definition has (f : Fpdu) (pi : Pi) : bool := bool_decide (is_Some (get f pi)).

Fixpoint pgi_in (g : Pgi) (l : list Param) : option (list (Pi * bytes)) :=
  match l with
  | [] => None
  | Param_Pgi pgi items :: l' => if decide (pgi = g) then Some items else pgi_in g l'
  | _ :: l' => pgi_in g l'
  end.
Definition pgi (f : Fpdu) (g : Pgi) : option (list (Pi * bytes)) := pgi_in g (params f).

Definition get_num (f : Fpdu) (pi : Pi) : option Z := decode_num <$> get f pi.

(** [char::from] each byte, then [trim_end]. *)
Definition decode_text (v : bytes) : ustring := trim_end v.
Definition get_text (f : Fpdu) (pi : Pi) : option ustring := decode_text <$> get f pi.

Definition fpdu_diag (f : Fpdu) : option Diagnostic :=
  get f Pi.Diag ≫= Diagnostic.from_bytes.

Definition is_negative (f : Fpdu) : bool :=
  FpduKind.is_ack (kind f)
  && match fpdu_diag f with Some d => negb (Diagnostic.is_ok d) | None => false end.

(** *** Encoding *)

Definition unit_len (value_len : nat) : nat :=
  1 + (if (value_len <? 255)%nat then 1 else 3) + value_len.

Definition items_len (items : list (Pi * bytes)) : nat :=
  sum_list_with (λ i, unit_len (length i.2)) items.

Definition encoded_len (f : Fpdu) : nat :=
  if FpduKind.is_data (kind f) then HEADER_LEN + length (data f)
  else HEADER_LEN + sum_list_with (λ p,
    match p with
    | Param_Pi _ value => unit_len (length value)
    | Param_Pgi _ items => unit_len (items_len items)
    end) (params f).

Definition push_unit (out : bytes) (code : Z) (value : bytes) : bytes :=
  let out := out ++ [code] in
  let out :=
    if (length value <? 255)%nat then out ++ [u8 (Z.of_nat (length value))]
    else out ++ [0xFF] ++ be16 (u16 (Z.of_nat (length value))) in
  out ++ value.

(** The items of a group, pushed until the first empty value. *)
Fixpoint encode_items (items : list (Pi * bytes)) (inner : bytes) : outcome EncodeError bytes :=
  match items with
  | [] => Ok inner
  | (pi, value) :: items =>
      if bool_decide (value = []) then Err (EmptyValue (Pi.code pi))
      else encode_items items (push_unit inner (Pi.code pi) value)
  end.

(** The parameters appended to [out]; what was written stays on an error. *)
Fixpoint encode_params (ps : list Param) (out : bytes) : bytes * outcome EncodeError unit :=
  match ps with
  | [] => (out, Ok tt)
  | Param_Pi pi value :: ps =>
      if bool_decide (value = []) then (out, Err (EmptyValue (Pi.code pi)))
      else encode_params ps (push_unit out (Pi.code pi) value)
  | Param_Pgi pgi items :: ps =>
      match encode_items items [] with
      | Ok inner => encode_params ps (push_unit out (Pgi.code pgi) inner)
      | Err e => (out, Err e)
      | Panic => (out, Panic)
      end
  end.

Definition encode_into (f : Fpdu) (out : bytes) : bytes * outcome EncodeError unit :=
  let total := encoded_len f in
  if (MAX_FPDU_LEN <? total)%nat then (out, Err (TooLong total))
  else
    let out := out ++ be16 (u16 (Z.of_nat total)) in
    let out := out ++ [FpduKind.phase (kind f)] in
    let out := out ++ [FpduKind.type_code (kind f)] in
    let out := out ++ [id_dst f] in
    let out := out ++ [id_src f] in
    if FpduKind.is_data (kind f) then (out ++ data f, Ok tt)
    else encode_params (params f) out.

Definition encode (f : Fpdu) : outcome EncodeError bytes :=
  let r := encode_into f [] in r.2 ;; Ok r.1.

(** *** Decoding *)

(** One unit at [pos]: its code, its value and the next position. *)
Definition read_unit (buf : bytes) (pos : nat) : outcome DecodeError (Z * bytes * nat) :=
  code ← idx buf pos;
  let li_pos := (pos + 1)%nat in
  match buf !! li_pos with
  | None => Err (err_param (MissingLength code))
  | Some li =>
      '(len, start) ←
        (if li =? 0xFF then
           match get_range buf (li_pos + 1) (li_pos + 3) with
           | Some b =>
               b0 ← idx b 0; b1 ← idx b 1;
               Ok (Z.to_nat (of_be16 b0 b1), (li_pos + 3)%nat)
           | None => Err (err_param (TruncatedLength code))
           end
         else Ok (Z.to_nat li, (li_pos + 1)%nat));
      if (len =? 0)%nat then Err (err_param (ZeroLength code))
      else
        let end_ := (start + len)%nat in
        if (length buf <? end_)%nat then
          remaining ← sub_usize (length buf) start;
          Err (err_param (LengthExceeds code len remaining))
        else
          value ← slice buf start end_;
          Ok (code, value, end_)
  end.

(** The [while] loop over the units of a group. *)
Fixpoint decode_items (fuel : nat) (strict : bool) (pgi : Pgi) (value : bytes)
    (ipos : nat) (last_inner : Z) (items : list (Pi * bytes))
    : outcome DecodeError (list (Pi * bytes)) :=
  match fuel with
  | O => Panic
  | S fuel =>
      if (ipos <? length value)%nat then
        '(icode, ivalue, inext) ← read_unit value ipos;
        pi ← ok_or (Pi.from_code icode) (err_param (UnknownPiInside icode pgi));
        if strict && negb (Pgi.contains pgi pi) then Err (err_param (NotAllowedInside pi pgi))
        else if strict && ((icode <=? last_inner) && negb (bool_decide (items = [])))
        then Err (err_param (OutOfOrderInside pi pgi))
        else decode_items fuel strict pgi value inext icode (items ++ [(pi, ivalue)])
      else Ok items
  end.

(** The [while] loop over the top-level units. *)
Fixpoint decode_params (fuel : nat) (strict : bool) (body : bytes) (pos : nat)
    (last_code : Z) (ps : list Param) : outcome DecodeError (list Param) :=
  match fuel with
  | O => Panic
  | S fuel =>
      if (pos <? length body)%nat then
        '(code, value, next) ← read_unit body pos;
        let disorder := (code <=? last_code) && negb (bool_decide (ps = [])) in
        if disorder && strict then Err (err_param (WrongOrder code last_code))
        else
          let last_code := if disorder then last_code else code in
          match Pgi.from_code code with
          | Some pgi =>
              items ← decode_items (S (length value)) strict pgi value 0 0 [];
              decode_params fuel strict body next last_code (ps ++ [Param_Pgi pgi items])
          | None =>
              match Pi.from_code code with
              | Some pi =>
                  decode_params fuel strict body next last_code (ps ++ [Param_Pi pi value])
              | None => Err (err_param (UnknownCode code))
              end
          end
      else Ok ps
  end.

Definition value_len_ok (pi : Pi) (value : bytes) : bool :=
  (Pi.max_len pi =? 0)%nat || (length value <=? Pi.max_len pi)%nat.

Definition has_item (pi : Pi) (items : list (Pi * bytes)) : bool :=
  existsb (λ q, bool_decide (q.1 = pi)) items.

(** The first mandatory member that a group lacks. *)
Definition missing_member (pgi : Pgi) (items : list (Pi * bytes)) : option (Pi * bool) :=
  List.find (λ m, m.2 && negb (has_item m.1 items)) (Pgi.members pgi).

Definition check_param (k : FpduKind) (p : Param) : outcome DecodeError unit :=
  let code := param_code p in
  if negb (existsb (λ r, rule_code r =? code) (FpduKind.template k))
  then Err (err_param (NotAllowed code k))
  else
    match p with
    | Param_Pi pi value =>
        if value_len_ok pi value then Ok tt
        else Err (err_param (ValueTooLong pi (length value) (Pi.max_len pi)))
    | Param_Pgi pgi items =>
        match missing_member pgi items with
        | Some (pi, _) => Err (err_param (MissingInside pi pgi))
        | None => Ok tt
        end
    end.

Fixpoint check_params (k : FpduKind) (ps : list Param) : outcome DecodeError unit :=
  match ps with [] => Ok tt | p :: ps => check_param k p ;; check_params k ps end.

Definition missing_rule (k : FpduKind) (ps : list Param) : option ParamRule :=
  List.find (λ r, mandatory r && negb (existsb (λ p, param_code p =? rule_code r) ps))
    (FpduKind.template k).

Definition validate_template (f : Fpdu) : outcome DecodeError unit :=
  check_params (kind f) (params f) ;;
  match missing_rule (kind f) (params f) with
  | Some r => Err (err_param (MissingParam (rule_code r) (kind f)))
  | None => Ok tt
  end.

Definition decode_with (b : bytes) (strict : bool) : outcome DecodeError Fpdu :=
  if (length b <? HEADER_LEN)%nat then Err (err_protocol (TooShort (length b)))
  else
    b0 ← idx b 0; b1 ← idx b 1;
    let declared := Z.to_nat (of_be16 b0 b1) in
    if negb (declared =? length b)%nat
    then Err (err_protocol (LengthMismatch declared (length b)))
    else
      b2 ← idx b 2; b3 ← idx b 3;
      kind ← ok_or (FpduKind.from_codes b2 b3) (err_protocol (UnknownKind b2 b3));
      b4 ← idx b 4; b5 ← idx b 5;
      body ← slice b HEADER_LEN (length b);
      if FpduKind.is_data kind then Ok (mkFpdu kind b4 b5 [] body)
      else
        ps ← decode_params (S (length body)) strict body 0 0 [];
        let f := mkFpdu kind b4 b5 ps [] in
        if strict then validate_template f ;; Ok f else Ok f.

Definition decode (b : bytes) : outcome DecodeError Fpdu := decode_with b true.
Definition decode_lenient (b : bytes) : outcome DecodeError Fpdu := decode_with b false.

End Fpdu.

Abbreviation Fpdu := Fpdu.Fpdu.
