(* ===== verification/FpduNum.v ===== *)
(** * Numbers of the FPDU wire format

    [encode_num] and [decode_num] of [Fpdu] are inverse of each other on the
    64-bit integers and on the minimal encodings. *)

From S2P Require Import Prelude Diag Pi Kinds Fpdu.
Open Scope Z_scope.
Import Fpdu.

(** ** Numbers *)

Lemma lor_shift_byte acc b :
  byte_ok b → Z.lor (u64 (Z.shiftl acc 8)) b = (acc * 256) mod 18446744073709551616 + b.
Proof.
  unfold byte_ok, u64. intros Hb. rewrite Z.shiftl_mul_pow2 by lia.
  change (2 ^ 8) with 256.
  rewrite <-Z.add_lor_land.
  assert (Z.land ((acc * 256) mod 18446744073709551616) b = 0) as ->; [|lia].
  apply Z.bits_inj'. intros i Hi. rewrite Z.land_spec, Z.bits_0.
  destruct (Z.ltb_spec i 8).
  - change 18446744073709551616 with (2 ^ 64). rewrite Z.mod_pow2_bits_low by lia.
    change 256 with (2 ^ 8). rewrite Z.mul_pow2_bits_low by lia. done.
  - rewrite (Z.bits_above_log2 b i), andb_false_r; [done|lia|].
    destruct (decide (b = 0)) as [->|]; [by rewrite Z.log2_nonpos; lia|].
    apply Z.log2_lt_pow2; [lia|].
    apply (Z.lt_le_trans _ (2 ^ 8)); [simpl; lia|]. apply Z.pow_le_mono_r; lia.
Qed.

Definition be_value (acc : Z) (l : bytes) : Z := foldl (λ acc b, acc * 256 + b) acc l.

Lemma be_value_cons acc b l : be_value acc (b :: l) = be_value (acc * 256 + b) l.
Proof. done. Qed.
Lemma be_value_one acc b : be_value acc [b] = acc * 256 + b.
Proof. done. Qed.

Lemma be_value_app acc l k : be_value acc (l ++ k) = be_value (be_value acc l) k.
Proof. apply foldl_app. Qed.

Lemma be_value_acc acc l :
  be_value acc l = acc * 256 ^ Z.of_nat (length l) + be_value 0 l.
Proof.
  revert acc. induction l as [|b l IH]; intros acc.
  { unfold be_value. simpl. rewrite Z.pow_0_r. lia. }
  rewrite !be_value_cons, (IH (acc * 256 + b)), (IH (0 * 256 + b)). cbn [length].
  rewrite Nat2Z.inj_succ, Z.pow_succ_r by lia. lia.
Qed.

Lemma be_value_range l : bytes_ok l → 0 ≤ be_value 0 l < 256 ^ Z.of_nat (length l).
Proof.
  induction l as [|b l IH] using rev_ind; intros Hl; [done|].
  apply bytes_ok_app in Hl as [Hl [Hb _]%bytes_ok_cons]. specialize (IH Hl).
  rewrite be_value_app, length_app, be_value_one. unfold byte_ok in Hb.
  rewrite Nat2Z.inj_add, Z.pow_add_r by lia. change (256 ^ Z.of_nat (length [b])) with 256. lia.
Qed.

Lemma be_value_be_bytes n v : be_value 0 (be_bytes n v) = v mod 256 ^ Z.of_nat n.
Proof.
  revert v. induction n as [|n IH]; intros v.
  { change (256 ^ Z.of_nat 0) with 1. by rewrite Z.mod_1_r. }
  rewrite be_bytes_S, be_value_app, IH, be_value_one.
  rewrite Nat2Z.inj_succ, Z.pow_succ_r by lia.
  rewrite (Z.rem_mul_r v 256) by (try apply Z.pow_nonzero; lia). lia.
Qed.

Lemma be_bytes_be_value l : bytes_ok l → be_bytes (length l) (be_value 0 l) = l.
Proof.
  induction l as [|b l IH] using rev_ind; intros Hl; [done|].
  apply bytes_ok_app in Hl as [Hl [Hb _]%bytes_ok_cons]. unfold byte_ok in Hb.
  rewrite be_value_app, be_value_one, length_app, Nat.add_comm. cbn [length Nat.add].
  rewrite be_bytes_S. f_equal.
  - rewrite Z.div_add_l, (Z.div_small b) by lia. rewrite Z.add_0_r. by apply IH.
  - f_equal. rewrite Z.add_comm, Z.mod_add, Z.mod_small by lia. done.
Qed.

(** [decode_num] keeps the low 64 bits of the big-endian value. *)
Lemma decode_num_be_value l :
  bytes_ok l → decode_num l = be_value 0 l mod 18446744073709551616.
Proof.
  unfold decode_num. induction l as [|b l IH] using rev_ind; intros Hl; [done|].
  apply bytes_ok_app in Hl as [Hl [Hb _]%bytes_ok_cons].
  rewrite foldl_app, be_value_app, be_value_one. simpl. rewrite IH, lor_shift_byte by done.
  unfold byte_ok in Hb. lia_dm.
Qed.

Lemma decode_num_small l :
  bytes_ok l → (length l ≤ 8)%nat → decode_num l = be_value 0 l.
Proof.
  intros Hl Hlen. rewrite decode_num_be_value by done.
  pose proof (be_value_range l Hl) as Hr. apply Z.mod_small.
  assert (256 ^ Z.of_nat (length l) ≤ 256 ^ 8) by (apply Z.pow_le_mono_r; lia).
  change (256 ^ 8) with 18446744073709551616 in *. lia.
Qed.

Lemma position_nonzero_spec l :
  match position_nonzero l with
  | Some i => ∃ b r, drop i l = b :: r ∧ b ≠ 0 ∧ take i l = replicate i 0
  | None => l = replicate (length l) 0
  end.
Proof.
  induction l as [|b l IH]; simpl; [done|].
  destruct (Z.eqb_spec b 0) as [->|Hb]; simpl; [|by exists b, l].
  destruct (position_nonzero l) as [i|]; simpl.
  - destruct IH as (c&r&?&?&E). exists c, r. split_and!; [done..|]. by rewrite E.
  - by f_equal.
Qed.

Lemma be_value_zeros n l : be_value 0 (replicate n 0 ++ l) = be_value 0 l.
Proof.
  rewrite be_value_app. f_equal. by induction n.
Qed.

Lemma position_nonzero_be8 v :
  ∃ i, default 7%nat (position_nonzero (be_bytes 8 v)) = i ∧ (i < 8)%nat
       ∧ take i (be_bytes 8 v) = replicate i 0.
Proof.
  pose proof (position_nonzero_spec (be_bytes 8 v)) as H.
  pose proof (length_be_bytes 8 v) as Hl.
  destruct (position_nonzero (be_bytes 8 v)) as [i|]; simpl; eexists; split; [done| |done|].
  - destruct H as (b&r&Hd&_&E). split; [|done].
    apply (f_equal length) in Hd. rewrite length_drop, Hl in Hd. simpl in Hd. lia.
  - split; [lia|]. rewrite Hl in H. by rewrite H.
Qed.

Lemma encode_num_length v : (1 ≤ length (encode_num v) ≤ 8)%nat.
Proof.
  unfold encode_num. destruct (position_nonzero_be8 v) as (i&->&Hi&_).
  rewrite length_drop, length_be_bytes. lia.
Qed.

Lemma encode_num_nonempty v : encode_num v ≠ [].
Proof. pose proof (encode_num_length v). by destruct (encode_num v); simpl in *; [lia|]. Qed.

Lemma encode_num_bytes_ok v : bytes_ok (encode_num v).
Proof. unfold encode_num. auto with bytes. Qed.
#[export] Hint Resolve encode_num_nonempty encode_num_bytes_ok : bytes.

Lemma encode_num_value v : be_value 0 (encode_num v) = v mod 18446744073709551616.
Proof.
  transitivity (be_value 0 (be_bytes 8 v)); [|by rewrite be_value_be_bytes].
  unfold encode_num. destruct (position_nonzero_be8 v) as (i&->&Hi&E).
  transitivity (be_value 0 (take i (be_bytes 8 v) ++ drop i (be_bytes 8 v))).
  - by rewrite E, be_value_zeros.
  - by rewrite take_drop.
Qed.

Lemma decode_encode_num v : u64_ok v → decode_num (encode_num v) = v.
Proof.
  unfold u64_ok. intros Hv. pose proof (encode_num_length v).
  rewrite decode_num_small by (auto with bytes; lia).
  rewrite encode_num_value. by apply Z.mod_small.
Qed.

(** The encoding of a number that fits [n] bytes has at most [n] bytes. *)
Lemma encode_num_length_le v n :
  0 ≤ v < 256 ^ Z.of_nat n → (1 ≤ n ≤ 8)%nat → (length (encode_num v) ≤ n)%nat.
Proof.
  intros Hv Hn. destruct (decide (length (encode_num v) ≤ n)%nat) as [|Hgt]; [done|exfalso].
  pose proof (encode_num_value v) as E.
  assert (256 ^ Z.of_nat n ≤ 256 ^ 8) by (apply Z.pow_le_mono_r; lia).
  change (256 ^ 8) with 18446744073709551616 in *. rewrite Z.mod_small in E by lia.
  unfold encode_num in *. pose proof (position_nonzero_spec (be_bytes 8 v)) as Hp.
  pose proof (be_bytes_ok 8 v) as Hok.
  destruct (position_nonzero (be_bytes 8 v)) as [i|]; simpl in *; [|lia].
  destruct Hp as (b&r&Hd&Hb&_). rewrite Hd in *. simpl in Hgt.
  assert (bytes_ok (b :: r)) as [Hb' Hr]%bytes_ok_cons by (rewrite <-Hd; auto with bytes).
  rewrite be_value_cons, be_value_acc in E.
  assert (256 ^ Z.of_nat n ≤ 256 ^ Z.of_nat (length r)) by (apply Z.pow_le_mono_r; lia).
  pose proof (be_value_range r Hr). unfold byte_ok in Hb'. nia.
Qed.

(** No leading zero byte, except for the value 0 itself. *)
Lemma encode_num_head v :
  u64_ok v → hd 0 (encode_num v) ≠ 0 ∨ encode_num v = [0] ∧ v = 0.
Proof.
  unfold u64_ok, encode_num. intros Hv.
  pose proof (position_nonzero_spec (be_bytes 8 v)) as H.
  pose proof (be_value_be_bytes 8 v) as E.
  destruct (position_nonzero (be_bytes 8 v)) as [i|].
  - destruct H as (b&r&Hd&?&_). left. cbn [from_option id]. by rewrite Hd.
  - rewrite length_be_bytes in H. rewrite H in *. right. split; [done|].
    rewrite Z.mod_small in E by (change (256 ^ Z.of_nat 8) with 18446744073709551616; lia).
    by rewrite <-E.
Qed.

Lemma position_nonzero_zeros n l :
  hd 0 l ≠ 0 → position_nonzero (replicate n 0 ++ l) = Some n.
Proof.
  intros Hl. induction n as [|n IH]; simpl; [|by rewrite IH].
  destruct l as [|b l]; simpl in *; [done|]. by destruct (Z.eqb_spec b 0).
Qed.

Lemma encode_decode_num l :
  bytes_ok l → (1 ≤ length l ≤ 8)%nat → (hd 0 l ≠ 0 ∨ l = [0]) →
  encode_num (decode_num l) = l.
Proof.
  intros Hl Hlen [Hhd| ->]; [|done].
  rewrite decode_num_small by (done || lia). unfold encode_num.
  assert (be_bytes 8 (be_value 0 l) = replicate (8 - length l) 0 ++ l) as ->.
  { rewrite <-(be_value_zeros (8 - length l)).
    set (k := replicate (8 - length l) 0 ++ l).
    replace 8%nat with (length k) by (unfold k; rewrite length_app, length_replicate; lia).
    apply be_bytes_be_value. apply bytes_ok_app; split; [|done].
    apply Forall_replicate. unfold byte_ok. lia. }
  rewrite position_nonzero_zeros by done. simpl.
  by rewrite drop_app_length' by (by rewrite length_replicate).
Qed.

(** numbers. A 64-bit value survives the minimal big-endian encoding, which
    has between 1 and 8 bytes and no leading zero byte unless the value is 0;
    a value below [256^n] takes at most [n] bytes; and a decoded minimal
    encoding encodes back to the same bytes. *)
Theorem num_roundtrip v n l :
  u64_ok v → (1 ≤ n ≤ 8)%nat → v < 256 ^ Z.of_nat n →
  bytes_ok l → (1 ≤ length l ≤ 8)%nat → (hd 0 l ≠ 0 ∨ l = [0]) →
  decode_num (encode_num v) = v
  ∧ (1 ≤ length (encode_num v) ≤ n)%nat
  ∧ (hd 0 (encode_num v) ≠ 0 ∨ encode_num v = [0] ∧ v = 0)
  ∧ encode_num (decode_num l) = l.
Proof.
  intros Hv Hn Hvn Hl Hlen Hhd. split_and!.
  - by apply decode_encode_num.
  - apply encode_num_length.
  - apply encode_num_length_le; unfold u64_ok in Hv; lia.
  - by apply encode_num_head.
  - by apply encode_decode_num.
Qed.

Example num_roundtrip_witness :
  decode_num (encode_num 0x1234) = 0x1234
  ∧ encode_num (decode_num [0x12; 0x34]) = [0x12; 0x34].
Proof.
  destruct (num_roundtrip 0x1234 2 [0x12; 0x34]) as (H1&_&_&H2);
    [unfold u64_ok; lia|lia|simpl; lia|by_compute|simpl; lia|left; simpl; lia|].
  split; [exact H1|exact H2].
Defined.
