(* ===== verification/FpduCodec.v ===== *)
(** * Correctness of the FPDU wire format

    Round trips of the encoder and the decoders of [Fpdu], the absence of
    panics on arbitrary bytes, and the rejection of what the templates
    forbid. *)

From S2P Require Import Prelude Diag Pi Kinds Fpdu FpduNum.
Open Scope Z_scope.
Import Fpdu.

(** ** Units *)

Definition unit_bytes (code : Z) (value : bytes) : bytes := push_unit [] code value.
Definition items_bytes (items : list (Pi * bytes)) : bytes :=
  concat (map (λ i, unit_bytes (Pi.code i.1) i.2) items).
Definition param_bytes (p : Param) : bytes :=
  match p with
  | Param_Pi pi value => unit_bytes (Pi.code pi) value
  | Param_Pgi pgi items => unit_bytes (Pgi.code pgi) (items_bytes items)
  end.

Lemma push_unit_app out code value : push_unit out code value = out ++ unit_bytes code value.
Proof.
  unfold unit_bytes, push_unit. destruct (_ <? _)%nat; simpl; by rewrite <-!app_assoc.
Qed.

Lemma length_unit_bytes code value : length (unit_bytes code value) = unit_len (length value).
Proof.
  unfold unit_bytes, push_unit, unit_len.
  destruct (_ <? _)%nat; rewrite !length_app; simpl; lia.
Qed.

Lemma unit_bytes_ok code value :
  byte_ok code → bytes_ok value → bytes_ok (unit_bytes code value).
Proof.
  unfold unit_bytes, push_unit, u8, u16. intros Hc Hv.
  destruct (Nat.ltb_spec (length value) 255); simpl.
  - repeat (apply bytes_ok_cons; split); [done| |done]. unfold byte_ok. lia_dm.
  - repeat (apply bytes_ok_cons; split); try done; unfold byte_ok; lia_dm.
Qed.

Lemma length_items_bytes items : length (items_bytes items) = items_len items.
Proof.
  unfold items_bytes, items_len. induction items as [|i items IH]; simpl; [done|].
  by rewrite length_app, length_unit_bytes, IH.
Qed.

Lemma unit_len_le n m : (n ≤ m)%nat → (unit_len n ≤ unit_len m)%nat.
Proof. unfold unit_len. intros. destruct (Nat.ltb_spec n 255), (Nat.ltb_spec m 255); lia. Qed.

Lemma unit_len_ge n : (n + 2 ≤ unit_len n)%nat.
Proof. unfold unit_len. destruct (_ <? _)%nat; lia. Qed.

Lemma items_bytes_app a b : items_bytes (a ++ b) = items_bytes a ++ items_bytes b.
Proof. unfold items_bytes. by rewrite map_app, concat_app. Qed.

Lemma Pi_byte_ok pi : byte_ok (Pi.code pi).
Proof. pose proof (Pi.code_range pi). unfold byte_ok. lia. Qed.
Lemma Pgi_byte_ok pgi : byte_ok (Pgi.code pgi).
Proof. pose proof (Pgi.pgi_code_range pgi). unfold byte_ok. lia. Qed.
#[export] Hint Resolve unit_bytes_ok Pi_byte_ok Pgi_byte_ok : bytes.

(** ** Well-formed FPDUs *)

(** Codes in strictly ascending order, the first above [last]. *)
Fixpoint ascending (last : Z) (codes : list Z) : bool :=
  match codes with [] => true | c :: codes => (last <? c) && ascending c codes end.

Definition item_codes (items : list (Pi * bytes)) : list Z := map (λ i, Pi.code i.1) items.
Definition param_codes (ps : list Param) : list Z := map param_code ps.

Definition items_wf (pgi : Pgi) (items : list (Pi * bytes)) : Prop :=
  items ≠ [] ∧ ascending 0 (item_codes items) = true
  ∧ Forall (λ i, i.2 ≠ [] ∧ bytes_ok i.2 ∧ Pgi.contains pgi i.1 = true) items.

Definition param_wf (p : Param) : Prop :=
  match p with
  | Param_Pi _ value => value ≠ [] ∧ bytes_ok value
  | Param_Pgi pgi items => items_wf pgi items
  end.

(** What the fields of an FPDU satisfy that was built by the setters with
    non-empty values, or decoded in strict mode. *)
Record wf (f : Fpdu) : Prop := mk_wf {
  wf_dst : byte_ok (id_dst f);
  wf_src : byte_ok (id_src f);
  wf_params : Forall param_wf (params f);
  wf_order : ascending 0 (param_codes (params f)) = true;
  wf_data : bytes_ok (data f);
  wf_kind : if FpduKind.is_data (kind f) then params f = [] else data f = [];
  wf_len : (encoded_len f ≤ MAX_FPDU_LEN)%nat;
}.

#[global] Instance items_wf_dec pgi items : Decision (items_wf pgi items).
Proof. unfold items_wf. apply _. Defined.
#[global] Instance param_wf_dec p : Decision (param_wf p).
Proof. destruct p; apply _. Defined.
Lemma wf_iff f :
  wf f ↔ byte_ok (id_dst f) ∧ byte_ok (id_src f)
    ∧ Forall param_wf (params f) ∧ ascending 0 (param_codes (params f)) = true
    ∧ bytes_ok (data f)
    ∧ (if FpduKind.is_data (kind f) then params f = [] else data f = [])
    ∧ (encoded_len f ≤ MAX_FPDU_LEN)%nat.
Proof. split; [intros []|intros (?&?&?&?&?&?&?); constructor]; auto 10. Qed.

#[global] Instance wf_dec f : Decision (wf f).
Proof.
  refine (match decide _ with
          | left H => left (proj2 (wf_iff f) H)
          | right H => right (λ W, H (proj1 (wf_iff f) W))
          end).
  destruct (FpduKind.is_data (kind f)); apply _.
Defined.

Lemma last_cons_default {A} (l : list A) c d : List.last (c :: l) d = List.last l c.
Proof.
  revert c d. induction l as [|x l IH]; intros c d; [done|].
  change (List.last (c :: x :: l) d) with (List.last (x :: l) d). by rewrite !IH.
Qed.

Lemma ascending_app last a b :
  ascending last (a ++ b) = ascending last a && ascending (List.last a last) b.
Proof.
  revert last. induction a as [|c a IH]; intros last; [done|]. cbn [app ascending].
  by rewrite IH, andb_assoc, last_cons_default.
Qed.

(** ** Encoding never fails on a well-formed FPDU *)

Lemma encode_items_ok items inner :
  Forall (λ i, i.2 ≠ []) items → encode_items items inner = Ok (inner ++ items_bytes items).
Proof.
  intros Hi. revert inner. induction Hi as [|[pi v] items Hv Hi IH]; intros inner; simpl.
  { by rewrite app_nil_r. }
  rewrite bool_decide_false by done. rewrite IH, push_unit_app, <-app_assoc. done.
Qed.

Lemma items_wf_nonempty pgi items : items_wf pgi items → Forall (λ i, i.2 ≠ []) items.
Proof. intros (_&_&H). eapply Forall_impl; [exact H|]. naive_solver. Qed.

Lemma encode_params_ok ps out :
  Forall param_wf ps → encode_params ps out = (out ++ concat (map param_bytes ps), Ok tt).
Proof.
  intros Hp. revert out. induction Hp as [|p ps Hp Hps IH]; intros out; simpl.
  { by rewrite app_nil_r. }
  destruct p as [pi v|pgi items]; simpl.
  - destruct Hp as [Hv _]. rewrite bool_decide_false by done.
    by rewrite IH, push_unit_app, <-app_assoc.
  - rewrite encode_items_ok by (by eapply items_wf_nonempty). simpl.
    by rewrite IH, push_unit_app, <-app_assoc.
Qed.

Definition body_bytes (f : Fpdu) : bytes :=
  if FpduKind.is_data (kind f) then data f else concat (map param_bytes (params f)).

Definition fpdu_bytes (f : Fpdu) : bytes :=
  be16 (Z.of_nat (encoded_len f))
  ++ [FpduKind.phase (kind f); FpduKind.type_code (kind f); id_dst f; id_src f]
  ++ body_bytes f.

Lemma length_params_bytes ps :
  length (concat (map param_bytes ps)) = sum_list_with (λ p,
    match p with
    | Param_Pi _ value => unit_len (length value)
    | Param_Pgi _ items => unit_len (items_len items)
    end) ps.
Proof.
  induction ps as [|p ps IH]; simpl; [done|]. rewrite length_app, IH. f_equal.
  destruct p; simpl; by rewrite length_unit_bytes, ?length_items_bytes.
Qed.

Lemma length_fpdu_bytes f : length (fpdu_bytes f) = encoded_len f.
Proof.
  unfold fpdu_bytes, encoded_len, body_bytes. rewrite !length_app. simpl.
  destruct (FpduKind.is_data (kind f)); [done|]. by rewrite length_params_bytes.
Qed.

Lemma encode_into_wf f out : wf f → encode_into f out = (out ++ fpdu_bytes f, Ok tt).
Proof.
  intros Hf. unfold encode_into, fpdu_bytes, body_bytes. pose proof (wf_len f Hf) as Hl.
  destruct (Nat.ltb_spec MAX_FPDU_LEN (encoded_len f)); [lia|].
  unfold u16. unfold MAX_FPDU_LEN in *. rewrite Z.mod_small by lia.
  destruct (FpduKind.is_data (kind f)); [|rewrite encode_params_ok by apply Hf];
    by rewrite <-!app_assoc.
Qed.

Lemma encode_wf f : wf f → encode f = Ok (fpdu_bytes f).
Proof. intros Hf. unfold encode. by rewrite encode_into_wf. Qed.

(** ** Reading back what was written *)

Lemma read_unit_at pre code value post :
  value ≠ [] → (length value ≤ MAX_FPDU_LEN)%nat →
  read_unit (pre ++ unit_bytes code value ++ post) (length pre)
    = Ok (code, value, length pre + length (unit_bytes code value))%nat.
Proof.
  unfold MAX_FPDU_LEN. intros Hv Hl. assert (length value ≠ 0%nat) by (by destruct value).
  unfold read_unit. rewrite length_unit_bytes. unfold unit_bytes, push_unit, unit_len, idx.
  rewrite !lookup_app_0, !lookup_app_add.
  destruct (Nat.ltb_spec (length value) 255) as [Hs|Hs].
  - simpl.
    unfold u8. rewrite Z.mod_small by lia.
    destruct (Z.eqb_spec (Z.of_nat (length value)) 255); [lia|]. simpl.
    rewrite Nat2Z.id. destruct (Nat.eqb_spec (length value) 0); [lia|].
    rewrite !length_app. simpl. rewrite length_app.
    destruct (Nat.ltb_spec (length pre + S (S (length value + length post)))
      (length pre + 1 + 1 + length value)); [lia|].
    unfold slice.
    replace (length pre + 1 + 1)%nat with (length (pre ++ [code; Z.of_nat (length value)]))
      by (rewrite length_app; simpl; lia).
    replace (pre ++ code :: Z.of_nat (length value) :: value ++ post)
      with ((pre ++ [code; Z.of_nat (length value)]) ++ value ++ post) by (by rewrite <-app_assoc).
    rewrite get_range_app_mid. simpl. rewrite length_app. simpl. do 2 f_equal. lia.
  - unfold u16. rewrite Z.mod_small by lia. set (n := Z.of_nat (length value)). simpl.
    set (h := [code; 255; (n / 256) mod 256; n mod 256]).
    change (pre ++ code :: 255 :: (n / 256) mod 256 :: n mod 256 :: value ++ post)
      with (pre ++ h ++ value ++ post).
    assert (get_range (pre ++ h ++ value ++ post) (length pre + 1 + 1) (length pre + 1 + 3)
            = Some [(n / 256) mod 256; n mod 256]) as ->.
    { replace (pre ++ h ++ value ++ post)
        with ((pre ++ [code; 255]) ++ [(n / 256) mod 256; n mod 256] ++ value ++ post)
        by (by rewrite <-app_assoc).
      replace (length pre + 1 + 3)%nat with (length pre + 1 + 1 + 2)%nat by lia.
      replace (length pre + 1 + 1)%nat with (length (pre ++ [code; 255]))
        by (rewrite length_app; simpl; lia).
      apply (get_range_app_mid _ [(n / 256) mod 256; n mod 256]). }
    simpl. rewrite of_be16_be16 by (unfold u16_ok, n; lia). unfold n. rewrite Nat2Z.id.
    destruct (Nat.eqb_spec (length value) 0); [lia|].
    replace (length pre + 1 + 3)%nat with (length (pre ++ h)) by (rewrite length_app; simpl; lia).
    match goal with |- context [slice ?l _ _] =>
      change l with (pre ++ h ++ value ++ post) end.
    rewrite app_assoc, (length_app (pre ++ h)), (length_app value).
    destruct (Nat.ltb_spec (length (pre ++ h) + (length value + length post))
      (length (pre ++ h) + length value)); [lia|].
    unfold slice. rewrite get_range_app_mid. simpl. rewrite length_app. simpl.
    do 2 f_equal. lia.
Qed.

Definition small_value (v : bytes) : Prop := v ≠ [] ∧ (length v ≤ MAX_FPDU_LEN)%nat.

#[global] Arguments unit_bytes : simpl never.
#[global] Arguments items_bytes : simpl never.

Lemma items_bytes_one pi v : items_bytes [(pi, v)] = unit_bytes (Pi.code pi) v.
Proof. apply app_nil_r. Qed.
Lemma items_bytes_cons pi v items :
  items_bytes ((pi, v) :: items) = unit_bytes (Pi.code pi) v ++ items_bytes items.
Proof. done. Qed.

Lemma decode_items_at strict pgi items before fuel last :
  Forall (λ i, small_value i.2 ∧ Pgi.contains pgi i.1 = true) items →
  ascending last (item_codes items) = true →
  (length items < fuel)%nat →
  decode_items fuel strict pgi (items_bytes (before ++ items)) (length (items_bytes before)) last before
    = Ok (before ++ items).
Proof.
  intros Hi. revert before fuel last.
  induction Hi as [|[pi v] items [[Hv Hl] Hc] Hi IH]; intros before fuel last Ha Hf;
    (destruct fuel as [|fuel]; [simpl in Hf; lia|]); cbn [decode_items].
  { rewrite !app_nil_r. by rewrite Nat.ltb_irrefl. }
  simpl in Ha. apply andb_true_iff in Ha as [Hlt%Z.ltb_lt Ha]. simpl in Hc, Hf.
  specialize (IH (before ++ [(pi, v)]) fuel (Pi.code pi) Ha ltac:(lia)).
  rewrite <-app_assoc in IH. cbn [app] in IH.
  rewrite !items_bytes_app, items_bytes_cons in *. pose proof (unit_len_ge (length v)).
  destruct (Nat.ltb_spec (length (items_bytes before))
    (length (items_bytes before ++ unit_bytes (Pi.code pi) v ++ items_bytes items)));
    [|rewrite !length_app, length_unit_bytes in *; lia].
  rewrite read_unit_at by done. cbn -[decode_items]. rewrite Pi.from_code_code. cbn -[decode_items].
  rewrite Hc, andb_false_r. destruct (Z.leb_spec (Pi.code pi) last); [lia|].
  rewrite andb_false_r. cbn -[decode_items].
  rewrite items_bytes_one, length_app in IH. exact IH.
Qed.

Definition value_of (p : Param) : bytes :=
  match p with Param_Pi _ value => value | Param_Pgi _ items => items_bytes items end.

Lemma param_bytes_unit p : param_bytes p = unit_bytes (param_code p) (value_of p).
Proof. by destruct p. Qed.

Definition params_bytes (ps : list Param) : bytes := concat (map param_bytes ps).

Lemma params_bytes_app a b : params_bytes (a ++ b) = params_bytes a ++ params_bytes b.
Proof. unfold params_bytes. by rewrite map_app, concat_app. Qed.

Lemma items_len_length items : (length items ≤ length (items_bytes items))%nat.
Proof.
  induction items as [|[pi v] items IH]; [done|]. rewrite items_bytes_cons, length_app, length_unit_bytes.
  pose proof (unit_len_ge (length v)). simpl. lia.
Qed.

(** One group reads back as its items. *)
Lemma decode_group strict pgi items :
  items_wf pgi items → (length (items_bytes items) ≤ MAX_FPDU_LEN)%nat →
  decode_items (S (length (items_bytes items))) strict pgi (items_bytes items) 0 0 [] = Ok items.
Proof.
  intros (_&Ha&Hi) Hl. pose proof (items_len_length items).
  apply (decode_items_at strict pgi items [] _ 0); [|done|lia].
  clear Ha H. revert Hl. induction Hi as [|[pi v] items (Hv&_&Hc) Hi IH]; [constructor|].
  rewrite items_bytes_cons, length_app, length_unit_bytes. intros Hl.
  pose proof (unit_len_ge (length v)). simpl in Hv.
  constructor; [|apply IH; lia]. split; [|done]. split; simpl; [done|lia].
Qed.

Lemma decode_params_at strict ps before fuel last :
  Forall (λ p, param_wf p ∧ small_value (value_of p)) ps →
  ascending last (param_codes ps) = true →
  (length ps < fuel)%nat →
  decode_params fuel strict (params_bytes (before ++ ps)) (length (params_bytes before)) last before
    = Ok (before ++ ps).
Proof.
  intros Hi. revert before fuel last.
  induction Hi as [|p ps [Hw [Hv Hl]] Hi IH]; intros before fuel last Ha Hf;
    (destruct fuel as [|fuel]; [simpl in Hf; lia|]); cbn [decode_params].
  { rewrite !app_nil_r. by rewrite Nat.ltb_irrefl. }
  simpl in Ha. apply andb_true_iff in Ha as [Hlt%Z.ltb_lt Ha]. simpl in Hf.
  specialize (IH (before ++ [p]) fuel (param_code p) Ha ltac:(lia)).
  rewrite <-app_assoc in IH. cbn [app] in IH.
  rewrite !params_bytes_app in *. change (params_bytes (p :: ps)) with (param_bytes p ++ params_bytes ps) in *.
  rewrite param_bytes_unit in *. pose proof (unit_len_ge (length (value_of p))).
  destruct (Nat.ltb_spec (length (params_bytes before))
    (length (params_bytes before ++ unit_bytes (param_code p) (value_of p) ++ params_bytes ps)));
    [|rewrite !length_app, length_unit_bytes in *; lia].
  rewrite read_unit_at by done. cbn -[decode_params decode_items].
  destruct (Z.leb_spec (param_code p) last); [lia|]. cbn -[decode_params decode_items].
  assert (params_bytes [p] = unit_bytes (param_code p) (value_of p)) as Hp.
  { unfold params_bytes. simpl. by rewrite app_nil_r, param_bytes_unit. }
  rewrite Hp, length_app in IH.
  destruct p as [pi v|pgi items]; simpl param_code; simpl value_of.
  - rewrite Pgi.code_disjoint, Pi.from_code_code. exact IH.
  - rewrite Pgi.pgi_from_code_code, decode_group by done. exact IH.
Qed.

Lemma param_wf_value p : param_wf p → value_of p ≠ [].
Proof.
  destruct p as [pi v|pgi items]; simpl; [by intros []|].
  intros (Hne&_&_). destruct items as [|[pi v] items]; [done|]. rewrite items_bytes_cons.
  intros E. apply (f_equal length) in E. rewrite length_app, length_unit_bytes in E.
  pose proof (unit_len_ge (length v)). simpl in E. lia.
Qed.

Lemma params_small ps :
  Forall param_wf ps → (length (params_bytes ps) ≤ MAX_FPDU_LEN)%nat →
  Forall (λ p, param_wf p ∧ small_value (value_of p)) ps ∧ (length ps ≤ length (params_bytes ps))%nat.
Proof.
  induction 1 as [|p ps Hp Hps IH]; [by split; [constructor|]|].
  change (params_bytes (p :: ps)) with (param_bytes p ++ params_bytes ps).
  rewrite param_bytes_unit, length_app, length_unit_bytes. intros Hl.
  pose proof (unit_len_ge (length (value_of p))). destruct IH as [IH ?]; [lia|].
  split; [|simpl; lia]. constructor; [|done]. split; [done|]. split; [by apply param_wf_value|lia].
Qed.

Lemma decode_body_wf strict f :
  wf f → FpduKind.is_data (kind f) = false →
  decode_params (S (length (body_bytes f))) strict (body_bytes f) 0 0 [] = Ok (params f).
Proof.
  intros Hf Hk. pose proof (wf_len f Hf) as Hl. rewrite <-length_fpdu_bytes in Hl.
  unfold fpdu_bytes in Hl. rewrite !length_app in Hl. simpl in Hl.
  unfold body_bytes in *. rewrite Hk in *. fold (params_bytes (params f)) in *.
  destruct (params_small (params f)) as [Hs ?]; [apply Hf|lia|].
  apply (decode_params_at strict (params f) [] _ 0); [done|apply Hf|lia].
Qed.

(** ** Decoding what was encoded *)

Lemma decode_items_S fuel strict pgi value ipos last items :
  decode_items (S fuel) strict pgi value ipos last items =
    ltac:(let t := eval cbn [decode_items] in
            (decode_items (S fuel) strict pgi value ipos last items) in exact t).
Proof. done. Qed.
Lemma decode_params_S fuel strict body pos last ps :
  decode_params (S fuel) strict body pos last ps =
    ltac:(let t := eval cbn [decode_params] in
            (decode_params (S fuel) strict body pos last ps) in exact t).
Proof. done. Qed.

#[local] Arguments decode_params : simpl never.
#[local] Arguments decode_items : simpl never.

Lemma encoded_len_ge f : (HEADER_LEN ≤ encoded_len f)%nat.
Proof. unfold encoded_len. destruct (FpduKind.is_data _); lia. Qed.

Lemma decode_with_bytes f strict :
  wf f →
  decode_with (fpdu_bytes f) strict
    = if FpduKind.is_data (kind f) || negb strict then Ok f
      else validate_template f ;; Ok f.
Proof.
  intros Hf. pose proof (wf_len f Hf) as Hl. pose proof (length_fpdu_bytes f) as Hlen.
  pose proof (encoded_len_ge f) as Hge. unfold decode_with. rewrite Hlen.
  destruct (Nat.ltb_spec (encoded_len f) HEADER_LEN); [lia|].
  unfold idx. unfold fpdu_bytes at 1 2 3 4 5 6. simpl.
  unfold MAX_FPDU_LEN in Hl. rewrite of_be16_be16 by (unfold u16_ok; lia).
  rewrite Nat2Z.id, Nat.eqb_refl. simpl.
  rewrite FpduKind.from_codes_codes. simpl. unfold slice.
  match goal with |- context [get_range ?l _ _] => change l with (fpdu_bytes f) end.
  assert (get_range (fpdu_bytes f) HEADER_LEN (encoded_len f) = Some (body_bytes f)) as ->.
  { rewrite <-Hlen. apply get_range_Some. split_and!; [rewrite Hlen; lia|lia|].
    unfold fpdu_bytes. simpl. rewrite drop_0. rewrite take_ge by lia. done. }
  cbn [outcome_bind mbind]. pose proof (wf_kind f Hf) as Hk. destruct (FpduKind.is_data (kind f)) eqn:Hd; simpl.
  - unfold body_bytes. rewrite Hd. destruct f; simpl in *. by subst.
  - rewrite decode_body_wf by done. simpl.
    destruct f as [k d s ps dt]; simpl in *. subst dt. by destruct strict.
Qed.

(** ** Decoding arbitrary bytes *)

Lemma get_range_two {A} (l : list A) lo b :
  get_range l lo (lo + 2) = Some b → ∃ x y, b = [x; y] ∧ l !! lo = Some x ∧ l !! (lo + 1)%nat = Some y.
Proof.
  intros H. pose proof (get_range_length _ _ _ _ H) as Hl.
  apply get_range_Some in H as (_&Hle&->).
  destruct (take (lo + 2 - lo) (drop lo l)) as [|x [|y [|]]] eqn:E; simpl in Hl; try lia.
  exists x, y. split; [done|].
  pose proof (f_equal (.!! 0%nat) E) as E0. pose proof (f_equal (.!! 1%nat) E) as E1.
  simpl in E0, E1. rewrite lookup_take_lt in E0, E1 by lia.
  rewrite lookup_drop in E0, E1. by rewrite Nat.add_0_r in E0.
Qed.

Lemma bytes_ok_lookup l i b : bytes_ok l → l !! i = Some b → byte_ok b.
Proof. intros Hl Hi. by apply (Forall_lookup_1 _ _ _ _ Hl Hi). Qed.

(** The length indicator: its value and the position of the value. *)
Lemma unit_li_spec {buf pos li code} :
  buf !! (pos + 1)%nat = Some li →
  let m := (if li =? 0xFF then
              match get_range buf (pos + 1 + 1) (pos + 1 + 3) with
              | Some b =>
                  b0 ← idx b 0; b1 ← idx b 1;
                  Ok (Z.to_nat (of_be16 b0 b1), (pos + 1 + 3)%nat)
              | None => Err (err_param (TruncatedLength code))
              end
            else Ok (Z.to_nat li, (pos + 1 + 1)%nat)) in
  m = Err (err_param (TruncatedLength code)) ∨
  ∃ len start, m = Ok (len, start) ∧ (pos + 2 ≤ start ≤ length buf)%nat
    ∧ (bytes_ok buf → (pos + unit_len len ≤ start + len)%nat).
Proof.
  intros Hli. pose proof (lookup_lt_Some _ _ _ Hli) as Hlt. cbv zeta.
  destruct (Z.eqb_spec li 255) as [->|Hne].
  - replace (pos + 1 + 3)%nat with (pos + 1 + 1 + 2)%nat by lia.
    destruct (get_range _ _ _) as [b|] eqn:Hr; [right|by left].
    pose proof Hr as (_&Hle&_)%get_range_Some.
    apply get_range_two in Hr as (x&y&->&_&_). eexists _, _. split; [done|]. split; [lia|].
    intros _. unfold unit_len. destruct (_ <? _)%nat; lia.
  - right. eexists _, _. split; [done|]. split; [lia|]. intros Hb.
    pose proof (bytes_ok_lookup _ _ _ Hb Hli) as Hr. unfold byte_ok in Hr.
    unfold unit_len. destruct (Nat.ltb_spec (Z.to_nat li) 255); lia.
Qed.

Lemma read_unit_safe buf pos :
  bytes_ok buf → (pos < length buf)%nat →
  safe (read_unit buf pos) (λ r, let '(code, value, next) := r in
    (pos < next ≤ length buf)%nat ∧ value ≠ [] ∧ byte_ok code ∧ bytes_ok value
    ∧ (pos + unit_len (length value) ≤ next)%nat).
Proof.
  intros Hb Hp. unfold read_unit. eapply safe_bind; [apply safe_idx with (P := byte_ok); [done|]|].
  { intros code. by apply bytes_ok_lookup. }
  intros code Hcode. destruct (buf !! (pos + 1)%nat) as [li|] eqn:Hli; [|done].
  destruct (unit_li_spec (code:=code) Hli) as [->|(len&start&->&Hs&Hu)]; [done|].
  cbn [mbind outcome_bind]. destruct (Nat.eqb_spec len 0) as [|Hlen]; [done|].
  destruct (Nat.ltb_spec (length buf) (start + len)) as [|Hfit].
  { unfold sub_usize. destruct (Nat.leb_spec start (length buf)); [done|lia]. }
  rewrite slice_ok by lia. simpl. replace (start + len - start)%nat with len by lia.
  assert (length (take len (drop start buf)) = len) as El by (rewrite length_take, length_drop; lia).
  split; [lia|]. split. { intros E. rewrite E in El. simpl in El. lia. }
  split_and!; [done|auto with bytes|]. rewrite El. by apply Hu.
Qed.

Definition item_ok (i : Pi * bytes) : Prop := i.2 ≠ [] ∧ bytes_ok i.2.

Lemma decode_items_safe strict pgi value fuel ipos last items :
  bytes_ok value → (ipos ≤ length value)%nat → (length value - ipos < fuel)%nat →
  (items = [] → last = 0) →
  safe (decode_items fuel strict pgi value ipos last items) (λ r, ∃ new,
    r = items ++ new ∧ Forall item_ok new
    ∧ ((ipos < length value)%nat → new ≠ [])
    ∧ (ipos + length (items_bytes new) ≤ length value)%nat
    ∧ (strict = true → ascending last (item_codes new) = true
         ∧ Forall (λ i, Pgi.contains pgi i.1 = true) new)).
Proof.
  intros Hb. revert ipos last items.
  induction fuel as [|fuel IH]; intros ipos last items Hp Hf H0; [lia|]. rewrite decode_items_S.
  destruct (Nat.ltb_spec ipos (length value)) as [Hlt|Hge].
  2:{ exists []. rewrite app_nil_r. split_and!; [done|constructor|lia|simpl; lia|done]. }
  eapply safe_bind; [by apply read_unit_safe|]. intros [[code v] next] (Hn&Hv&Hc&Hvb&Hu).
  eapply safe_bind; [apply safe_ok_or with (P := λ pi, Pi.code pi = code)|].
  { intros pi. apply Pi.code_from_code. }
  intros pi <-. destruct (strict && negb (Pgi.contains pgi pi)) eqn:Hcon; [done|].
  destruct (strict && (_ && _)) eqn:Hord; [done|].
  eapply safe_mono; [apply IH; [lia..|intros E; by destruct items]|].
  intros r (new&->&Hi&_&Hlen&Hs). exists ((pi, v) :: new).
  rewrite items_bytes_cons, length_app, length_unit_bytes, <-app_assoc.
  split_and!; [done|by constructor|done|lia|]. intros ->. destruct (Hs eq_refl) as [Ha Hall].
  apply negb_false_iff in Hcon. split; [|by constructor]. simpl. rewrite Ha, andb_true_r.
  apply Z.ltb_lt. simpl in Hord. apply andb_false_iff in Hord as [?%Z.leb_gt|Hnil]; [done|].
  apply negb_false_iff, bool_decide_eq_true in Hnil. rewrite (H0 Hnil).
  pose proof (Pi.code_range pi). lia.
Qed.

Lemma decode_group_safe strict pgi value :
  bytes_ok value → value ≠ [] →
  safe (decode_items (S (length value)) strict pgi value 0 0 []) (λ items,
    (length (items_bytes items) ≤ length value)%nat ∧ (strict = true → items_wf pgi items)).
Proof.
  intros Hb Hv. eapply safe_mono; [apply decode_items_safe; [done|lia..|done]|].
  intros r (new&->&Hi&Hne&Hlen&Hs). simpl. split; [done|]. intros Ht.
  destruct (Hs Ht) as [Ha Hc]. assert (0 < length value)%nat by (destruct value; simpl; [done|lia]).
  split_and!; [by apply Hne|done|]. apply (Forall_impl _ _ _ (proj2 (Forall_and _ _) (conj Hi Hc))).
  by intros i [[??] ?].
Qed.

Lemma param_code_pos p : 1 ≤ param_code p.
Proof. destruct p; [apply Pi.code_range|apply Pgi.pgi_code_range]. Qed.

Lemma decode_params_safe strict body fuel pos last ps :
  bytes_ok body → (pos ≤ length body)%nat → (length body - pos < fuel)%nat →
  (ps = [] → last = 0) →
  safe (decode_params fuel strict body pos last ps) (λ r, ∃ new,
    r = ps ++ new ∧ (pos + length (params_bytes new) ≤ length body)%nat
    ∧ (strict = true → ascending last (param_codes new) = true ∧ Forall param_wf new)).
Proof.
  intros Hb. revert pos last ps.
  induction fuel as [|fuel IH]; intros pos last ps Hp Hf H0; [lia|]. rewrite decode_params_S.
  destruct (Nat.ltb_spec pos (length body)) as [Hlt|Hge].
  2:{ exists []. rewrite app_nil_r. split_and!; [done|simpl; lia|by split; [|constructor]]. }
  eapply safe_bind; [by apply read_unit_safe|]. intros [[code v] next] (Hn&Hv&Hc&Hvb&Hu).
  destruct (((code <=? last) && _) && strict) eqn:Hord; [done|].
  set (last' := if _ : bool then last else code).
  (* One more parameter, whose code is [code] and whose encoding fits. *)
  assert (∀ p, param_code p = code → (length (param_bytes p) ≤ next - pos)%nat →
      (strict = true → param_wf p) →
      safe (decode_params fuel strict body next last' (ps ++ [p])) (λ r, ∃ new,
        r = ps ++ new ∧ (pos + length (params_bytes new) ≤ length body)%nat
        ∧ (strict = true → ascending last (param_codes new) = true ∧ Forall param_wf new))) as Hone.
  { intros p Hpc Hlen Hw. eapply safe_mono; [apply IH; [lia..|intros E; by destruct ps]|].
    intros r (new&->&Hl&Hs). exists (p :: new).
    change (params_bytes (p :: new)) with (param_bytes p ++ params_bytes new).
    rewrite <-app_assoc, length_app. split_and!; [done|lia|].
    intros ->. destruct (Hs eq_refl) as [Ha Hall]. split; [|auto]. simpl. rewrite Hpc.
    rewrite andb_true_r in Hord. unfold last' in Ha. rewrite Hord in Ha. rewrite Ha, andb_true_r.
    apply Z.ltb_lt. apply andb_false_iff in Hord as [?%Z.leb_gt|Hnil]; [done|].
    apply negb_false_iff, bool_decide_eq_true in Hnil. rewrite (H0 Hnil), <-Hpc.
    pose proof (param_code_pos p). lia. }
  destruct (Pgi.from_code code) as [pgi|] eqn:Hg.
  - eapply safe_bind; [by apply decode_group_safe|]. intros items [Hl Hw].
    apply Hone; [by apply Pgi.pgi_code_from_code| |done]. rewrite param_bytes_unit, length_unit_bytes.
    pose proof (unit_len_le _ _ Hl). simpl. lia.
  - destruct (Pi.from_code code) as [pi|] eqn:Hpi; [|done].
    apply Hone; [by apply Pi.code_from_code| |done]. rewrite param_bytes_unit, length_unit_bytes.
    simpl. lia.
Qed.

(** ** Template validation *)

(** What the templates ask of an FPDU: every parameter is in the template of
    the kind, with a value that is not too long when it is outside a group; every
    group has its mandatory members, and every mandatory parameter is present. *)
Record conforms (f : Fpdu) : Prop := mk_conforms {
  conforms_known : ∀ p, p ∈ params f →
    ∃ r, r ∈ FpduKind.template (kind f) ∧ rule_code r = param_code p;
  conforms_length : ∀ pi v, Param_Pi pi v ∈ params f →
    Pi.max_len pi = 0%nat ∨ (length v ≤ Pi.max_len pi)%nat;
  conforms_members : ∀ pgi items pi, Param_Pgi pgi items ∈ params f →
    (pi, true) ∈ Pgi.members pgi → ∃ v, (pi, v) ∈ items;
  conforms_mandatory : ∀ r, r ∈ FpduKind.template (kind f) → mandatory r = true →
    ∃ p, p ∈ params f ∧ param_code p = rule_code r;
}.

Lemma find_None_iff {A} (p : A → bool) l :
  List.find p l = None ↔ ∀ x, x ∈ l → p x = false.
Proof.
  split.
  - intros H x Hx. eapply List.find_none; [done|]. by apply list_elem_of_In.
  - induction l as [|y l IH]; intros H; [done|]. simpl.
    rewrite (H y) by left. apply IH. intros x Hx. apply H. by right.
Qed.

Lemma existsb_elem {A} (p : A → bool) l : existsb p l = true ↔ ∃ x, x ∈ l ∧ p x = true.
Proof. rewrite existsb_exists. by setoid_rewrite list_elem_of_In. Qed.

Lemma value_len_ok_spec pi v :
  value_len_ok pi v = true ↔ Pi.max_len pi = 0%nat ∨ (length v ≤ Pi.max_len pi)%nat.
Proof. unfold value_len_ok. by rewrite orb_true_iff, Nat.eqb_eq, Nat.leb_le. Qed.

Lemma has_item_spec pi items : has_item pi items = true ↔ ∃ v, (pi, v) ∈ items.
Proof.
  unfold has_item. rewrite existsb_elem. split.
  - intros ([q v]&Hin&Hq%bool_decide_eq_true). simpl in Hq. subst. by exists v.
  - intros [v Hv]. exists (pi, v). split; [done|]. by apply bool_decide_eq_true.
Qed.

Lemma missing_member_None pgi items :
  missing_member pgi items = None ↔
  ∀ pi, (pi, true) ∈ Pgi.members pgi → ∃ v, (pi, v) ∈ items.
Proof.
  unfold missing_member. rewrite find_None_iff. split.
  - intros H pi Hin. specialize (H _ Hin). simpl in H. apply has_item_spec.
    by apply negb_false_iff.
  - intros H [pi man] Hin. simpl. destruct man; [|done]. simpl. apply negb_false_iff.
    by apply has_item_spec, H.
Qed.

Definition param_conforms (k : FpduKind) (p : Param) : Prop :=
  (∃ r, r ∈ FpduKind.template k ∧ rule_code r = param_code p) ∧
  match p with
  | Param_Pi pi v => Pi.max_len pi = 0%nat ∨ (length v ≤ Pi.max_len pi)%nat
  | Param_Pgi pgi items => ∀ pi, (pi, true) ∈ Pgi.members pgi → ∃ v, (pi, v) ∈ items
  end.

Lemma check_param_safe k p : no_panic (check_param k p).
Proof. unfold check_param. by repeat case_match. Qed.

Lemma check_param_ok k p : check_param k p = Ok tt ↔ param_conforms k p.
Proof.
  unfold check_param, param_conforms.
  destruct (existsb _ _) eqn:He; simpl.
  - apply existsb_elem in He as (r&Hr&Hc%Z.eqb_eq).
    assert (∃ r, r ∈ FpduKind.template k ∧ rule_code r = param_code p) as Hex by (by exists r).
    destruct p as [pi v|pgi items].
    + rewrite <-value_len_ok_spec. destruct (value_len_ok pi v); naive_solver.
    + rewrite <-missing_member_None. destruct (missing_member pgi items) as [[]|]; naive_solver.
  - split; [done|]. intros [(r&Hr&Hc) _].
    assert (existsb (λ r, rule_code r =? param_code p) (FpduKind.template k) = true); [|congruence].
    apply existsb_elem. exists r. split; [done|]. by apply Z.eqb_eq.
Qed.

Lemma check_params_ok k ps : check_params k ps = Ok tt ↔ ∀ p, p ∈ ps → param_conforms k p.
Proof.
  induction ps as [|p ps IH]; cbn [check_params].
  { split; [|done]. intros _ p Hp. by apply not_elem_of_nil in Hp. }
  rewrite bind_ok. setoid_rewrite elem_of_cons. split.
  - intros ([]&H1&H2) q [->|]; [by apply check_param_ok|]. by apply IH.
  - intros H. exists tt. split; [apply check_param_ok|apply IH]; auto.
Qed.

Lemma missing_rule_None k ps :
  missing_rule k ps = None ↔ ∀ r, r ∈ FpduKind.template k → mandatory r = true →
    ∃ p, p ∈ ps ∧ param_code p = rule_code r.
Proof.
  unfold missing_rule. rewrite find_None_iff. split.
  - intros H r Hr Hm. specialize (H r Hr). rewrite Hm in H. simpl in H.
    apply negb_false_iff, existsb_elem in H as (p&Hp&Hc%Z.eqb_eq). by exists p.
  - intros H r Hr. destruct (mandatory r) eqn:Hm; [|done]. simpl. apply negb_false_iff, existsb_elem.
    destruct (H r Hr Hm) as (p&Hp&Hc). exists p. split; [done|]. by apply Z.eqb_eq.
Qed.

Lemma validate_template_ok f : validate_template f = Ok tt ↔ conforms f.
Proof.
  unfold validate_template. rewrite bind_ok. split.
  - intros ([]&Hc&Hm). destruct (missing_rule _ _) eqn:Hr; [done|].
    pose proof (proj1 (check_params_ok _ _) Hc) as Hp. constructor.
    + intros p Hin. by apply Hp.
    + intros pi v Hin. by apply (Hp _ Hin).
    + intros pgi items pi Hin. by apply (Hp _ Hin).
    + by apply missing_rule_None.
  - intros [H1 H2 H3 H4]. exists tt. split.
    + apply check_params_ok. intros p Hin. split; [by apply H1|]. destruct p; eauto.
    + by rewrite (proj2 (missing_rule_None _ _) H4).
Qed.

Lemma validate_template_no_panic f : no_panic (validate_template f).
Proof.
  unfold validate_template. apply no_panic_bind; [|by intros; case_match].
  induction (params f) as [|p ps IH]; cbn [check_params]; [done|].
  apply no_panic_bind; [apply check_param_safe|done].
Qed.

(** ** The decoder on arbitrary bytes *)

Lemma data_template k : FpduKind.is_data k = true → FpduKind.template k = [].
Proof. by destruct k. Qed.

Lemma data_conforms f : wf f → FpduKind.is_data (kind f) = true → conforms f.
Proof.
  intros Hf Hk. pose proof (wf_kind f Hf) as Hp. rewrite Hk in Hp.
  constructor; rewrite ?Hp, ?data_template by done; intros *; rewrite elem_of_nil; done.
Qed.

Lemma decode_with_safe b strict :
  bytes_ok b →
  safe (decode_with b strict) (λ f, (encoded_len f ≤ length b)%nat
    ∧ (strict = true → wf f ∧ conforms f)).
Proof.
  intros Hb. unfold decode_with. destruct (Nat.ltb_spec (length b) HEADER_LEN) as [|Hlen]; [done|].
  unfold HEADER_LEN in Hlen.
  pose proof (λ i x, bytes_ok_lookup b i x Hb) as Hbyte.
  eapply safe_bind; [apply safe_idx; [lia|apply Hbyte]|]. intros b0 H0.
  eapply safe_bind; [apply safe_idx; [lia|apply Hbyte]|]. intros b1 H1.
  cbv zeta. destruct (Nat.eqb_spec (Z.to_nat (of_be16 b0 b1)) (length b)) as [Hd|]; [|done].
  pose proof (of_be16_range _ _ H0 H1) as Hr. unfold u16_ok in Hr. cbn [negb].
  eapply safe_bind; [apply safe_idx; [lia|apply Hbyte]|]. intros b2 _.
  eapply safe_bind; [apply safe_idx; [lia|apply Hbyte]|]. intros b3 _.
  eapply safe_bind; [apply safe_ok_or with (P := λ _, True); done|]. intros k _.
  eapply safe_bind; [apply safe_idx; [lia|apply Hbyte]|]. intros b4 H4.
  eapply safe_bind; [apply safe_idx; [lia|apply Hbyte]|]. intros b5 H5.
  set (body := take (length b - HEADER_LEN) (drop HEADER_LEN b)).
  assert (bytes_ok body) as Hbody by (unfold body; auto with bytes).
  assert (length body = (length b - HEADER_LEN)%nat) as Hbl.
  { unfold body. rewrite length_take, length_drop. lia. }
  eapply safe_bind; [apply safe_slice with (P := λ s, s = body); [unfold HEADER_LEN; lia..|done]|].
  intros ? ->. unfold HEADER_LEN in *. destruct (FpduKind.is_data k) eqn:Hk.
  - assert (encoded_len (mkFpdu k b4 b5 [] body) = length b) as He.
    { unfold encoded_len, HEADER_LEN. simpl. rewrite Hk. lia. }
    simpl. split; [lia|]. intros _.
    assert (wf (mkFpdu k b4 b5 [] body)) as Hw.
    { constructor; simpl; rewrite ?Hk; try done. rewrite He.
      unfold MAX_FPDU_LEN. lia. }
    split; [done|]. by apply data_conforms.
  - eapply safe_bind; [apply decode_params_safe; [done|lia..|done]|].
    intros ps (new&->&Hl&Hs). simpl app in *.
    assert (encoded_len (mkFpdu k b4 b5 new []) ≤ length b)%nat as He.
    { unfold encoded_len, HEADER_LEN. simpl. rewrite Hk.
      unfold params_bytes in Hl. rewrite length_params_bytes in Hl. lia. }
    destruct strict; [|done]. destruct (Hs eq_refl) as [Ha Hw].
    pose proof (validate_template_no_panic (mkFpdu k b4 b5 new [])) as Hnp.
    destruct (validate_template _) as [[]| |] eqn:Hv; [|done|done]. simpl. split; [done|].
    intros _. split; [|by apply validate_template_ok].
    constructor; simpl; rewrite ?Hk; try done; [constructor|]. unfold MAX_FPDU_LEN. lia.
Qed.

Lemma decode_with_panics_not b strict : bytes_ok b → no_panic (decode_with b strict).
Proof. intros Hb. eapply safe_no_panic. by apply decode_with_safe. Qed.

(** What the strict decoder accepts, the lenient decoder reads the same way. *)
Lemma decode_items_lenient pgi value fuel ipos last items r :
  decode_items fuel true pgi value ipos last items = Ok r →
  decode_items fuel false pgi value ipos last items = Ok r.
Proof.
  revert ipos last items. induction fuel as [|fuel IH]; intros ipos last items; [done|].
  rewrite !decode_items_S. destruct (_ <? _)%nat; [|done].
  destruct (read_unit value ipos) as [[[code v] next]| |]; simpl; [|done..].
  destruct (Pi.from_code code) as [pi|]; simpl; [|done].
  destruct (negb _); [done|]. destruct (_ && _); [done|]. apply IH.
Qed.

Lemma decode_params_lenient body fuel pos last ps r :
  decode_params fuel true body pos last ps = Ok r →
  decode_params fuel false body pos last ps = Ok r.
Proof.
  revert pos last ps. induction fuel as [|fuel IH]; intros pos last ps; [done|].
  rewrite !decode_params_S. destruct (_ <? _)%nat; [|done].
  destruct (read_unit body pos) as [[[code v] next]| |]; cbn [mbind outcome_bind]; [|done..].
  rewrite andb_true_r, andb_false_r. destruct (_ && _); [done|].
  destruct (Pgi.from_code code) as [pgi|].
  - destruct (decode_items _ true _ _ _ _ _) as [items| |] eqn:Hi; cbn [mbind outcome_bind]; [|done..].
    rewrite (decode_items_lenient _ _ _ _ _ _ _ Hi). apply IH.
  - destruct (Pi.from_code code); [apply IH|done].
Qed.

Lemma decode_strict_lenient b f : decode_with b true = Ok f → decode_with b false = Ok f.
Proof.
  unfold decode_with. destruct (_ <? _)%nat; [done|].
  destruct (idx b 0); cbn [mbind outcome_bind]; [|done..].
  destruct (idx b 1); cbn [mbind outcome_bind]; [|done..]. destruct (negb _); [done|].
  destruct (idx b 2); cbn [mbind outcome_bind]; [|done..].
  destruct (idx b 3); cbn [mbind outcome_bind]; [|done..].
  destruct (ok_or _ _) as [k| |]; cbn [mbind outcome_bind]; [|done..].
  destruct (idx b 4); cbn [mbind outcome_bind]; [|done..].
  destruct (idx b 5); cbn [mbind outcome_bind]; [|done..].
  destruct (slice b _ _) as [body| |]; cbn [mbind outcome_bind]; [|done..].
  destruct (FpduKind.is_data k); [done|].
  destruct (decode_params _ true _ _ _ _) as [ps| |] eqn:Hp; cbn [mbind outcome_bind]; [|done..].
  rewrite (decode_params_lenient _ _ _ _ _ _ Hp). cbn [mbind outcome_bind].
  by destruct (validate_template _).
Qed.

Lemma fpdu_bytes_ok f : wf f → bytes_ok (fpdu_bytes f).
Proof.
  intros Hf. unfold fpdu_bytes. pose proof (FpduKind.codes_byte_ok (kind f)) as [??].
  apply bytes_ok_app. split; [auto with bytes|].
  repeat (apply bytes_ok_cons; split); [done|done|apply Hf..|].
  unfold body_bytes. destruct (FpduKind.is_data _); [apply Hf|].
  pose proof (wf_params f Hf) as Hp. induction Hp as [|p ps Hp _ IH]; [constructor|].
  simpl. apply bytes_ok_app. split; [|done]. destruct p as [pi v|pgi items]; simpl.
  - destruct Hp. auto with bytes.
  - apply unit_bytes_ok; [auto with bytes|]. destruct Hp as (_&_&Hi).
    induction Hi as [|[pi v] items (?&?&?) _ IHi]; [constructor|].
    rewrite items_bytes_cons. apply bytes_ok_app. split; [|done]. auto with bytes.
Qed.

Lemma decode_encode_wf f :
  wf f → conforms f → decode (fpdu_bytes f) = Ok f ∧ decode_lenient (fpdu_bytes f) = Ok f.
Proof.
  intros Hf Hc. unfold decode, decode_lenient. rewrite !decode_with_bytes by done.
  rewrite orb_true_r, orb_false_r, (proj2 (validate_template_ok f) Hc).
  by destruct (FpduKind.is_data _).
Qed.

(** ** What the encoder refuses *)

Lemma encode_items_spec items inner :
  match encode_items items inner with
  | Ok b => Forall (λ i, i.2 ≠ []) items
  | Err e => ∃ pi, (pi, []) ∈ items ∧ e = EmptyValue (Pi.code pi)
  | Panic => False
  end.
Proof.
  revert inner. induction items as [|[pi v] items IH]; intros inner; simpl; [done|].
  destruct (bool_decide_reflect (v = [])) as [->|Hv].
  - exists pi. split; [by left|done].
  - specialize (IH (push_unit inner (Pi.code pi) v)).
    destruct (encode_items _ _); [by constructor| |done].
    destruct IH as (q&?&->). exists q. split; [by right|done].
Qed.

Definition has_empty (code : Z) (p : Param) : Prop :=
  match p with
  | Param_Pi pi v => v = [] ∧ Pi.code pi = code
  | Param_Pgi _ items => ∃ pi, (pi, []) ∈ items ∧ Pi.code pi = code
  end.

Lemma encode_params_spec ps out :
  match (encode_params ps out).2 with
  | Ok _ => ∀ c p, p ∈ ps → ¬ has_empty c p
  | Err e => ∃ c p, p ∈ ps ∧ has_empty c p ∧ e = EmptyValue c
  | Panic => False
  end.
Proof.
  revert out. induction ps as [|p ps IH]; intros out; simpl.
  { intros c p Hp. by apply elem_of_nil in Hp. }
  assert (∀ q out', (∀ c, ¬ has_empty c q) → match (encode_params ps out').2 with
    | Ok _ => ∀ c p, p ∈ q :: ps → ¬ has_empty c p
    | Err e => ∃ c p, p ∈ q :: ps ∧ has_empty c p ∧ e = EmptyValue c
    | Panic => False end) as Hstep.
  { intros q out' Hq. specialize (IH out'). destruct (encode_params ps out').2; [|destruct IH as (c&p'&?&?&->)|done].
    - intros c p' [->|Hp']%elem_of_cons; [done|eauto].
    - exists c, p'. split_and!; [by right|done..]. }
  destruct p as [pi v|pgi items]; simpl.
  - destruct (bool_decide_reflect (v = [])) as [->|Hv]; simpl.
    + exists (Pi.code pi), (Param_Pi pi []). split_and!; [by left|done..].
    + apply Hstep. by intros c [].
  - pose proof (encode_items_spec items []) as Hi. destruct (encode_items items []); simpl; [| |done].
    + apply Hstep. intros c (pi&Hin&_). rewrite Forall_forall in Hi. by apply (Hi _ Hin).
    + destruct Hi as (pi&?&->). exists (Pi.code pi), (Param_Pgi pgi items).
      split_and!; [by left|by exists pi|done].
Qed.

Lemma length_encode_items items inner b :
  encode_items items inner = Ok b → length b = (length inner + items_len items)%nat.
Proof.
  revert inner. induction items as [|[pi v] items IH]; intros inner; cbn [encode_items].
  { intros [= ->]. change (items_len []) with 0%nat. lia. }
  destruct (bool_decide _); [done|]. intros ->%IH.
  rewrite push_unit_app, length_app, length_unit_bytes.
  change (items_len ((pi, v) :: items)) with (unit_len (length v) + items_len items)%nat. lia.
Qed.

Lemma length_encode_params ps out :
  (encode_params ps out).2 = Ok tt →
  length (encode_params ps out).1 = (length out + length (params_bytes ps))%nat.
Proof.
  unfold params_bytes. revert out. induction ps as [|p ps IH]; intros out; simpl; [lia|].
  rewrite length_app. destruct p as [pi v|pgi items]; simpl.
  - destruct (bool_decide _); [done|]. intros ->%IH. rewrite push_unit_app, length_app. lia.
  - destruct (encode_items items []) as [inner| |] eqn:Hi; [|done..]. intros ->%IH.
    apply length_encode_items in Hi. simpl in Hi.
    rewrite push_unit_app, !length_app, !length_unit_bytes, Hi, length_items_bytes. lia.
Qed.

(** ** Theorems *)

(** C1: the wire format round-trips. Every well-formed FPDU whose parameters
    conform to the template of its kind is encoded, into as many bytes as
    [encoded_len] announces, and both the strict and the lenient decoder read
    back the same FPDU from these bytes. *)
Theorem decode_encode f :
  wf f → conforms f →
  ∃ b, encode f = Ok b ∧ length b = encoded_len f ∧ bytes_ok b
       ∧ decode b = Ok f ∧ decode_lenient b = Ok f.
Proof.
  intros Hf Hc. exists (fpdu_bytes f). destruct (decode_encode_wf f Hf Hc).
  auto using encode_wf, length_fpdu_bytes, fpdu_bytes_ok.
Qed.

(** A file creation with its groups. *)
Definition sample_create : Fpdu :=
  let f := with_ids (new FpduKind.Create) 0x62 0 in
  let f := set_pgi f Pgi.FileId [(Pi.FileName, [80; 87; 83; 69; 78; 68]); (Pi.FileType, [0])] in
  let f := set_num f Pi.TransferId 0x1234 in
  let f := set_num f Pi.Priority 0 in
  let f := set_num f Pi.MaxEntitySize 32768 in
  let f := set_pgi f Pgi.LogicalAttributes [(Pi.ArticleFormat, [0x80]); (Pi.ArticleLength, [0x10; 0])] in
  let f := set_pgi f Pgi.PhysicalAttributes [(Pi.MaxReservation, [5])] in
  set_pgi f Pgi.HistoricalAttributes [(Pi.CreationDate, [50; 54; 48; 56; 50; 56; 49; 50; 48; 48; 48; 48])].

Lemma sample_create_wf : wf sample_create.
Proof. by_compute. Qed.
Lemma sample_create_conforms : conforms sample_create.
Proof. apply validate_template_ok. vm_compute. reflexivity. Qed.

Example decode_encode_witness :
  ∃ b, encode sample_create = Ok b ∧ length b = 60%nat ∧ decode b = Ok sample_create.
Proof.
  destruct (decode_encode sample_create sample_create_wf sample_create_conforms)
    as (b&He&Hl&_&Hd&_).
  exists b. split; [exact He|]. split; [|exact Hd]. rewrite Hl. vm_compute. reflexivity.
Defined.

(** C28: what the strict decoder accepts. On any bytes the decoders do not panic
    (no index out of range, no loop without progress); an FPDU accepted by the
    strict decoder is well formed (parameters in ascending order of code, no
    empty value or group, only members inside a group, 16-bit length) and
    conforms to its template (nothing unknown, no mandatory parameter or member
    of a group missing, and no parameter outside the groups longer than the
    catalogue allows; the members of a group are not measured, see
    [FileSpecProps.long_member_accepted]); it is re-encoded into bytes not
    longer than the input that decode to it again; and the lenient decoder reads
    the same FPDU. *)
Theorem decode_sound b :
  bytes_ok b →
  no_panic (decode b) ∧ no_panic (decode_lenient b) ∧
  ∀ f, decode b = Ok f →
    wf f ∧ conforms f ∧ decode_lenient b = Ok f ∧
    ∃ b', encode f = Ok b' ∧ (length b' ≤ length b)%nat ∧ decode b' = Ok f.
Proof.
  intros Hb. split_and!; [by apply decode_with_panics_not..|]. intros f Hd.
  destruct (safe_ok _ _ _ (decode_with_safe b true Hb) Hd) as (Hl&Hw).
  destruct (Hw eq_refl) as [Hf Hc]. split_and!; [done..|by apply decode_strict_lenient|].
  exists (fpdu_bytes f). rewrite length_fpdu_bytes.
  split_and!; [by apply encode_wf|done|by apply decode_encode_wf].
Qed.

(** An ABORT whose diagnostic has a length indicator on three bytes. *)
Example decode_sound_witness :
  let b := [0; 13; 0x40; 0x25; 1; 2; 2; 0xFF; 0; 3; 3; 0x11; 0] in
  ∃ f, decode b = Ok f ∧ wf f ∧ ∃ b', encode f = Ok b' ∧ (length b' ≤ 13)%nat.
Proof.
  intros b. destruct (decode_sound b ltac:(by_compute)) as (_&_&H).
  eexists. split; [vm_compute; reflexivity|].
  destruct (H _ ltac:(vm_compute; reflexivity)) as (Hf&_&_&b'&He&Hl&_).
  split; [exact Hf|]. exists b'. split; [exact He|exact Hl].
Defined.

(** What the encoder refuses. Encoding never panics; it fails with
    [TooLong] exactly when the announced length does not fit 16 bits, with
    [EmptyValue] on a parameter or group member with an empty value of that
    code, and on success the bytes are as many as announced and no value is
    empty. *)
Theorem encode_spec f :
  match encode f with
  | Ok b => length b = encoded_len f ∧ (encoded_len f ≤ MAX_FPDU_LEN)%nat
      ∧ (FpduKind.is_data (kind f) = false → ∀ c p, p ∈ params f → ¬ has_empty c p)
  | Err (TooLong n) => n = encoded_len f ∧ (MAX_FPDU_LEN < encoded_len f)%nat
  | Err (EmptyValue c) => (encoded_len f ≤ MAX_FPDU_LEN)%nat
      ∧ FpduKind.is_data (kind f) = false ∧ ∃ p, p ∈ params f ∧ has_empty c p
  | Panic => False
  end.
Proof.
  unfold encode, encode_into. destruct (Nat.ltb_spec MAX_FPDU_LEN (encoded_len f)) as [|Hle]; [done|].
  cbv zeta. destruct (FpduKind.is_data (kind f)) eqn:Hk.
  - cbn -[be16 Nat.le MAX_FPDU_LEN encoded_len]. unfold encoded_len in *. rewrite Hk in *.
    rewrite !length_app. split_and!; [simpl; lia|lia|done].
  - match goal with |- context [encode_params _ ?o] => set (out := o) end.
    pose proof (encode_params_spec (params f) out) as Hs.
    pose proof (length_encode_params (params f) out) as Hl.
    destruct (encode_params (params f) out) as [b [[]|e|]]; simpl in *; [|destruct Hs as (c&p&?&?&->)|done].
    + split_and!; [|done|done]. rewrite Hl by done. unfold out, encoded_len. rewrite Hk.
      unfold params_bytes. rewrite length_params_bytes.
      unfold HEADER_LEN. lia.
    + split_and!; [done..|by exists p].
Qed.
