(* ===== verification/State.v ===== *)
(** * Protocol state tables ([crates/pesit-core/src/state.rs])

    The 54 states of the connection, file selection, file open, transfer and
    message phases, the events applied to them, the transition tables and the
    machine that keeps the current state. *)

From stdpp Require Import strings.
From S2P Require Import Prelude Kinds.

Inductive Role : Type := Requester | Server.

(** Requests and responses of the service user. *)
Inductive LocalEvent : Type :=
| L_Abort
| L_Connect
| L_Release
| L_Create
| L_Select
| L_Deselect
| L_Open
| L_Close
| L_Write
| L_Read
| L_Message
| L_Cancel
| L_SendData
| L_Sync
| L_DataEnd
| L_TransferEnd
| L_Resync
| L_Accept
| L_Reject.

Inductive Event : Type :=
| Received (kind : FpduKind) (negative : bool)
| Local (e : LocalEvent).

Module Event.
Definition received (kind : FpduKind) (negative : bool) : Event := Received kind negative.
Definition local (e : LocalEvent) : Event := Local e.
End Event.

Module State.

Inductive State : Type :=
| Cn01
| Cn02A
| Cn02B
| Cn03
| Cn04A
| Cn04B
| Sf01A
| Sf01B
| Sf02A
| Sf02B
| Sf03
| Sf04A
| Sf04B
| Of01A
| Of01B
| Of02
| Of03A
| Of03B
| Tde01A
| Tde02A
| Tde03A
| Tde04A
| Tde05A
| Tde06A
| Tde07A
| Tde08A
| Tde01B
| Tde02B
| Tde03B
| Tde04B
| Tde05B
| Tde06B
| Tde07B
| Tde08B
| Tdl01A
| Tdl02A
| Tdl03A
| Tdl04A
| Tdl05A
| Tdl06A
| Tdl07A
| Tdl08A
| Tdl01B
| Tdl02B
| Tdl03B
| Tdl04B
| Tdl05B
| Tdl06B
| Tdl07B
| Tdl08B
| Mg01A
| Mg01B
| Mg04A
| Mg04B.

Definition name (s : State) : string :=
  match s with
  | Cn01 => "Cn01"
  | Cn02A => "Cn02A"
  | Cn02B => "Cn02B"
  | Cn03 => "Cn03"
  | Cn04A => "Cn04A"
  | Cn04B => "Cn04B"
  | Sf01A => "Sf01A"
  | Sf01B => "Sf01B"
  | Sf02A => "Sf02A"
  | Sf02B => "Sf02B"
  | Sf03 => "Sf03"
  | Sf04A => "Sf04A"
  | Sf04B => "Sf04B"
  | Of01A => "Of01A"
  | Of01B => "Of01B"
  | Of02 => "Of02"
  | Of03A => "Of03A"
  | Of03B => "Of03B"
  | Tde01A => "Tde01A"
  | Tde02A => "Tde02A"
  | Tde03A => "Tde03A"
  | Tde04A => "Tde04A"
  | Tde05A => "Tde05A"
  | Tde06A => "Tde06A"
  | Tde07A => "Tde07A"
  | Tde08A => "Tde08A"
  | Tde01B => "Tde01B"
  | Tde02B => "Tde02B"
  | Tde03B => "Tde03B"
  | Tde04B => "Tde04B"
  | Tde05B => "Tde05B"
  | Tde06B => "Tde06B"
  | Tde07B => "Tde07B"
  | Tde08B => "Tde08B"
  | Tdl01A => "Tdl01A"
  | Tdl02A => "Tdl02A"
  | Tdl03A => "Tdl03A"
  | Tdl04A => "Tdl04A"
  | Tdl05A => "Tdl05A"
  | Tdl06A => "Tdl06A"
  | Tdl07A => "Tdl07A"
  | Tdl08A => "Tdl08A"
  | Tdl01B => "Tdl01B"
  | Tdl02B => "Tdl02B"
  | Tdl03B => "Tdl03B"
  | Tdl04B => "Tdl04B"
  | Tdl05B => "Tdl05B"
  | Tdl06B => "Tdl06B"
  | Tdl07B => "Tdl07B"
  | Tdl08B => "Tdl08B"
  | Mg01A => "Mg01A"
  | Mg01B => "Mg01B"
  | Mg04A => "Mg04A"
  | Mg04B => "Mg04B"
  end.

Definition description (s : State) : string :=
  match s with
  | Cn01 => "Idle (not connected)"
  | Cn02A => "Connection pending (waiting for ACONNECT/RCONNECT)"
  | Cn02B => "Connection pending (waiting for the local F.CONNECT response)"
  | Cn03 => "Connected"
  | Cn04A => "Release pending (waiting for RELCONF)"
  | Cn04B => "Release pending (waiting for the local F.RELEASE response)"
  | Sf01A => "File creation pending (waiting for ACK(CREATE))"
  | Sf01B => "File creation pending (waiting for the local F.CREATE response)"
  | Sf02A => "File selection pending (waiting for ACK(SELECT))"
  | Sf02B => "File selection pending (waiting for the local F.SELECT response)"
  | Sf03 => "File selected"
  | Sf04A => "File deselection pending (waiting for ACK(DESELECT))"
  | Sf04B => "File deselection pending (waiting for the local F.DESELECT response)"
  | Of01A => "File open pending (waiting for ACK(ORF))"
  | Of01B => "File open pending (waiting for the local F.OPEN response)"
  | Of02 => "Data transfer idle (file open)"
  | Of03A => "File close pending (waiting for ACK(CRF))"
  | Of03B => "File close pending (waiting for the local F.CLOSE response)"
  | Tde01A => "Write start pending (waiting for ACK(WRITE))"
  | Tde02A => "Writing: sending data"
  | Tde03A => "Writing: resynchronisation pending (waiting for ACK(RESYN))"
  | Tde04A => "Writing: resynchronisation pending (waiting for the local F.RESTART response)"
  | Tde05A => "Writing: interruption pending (waiting for ACK(IDT))"
  | Tde06A => "Writing: interruption pending (waiting for the local F.CANCEL response)"
  | Tde07A => "Writing: end of data sent"
  | Tde08A => "Writing: end of transfer pending (waiting for ACK(TRANS.END))"
  | Tde01B => "Write start pending (waiting for the local F.WRITE response)"
  | Tde02B => "Writing: receiving data"
  | Tde03B => "Receiving: resynchronisation pending (waiting for ACK(RESYN))"
  | Tde04B => "Receiving: resynchronisation pending (waiting for the local F.RESTART response)"
  | Tde05B => "Receiving: interruption pending (waiting for ACK(IDT))"
  | Tde06B => "Receiving: interruption pending (waiting for the local F.CANCEL response)"
  | Tde07B => "Receiving: end of data received"
  | Tde08B => "Receiving: end of transfer pending (waiting for the local F.TRANSFER.END response)"
  | Tdl01A => "Read start pending (waiting for ACK(READ))"
  | Tdl02A => "Reading: receiving data"
  | Tdl03A => "Reading: resynchronisation pending (waiting for ACK(RESYN))"
  | Tdl04A => "Reading: resynchronisation pending (waiting for the local F.RESTART response)"
  | Tdl05A => "Reading: interruption pending (waiting for ACK(IDT))"
  | Tdl06A => "Reading: interruption pending (waiting for the local F.CANCEL response)"
  | Tdl07A => "Reading: end of data received"
  | Tdl08A => "Reading: end of transfer pending (waiting for ACK(TRANS.END))"
  | Tdl01B => "Read start pending (waiting for the local F.READ response)"
  | Tdl02B => "Reading: sending data"
  | Tdl03B => "Sending: resynchronisation pending (waiting for ACK(RESYN))"
  | Tdl04B => "Sending: resynchronisation pending (waiting for the local F.RESTART response)"
  | Tdl05B => "Sending: interruption pending (waiting for ACK(IDT))"
  | Tdl06B => "Sending: interruption pending (waiting for the local F.CANCEL response)"
  | Tdl07B => "Sending: end of data sent"
  | Tdl08B => "Sending: end of transfer pending (waiting for the local F.TRANSFER.END response)"
  | Mg01A => "Message: sending segments"
  | Mg01B => "Message: receiving segments"
  | Mg04A => "Message sent (waiting for ACK(MSG))"
  | Mg04B => "Message received (waiting for the local F.MESSAGE response)"
  end.

Definition ALL : list State :=
  [Cn01; Cn02A; Cn02B; Cn03; Cn04A; Cn04B; Sf01A; Sf01B; Sf02A; Sf02B; Sf03; Sf04A; Sf04B; Of01A; Of01B; Of02; Of03A; Of03B; Tde01A; Tde02A; Tde03A; Tde04A; Tde05A; Tde06A; Tde07A; Tde08A; Tde01B; Tde02B; Tde03B; Tde04B; Tde05B; Tde06B; Tde07B; Tde08B; Tdl01A; Tdl02A; Tdl03A; Tdl04A; Tdl05A; Tdl06A; Tdl07A; Tdl08A; Tdl01B; Tdl02B; Tdl03B; Tdl04B; Tdl05B; Tdl06B; Tdl07B; Tdl08B; Mg01A; Mg01B; Mg04A; Mg04B].

Inductive Outcome : Type :=
| Next (s : State)
| Ignore
| Error.

Definition INITIAL : State := Cn01.

Definition is_sending (s : State) : bool :=
  match s with Tde02A | Tdl02B => true | _ => false end.

Definition is_receiving (s : State) : bool :=
  match s with Tde02B | Tdl02A => true | _ => false end.

Definition is_connected (s : State) : bool :=
  match s with Cn01 | Cn02A | Cn02B => false | _ => true end.

Definition in_transfer (s : State) : bool := String.prefix "Td" (name s).

(** ** The tables

    The arms of [State::apply], grouped by phase; [apply] below dispatches on
    the state as the source does. *)

Definition is_abort (e : Event) : bool :=
  match e with Local L_Abort | Received FpduKind.Abort _ => true | _ => false end.

Definition is_data_event (e : Event) : bool :=
  match e with Received k _ => FpduKind.is_data k | Local _ => false end.

Definition apply_cn01 (event : Event) : Outcome :=
  match event with
  | Local L_Connect => Next Cn02A
  | Received FpduKind.Connect false => Next Cn02B
  | _ => Error
  end.

Definition apply_cn02a (event : Event) : Outcome :=
  match event with
  | Received FpduKind.Aconnect false => Next Cn03
  | Received FpduKind.Rconnect false | Received FpduKind.Rconnect true
  | Received FpduKind.Aconnect true => Next Cn01
  | _ => Error
  end.

Definition apply_cn03 (event : Event) : Outcome :=
  match event with
  | Local L_Release => Next Cn04A
  | Received FpduKind.Release false => Next Cn04B
  | Local L_Select => Next Sf02A
  | Local L_Create => Next Sf01A
  | Received FpduKind.Select false => Next Sf02B
  | Received FpduKind.Create false => Next Sf01B
  | Local L_Message => Next Mg01A
  | Received FpduKind.Msg false => Next Mg04B
  | Received FpduKind.MsgDm false => Next Mg01B
  | _ => Error
  end.

Definition apply_cn04a (event : Event) : Outcome :=
  match event with
  | Received FpduKind.Relconf false => Next Cn01
  | _ => Error
  end.

(** The local response to an indication: the state after the positive and
    after the negative one. *)
Definition apply_response (accepted rejected : State) (event : Event) : Outcome :=
  match event with
  | Local L_Accept => Next accepted
  | Local L_Reject => Next rejected
  | _ => Error
  end.

(** The acknowledgement [ack] of a request: the state after a positive and
    after a negative one. *)
Definition apply_ack (ack : FpduKind) (positive negative : State) (event : Event) : Outcome :=
  match event with
  | Received k false => if decide (k = ack) then Next positive else Error
  | Received k true => if decide (k = ack) then Next negative else Error
  | Local _ => Error
  end.

Definition apply_sf03 (event : Event) : Outcome :=
  match event with
  | Local L_Deselect => Next Sf04A
  | Received FpduKind.Deselect false => Next Sf04B
  | Local L_Open => Next Of01A
  | Received FpduKind.Orf false => Next Of01B
  | _ => Error
  end.

Definition apply_of02 (event : Event) : Outcome :=
  match event with
  | Local L_Close => Next Of03A
  | Received FpduKind.Crf false => Next Of03B
  | Local L_Write => Next Tde01A
  | Received FpduKind.Write false => Next Tde01B
  | Local L_Read => Next Tdl01A
  | Received FpduKind.Read false => Next Tdl01B
  | _ => Error
  end.

(** Sending data: the requester that writes, the server that is read. *)
Definition apply_sending (self : State) (event : Event) : Outcome :=
  let '(s_resync_sent, s_resync_rcvd, s_idt_sent, s_idt_rcvd, s_end) :=
    match self with
    | Tde02A => (Tde03A, Tde04A, Tde05A, Tde06A, Tde07A)
    | _ => (Tdl03B, Tdl04B, Tdl05B, Tdl06B, Tdl07B)
    end in
  match event with
  | Local L_SendData | Local L_Sync | Received FpduKind.AckSyn false => Next self
  | Local L_DataEnd => Next s_end
  | Local L_Resync => Next s_resync_sent
  | Received FpduKind.Resyn false => Next s_resync_rcvd
  | Local L_Cancel => Next s_idt_sent
  | Received FpduKind.Idt false => Next s_idt_rcvd
  | _ => Error
  end.

Definition apply_sending_resync_sent (self : State) (event : Event) : Outcome :=
  let '(s_data, s_resync_rcvd, s_idt_sent, s_idt_rcvd) :=
    match self with
    | Tde03A => (Tde02A, Tde04A, Tde05A, Tde06A)
    | _ => (Tdl02B, Tdl04B, Tdl05B, Tdl06B)
    end in
  match event with
  | Received FpduKind.AckResyn false => Next s_data
  | Received FpduKind.AckSyn false | Received FpduKind.AckTransEnd false => Ignore
  | Received FpduKind.Resyn false => Next s_resync_rcvd
  | Local L_Cancel => Next s_idt_sent
  | Received FpduKind.Idt false => Next s_idt_rcvd
  | _ => Error
  end.

Definition apply_sending_resync_rcvd (self : State) (event : Event) : Outcome :=
  let '(s_data, s_resync_sent, s_idt_sent, s_idt_rcvd) :=
    match self with
    | Tde04A => (Tde02A, Tde03A, Tde05A, Tde06A)
    | _ => (Tdl02B, Tdl03B, Tdl05B, Tdl06B)
    end in
  match event with
  | Local L_Accept => Next s_data
  | Local L_Resync => Next s_resync_sent
  | Local L_DataEnd | Local L_SendData | Local L_Sync | Local L_TransferEnd => Ignore
  | Received FpduKind.AckSyn false => Ignore
  | Local L_Cancel => Next s_idt_sent
  | Received FpduKind.Idt false => Next s_idt_rcvd
  | _ => Error
  end.

Definition apply_tde07a (event : Event) : Outcome :=
  match event with
  | Local L_TransferEnd => Next Tde08A
  | Received FpduKind.AckSyn false => Next Tde07A
  | Received FpduKind.Resyn false => Next Tde04A
  | Local L_Cancel => Next Tde05A
  | Received FpduKind.Idt false => Next Tde06A
  | _ => Error
  end.

Definition apply_tde08a (event : Event) : Outcome :=
  match event with
  | Received FpduKind.AckTransEnd false | Received FpduKind.AckTransEnd true => Next Of02
  | Received FpduKind.AckSyn false => Ignore
  | Received FpduKind.Resyn false => Next Tde04A
  | Local L_Cancel => Next Tde05A
  | Received FpduKind.Idt false => Next Tde06A
  | _ => Error
  end.

Definition apply_tdl07b (event : Event) : Outcome :=
  match event with
  | Received FpduKind.TransEnd false => Next Tdl08B
  | Received FpduKind.AckSyn false => Ignore
  | Received FpduKind.Resyn false => Next Tdl04B
  | Local L_Cancel => Next Tdl05B
  | Received FpduKind.Idt false => Next Tdl06B
  | _ => Error
  end.

Definition apply_tdl08b (event : Event) : Outcome :=
  match event with
  | Local L_Accept | Local L_Reject => Next Of02
  | Local L_Resync => Next Tdl03B
  | Received FpduKind.AckSyn false => Ignore
  | _ => Error
  end.

(** Receiving data: the server that is written to, the requester that reads. *)
Definition apply_receiving (self : State) (event : Event) : Outcome :=
  let '(s_resync_sent, s_resync_rcvd, s_idt_sent, s_idt_rcvd, s_end) :=
    match self with
    | Tde02B => (Tde03B, Tde04B, Tde05B, Tde06B, Tde07B)
    | _ => (Tdl03A, Tdl04A, Tdl05A, Tdl06A, Tdl07A)
    end in
  if is_data_event event then Next self
  else
    match event with
    | Received FpduKind.Syn false | Local L_Accept => Next self
    | Received FpduKind.DtfEnd false => Next s_end
    | Local L_Resync => Next s_resync_sent
    | Received FpduKind.Resyn false => Next s_resync_rcvd
    | Local L_Cancel => Next s_idt_sent
    | Received FpduKind.Idt false => Next s_idt_rcvd
    | _ => Error
    end.

Definition apply_receiving_resync_sent (self : State) (event : Event) : Outcome :=
  let '(s_data, s_resync_rcvd, s_idt_sent, s_idt_rcvd) :=
    match self with
    | Tde03B => (Tde02B, Tde04B, Tde05B, Tde06B)
    | _ => (Tdl02A, Tdl04A, Tdl05A, Tdl06A)
    end in
  match event with
  | Received FpduKind.AckResyn false => Next s_data
  | _ =>
      if is_data_event event then Ignore
      else
        match event with
        | Received FpduKind.Syn false | Received FpduKind.DtfEnd false
        | Received FpduKind.TransEnd false => Ignore
        | Received FpduKind.Resyn false => Next s_resync_rcvd
        | Local L_Cancel => Next s_idt_sent
        | Received FpduKind.Idt false => Next s_idt_rcvd
        | _ => Error
        end
  end.

Definition apply_receiving_resync_rcvd (self : State) (event : Event) : Outcome :=
  let '(s_data, s_resync_sent, s_idt_sent, s_idt_rcvd) :=
    match self with
    | Tde04B => (Tde02B, Tde03B, Tde05B, Tde06B)
    | _ => (Tdl02A, Tdl03A, Tdl05A, Tdl06A)
    end in
  match event with
  | Local L_Accept => Next s_data
  | Local L_Resync => Next s_resync_sent
  | Local L_Sync => Ignore
  | Local L_Cancel => Next s_idt_sent
  | Received FpduKind.Idt false => Next s_idt_rcvd
  | _ => Error
  end.

Definition apply_tde07b (event : Event) : Outcome :=
  match event with
  | Received FpduKind.TransEnd false => Next Tde08B
  | Local L_Accept => Next Tde07B
  | Local L_Resync => Next Tde03B
  | Local L_Cancel => Next Tde05B
  | Received FpduKind.Idt false => Next Tde06B
  | _ => Error
  end.

Definition apply_tde08b (event : Event) : Outcome :=
  match event with
  | Local L_Accept | Local L_Reject => Next Of02
  | Local L_Resync => Next Tde03B
  | _ => Error
  end.

Definition apply_tdl07a (event : Event) : Outcome :=
  match event with
  | Local L_TransferEnd => Next Tdl08A
  | Local L_Accept => Next Tdl07A
  | Local L_Resync => Next Tdl03A
  | Local L_Cancel => Next Tdl05A
  | Received FpduKind.Idt false => Next Tdl06A
  | _ => Error
  end.

Definition apply_tdl08a (event : Event) : Outcome :=
  match event with
  | Received FpduKind.AckTransEnd false | Received FpduKind.AckTransEnd true => Next Of02
  | Local L_Cancel => Next Tdl05A
  | Received FpduKind.Idt false => Next Tdl06A
  | _ => Error
  end.

(** Interruption: both sides may send IDT, the peer's one is then answered. *)
Definition apply_idt_sent (self : State) (event : Event) : Outcome :=
  match event with
  | Received FpduKind.AckIdt false => Next Of02
  | Received FpduKind.Idt false =>
      Next (match self with
            | Tde05A => Tde06A
            | Tde05B => Tde06B
            | Tdl05A => Tdl06A
            | _ => Tdl06B
            end)
  | Received _ _ => Ignore
  | Local _ => Error
  end.

Definition apply_idt_rcvd (event : Event) : Outcome :=
  match event with
  | Local L_Accept => Next Of02
  | Received _ _ => Ignore
  | Local _ => Error
  end.

Definition apply_mg01a (event : Event) : Outcome :=
  match event with
  | Local L_SendData => Next Mg01A
  | Local L_DataEnd => Next Mg04A
  | Received FpduKind.AckMsg false | Received FpduKind.AckMsg true => Next Cn03
  | _ => Error
  end.

Definition apply_mg01b (event : Event) : Outcome :=
  match event with
  | Received FpduKind.MsgMm false => Next Mg01B
  | Received FpduKind.MsgFm false => Next Mg04B
  | _ => Error
  end.

Definition apply (self : State) (event : Event) : Outcome :=
  if is_abort event then Next Cn01
  else
    match self with
    | Cn01 => apply_cn01 event
    | Cn02A => apply_cn02a event
    | Cn02B => apply_response Cn03 Cn01 event
    | Cn03 => apply_cn03 event
    | Cn04A => apply_cn04a event
    | Cn04B => apply_response Cn01 Cn01 event
    | Sf01A => apply_ack FpduKind.AckCreate Sf03 Cn03 event
    | Sf01B | Sf02B => apply_response Sf03 Cn03 event
    | Sf02A => apply_ack FpduKind.AckSelect Sf03 Cn03 event
    | Sf03 => apply_sf03 event
    | Sf04A => apply_ack FpduKind.AckDeselect Cn03 Cn03 event
    | Of01A => apply_ack FpduKind.AckOrf Of02 Sf03 event
    | Of01B => apply_response Of02 Sf03 event
    | Of02 => apply_of02 event
    | Of03A => apply_ack FpduKind.AckCrf Sf03 Sf03 event
    | Of03B => apply_response Sf03 Sf03 event
    | Tde01A => apply_ack FpduKind.AckWrite Tde02A Of02 event
    | Tde01B => apply_response Tde02B Of02 event
    | Tdl01A => apply_ack FpduKind.AckRead Tdl02A Of02 event
    | Tdl01B => apply_response Tdl02B Of02 event
    | Tde02A | Tdl02B => apply_sending self event
    | Tde03A | Tdl03B => apply_sending_resync_sent self event
    | Tde04A | Tdl04B => apply_sending_resync_rcvd self event
    | Tde07A => apply_tde07a event
    | Tde08A => apply_tde08a event
    | Tdl07B => apply_tdl07b event
    | Tdl08B => apply_tdl08b event
    | Tde02B | Tdl02A => apply_receiving self event
    | Tde03B | Tdl03A => apply_receiving_resync_sent self event
    | Tde04B | Tdl04A => apply_receiving_resync_rcvd self event
    | Tde07B => apply_tde07b event
    | Tde08B => apply_tde08b event
    | Tdl07A => apply_tdl07a event
    | Tdl08A => apply_tdl08a event
    | Tde05A | Tde05B | Tdl05A | Tdl05B => apply_idt_sent self event
    | Tde06A | Tde06B | Tdl06A | Tdl06B => apply_idt_rcvd event
    | Mg01A => apply_mg01a event
    | Mg04A => apply_ack FpduKind.AckMsg Cn03 Cn03 event
    | Mg01B => apply_mg01b event
    | Sf04B | Mg04B => apply_response Cn03 Cn03 event
    end.

End State.

Abbreviation State := State.State.

Module Machine.

Record Machine : Type := mkMachine { role : Role; state : State }.

Record TransitionError : Type := mkTransitionError { err_state : State; err_event : Event }.

Definition new (role : Role) : Machine := mkMachine role State.INITIAL.

(** [true] when the event was ignored; the state changes on [Next] only. *)
Definition apply (m : Machine) (event : Event) : Machine * (bool + TransitionError) :=
  match State.apply (state m) event with
  | State.Next s => (mkMachine (role m) s, inl false)
  | State.Ignore => (m, inl true)
  | State.Error => (m, inr (mkTransitionError (state m) event))
  end.

Definition accepts (m : Machine) (event : Event) : bool :=
  match State.apply (state m) event with State.Error => false | _ => true end.

Definition reset (m : Machine) : Machine := mkMachine (role m) State.INITIAL.

End Machine.

Abbreviation Machine := Machine.Machine.
