(* ===== verification/StateProps.v ===== *)
(** * The protocol state machine: properties

    Exhaustive facts about the transition tables of [State], and the service
    exchanges of two machines that talk to each other. *)

From S2P Require Import Prelude Kinds State.
Local Open Scope nat_scope.
Import State.

(** ** Quantification over states and events *)

#[global] Instance state_eq_dec : EqDecision State.
Proof. solve_decision. Defined.
#[global] Instance local_event_eq_dec : EqDecision LocalEvent.
Proof. solve_decision. Defined.
#[global] Instance event_eq_dec : EqDecision Event.
Proof. solve_decision. Defined.
#[global] Instance outcome_eq_dec : EqDecision State.Outcome.
Proof. solve_decision. Defined.

Definition LOCALS : list LocalEvent :=
  [L_Abort; L_Connect; L_Release; L_Create; L_Select; L_Deselect; L_Open; L_Close; L_Write;
   L_Read; L_Message; L_Cancel; L_SendData; L_Sync; L_DataEnd; L_TransferEnd; L_Resync;
   L_Accept; L_Reject].
Definition EVENTS : list Event :=
  map Local LOCALS
  ++ flat_map (λ k, [Received k false; Received k true]) FpduKind.ALL.

Lemma elem_of_ALL s : s ∈ State.ALL.
Proof. destruct s; by_compute. Qed.
Lemma elem_of_EVENTS e : e ∈ EVENTS.
Proof. destruct e as [k []|[]]; [destruct k..| | | | | | | | | | | | | | | | | | |]; by_compute. Qed.

(** A decidable fact about every state, or every state and event, by
    evaluation. *)
Lemma all_states (P : State → bool) : forallb P State.ALL = true → ∀ s, P s = true.
Proof. rewrite forallb_forall. intros H s. apply H, list_elem_of_In, elem_of_ALL. Qed.

Lemma all_events (P : Event → bool) : forallb P EVENTS = true → ∀ e, P e = true.
Proof. rewrite forallb_forall. intros H e. apply H, list_elem_of_In, elem_of_EVENTS. Qed.

Lemma all_transitions (P : State → Event → bool) :
  forallb (λ s, forallb (P s) EVENTS) State.ALL = true → ∀ s e, P s e = true.
Proof. intros H s. apply all_events. by apply (all_states (λ s, forallb (P s) EVENTS)). Qed.

(** [by_table P] proves [P s e = true] for all states and events. *)
Ltac by_table P s e := apply (all_transitions P); vm_compute; reflexivity.

(** ** Reachability *)

Inductive step : State → State → Prop :=
| step_next s e s' : is_abort e = false → apply s e = Next s' → step s s'.

Definition successors (s : State) : list State :=
  omap (λ e, if is_abort e then None
             else match apply s e with Next s' => Some s' | _ => None end) EVENTS.

Lemma successors_step s s' : s' ∈ successors s → step s s'.
Proof.
  unfold successors. rewrite list_elem_of_omap. intros (e&_&H).
  destruct (is_abort e) eqn:He; [done|]. destruct (apply s e) eqn:Ha; [|done..].
  injection H as ->. by apply (step_next s e s').
Qed.

(** The states reached in at most [n] rounds. *)
Fixpoint closure (n : nat) (l : list State) : list State :=
  match n with
  | O => l
  | S n => closure n (remove_dups (l ++ flat_map successors l))
  end.

Lemma closure_sound s0 n l :
  Forall (λ s, rtc step s0 s) l → Forall (λ s, rtc step s0 s) (closure n l).
Proof.
  revert l. induction n as [|n IH]; intros l Hl; [done|]. apply IH.
  apply Forall_forall. intros s. rewrite elem_of_remove_dups, elem_of_app.
  rewrite Forall_forall in Hl. intros [Hs|Hs]; [by apply Hl|].
  apply list_elem_of_In, in_flat_map in Hs as (t&Ht&Hs). apply list_elem_of_In in Ht, Hs.
  eapply rtc_r; [by apply Hl|]. by apply successors_step.
Qed.

Lemma closure_reaches n s0 s : bool_decide (s ∈ closure n [s0]) = true → rtc step s0 s.
Proof.
  rewrite bool_decide_eq_true. intros H.
  pose proof (closure_sound s0 n [s0] ltac:(repeat constructor)) as Hc.
  rewrite Forall_forall in Hc. by apply Hc.
Qed.

(** The states that reach a state of [l] in at most [n] steps. *)
Fixpoint coclosure (univ : list State) (n : nat) (l : list State) : list State :=
  match n with
  | O => l
  | S n =>
      coclosure univ n (List.filter (λ s, bool_decide (s ∈ l)
        || existsb (λ s', bool_decide (s' ∈ l)) (successors s)) univ)
  end.

Lemma coclosure_sound univ s1 n l :
  Forall (λ s, rtc step s s1) l → Forall (λ s, rtc step s s1) (coclosure univ n l).
Proof.
  revert l. induction n as [|n IH]; intros l Hl; [done|]. apply IH.
  apply Forall_forall. intros s Hs. rewrite Forall_forall in Hl.
  apply list_elem_of_In, filter_In in Hs as [_ [Hs%bool_decide_eq_true|Hs]%orb_true_iff]; [by apply Hl|].
  apply existsb_exists in Hs as (s'&Hs'%list_elem_of_In&Hin%bool_decide_eq_true).
  eapply rtc_l; [by apply successors_step|]. by apply Hl.
Qed.

Lemma coclosure_reaches n s1 s : bool_decide (s ∈ coclosure State.ALL n [s1]) = true → rtc step s s1.
Proof.
  rewrite bool_decide_eq_true. intros H.
  pose proof (coclosure_sound State.ALL s1 n [s1] ltac:(repeat constructor)) as Hc.
  rewrite Forall_forall in Hc. by apply Hc.
Qed.

(** Reachability. Without any ABORT, every one of the 54 states is reached
    from the initial state and the initial state is reached from every state:
    no state is dead and no state is a trap. *)
Theorem states_live s : rtc step INITIAL s ∧ rtc step s INITIAL.
Proof.
  split.
  - apply (closure_reaches 10). revert s.
    assert (∀ l, l = closure 10 [INITIAL] → forallb (λ s, bool_decide (s ∈ l)) State.ALL = true) as H.
    { intros ? ->. vm_compute. reflexivity. }
    intros s. exact (all_states _ (H _ eq_refl) s).
  - apply (coclosure_reaches 10). revert s.
    assert (∀ l, l = coclosure State.ALL 10 [INITIAL] → forallb (λ s, bool_decide (s ∈ l)) State.ALL = true) as H.
    { intros ? ->. vm_compute. reflexivity. }
    intros s. exact (all_states _ (H _ eq_refl) s).
Qed.

(** ** Nesting of the phases *)

(** How deep in the phases a state is: not connected, connecting or releasing,
    connected, in a selection or message exchange, file selected, in an open or
    close exchange, file open, transferring. *)
Definition depth (s : State) : nat :=
  match s with
  | Cn01 => 0
  | Cn02A | Cn02B | Cn04A | Cn04B => 1
  | Cn03 => 2
  | Sf01A | Sf01B | Sf02A | Sf02B | Sf04A | Sf04B | Mg01A | Mg01B | Mg04A | Mg04B => 3
  | Sf03 => 4
  | Of01A | Of01B | Of03A | Of03B => 5
  | Of02 => 6
  | _ => 7
  end.

(** The direction of a transfer and the side of the local entity in it. *)
Inductive Lane : Type := LaneWriteA | LaneWriteB | LaneReadA | LaneReadB.
#[global] Instance lane_eq_dec : EqDecision Lane.
Proof. solve_decision. Defined.

Definition lane (s : State) : option Lane :=
  match s with
  | Tde01A | Tde02A | Tde03A | Tde04A | Tde05A | Tde06A | Tde07A | Tde08A => Some LaneWriteA
  | Tde01B | Tde02B | Tde03B | Tde04B | Tde05B | Tde06B | Tde07B | Tde08B => Some LaneWriteB
  | Tdl01A | Tdl02A | Tdl03A | Tdl04A | Tdl05A | Tdl06A | Tdl07A | Tdl08A => Some LaneReadA
  | Tdl01B | Tdl02B | Tdl03B | Tdl04B | Tdl05B | Tdl06B | Tdl07B | Tdl08B => Some LaneReadB
  | _ => None
  end.

Definition lane_kept (l l' : option Lane) : bool :=
  match l, l' with Some a, Some b => bool_decide (a = b) | _, _ => true end.

Definition nested (s : State) (e : Event) : bool :=
  match apply s e with
  | Next s' =>
      if is_abort e then bool_decide (s' = Cn01)
      else (depth s' <=? S (depth s)) && (depth s <=? S (depth s'))
           && lane_kept (lane s) (lane s')
           && (negb (bool_decide (s' = Cn01)) || (depth s =? 1))
  | _ => negb (is_abort e)
  end.

Lemma nested_all s e : nested s e = true.
Proof. by_table nested s e. Qed.

Lemma apply_abort s e : is_abort e = true → apply s e = Next Cn01.
Proof. intros He. unfold apply. by rewrite He. Qed.

(** C30: the phases nest. ABORT, local or received, leads to the initial state
    from every state. Any other transition enters or leaves at most one phase
    (so a transfer only starts from an open file, a file is only opened when it
    is selected, and so on outwards), a transfer keeps its direction and the
    local side until the file is idle again, and the connection only ends from
    a connection or release exchange. *)
Theorem phases_nest s e :
  (is_abort e = true → apply s e = Next Cn01)
  ∧ ∀ s', is_abort e = false → apply s e = Next s' →
      (depth s' ≤ S (depth s) ∧ depth s ≤ S (depth s'))
      ∧ (∀ l l', lane s = Some l → lane s' = Some l' → l = l')
      ∧ (s' = Cn01 → depth s = 1).
Proof.
  pose proof (nested_all s e) as H. unfold nested in H. split.
  - apply apply_abort.
  - intros s' He Ha. rewrite He, Ha in H. rewrite !andb_true_iff, !Nat.leb_le in H.
    destruct H as [[[??] Hl] Hi]. split_and!; [done..| |].
    + intros l l' El El'. rewrite El, El' in Hl. by apply bool_decide_eq_true in Hl.
    + intros ->. by apply Nat.eqb_eq.
Qed.

Example phases_nest_witness :
  depth Tde02A = 7 ∧ depth Of02 ≤ S (depth Tde05A).
Proof.
  destruct (phases_nest Tde05A (Received FpduKind.AckIdt false)) as [_ H].
  destruct (H Of02 eq_refl eq_refl) as ((H1&_)&_&_). split; [reflexivity|]. exact H1.
Defined.

(** ** Data FPDUs *)

(** The states in which the peer may still be sending while the local side has
    asked for a resynchronisation or an interruption. *)
Definition draining (s : State) : bool :=
  match s with
  | Tde03B | Tdl03A
  | Tde05A | Tde05B | Tdl05A | Tdl05B | Tde06A | Tde06B | Tdl06A | Tdl06B => true
  | _ => false
  end.

Definition data_table (s : State) (e : Event) : bool :=
  negb (is_data_event e)
  || bool_decide (apply s e =
       (if is_receiving s then Next s else if draining s then Ignore else Error)).

Lemma data_table_all s e : data_table s e = true.
Proof. by_table data_table s e. Qed.

Definition sender_table (s : State) (e : Event) : bool :=
  match e with
  | Local L_SendData =>
      bool_decide (apply s e =
        (if is_sending s || bool_decide (s = Mg01A) then Next s
         else match s with Tde04A | Tdl04B => Ignore | _ => Error end))
  | _ => true
  end.

Lemma sender_table_all s e : sender_table s e = true.
Proof. by_table sender_table s e. Qed.

(** Who may send file data, and when it is kept. A received data FPDU is
    accepted exactly in the two receiving states, which it does not change; it
    is dropped while the local side waits for a resynchronisation or an
    interruption to complete; everywhere else it is a protocol error. A local
    request to send data is accepted exactly in the two sending states and
    while a message is segmented, ignored while the peer resynchronises, and an
    error elsewhere. No state is both sending and receiving. *)
Theorem data_flow s k neg :
  (FpduKind.is_data k = true →
     apply s (Received k neg)
       = if is_receiving s then Next s else if draining s then Ignore else Error)
  ∧ (apply s (Local L_SendData) =
       if is_sending s || bool_decide (s = Mg01A) then Next s
       else match s with Tde04A | Tdl04B => Ignore | _ => Error end)
  ∧ is_sending s && is_receiving s = false.
Proof.
  split_and!.
  - intros Hk. pose proof (data_table_all s (Received k neg)) as H.
    unfold data_table in H. simpl in H. rewrite Hk in H. by apply bool_decide_eq_true in H.
  - apply (bool_decide_eq_true_1 _ (sender_table_all s (Local L_SendData))).
  - by destruct s.
Qed.

Example data_flow_witness :
  apply Tde03B (Received FpduKind.DtfMa false) = Ignore.
Proof.
  destruct (data_flow Tde03B FpduKind.DtfMa false) as (H&_&_).
  exact (H eq_refl).
Defined.

(** ** Service exchanges between two machines *)

(** The FPDU that a confirmed request sends, as [LocalEvent] documents it. *)
Definition request_fpdu (e : LocalEvent) : option FpduKind :=
  match e with
  | L_Connect => Some FpduKind.Connect
  | L_Release => Some FpduKind.Release
  | L_Create => Some FpduKind.Create
  | L_Select => Some FpduKind.Select
  | L_Deselect => Some FpduKind.Deselect
  | L_Open => Some FpduKind.Orf
  | L_Close => Some FpduKind.Crf
  | L_Write => Some FpduKind.Write
  | L_Read => Some FpduKind.Read
  | L_Cancel => Some FpduKind.Idt
  | L_TransferEnd => Some FpduKind.TransEnd
  | L_Resync => Some FpduKind.Resyn
  | _ => None
  end.

(** The reply to it: RCONNECT refuses a connection, RELCONF has no diagnostic,
    the others carry the positive or negative diagnostic. *)
Definition reply (k : FpduKind) (accept : bool) : option Event :=
  match k with
  | FpduKind.Connect =>
      Some (if accept then Received FpduKind.Aconnect false else Received FpduKind.Rconnect true)
  | FpduKind.Release => Some (Received FpduKind.Relconf false)
  | _ => (λ a, Received a (negb accept)) <$> FpduKind.ack k
  end.

Definition next (s : State) (e : Event) : option State :=
  match apply s e with Next s' => Some s' | _ => None end.

(** A request of [a], its indication to [b], the response of [b] and its
    confirmation to [a]. *)
Definition exchange (a b : State) (e : LocalEvent) (accept : bool) : option (State * State) :=
  k ← request_fpdu e;
  a1 ← next a (Local e);
  b1 ← next b (Received k false);
  b2 ← next b1 (Local (if accept then L_Accept else L_Reject));
  r ← reply k accept;
  a2 ← next a1 r;
  Some (a2, b2).

(** The pairs of states in which two machines agree on the phase. *)
Definition synced (a b : State) : bool :=
  match a, b with
  | Cn01, Cn01 | Cn03, Cn03 | Sf03, Sf03 | Of02, Of02
  | Tde02A, Tde02B | Tde02B, Tde02A | Tdl02A, Tdl02B | Tdl02B, Tdl02A
  | Tde07A, Tde07B | Tde07B, Tde07A | Tdl07A, Tdl07B | Tdl07B, Tdl07A => true
  | _, _ => false
  end.

Definition may_refuse (e : LocalEvent) : bool :=
  match e with L_Cancel | L_Resync => false | _ => true end.

Definition exchange_ok (a b : State) (e : LocalEvent) (accept : bool) : bool :=
  if synced a b && bool_decide (is_Some (request_fpdu e)) && bool_decide (is_Some (next a (Local e)))
     && (accept || may_refuse e)
  then match exchange a b e accept with
       | Some (a2, b2) => synced a2 b2
       | None => false
       end
  else true.

(** The FPDU that an unconfirmed request of the sending side sends. *)
Definition notice_fpdu (e : LocalEvent) : option FpduKind :=
  match e with
  | L_SendData => Some FpduKind.Dtf
  | L_Sync => Some FpduKind.Syn
  | L_DataEnd => Some FpduKind.DtfEnd
  | _ => None
  end.

Definition notice (a b : State) (e : LocalEvent) : option (State * State) :=
  k ← notice_fpdu e;
  a1 ← next a (Local e);
  b1 ← next b (Received k false);
  Some (a1, b1).

Definition notice_ok (a b : State) (e : LocalEvent) : bool :=
  if synced a b && bool_decide (is_Some (notice_fpdu e)) && bool_decide (is_Some (next a (Local e)))
  then match notice a b e with Some (a2, b2) => synced a2 b2 | None => false end
  else true.

Definition pair_table (a : State) (e : LocalEvent) : bool :=
  forallb (λ b, exchange_ok a b e true && exchange_ok a b e false && notice_ok a b e) State.ALL.

Lemma pair_table_all a e : pair_table a e = true.
Proof.
  assert (forallb (λ a, forallb (pair_table a) LOCALS) State.ALL = true) as H
    by (vm_compute; reflexivity).
  pose proof (all_states (λ a, forallb (pair_table a) LOCALS) H a) as Ha. cbv beta in Ha.
  rewrite forallb_forall in Ha. apply Ha, list_elem_of_In. destruct e; by_compute.
Qed.

Lemma pair_table_at a b e :
  exchange_ok a b e true = true ∧ exchange_ok a b e false = true ∧ notice_ok a b e = true.
Proof.
  pose proof (pair_table_all a e) as H. unfold pair_table in H. rewrite forallb_forall in H.
  specialize (H b (proj1 (list_elem_of_In _ _) (elem_of_ALL b))).
  rewrite !andb_true_iff in H. tauto.
Qed.

(** C29: the tables of the two sides fit together. When two machines agree on
    the phase and the table of one of them allows a confirmed request, then the
    table of the other one accepts the FPDU as an indication, allows the
    positive response (and the negative one, except to an interruption or a
    resynchronisation), the first one accepts the reply, and both agree on the
    phase again; and they still agree after data, a synchronisation point or
    the end of data sent by the side whose table allows it. *)
Theorem exchange_synced a b e accept :
  synced a b = true → is_Some (next a (Local e)) →
  (is_Some (request_fpdu e) → accept = true ∨ may_refuse e = true →
     ∃ a2 b2, exchange a b e accept = Some (a2, b2) ∧ synced a2 b2 = true)
  ∧ (is_Some (notice_fpdu e) →
     ∃ a2 b2, notice a b e = Some (a2, b2) ∧ synced a2 b2 = true).
Proof.
  intros Hs Hn. destruct (pair_table_at a b e) as (H1&H2&H3).
  unfold exchange_ok, notice_ok in *. rewrite Hs, (bool_decide_true _ Hn) in *. simpl in *. split.
  - intros Hr Hacc. rewrite (bool_decide_true _ Hr) in *. simpl in *.
    assert (match exchange a b e accept with
            | Some (a2, b2) => synced a2 b2 | None => false end = true) as H.
    { destruct accept; [done|]. destruct Hacc as [|Hm]; [done|]. by rewrite Hm in H2. }
    destruct (exchange a b e accept) as [[a2 b2]|]; [by exists a2, b2|done].
  - intros Hr. rewrite (bool_decide_true _ Hr) in *. simpl in *.
    destruct (notice a b e) as [[a2 b2]|]; [by exists a2, b2|done].
Qed.

Example exchange_synced_witness :
  ∃ a2 b2, exchange Tde07A Tde07B L_TransferEnd false = Some (a2, b2) ∧ synced a2 b2 = true.
Proof.
  destruct (exchange_synced Tde07A Tde07B L_TransferEnd false) as [H _];
    [reflexivity|by eexists|]. apply H; [by eexists|by right].
Defined.

(** ** The machine *)

Import Machine.

Fixpoint run (m : Machine) (events : list Event) : Machine * (unit + TransitionError) :=
  match events with
  | [] => (m, inl tt)
  | e :: events =>
      match Machine.apply m e with
      | (m', inl _) => run m' events
      | (m', inr err) => (m', inr err)
      end
  end.

Lemma apply_role m e : role (Machine.apply m e).1 = role m.
Proof. unfold Machine.apply. by destruct (State.apply _ _). Qed.

(** The machine. An event is applied without error exactly when [accepts]
    says so; an error reports the current state and the event and, like an
    ignored event, leaves the machine as it was; an accepted event moves it
    along the tables; the role never changes; and an ABORT is always applied
    and makes the machine equal to a reset one. *)
Lemma machine_apply m e neg :
  (accepts m e = true ↔ is_Some (match (Machine.apply m e).2 with inl i => Some i | inr _ => None end))
  ∧ (∀ err, (Machine.apply m e).2 = inr err →
       (Machine.apply m e).1 = m ∧ err = mkTransitionError (state m) e)
  ∧ ((Machine.apply m e).2 = inl true → (Machine.apply m e).1 = m)
  ∧ ((Machine.apply m e).2 = inl false → State.apply (state m) e = Next (state (Machine.apply m e).1))
  ∧ role (Machine.apply m e).1 = role m
  ∧ (Machine.apply m (Received FpduKind.Abort neg)).1 = reset m.
Proof.
  unfold accepts. split_and!.
  6:{ unfold Machine.apply. by rewrite apply_abort. }
  all: unfold Machine.apply; destruct (State.apply (state m) e) eqn:Ha; simpl; try done.
  all: try (split; [by eauto|by intros []]).
  by intros err [= <-].
Qed.
