(* ===== verification/Params.v ===== *)
(** * Typed parameter values ([crates/pesit-core/src/params.rs])

    Versions, access types, synchronisation and compression options with
    their negotiation, article formats, end codes, attribute masks, and the
    typed accessors of an FPDU. *)

From S2P Require Import Prelude Diag Pi Kinds Fpdu FpduNum.
Open Scope Z_scope.

Module Version.
Inductive Version : Type := D | E.
Definition code (v : Version) : Z := match v with D => 1 | E => 2 end.
Definition from_code (c : Z) : option Version :=
  match c with 1 => Some D | 2 => Some E | _ => None end.
End Version.
Abbreviation Version := Version.Version.

Module AccessType.
Inductive AccessType : Type := Write | Read | Mixed.
Definition code (a : AccessType) : Z := match a with Write => 0 | Read => 1 | Mixed => 2 end.
Definition from_code (c : Z) : option AccessType :=
  match c with 0 => Some Write | 1 => Some Read | 2 => Some Mixed | _ => None end.
Definition allows_write (a : AccessType) : bool :=
  match a with Write | Mixed => true | Read => false end.
Definition allows_read (a : AccessType) : bool :=
  match a with Read | Mixed => true | Write => false end.
End AccessType.
Abbreviation AccessType := AccessType.AccessType.

Module SyncOption.

Record SyncOption : Type := mkSyncOption { interval_kb : Z; window : Z }.

#[global] Instance sync_option_eq_dec : EqDecision SyncOption.
Proof. solve_decision. Defined.

Definition UNDEFINED_INTERVAL : Z := 0xFFFF.
Definition NONE : SyncOption := mkSyncOption 0 0.

Definition to_bytes (s : SyncOption) : bytes :=
  let i := be16 (interval_kb s) in i ++ [window s].

Definition from_bytes (v : bytes) : option SyncOption :=
  match v with
  | [hi; lo] => Some (mkSyncOption (of_be16 hi lo) 0)
  | hi :: lo :: w :: _ => Some (mkSyncOption (of_be16 hi lo) w)
  | _ => None
  end.

Definition enabled (s : SyncOption) : bool := negb (interval_kb s =? 0).

Definition interval_bytes (s : SyncOption) : option Z :=
  if (interval_kb s =? 0) || (interval_kb s =? UNDEFINED_INTERVAL) then None
  else Some (interval_kb s * 1024).

Definition negotiate (proposed local : SyncOption) : SyncOption :=
  if negb (enabled proposed) || negb (enabled local) then NONE
  else
    let interval_kb :=
      if interval_kb proposed =? UNDEFINED_INTERVAL then interval_kb local
      else if interval_kb local =? UNDEFINED_INTERVAL then interval_kb proposed
      else Z.min (interval_kb proposed) (interval_kb local) in
    mkSyncOption interval_kb (Z.min (window proposed) (window local)).

(** The fields are a [u16] and a [u8]. *)
Definition wf (s : SyncOption) : Prop := u16_ok (interval_kb s) ∧ byte_ok (window s).

Lemma negotiate_min a b :
  wf a → wf b → enabled a = true → enabled b = true →
  negotiate a b = mkSyncOption (Z.min (interval_kb a) (interval_kb b)) (Z.min (window a) (window b)).
Proof.
  unfold negotiate, wf, u16_ok, UNDEFINED_INTERVAL. intros [Ha _] [Hb _] -> ->. simpl. f_equal.
  destruct (Z.eqb_spec (interval_kb a) 65535), (Z.eqb_spec (interval_kb b) 65535); lia.
Qed.

Lemma negotiate_disabled a b : enabled a && enabled b = false → negotiate a b = NONE.
Proof. unfold negotiate. by destruct (enabled a), (enabled b). Qed.

(** The synchronisation option. The 3-byte value of PI 7 round-trips; the
    negotiation is symmetric, never proposes more than either side (interval
    and window are at most those of both, an undefined interval gives way to a
    defined one), disables the option unless both sides want it, accepts an
    option proposed to itself, and negotiating again with either side changes
    nothing; a resulting interval is a positive number of kilobytes. *)
Theorem sync_negotiation a b :
  wf a → wf b →
  from_bytes (to_bytes a) = Some a
  ∧ negotiate a b = negotiate b a
  ∧ enabled (negotiate a b) = enabled a && enabled b
  ∧ (interval_kb (negotiate a b) ≤ interval_kb a ∧ window (negotiate a b) ≤ window a)
  ∧ (enabled a = true → negotiate a a = a)
  ∧ negotiate (negotiate a b) a = negotiate a b
  ∧ (∀ n, interval_bytes (negotiate a b) = Some n → 1024 ≤ n).
Proof.
  intros Ha Hb. pose proof Ha as [Hai Haw]. pose proof Hb as [Hbi Hbw].
  split. { unfold from_bytes, to_bytes. simpl. rewrite of_be16_be16 by done. by destruct a. }
  unfold u16_ok, byte_ok in *.
  destruct (enabled a && enabled b) eqn:He.
  - apply andb_true_iff in He as [Hea Heb]. rewrite !negotiate_min by done.
    pose proof Hea as Hea'. pose proof Heb as Heb'. unfold enabled in Hea', Heb'.
    apply negb_true_iff, Z.eqb_neq in Hea', Heb'. set (m := mkSyncOption _ _).
    assert (wf m) as Hm by (split; unfold u16_ok, byte_ok; simpl; lia).
    assert (enabled m = true) as Hem by (apply negb_true_iff, Z.eqb_neq; simpl; lia).
    rewrite negotiate_min by done. unfold m, interval_bytes. simpl. split_and!.
    + f_equal; lia.
    + done.
    + lia.
    + lia.
    + intros _. destruct a; simpl; f_equal; lia.
    + f_equal; lia.
    + intros n. repeat case_match; [done|]. intros [= <-]. lia.
  - rewrite !(negotiate_disabled a b) by done. rewrite (negotiate_disabled b a) by (by rewrite andb_comm).
    split_and!; try done.
    + unfold NONE; simpl; lia.
    + unfold NONE; simpl; lia.
    + intros Hea. rewrite negotiate_min by done. destruct a; simpl. f_equal; lia.
Qed.

Example sync_negotiation_witness :
  negotiate (mkSyncOption 0xFFFF 16) (mkSyncOption 32 2) = mkSyncOption 32 2
  ∧ negotiate (mkSyncOption 0xFFFF 16) (mkSyncOption 32 2)
    = negotiate (mkSyncOption 32 2) (mkSyncOption 0xFFFF 16).
Proof.
  split; [reflexivity|].
  apply (sync_negotiation (mkSyncOption 0xFFFF 16) (mkSyncOption 32 2));
    unfold wf, u16_ok, byte_ok; simpl; lia.
Defined.

End SyncOption.
Abbreviation SyncOption := SyncOption.SyncOption.

Module Compression.

Inductive Compression : Type := None_ | Horizontal | Vertical | Mixed.

#[global] Instance compression_eq_dec : EqDecision Compression.
Proof. solve_decision. Defined.

Definition to_bytes (c : Compression) : bytes :=
  match c with
  | None_ => [0; 0]
  | Horizontal => [1; 1]
  | Vertical => [1; 2]
  | Mixed => [1; 3]
  end.

Definition from_bytes (v : bytes) : option Compression :=
  match v with
  | 0 :: _ | [] => Some None_
  | [1; 1] | [1] => Some Horizontal
  | [1; 2] => Some Vertical
  | [1; 3] => Some Mixed
  | _ => None
  end.

Definition negotiate (requested local : Compression) : Compression :=
  match requested, local with
  | None_, _ | _, None_ => None_
  | r, l =>
      if decide (r = l) then r
      else
        match r, l with
        | Mixed, l => l
        | r, Mixed => r
        | _, _ => None_
        end
  end.

Definition code (c : Compression) : Z :=
  match c with None_ => 0 | Horizontal => 1 | Vertical => 2 | Mixed => 3 end.

Definition from_code (c : Z) : option Compression :=
  match c with
  | 0 => Some None_ | 1 => Some Horizontal | 2 => Some Vertical | 3 => Some Mixed
  | _ => None
  end.

(** [a] does not use a technique that [b] does not use. *)
Definition le (a b : Compression) : bool :=
  match a, b with
  | None_, _ | _, Mixed => true
  | Horizontal, Horizontal | Vertical, Vertical => true
  | _, _ => false
  end.

(** The compression option. The 2-byte value of PI 21 and the configuration
    code round-trip; the negotiation is the greatest lower bound of the two
    sides: it uses no technique that one side did not ask for, every common
    subset of the techniques is contained in it, and it is symmetric,
    associative and accepts what is proposed to itself. *)
Theorem compression_negotiation a b c :
  from_bytes (to_bytes a) = Some a ∧ from_code (code a) = Some a
  ∧ (le c a && le c b = le c (negotiate a b))
  ∧ le (negotiate a b) a = true ∧ le (negotiate a b) b = true
  ∧ negotiate a b = negotiate b a
  ∧ negotiate (negotiate a b) c = negotiate a (negotiate b c)
  ∧ negotiate a a = a.
Proof. by destruct a, b, c; vm_compute. Qed.

End Compression.
Abbreviation Compression := Compression.Compression.

Module ArticleFormat.
Inductive ArticleFormat : Type := Fixed | Variable_.
Definition code (f : ArticleFormat) : Z := match f with Fixed => 0x00 | Variable_ => 0x80 end.
Definition from_bytes (v : bytes) : ArticleFormat :=
  match v with
  | b :: _ => if negb (Z.land b 0x80 =? 0) then Variable_ else Fixed
  | [] => Fixed
  end.
End ArticleFormat.
Abbreviation ArticleFormat := ArticleFormat.ArticleFormat.

Module EndCode.
Inductive EndCode : Type :=
| Error | Suspension | CancelByServer | CancelByRequester | Other (c : Z).

Definition code (e : EndCode) : Z :=
  match e with
  | Error => 4
  | Suspension => 8
  | CancelByServer => 12
  | CancelByRequester => 16
  | Other c => c
  end.

Definition from_code (c : Z) : EndCode :=
  match c with
  | 4 => Error
  | 8 => Suspension
  | 12 => CancelByServer
  | 16 => CancelByRequester
  | c => Other c
  end.
End EndCode.
Abbreviation EndCode := EndCode.EndCode.

Module RequestedAttributes.
Record RequestedAttributes : Type :=
  mkRequestedAttributes { logical : bool; physical : bool; historical : bool }.

Definition ALL : RequestedAttributes := mkRequestedAttributes true true true.

Definition code (r : RequestedAttributes) : Z :=
  Z.lor (Z.lor (Z.b2z (logical r)) (Z.shiftl (Z.b2z (physical r)) 1))
    (Z.shiftl (Z.b2z (historical r)) 2).

Definition from_code (c : Z) : RequestedAttributes :=
  mkRequestedAttributes (negb (Z.land c 1 =? 0)) (negb (Z.land c 2 =? 0)) (negb (Z.land c 4 =? 0)).
End RequestedAttributes.
Abbreviation RequestedAttributes := RequestedAttributes.RequestedAttributes.

(** ** Typed accessors of an FPDU *)

Module FpduExt.
Import Fpdu.

Definition sync_option (f : Fpdu) : option SyncOption :=
  get f Pi.SyncOption ≫= SyncOption.from_bytes.

Definition compression (f : Fpdu) : option Compression :=
  get f Pi.Compression ≫= Compression.from_bytes.

Definition access_type (f : Fpdu) : option AccessType :=
  get_num f Pi.AccessType ≫= AccessType.from_code.

Definition version (f : Fpdu) : option Version :=
  get_num f Pi.Version ≫= Version.from_code.

Definition diag_or_ok (f : Fpdu) : Diagnostic := default Diagnostic.OK (fpdu_diag f).

Definition max_entity_size (f : Fpdu) : option Z :=
  (λ v, u16 (Z.min v 0xFFFF)) <$> get_num f Pi.MaxEntitySize.

Definition transfer_id (f : Fpdu) : option Z := (λ v, u32 (decode_num v)) <$> get f Pi.TransferId.

Definition restart_point (f : Fpdu) : option Z :=
  (λ v, u32 (decode_num v)) <$> get f Pi.RestartPoint.

Definition sync_number (f : Fpdu) : option Z := (λ v, u32 (decode_num v)) <$> get f Pi.SyncNumber.

Definition end_code (f : Fpdu) : option EndCode :=
  EndCode.from_code <$> (get f Pi.EndCode ≫= head).

End FpduExt.

(** ** Codes *)

(** The codes of the enumerations. Versions, access types and attribute
    masks are recovered from their codes, an end code from its number (a
    number given as [Other] that names a known code becomes that one), the
    article format from its byte; and an accepted version or access type code
    is the code of the value returned. *)
Lemma params_codes (v : Version) (a : AccessType) (r : RequestedAttributes) (f : ArticleFormat)
    (e : EndCode) (c : Z) :
  Version.from_code (Version.code v) = Some v
  ∧ AccessType.from_code (AccessType.code a) = Some a
  ∧ RequestedAttributes.from_code (RequestedAttributes.code r) = r
  ∧ ArticleFormat.from_bytes [ArticleFormat.code f] = f
  ∧ EndCode.code (EndCode.from_code c) = c
  ∧ EndCode.code (EndCode.from_code (EndCode.code e)) = EndCode.code e
  ∧ (∀ v', Version.from_code c = Some v' → Version.code v' = c)
  ∧ (∀ a', AccessType.from_code c = Some a' → AccessType.code a' = c)
  ∧ (AccessType.allows_write a || AccessType.allows_read a = true).
Proof.
  assert (∀ c, EndCode.code (EndCode.from_code c) = c) as He.
  { intros c'. unfold EndCode.from_code. by repeat case_match. }
  split_and!; [by destruct v|by destruct a|by destruct r as [[] [] []]|by destruct f|auto|auto| | |by destruct a].
  - intros v'. unfold Version.from_code. repeat case_match; by intros [= <-].
  - intros a'. unfold AccessType.from_code. repeat case_match; by intros [= <-].
Qed.

(** ** Dates *)

(** The decimal digits of a number below [10^20] in ASCII. *)
Fixpoint dec_fuel (fuel : nat) (n : Z) : ustring :=
  match fuel with
  | O => []
  | S fuel => (if n <? 10 then [] else dec_fuel fuel (n / 10)) ++ [48 + n mod 10]
  end.
Definition dec (n : Z) : ustring := dec_fuel 20 n.

(** [{:02}]. *)
Definition dec02 (n : Z) : ustring := if n <? 10 then 48 :: dec n else dec n.

Definition format_datetime (year month day hour min sec : Z) : ustring :=
  dec02 (year mod 100) ++ dec02 month ++ dec02 day ++ dec02 hour ++ dec02 min ++ dec02 sec.

Lemma dec02_two n : 0 ≤ n < 100 → dec02 n = [48 + n / 10; 48 + n mod 10].
Proof.
  intros Hn. unfold dec02, dec. cbn [dec_fuel]. destruct (Z.ltb_spec n 10).
  - simpl. repeat f_equal; lia_dm.
  - destruct (Z.ltb_spec (n / 10) 10); [|exfalso; revert H0; lia_dm].
    simpl. repeat f_equal; lia_dm.
Qed.

(** A date is 12 digits, the value that the CREATE and SELECT groups hold. *)
Lemma format_datetime_length y mo d h mi s :
  0 ≤ mo < 100 → 0 ≤ d < 100 → 0 ≤ h < 100 → 0 ≤ mi < 100 → 0 ≤ s < 100 →
  length (format_datetime y mo d h mi s) = 12%nat
  ∧ Forall (λ c, 48 ≤ c < 58) (format_datetime y mo d h mi s).
Proof.
  intros. unfold format_datetime. assert (0 ≤ y mod 100 < 100) by lia_dm.
  rewrite !dec02_two by done. split; [done|].
  repeat constructor; lia_dm.
Qed.

Example format_datetime_test :
  format_datetime 2026 8 28 21 5 9 = [50; 54; 48; 56; 50; 56; 50; 49; 48; 53; 48; 57].
Proof. reflexivity. Qed.
