(* ===== verification/Frame.v ===== *)
(** * Data entities ([crates/pesit-core/src/frame.rs])

    Concatenation of FPDUs into an entity with optional check bytes, the
    builder that bounds it, and the splitting of a received entity. *)

From S2P Require Import Prelude Diag Pi Kinds Crc Fpdu FpduNum FpduCodec.
Open Scope Z_scope.

Module Frame.
Import Fpdu.

Definition err_transmission (d : Detail) : DecodeError :=
  mkDecodeError Diagnostic.TRANSMISSION_ERROR d.

(** The [while] loop over the FPDUs of an entity. *)
Fixpoint split_loop (fuel : nat) (entity : bytes) (crc : bool) (pos : nat) (out : list bytes)
    : outcome DecodeError (list bytes) :=
  match fuel with
  | O => Panic
  | S fuel =>
      if (pos <? length entity)%nat then
        rest ← sub_usize (length entity) pos;
        if (rest <? HEADER_LEN)%nat then Err (err_protocol (TrailingBytes rest))
        else
          b0 ← idx entity pos; b1 ← idx entity (pos + 1);
          let len := Z.to_nat (of_be16 b0 b1) in
          if (len <? HEADER_LEN)%nat || (length entity <? pos + len)%nat
          then Err (err_protocol (InvalidFpduLength len pos (length entity)))
          else
            fpdu ← slice entity pos (pos + len);
            let pos := (pos + len)%nat in
            if crc then
              start ← sub_usize pos len;
              match get_range entity start (pos + Crc.CRC_LEN) with
              | None => Err (err_transmission MissingCrc)
              | Some with_crc =>
                  if negb (Crc.verify with_crc) then Err (err_transmission CrcError)
                  else split_loop fuel entity crc (pos + Crc.CRC_LEN) (out ++ [fpdu])
              end
            else split_loop fuel entity crc pos (out ++ [fpdu])
      else Ok out
  end.

Definition split_entity (entity : bytes) (crc : bool) : outcome DecodeError (list bytes) :=
  split_loop (S (length entity)) entity crc 0 [].

(** [map(Fpdu::decode)] collected: the first error wins. *)
Fixpoint decode_all (parts : list bytes) : outcome DecodeError (list Fpdu) :=
  match parts with
  | [] => Ok []
  | p :: parts => f ← decode p; fs ← decode_all parts; Ok (f :: fs)
  end.

Definition decode_entity (entity : bytes) (crc : bool) : outcome DecodeError (list Fpdu) :=
  parts ← split_entity entity crc; decode_all parts.

Record EntityBuilder : Type := mkEntityBuilder {
  buf : bytes;
  max_len : nat;
  crc : bool;
  count : nat;
}.

Definition new (max_len : nat) (crc : bool) : EntityBuilder := mkEntityBuilder [] max_len crc 0.

Definition cost (b : EntityBuilder) (fpdu_len : nat) : nat :=
  if crc b then (fpdu_len + Crc.CRC_LEN)%nat else fpdu_len.

Definition fits (b : EntityBuilder) (fpdu_len : nat) : bool :=
  if crc b && (0 <? count b)%nat then false
  else (length (buf b) + cost b fpdu_len <=? max_len b)%nat.

Definition remaining (b : EntityBuilder) : nat :=
  if crc b && (0 <? count b)%nat then 0%nat
  else (max_len b - (length (buf b) + (if crc b then Crc.CRC_LEN else 0)))%nat.

(** In a release build; a debug build asserts [fits]. *)
Definition push_encoded (b : EntityBuilder) (fpdu : bytes) : EntityBuilder :=
  let buf := buf b ++ fpdu in
  let buf := if crc b then buf ++ Crc.compute fpdu else buf in
  mkEntityBuilder buf (max_len b) (crc b) (S (count b)).

(** On an error what was written stays in the buffer. *)
Definition push (b : EntityBuilder) (fpdu : Fpdu) : EntityBuilder * outcome EncodeError unit :=
  let start := length (buf b) in
  match encode_into fpdu (buf b) with
  | (buf, Ok _) =>
      match slice buf start (length buf) with
      | Ok fp =>
          let buf := if crc b then buf ++ Crc.compute fp else buf in
          (mkEntityBuilder buf (max_len b) (crc b) (S (count b)), Ok tt)
      | Err e => (b, Err e)
      | Panic => (b, Panic)
      end
  | (buf, Err e) => (mkEntityBuilder buf (max_len b) (crc b) (count b), Err e)
  | (buf, Panic) => (mkEntityBuilder buf (max_len b) (crc b) (count b), Panic)
  end.

Definition is_empty (b : EntityBuilder) : bool := (count b =? 0)%nat.
Definition len (b : EntityBuilder) : nat := length (buf b).

Definition take (b : EntityBuilder) : EntityBuilder * bytes :=
  (mkEntityBuilder [] (max_len b) (crc b) 0, buf b).

Definition single_entity (fpdu : Fpdu) (crc : bool) : outcome EncodeError bytes :=
  v ← encode fpdu; Ok (if crc then Crc.append v else v).

Definition peek_kind (entity : bytes) : option FpduKind :=
  match get_range entity 2 4 with
  | Some [b0; b1] => FpduKind.from_codes b0 b1
  | _ => None
  end.

(** ** Splitting *)

(** An FPDU as it appears in an entity. *)
Definition framed (crc : bool) (p : bytes) : bytes := if crc then Crc.append p else p.

(** A slice that starts with its own length. *)
Definition sized (p : bytes) : Prop :=
  ∃ b0 b1 r, p = b0 :: b1 :: r ∧ Z.to_nat (of_be16 b0 b1) = length p ∧ (HEADER_LEN ≤ length p)%nat.

Lemma sized_fpdu f : wf f → sized (fpdu_bytes f).
Proof.
  intros Hf. pose proof (length_fpdu_bytes f) as Hl. pose proof (wf_len f Hf) as Hm.
  pose proof (encoded_len_ge f). unfold MAX_FPDU_LEN in Hm.
  unfold sized. eexists _, _, _. split; [reflexivity|].
  fold (fpdu_bytes f). rewrite of_be16_be16 by (unfold u16_ok; lia). rewrite Nat2Z.id.
  split; [by rewrite Hl|]. rewrite Hl. lia.
Qed.

Lemma length_framed crc p : length (framed crc p) = (length p + if crc then Crc.CRC_LEN else 0)%nat.
Proof. destruct crc; simpl; [apply Crc.length_append|lia]. Qed.

Lemma split_loop_at crc before parts out fuel :
  Forall sized parts → (length parts < fuel)%nat →
  split_loop fuel (before ++ concat (map (framed crc) parts)) crc (length before) out
    = Ok (out ++ parts).
Proof.
  intros Hp. revert before out fuel.
  induction Hp as [|p parts (b0&b1&r&Ep&Hlen&Hge) Hp IH]; intros before out fuel Hf;
    (destruct fuel as [|fuel]; [simpl in Hf; lia|]); cbn [split_loop map concat].
  { rewrite !app_nil_r. by rewrite Nat.ltb_irrefl. }
  specialize (IH (before ++ framed crc p) (out ++ [p]) fuel ltac:(simpl in Hf; lia)).
  rewrite <-!app_assoc in IH. cbn [app] in IH. set (rest := concat (map (framed crc) parts)) in *.
  assert (∃ tl, framed crc p ++ rest = p ++ tl ∧ (crc = true → tl = Crc.compute p ++ rest)
    ∧ (crc = false → tl = rest)) as (tl&Etl&Hc&Hn).
  { destruct crc; simpl; [exists (Crc.compute p ++ rest)|by exists rest].
    unfold Crc.append. by rewrite <-app_assoc. }
  rewrite !length_app in IH. rewrite length_framed in IH. rewrite Etl in *.
  assert (length (before ++ p ++ tl) = (length before + (length p + length tl))%nat) as El
    by (by rewrite !length_app).
  unfold HEADER_LEN in Hge. unfold sub_usize.
  destruct (Nat.ltb_spec (length before) (length (before ++ p ++ tl))); [|lia].
  destruct (Nat.leb_spec (length before) (length (before ++ p ++ tl))); [|lia].
  cbn [mbind outcome_bind]. unfold HEADER_LEN.
  destruct (Nat.ltb_spec (length (before ++ p ++ tl) - length before) 6); [lia|].
  assert (idx (E:=DecodeError) (before ++ p ++ tl) (length before) = Ok b0) as ->.
  { apply idx_lookup. rewrite lookup_app_0. by rewrite Ep. }
  assert (idx (E:=DecodeError) (before ++ p ++ tl) (length before + 1) = Ok b1) as ->.
  { apply idx_lookup. rewrite lookup_app_add. by rewrite Ep. }
  cbn [mbind outcome_bind]. cbv zeta. rewrite Hlen.
  destruct (Nat.ltb_spec (length p) 6); [lia|].
  destruct (Nat.ltb_spec (length (before ++ p ++ tl)) (length before + length p)); [lia|].
  cbn [orb]. unfold slice. rewrite get_range_app_mid. cbn [mbind outcome_bind].
  destruct crc.
  - rewrite (Hc eq_refl) in *. destruct (Nat.leb_spec (length p) (length before + length p)); [|lia].
    cbn [mbind outcome_bind]. replace (length before + length p - length p)%nat with (length before) by lia.
    assert (get_range (before ++ p ++ Crc.compute p ++ rest) (length before)
      (length before + length p + Crc.CRC_LEN) = Some (Crc.append p)) as ->.
    { rewrite <-Nat.add_assoc, <-Crc.length_append. rewrite (app_assoc p). apply get_range_app_mid. }
    rewrite Crc.verify_append_ok. cbn [negb]. by rewrite Nat.add_assoc in IH.
  - rewrite (Hn eq_refl) in *. by rewrite Nat.add_0_r in IH.
Qed.

Lemma split_framed crc parts :
  Forall sized parts → split_entity (concat (map (framed crc) parts)) crc = Ok parts.
Proof.
  intros Hp. unfold split_entity. apply (split_loop_at crc [] parts []); [done|].
  assert (length parts ≤ length (concat (map (framed crc) parts)))%nat; [|lia].
  induction Hp as [|p parts (b0&b1&r&Ep&_&_) Hp IH]; [done|]. simpl.
  rewrite length_app, length_framed, Ep. simpl. lia.
Qed.

Lemma split_loop_safe entity crc fuel pos out :
  bytes_ok entity → (pos ≤ length entity + 2)%nat → (length entity - pos < fuel)%nat →
  safe (split_loop fuel entity crc pos out) (λ r, ∃ new,
    r = out ++ new ∧ Forall sized new ∧ Forall bytes_ok new
    ∧ (crc = false → concat new = drop pos entity)
    ∧ (crc = true → ∃ checks, length checks = length new
         ∧ concat (zip_with app new checks) = drop pos entity
         ∧ Forall2 (λ p c, length c = Crc.CRC_LEN ∧ Crc.verify (p ++ c) = true) new checks)).
Proof.
  intros Hb. revert pos out. induction fuel as [|fuel IH]; intros pos out Hp Hf; [lia|].
  cbn [split_loop]. destruct (Nat.ltb_spec pos (length entity)) as [Hlt|Hge].
  2:{ exists []. rewrite app_nil_r, drop_ge by lia. split_and!; [done|constructor..|done|].
      intros _. exists []. auto. }
  rewrite (sub_usize_ok (length entity)) by lia. cbn [mbind outcome_bind].
  destruct (Nat.ltb_spec (length entity - pos) HEADER_LEN) as [|Hh]; [done|]. unfold HEADER_LEN in Hh.
  eapply safe_bind; [apply safe_idx with (P := λ b, entity !! pos = Some b ∧ byte_ok b); [lia|]|].
  { intros b Hb0. split; [done|by apply (bytes_ok_lookup entity pos)]. }
  intros b0 [Hb0 Hok0].
  eapply safe_bind; [apply safe_idx with (P := λ b, entity !! (pos + 1)%nat = Some b); [lia|done]|].
  intros b1 Hb1. cbv zeta. set (n := Z.to_nat (of_be16 b0 b1)).
  destruct ((n <? HEADER_LEN)%nat || (length entity <? pos + n)%nat) eqn:Hn; [done|].
  apply orb_false_iff in Hn as [Hn1%Nat.ltb_ge Hn2%Nat.ltb_ge]. unfold HEADER_LEN in Hn1.
  set (p := List.firstn n (drop pos entity)).
  assert (length p = n) as Hpl by (unfold p; rewrite length_take, length_drop; lia).
  assert (sized p) as Hsz.
  { exists b0, b1, (drop 2 p). rewrite Hpl. split; [|unfold HEADER_LEN; auto].
    apply list_eq. intros [|[|i]]; simpl.
    - unfold p. rewrite lookup_take_lt, lookup_drop by lia. by rewrite Nat.add_0_r.
    - unfold p. by rewrite lookup_take_lt, lookup_drop by lia.
    - by rewrite lookup_drop. }
  assert (bytes_ok p) as Hpb by (unfold p; auto with bytes).
  eapply safe_bind; [apply safe_slice with (P := λ s, s = p); [lia..|]|].
  { unfold p. f_equal. lia. }
  intros ? ->. destruct crc.
  - rewrite sub_usize_ok by (fold n; lia). cbn [mbind outcome_bind].
    destruct (get_range entity (pos + n - n) (pos + n + Crc.CRC_LEN)) as [w|] eqn:Hr; [|done].
    destruct (negb (Crc.verify w)) eqn:Hv; [done|]. apply negb_false_iff in Hv.
    apply get_range_Some in Hr as (_&Hr2&Hw). unfold Crc.CRC_LEN in *.
    eapply safe_mono; [apply IH; lia|]. intros r (new&->&Hs&Hbs&_&Hc).
    destruct (Hc eq_refl) as (cs&Hcl&Hcat&Hall). exists (p :: new).
    rewrite <-app_assoc. split_and!; [done|by constructor|by constructor|done|]. intros _.
    exists (List.firstn 2 (drop (pos + n) entity) :: cs). cbn [zip_with concat length]. split; [by f_equal|].
    assert (w = p ++ List.firstn 2 (drop (pos + n) entity)) as Ew.
    { rewrite Hw. replace (pos + n - n)%nat with pos by lia.
      replace (pos + n + 2 - pos)%nat with (n + 2)%nat by lia. unfold p.
      by rewrite <-take_take_drop, drop_drop. }
    split.
    + rewrite Hcat. rewrite <-app_assoc, <-(drop_drop entity 2 (pos + n)), take_drop.
      unfold p. by rewrite <-(drop_drop entity n pos), take_drop.
    + constructor; [|done]. rewrite <-Ew, length_take, length_drop. split; [lia|done].
  - eapply safe_mono; [apply IH; lia|]. intros r (new&->&Hs&Hbs&Hc&_).
    exists (p :: new). rewrite <-app_assoc. split_and!; [done|by constructor|by constructor| |done].
    intros _. cbn [concat]. rewrite (Hc eq_refl). unfold p. by rewrite <-(drop_drop entity n pos), take_drop.
Qed.

Lemma split_entity_safe entity crc :
  bytes_ok entity →
  safe (split_entity entity crc) (λ parts,
    Forall sized parts ∧ Forall bytes_ok parts
    ∧ (crc = false → concat parts = entity)
    ∧ (crc = true → ∃ checks, length checks = length parts
         ∧ concat (zip_with app parts checks) = entity
         ∧ Forall2 (λ p c, length c = Crc.CRC_LEN ∧ Crc.verify (p ++ c) = true) parts checks)).
Proof.
  intros Hb. eapply safe_mono; [apply split_loop_safe; [done|lia..]|].
  intros r (new&->&H1&H2&H3&H4). by rewrite drop_0 in *.
Qed.

Lemma decode_all_safe parts :
  Forall bytes_ok parts →
  safe (decode_all parts) (λ fs, Forall2 (λ p f, decode p = Ok f ∧ wf f ∧ conforms f) parts fs).
Proof.
  induction 1 as [|p parts Hp Hps IH]; [constructor|]. cbn [decode_all].
  pose proof (decode_with_safe p true Hp) as Hs. fold (decode p) in Hs.
  destruct (decode p) as [f| |] eqn:Hd; [|done|done]. cbn [mbind outcome_bind].
  eapply safe_bind; [exact IH|]. intros fs Hfs. simpl. constructor; [|done].
  destruct Hs as [_ Hs]. by destruct (Hs eq_refl).
Qed.

Lemma decode_all_fpdus fs :
  Forall wf fs → Forall conforms fs → decode_all (map fpdu_bytes fs) = Ok fs.
Proof.
  intros Hw Hc. induction Hw as [|f fs Hf Hw IH]; [done|]. inversion_clear Hc as [|?? Hc1 Hc2].
  cbn [map decode_all]. destruct (decode_encode_wf f Hf Hc1) as [-> _]. simpl. by rewrite IH.
Qed.

(** ** The builder *)

(** Every FPDU of a list pushed, stopping at the first error. *)
Fixpoint push_all (b : EntityBuilder) (fs : list Fpdu) : EntityBuilder * outcome EncodeError unit :=
  match fs with
  | [] => (b, Ok tt)
  | f :: fs => match push b f with (b, Ok _) => push_all b fs | r => r end
  end.

Lemma push_wf b f :
  wf f →
  push b f = (mkEntityBuilder (buf b ++ framed (crc b) (fpdu_bytes f)) (max_len b) (crc b) (S (count b)), Ok tt).
Proof.
  intros Hf. unfold push. rewrite encode_into_wf by done. unfold slice.
  pose proof (get_range_app_mid (buf b) (fpdu_bytes f) []) as E. rewrite app_nil_r in E.
  rewrite length_app, E. unfold framed, Crc.append. destruct (crc b); [|done].
  by rewrite <-app_assoc.
Qed.

Lemma push_all_wf b fs :
  Forall wf fs →
  push_all b fs = (mkEntityBuilder (buf b ++ concat (map (framed (crc b)) (map fpdu_bytes fs)))
                     (max_len b) (crc b) (count b + length fs), Ok tt).
Proof.
  intros Hw. revert b. induction Hw as [|f fs Hf Hw IH]; intros b; simpl.
  { rewrite app_nil_r, Nat.add_0_r. by destruct b. }
  rewrite push_wf by done. rewrite IH. simpl. rewrite <-app_assoc. repeat f_equal. lia.
Qed.

(** What the negotiated entity size bounds, and no concatenation with CRC. *)
Definition bounded (b : EntityBuilder) : Prop :=
  (length (buf b) ≤ max_len b)%nat ∧ (crc b = true → (count b ≤ 1)%nat).

(** C35: entities round-trip. Pushing well-formed FPDUs that conform to their
    templates never fails; the entity taken from the builder, with or without
    check bytes, is as long as the costs announced by [encoded_len] and is
    split and decoded into the same FPDUs in the same order; and taking it
    leaves the builder as new. *)
Theorem entity_roundtrip max crc fs :
  Forall wf fs → Forall conforms fs →
  ∃ b, push_all (new max crc) fs = (b, Ok tt) ∧ count b = length fs
    ∧ len b = sum_list_with (λ f, cost b (encoded_len f)) fs
    ∧ decode_entity (take b).2 crc = Ok fs ∧ (take b).1 = new max crc.
Proof.
  intros Hw Hc. rewrite push_all_wf by done. eexists. split; [done|]. simpl.
  split_and!; [done| | |done].
  - unfold len, cost. simpl. clear Hw Hc. induction fs as [|f fs IH]; [done|]. simpl.
    rewrite length_app, length_framed, length_fpdu_bytes, IH. destruct crc; lia.
  - unfold decode_entity. rewrite split_framed; [by apply decode_all_fpdus|].
    apply Forall_map. apply (Forall_impl _ _ _ Hw). intros f. apply sized_fpdu.
Qed.

Definition sample_syn : Fpdu := set_num (with_ids (Fpdu.new FpduKind.Syn) 5 0) Pi.SyncNumber 7.
Definition sample_dtf : Fpdu := data_fpdu FpduKind.Dtf 5 0 [1; 2; 3; 4].

Example entity_roundtrip_witness :
  ∃ b, push_all (new 64 false) [sample_dtf; sample_syn] = (b, Ok tt)
    ∧ decode_entity (take b).2 false = Ok [sample_dtf; sample_syn].
Proof.
  destruct (entity_roundtrip 64 false [sample_dtf; sample_syn]) as (b&H1&_&_&H2&_).
  - by_compute.
  - apply Forall_cons_2; [|apply Forall_cons_2; [|apply Forall_nil_2]];
      apply validate_template_ok; vm_compute; reflexivity.
  - exists b. split; [exact H1|exact H2].
Defined.

(** C36: received entities. Splitting and decoding an entity of any bytes never
    panics. When it succeeds the FPDUs cover the whole entity, in order and
    without gap, each as long as its own length field says and, with CRC,
    followed by two check bytes that verify; each decoded FPDU is well formed
    and conforms to its template. *)
Theorem entity_sound entity crc :
  bytes_ok entity →
  no_panic (decode_entity entity crc)
  ∧ ∀ fs, decode_entity entity crc = Ok fs → ∃ parts checks,
      length checks = length parts
      ∧ concat (zip_with app parts checks) = entity
      ∧ Forall2 (λ p f, decode p = Ok f ∧ wf f ∧ conforms f) parts fs
      ∧ Forall sized parts
      ∧ Forall2 (λ p c, if crc then length c = Crc.CRC_LEN ∧ Crc.verify (p ++ c) = true
                        else c = []) parts checks.
Proof.
  intros Hb. pose proof (split_entity_safe entity crc Hb) as Hs. unfold decode_entity.
  destruct (split_entity entity crc) as [parts|e|]; [|done|done].
  destruct Hs as (Hsz&Hok&Hn&Hc). pose proof (decode_all_safe parts Hok) as Hd.
  cbn [mbind outcome_bind]. split; [by eapply safe_no_panic|].
  intros fs Hfs. rewrite Hfs in Hd. simpl in Hd. exists parts. destruct crc.
  - destruct (Hc eq_refl) as (cs&?&?&?). by exists cs.
  - exists (replicate (length parts) []). rewrite length_replicate.
    split_and!; [done| |done|done|].
    + rewrite <-(Hn eq_refl). clear. induction parts as [|p parts IH]; [done|]. simpl.
      by rewrite IH, app_nil_r.
    + clear. induction parts; constructor; auto.
Qed.

Example entity_sound_witness :
  ∃ fs parts checks, decode_entity [0; 9; 0xC0; 3; 5; 0; 20; 1; 7; 0; 0] true = Err (err_transmission CrcError)
    ∧ decode_entity [0; 9; 0xC0; 3; 5; 0; 20; 1; 7] false = Ok fs
    ∧ concat (zip_with app parts checks) = [0; 9; 0xC0; 3; 5; 0; 20; 1; 7].
Proof.
  destruct (entity_sound [0; 9; 0xC0; 3; 5; 0; 20; 1; 7] false ltac:(by_compute)) as [_ H].
  destruct (H _ ltac:(vm_compute; reflexivity)) as (parts&checks&_&H2&_).
  eexists _, parts, checks. split; [vm_compute; reflexivity|].
  split; [vm_compute; reflexivity|exact H2].
Defined.

(** the entity bound. Pushing an FPDU that [fits] keeps the entity within
    the negotiated size and, with CRC, keeps it to a single FPDU; [fits] and
    [remaining] agree on every non-empty FPDU; and a new or emptied builder is
    within its bound. *)
Theorem entity_bound b f n :
  bounded b → wf f → fits b (encoded_len f) = true → (0 < n)%nat →
  ∃ b', push b f = (b', Ok tt) ∧ bounded b' ∧ bounded (take b').1
    ∧ (crc b = true → count b' = 1%nat ∧ fits b' n = false)
    ∧ (fits b n = true ↔ (n ≤ remaining b)%nat).
Proof.
  intros [Hl Hc] Hf Hfit Hn. rewrite push_wf by done. eexists. split; [done|].
  unfold fits, bounded, remaining, cost in *. simpl.
  rewrite length_app, length_framed, length_fpdu_bytes.
  destruct (crc b) eqn:Hcrc; simpl in *.
  - destruct (Nat.ltb_spec 0 (count b)); [done|]. apply Nat.leb_le in Hfit.
    split_and!; [lia|lia|lia|lia|split; [lia|done]|]. rewrite Nat.leb_le. lia.
  - apply Nat.leb_le in Hfit. split_and!; [lia|done|lia|done|done|]. rewrite Nat.leb_le. lia.
Qed.

Example entity_bound_witness :
  ∃ b', push (new 20 false) sample_syn = (b', Ok tt) ∧ bounded b'.
Proof.
  destruct (entity_bound (new 20 false) sample_syn 1) as (b'&H1&H2&_);
    [split; [apply Nat.le_0_l|discriminate]|by_compute|reflexivity|lia|].
  exists b'. split; [exact H1|exact H2].
Defined.

End Frame.
