(* ===== verification/Compress.v ===== *)
(** * Data compression ([crates/pesit-core/src/compress.rs])

    Horizontal, vertical and mixed compression of articles, the decompressor,
    the persistent reference article and the two stateful ends. *)

From S2P Require Import Prelude Params.
Open Scope Z_scope.

Module Compress.

Definition CHUNK : nat := 63.

Inductive Mode : Type := Literal | Horizontal | Vertical | Mixed.

Definition mode_of (c : Compression) : Mode :=
  match c with
  | Compression.None_ => Literal
  | Compression.Horizontal => Horizontal
  | Compression.Vertical => Vertical
  | Compression.Mixed => Mixed
  end.

Inductive DecompressError : Type :=
| InvalidHeader (h : Z)
| Truncated
| TooLong (max : nat).

(** Compression returns no error: only [Ok] and [Panic] occur. *)
Abbreviation total := (outcome Empty_set).

(** [out[i] += 1] and [out[i] -= 1] on bytes, and [out[i] = v]. *)
Definition set_at (out : bytes) (i : nat) (v : Z) : total bytes :=
  if (i <? length out)%nat then Ok (<[i := v]> out) else Panic.
Definition incr_at (out : bytes) (i : nat) : total bytes :=
  v ← idx out i; if v + 1 <? 256 then set_at out i (v + 1) else Panic.
Definition decr_at (out : bytes) (i : nat) : total bytes :=
  v ← idx out i; if 1 <=? v then set_at out i (v - 1) else Panic.

(** *** Horizontal compression: the loop over the bytes after the first *)

Fixpoint horizontal_loop (chunk out : bytes) (header : nat) (literal : bool) (cur : Z)
    : total bytes :=
  match chunk with
  | [] => Ok out
  | b :: chunk =>
      if b =? cur then
        if literal then
          h ← idx out header;
          if h =? 1 then
            (* a one byte literal becomes a run of two *)
            out ← set_at out header 0x82;
            horizontal_loop chunk out header false cur
          else
            (* detach the last literal byte into a new run *)
            out ← decr_at out header;
            header ← sub_usize (length out) 1;
            out ← set_at out header 0x82;
            horizontal_loop chunk (out ++ [cur]) header false cur
        else
          out ← incr_at out header;
          horizontal_loop chunk out header literal cur
      else if literal then
        out ← incr_at out header;
        horizontal_loop chunk (out ++ [b]) header literal b
      else
        let header := length out in
        horizontal_loop chunk (out ++ [1] ++ [b]) header true b
  end.

Definition horizontal (out chunk : bytes) : total bytes :=
  match chunk with
  | [] => Ok out
  | first :: rest => horizontal_loop rest (out ++ [1] ++ [first]) (length out) true first
  end.

(** *** Vertical compression *)

(** [a.iter().zip(b).take_while(|(a, b)| p a b).count()]. *)
Fixpoint take_while_count (p : Z → Z → bool) (a b : bytes) : nat :=
  match a, b with
  | x :: a, y :: b => if p x y then S (take_while_count p a b) else 0
  | _, _ => 0
  end.

Fixpoint vertical_loop (fuel : nat) (out chunk reference : bytes) (mixed : bool) (pos : nat)
    : total bytes :=
  match fuel with
  | O => Panic
  | S fuel =>
      if (pos <? length chunk)%nat then
        tail ← slice chunk pos (length chunk);
        rtail ← slice reference pos (length reference);
        let equal := take_while_count Z.eqb tail rtail in
        if (0 <? equal)%nat then
          vertical_loop fuel (out ++ [Z.lor 0xC0 (u8 (Z.of_nat equal))]) chunk reference mixed
            (pos + equal)
        else
          let diff := take_while_count (λ a b, negb (a =? b)) tail rtail in
          part ← slice chunk pos (pos + diff);
          out ← (if mixed then horizontal out part
                 else Ok ((out ++ [u8 (Z.of_nat diff)]) ++ part));
          vertical_loop fuel out chunk reference mixed (pos + diff)
      else Ok out
  end.

Definition vertical (out chunk reference : bytes) (mixed : bool) : total bytes :=
  vertical_loop (S (length chunk)) out chunk reference mixed 0.

Fixpoint compress_loop (fuel : nat) (mode : Mode) (article reference : bytes) (pos : nat)
    (out : bytes) : total bytes :=
  match fuel with
  | O => Panic
  | S fuel =>
      if (pos <? length article)%nat then
        rest ← sub_usize (length article) pos;
        let n := Nat.min CHUNK rest in
        chunk ← slice article pos (pos + n);
        refc ← slice reference pos (pos + n);
        out ← match mode with
              | Literal => Ok ((out ++ [u8 (Z.of_nat n)]) ++ chunk)
              | Horizontal => horizontal out chunk
              | Vertical => vertical out chunk refc false
              | Mixed => vertical out chunk refc true
              end;
        compress_loop fuel mode article reference (pos + n) out
      else Ok out
  end.

Definition compress (mode : Mode) (article reference : bytes) : total bytes :=
  compress_loop (S (length article)) mode article reference 0 [].

(** *** Decompression: [out] keeps what was written before an error *)

Fixpoint decompress_loop (fuel : nat) (compressed reference : bytes) (max_len : nat) (pos : nat)
    (out : bytes) : bytes * outcome DecompressError unit :=
  match fuel with
  | O => (out, Panic)
  | S fuel =>
      if (pos <? length compressed)%nat then
        match compressed !! pos with
        | None => (out, Panic)
        | Some h =>
            let pos := (pos + 1)%nat in
            let n := Z.to_nat (Z.land h 0x3F) in
            let need len := negb (max_len <? length out + len)%nat in
            let kind := Z.land h 0xC0 in
            if kind =? 0xC0 then
              if need n then
                let start := length out in
                match get_range reference start (start + n) with
                | None => (out, Err (TooLong (length reference)))
                | Some src => decompress_loop fuel compressed reference max_len pos (out ++ src)
                end
              else (out, Err (TooLong max_len))
            else if kind =? 0x80 then
              match compressed !! pos with
              | None => (out, Err Truncated)
              | Some b =>
                  let pos := (pos + 1)%nat in
                  let n := Z.to_nat (Z.land h 0x7F) in
                  if need n
                  then decompress_loop fuel compressed reference max_len pos (out ++ replicate n b)
                  else (out, Err (TooLong max_len))
              end
            else if kind =? 0x00 then
              match get_range compressed pos (pos + n) with
              | None => (out, Err Truncated)
              | Some src =>
                  if need n
                  then decompress_loop fuel compressed reference max_len (pos + n) (out ++ src)
                  else (out, Err (TooLong max_len))
              end
            else (out, Err (InvalidHeader h))
        end
      else (out, Ok tt)
  end.

Definition decompress (compressed reference : bytes) (max_len : nat)
    : bytes * outcome DecompressError unit :=
  decompress_loop (S (length compressed)) compressed reference max_len 0 [].

(** *** The stateful ends *)

Record Reference : Type := mkReference { rbuf : bytes }.

Definition reference_new (max_article : nat) : Reference :=
  mkReference (replicate (Nat.max max_article 1) 0).
Definition as_slice (r : Reference) : bytes := rbuf r.
Definition capacity (r : Reference) : nat := length (rbuf r).

(** [Vec::resize] with zeros to a longer length. *)
Definition grow (n : nat) (buf : bytes) : bytes := buf ++ replicate (n - length buf) 0.

Definition update (r : Reference) (article : bytes) : Reference :=
  let buf := if (length (rbuf r) <? length article)%nat
             then grow (length article) (rbuf r) else rbuf r in
  mkReference (article ++ drop (length article) buf).

Record Compressor : Type := mkCompressor {
  compression : Compression;
  c_reference : Reference;
  after_sync : bool;
}.

Definition compressor_new (c : Compression) (max_article : nat) : Compressor :=
  mkCompressor c (reference_new max_article) true.

Definition enabled (c : Compressor) : bool :=
  match compression c with Compression.None_ => false | _ => true end.

Definition sync_point (c : Compressor) : Compressor :=
  mkCompressor (compression c) (c_reference c) true.

Definition compress_article (c : Compressor) (article : bytes) : Compressor * total bytes :=
  let r := if (capacity (c_reference c) <? length article)%nat
           then mkReference (grow (length article) (rbuf (c_reference c)))
           else c_reference c in
  let mode := if after_sync c then Literal else mode_of (compression c) in
  match compress mode article (as_slice r) with
  | Ok out => (mkCompressor (compression c) (update r article) false, Ok out)
  | Err e => (mkCompressor (compression c) r (after_sync c), Err e)
  | Panic => (mkCompressor (compression c) r (after_sync c), Panic)
  end.

Record Decompressor : Type := mkDecompressor {
  d_reference : Reference;
  d_max_article : nat;
  scratch : bytes;
}.

Definition decompressor_new (max_article : nat) : Decompressor :=
  mkDecompressor (reference_new max_article) (Nat.max max_article 1) [].

Definition decompress_article (d : Decompressor) (compressed : bytes)
    : Decompressor * outcome DecompressError bytes :=
  match decompress compressed (as_slice (d_reference d)) (d_max_article d) with
  | (out, Ok _) =>
      (mkDecompressor (update (d_reference d) out) (d_max_article d) out, Ok out)
  | (out, Err e) => (mkDecompressor (d_reference d) (d_max_article d) out, Err e)
  | (out, Panic) => (mkDecompressor (d_reference d) (d_max_article d) out, Panic)
  end.

End Compress.
