(* ===== verification/CompressProps.v ===== *)
(** * Data compression: properties

    What a compressed article means, that every mode of the compressor
    produces a wire form with the meaning of the article, that the decompressor
    computes the meaning, and the two ends kept in step over a transfer. *)

From S2P Require Import Prelude Params Compress.
Open Scope Z_scope.
Import Compress.

(** ** String headers *)

Lemma header_bits n :
  (n < 64)%nat →
  let z := Z.of_nat n in
  Z.land z 0x3F = z ∧ Z.land z 0xC0 = 0
  ∧ Z.land (128 + z) 0x7F = z ∧ Z.land (128 + z) 0xC0 = 0x80
  ∧ Z.land (192 + z) 0x3F = z ∧ Z.land (192 + z) 0xC0 = 0xC0
  ∧ Z.lor 0xC0 (u8 z) = 192 + z.
Proof.
  intros Hn z.
  assert (∀ i, (i < 64)%nat → forallb (λ i, let z := Z.of_nat i in
    (Z.land z 0x3F =? z) && (Z.land z 0xC0 =? 0) && (Z.land (128 + z) 0x7F =? z)
    && (Z.land (128 + z) 0xC0 =? 0x80) && (Z.land (192 + z) 0x3F =? z)
    && (Z.land (192 + z) 0xC0 =? 0xC0) && (Z.lor 0xC0 (u8 z) =? 192 + z)) (seq 0 64) = true) as H
    by (intros; vm_compute; reflexivity).
  specialize (H n Hn). rewrite forallb_forall in H.
  specialize (H n). rewrite in_seq in H. specialize (H ltac:(lia)). cbv zeta in H.
  rewrite !andb_true_iff, !Z.eqb_eq in H. fold z in H. tauto.
Qed.

Lemma u8_small n : (n < 256)%nat → u8 (Z.of_nat n) = Z.of_nat n.
Proof. intros. unfold u8. apply Z.mod_small. lia. Qed.

(** ** The meaning of a compressed article

    [Expands ref s w o]: the strings [w], read when [s] bytes of the article
    are already known, stand for the bytes [o]. *)
Inductive Expands (ref : bytes) : nat → bytes → bytes → Prop :=
| E_nil s : Expands ref s [] []
| E_literal s lit w o :
    (0 < length lit < 64)%nat → Expands ref (s + length lit) w o →
    Expands ref s (Z.of_nat (length lit) :: lit ++ w) (lit ++ o)
| E_run s n b w o :
    (0 < n < 64)%nat → Expands ref (s + n) w o →
    Expands ref s (128 + Z.of_nat n :: b :: w) (replicate n b ++ o)
| E_same s n src w o :
    (0 < n < 64)%nat → get_range ref s (s + n) = Some src → Expands ref (s + n) w o →
    Expands ref s (192 + Z.of_nat n :: w) (src ++ o).
#[local] Hint Constructors Expands : core.

Lemma expands_app ref s w1 o1 w2 o2 :
  Expands ref s w1 o1 → Expands ref (s + length o1) w2 o2 →
  Expands ref s (w1 ++ w2) (o1 ++ o2).
Proof.
  intros H1. revert w2 o2. induction H1 as [s|s lit w o Hl _ IH|s n b w o Hn _ IH|s n src w o Hn Hr _ IH];
    intros w2 o2 H2; cbn [app].
  - by rewrite Nat.add_0_r in H2.
  - rewrite <-!app_assoc. constructor; [done|]. apply IH.
    by rewrite length_app, Nat.add_assoc in H2.
  - rewrite <-!app_assoc. constructor; [done|]. apply IH.
    by rewrite length_app, length_replicate, Nat.add_assoc in H2.
  - rewrite <-!app_assoc. econstructor; [done..|]. apply IH.
    apply get_range_length in Hr. rewrite length_app, Hr in H2.
    by replace (s + n + length o)%nat with (s + (s + n - s + length o))%nat by lia.
Qed.

Lemma expands_literal ref s lit :
  (0 < length lit < 64)%nat → Expands ref s (Z.of_nat (length lit) :: lit) lit.
Proof. intros H. rewrite <-(app_nil_r lit) at 2 3. auto. Qed.

Lemma expands_run ref s n b : (0 < n < 64)%nat → Expands ref s [128 + Z.of_nat n; b] (replicate n b).
Proof. intros H. rewrite <-(app_nil_r (replicate n b)). auto. Qed.

(** The decompressor computes the meaning. *)
Lemma decompress_loop_expands ref max s w o :
  Expands ref s w o → ∀ pre out fuel,
  length out = s → (s + length o ≤ max)%nat → (length w < fuel)%nat →
  decompress_loop fuel (pre ++ w) ref max (length pre) out = (out ++ o, Ok tt).
Proof.
  induction 1 as [s|s lit w o Hl _ IH|s n b w o Hn _ IH|s n src w o Hn Hr _ IH];
    intros pre out fuel Hs Hm Hf; (destruct fuel as [|fuel]; [simpl in Hf; lia|]); cbn [decompress_loop].
  { rewrite !app_nil_r. by rewrite Nat.ltb_irrefl. }
  all: rewrite lookup_app_0; cbn [lookup list_lookup];
    match goal with |- context [(?a <? length ?l)%nat] =>
      destruct (Nat.ltb_spec a (length l)); [|rewrite length_app in *; simpl in *; lia] end;
    cbv zeta.
  - destruct (header_bits (length lit) (proj2 Hl)) as (E1&E2&_). rewrite E1, E2, Nat2Z.id. simpl.
    rewrite length_app in Hm. simpl in Hf. rewrite length_app in Hf.
    specialize (IH (pre ++ Z.of_nat (length lit) :: lit) (out ++ lit) fuel).
    rewrite !length_app in IH. cbn [length] in IH. rewrite <-!app_assoc in IH. cbn [app] in IH.
    specialize (IH ltac:(lia) ltac:(lia) ltac:(lia)).
    assert (get_range (pre ++ Z.of_nat (length lit) :: lit ++ w) (length pre + 1)
      (length pre + 1 + length lit) = Some lit) as ->.
    { pose proof (get_range_app_mid (pre ++ [Z.of_nat (length lit)]) lit w) as E.
      rewrite length_app, <-app_assoc in E. exact E. }
    destruct (Nat.ltb_spec max (length out + length lit)); [lia|]. simpl. rewrite <-IH.
    f_equal. lia.
  - destruct (header_bits n (proj2 Hn)) as (_&_&E3&E4&_). rewrite E3, E4, Nat2Z.id. simpl.
    rewrite length_app, length_replicate in Hm. simpl in Hf.
    specialize (IH (pre ++ [128 + Z.of_nat n; b]) (out ++ replicate n b) fuel).
    rewrite !length_app, length_replicate in IH. rewrite <-!app_assoc in IH. cbn [app length] in IH.
    specialize (IH ltac:(lia) ltac:(lia) ltac:(lia)).
    rewrite lookup_app_add. cbn [lookup list_lookup].
    destruct (Nat.ltb_spec max (length out + n)); [lia|]. simpl. rewrite <-IH. f_equal. lia.
  - destruct (header_bits n (proj2 Hn)) as (_&_&_&_&E5&E6&_). rewrite E5, E6, Nat2Z.id. simpl.
    pose proof (get_range_length _ _ _ _ Hr) as Hsl.
    rewrite length_app in Hm. simpl in Hf.
    specialize (IH (pre ++ [192 + Z.of_nat n]) (out ++ src) fuel).
    rewrite !length_app in IH. rewrite <-!app_assoc in IH. cbn [app length] in IH.
    specialize (IH ltac:(lia) ltac:(lia) ltac:(lia)).
    destruct (Nat.ltb_spec max (length out + n)); [lia|]. simpl. rewrite Hs, Hr. exact IH.
Qed.

Lemma decompress_expands ref max w o :
  Expands ref 0 w o → (length o ≤ max)%nat → decompress w ref max = (o, Ok tt).
Proof. intros H Hm. apply (decompress_loop_expands ref max 0 w o H [] []); simpl; lia. Qed.

(** A compressed article is at most twice as long as the article. *)
Lemma expands_size ref s w o :
  Expands ref s w o → bytes_ok o → (length w ≤ 2 * length o)%nat ∧ bytes_ok w.
Proof.
  induction 1 as [s|s lit w o Hl _ IH|s n b w o Hn _ IH|s n src w o Hn Hr _ IH]; intros Ho; [done|..].
  all: apply bytes_ok_app in Ho as [Ho1 Ho]; destruct (IH Ho) as [Hle Hw].
  - rewrite length_app. cbn [length]. rewrite length_app. split; [lia|].
    constructor; [unfold byte_ok; lia|]. by apply bytes_ok_app.
  - rewrite length_app, length_replicate. cbn [length]. split; [lia|].
    constructor; [unfold byte_ok; lia|]. constructor; [|done]. destruct n; [lia|]. by inversion Ho1.
  - apply get_range_length in Hr. rewrite length_app, Hr. cbn [length]. split; [lia|].
    constructor; [unfold byte_ok; lia|done].
Qed.

(** ** The compressor produces the meaning *)

Lemma idx_mid {E} (p q : bytes) x : idx (E:=E) (p ++ x :: q) (length p) = Ok x.
Proof. apply idx_lookup. by rewrite lookup_app_0. Qed.

Lemma set_at_mid p x q v : set_at (p ++ x :: q) (length p) v = Ok (p ++ v :: q).
Proof.
  unfold set_at. destruct (Nat.ltb_spec (length p) (length (p ++ x :: q)));
    [|rewrite length_app in *; simpl in *; lia].
  by rewrite <-(Nat.add_0_r (length p)), insert_app_r.
Qed.

Lemma incr_at_mid p x q : x < 255 → incr_at (p ++ x :: q) (length p) = Ok (p ++ (x + 1) :: q).
Proof.
  intros Hx. unfold incr_at. rewrite idx_mid. cbn [mbind outcome_bind].
  destruct (Z.ltb_spec (x + 1) 256); [|lia]. apply set_at_mid.
Qed.

Lemma decr_at_mid p x q : 1 ≤ x → decr_at (p ++ x :: q) (length p) = Ok (p ++ (x - 1) :: q).
Proof.
  intros Hx. unfold decr_at. rewrite idx_mid. cbn [mbind outcome_bind].
  destruct (Z.leb_spec 1 x); [|lia]. apply set_at_mid.
Qed.

(** The output is [p], then a literal string of [n] bytes [lit] that ends with
    [cur], or a run of [n] bytes [cur]. *)
Definition in_literal (p : bytes) (l0 : bytes) (cur : Z) : bytes :=
  p ++ Z.of_nat (S (length l0)) :: l0 ++ [cur].
Definition in_run (p : bytes) (n : nat) (cur : Z) : bytes := p ++ (128 + Z.of_nat n) :: [cur].

Lemma in_literal_nil p b : in_literal p [] b = p ++ [1] ++ [b].
Proof. done. Qed.

Lemma literal_same chunk p l0 cur :
  (length l0 < 63)%nat →
  horizontal_loop (cur :: chunk) (in_literal p l0 cur) (length p) true cur
  = if decide (l0 = []) then horizontal_loop chunk (in_run p 2 cur) (length p) false cur
    else let p' := p ++ Z.of_nat (length l0) :: l0 in
         horizontal_loop chunk (in_run p' 2 cur) (length p') false cur.
Proof.
  intros Hl. cbn [horizontal_loop]. rewrite Z.eqb_refl. unfold in_literal. rewrite idx_mid.
  cbn [mbind outcome_bind]. destruct (decide (l0 = [])) as [->|Hne].
  - simpl. by rewrite set_at_mid.
  - assert (length l0 ≠ 0%nat) by (by destruct l0).
    destruct (Z.eqb_spec (Z.of_nat (S (length l0))) 1); [lia|].
    rewrite decr_at_mid by lia. cbn [mbind outcome_bind].
    replace (Z.of_nat (S (length l0)) - 1) with (Z.of_nat (length l0)) by lia.
    set (p' := p ++ Z.of_nat (length l0) :: l0).
    replace (p ++ Z.of_nat (length l0) :: l0 ++ [cur]) with (p' ++ [cur])
      by (unfold p'; by rewrite <-app_assoc).
    rewrite sub_usize_ok by (rewrite length_app; simpl; lia). cbn [mbind outcome_bind].
    replace (length (p' ++ [cur]) - 1)%nat with (length p') by (rewrite length_app; simpl; lia).
    rewrite set_at_mid. cbn [mbind outcome_bind]. unfold in_run. by rewrite <-app_assoc.
Qed.

Lemma literal_other chunk p l0 cur b :
  b ≠ cur → (length l0 < 63)%nat →
  horizontal_loop (b :: chunk) (in_literal p l0 cur) (length p) true cur
  = horizontal_loop chunk (in_literal p (l0 ++ [cur]) b) (length p) true b.
Proof.
  intros Hb Hl. cbn [horizontal_loop]. destruct (Z.eqb_spec b cur); [done|].
  unfold in_literal. rewrite incr_at_mid by lia. cbn [mbind outcome_bind].
  rewrite length_app, <-!app_assoc. cbn [app length]. rewrite <-app_assoc.
  by replace (Z.of_nat (S (length l0)) + 1) with (Z.of_nat (S (length l0 + 1))) by lia.
Qed.

Lemma run_same chunk p n cur :
  (n < 64)%nat →
  horizontal_loop (cur :: chunk) (in_run p n cur) (length p) false cur
  = horizontal_loop chunk (in_run p (S n) cur) (length p) false cur.
Proof.
  intros Hn. cbn [horizontal_loop]. rewrite Z.eqb_refl. unfold in_run.
  rewrite incr_at_mid by lia. cbn [mbind outcome_bind].
  by replace (128 + Z.of_nat n + 1) with (128 + Z.of_nat (S n)) by lia.
Qed.

Lemma run_other chunk p n cur b :
  b ≠ cur →
  horizontal_loop (b :: chunk) (in_run p n cur) (length p) false cur
  = let p' := in_run p n cur in horizontal_loop chunk (in_literal p' [] b) (length p') true b.
Proof. intros Hb. cbn [horizontal_loop]. by destruct (Z.eqb_spec b cur). Qed.

Lemma horizontal_loop_ok ref s out0 chunk :
  (∀ w1 o1, Expands ref s w1 o1 →
     (∀ l0 cur, (length o1 + length l0 + S (length chunk) < 64)%nat →
        ∃ w, horizontal_loop chunk (in_literal (out0 ++ w1) l0 cur) (length (out0 ++ w1)) true cur
               = Ok (out0 ++ w)
             ∧ Expands ref s w (o1 ++ l0 ++ cur :: chunk))
     ∧ (∀ n cur, (0 < n)%nat → (length o1 + n + length chunk < 64)%nat →
        ∃ w, horizontal_loop chunk (in_run (out0 ++ w1) n cur) (length (out0 ++ w1)) false cur
               = Ok (out0 ++ w)
             ∧ Expands ref s w (o1 ++ replicate n cur ++ chunk))).
Proof.
  induction chunk as [|b chunk IH]; intros w1 o1 H1; split.
  - intros l0 cur Hl. exists (w1 ++ Z.of_nat (S (length l0)) :: l0 ++ [cur]).
    unfold in_literal. rewrite <-app_assoc. split; [done|]. apply expands_app; [done|].
    replace (S (length l0)) with (length (l0 ++ [cur])) by (rewrite length_app; simpl; lia).
    apply expands_literal. rewrite length_app. simpl in *. lia.
  - intros n cur Hn Hl. exists (w1 ++ [128 + Z.of_nat n; cur]). unfold in_run.
    rewrite <-app_assoc, app_nil_r. split; [done|]. apply expands_app; [done|].
    apply expands_run. simpl in Hl. lia.
  - intros l0 cur Hl. simpl in Hl. destruct (decide (b = cur)) as [->|Hb].
    + rewrite literal_same by lia. destruct (decide (l0 = [])) as [->|Hne].
      * destruct (IH w1 o1 H1) as [_ Hr]. destruct (Hr 2%nat cur) as (w&E&Hw); [lia..|].
        exists w. split; [done|exact Hw].
      * cbv zeta. rewrite <-app_assoc.
        destruct (IH (w1 ++ Z.of_nat (length l0) :: l0) (o1 ++ l0)) as [_ Hr].
        { apply expands_app; [done|]. apply expands_literal. destruct l0; [done|simpl in *; lia]. }
        destruct (Hr 2%nat cur) as (w&E&Hw); [lia|rewrite length_app; lia|].
        exists w. split; [done|]. by rewrite <-app_assoc in Hw.
    + rewrite literal_other by (done || lia). destruct (IH w1 o1 H1) as [Hli _].
      destruct (Hli (l0 ++ [cur]) b) as (w&E&Hw); [rewrite length_app; simpl; lia|].
      exists w. split; [done|]. by rewrite <-app_assoc in Hw.
  - intros n cur Hn Hl. simpl in Hl. destruct (decide (b = cur)) as [->|Hb].
    + rewrite run_same by lia. destruct (IH w1 o1 H1) as [_ Hr].
      destruct (Hr (S n) cur) as (w&E&Hw); [lia..|]. exists w. split; [done|].
      by rewrite replicate_S_end, <-app_assoc in Hw.
    + rewrite run_other by done. cbv zeta. unfold in_run at 1 2. rewrite <-!app_assoc.
      destruct (IH (w1 ++ [128 + Z.of_nat n; cur]) (o1 ++ replicate n cur)) as [Hli _].
      { apply expands_app; [done|]. apply expands_run. lia. }
      destruct (Hli [] b) as (w&E&Hw); [rewrite length_app, length_replicate; simpl; lia|].
      exists w. split; [done|]. by rewrite <-app_assoc in Hw.
Qed.

Lemma horizontal_ok ref s out chunk :
  (length chunk < 64)%nat →
  ∃ w, horizontal out chunk = Ok (out ++ w) ∧ Expands ref s w chunk.
Proof.
  intros Hl. destruct chunk as [|first rest]; simpl.
  { exists []. rewrite app_nil_r. auto. }
  destruct (horizontal_loop_ok ref s out rest [] [] (E_nil ref s)) as [Hli _].
  destruct (Hli [] first) as (w&E&Hw); [simpl in *; lia|].
  rewrite app_nil_r in E. exists w. split; [exact E|exact Hw].
Qed.

Lemma take_while_count_le p a b :
  (take_while_count p a b ≤ length a)%nat ∧ (take_while_count p a b ≤ length b)%nat.
Proof.
  revert b. induction a as [|x a IH]; intros [|y b]; simpl; try lia.
  destruct (p x y); [|lia]. destruct (IH b). lia.
Qed.

Lemma take_while_count_eqb a b :
  take (take_while_count Z.eqb a b) a = take (take_while_count Z.eqb a b) b.
Proof.
  revert b. induction a as [|x a IH]; intros [|y b]; simpl; [done..|].
  destruct (Z.eqb_spec x y) as [->|]; simpl; [|done]. by rewrite IH.
Qed.

(** When nothing is equal something differs. *)
Lemma take_while_count_progress a b :
  length a = length b → a ≠ [] → take_while_count Z.eqb a b = 0%nat →
  (0 < take_while_count (λ x y, negb (x =? y)%Z) a b)%nat.
Proof. destruct a as [|x a], b as [|y b]; simpl; try done. destruct (x =? y); simpl; lia. Qed.

Lemma slice_drop {E A} (l : list A) i : (i ≤ length l)%nat → slice (E:=E) l i (length l) = Ok (drop i l).
Proof.
  intros Hi. rewrite slice_ok by lia. f_equal. apply take_ge. rewrite length_drop. lia.
Qed.

Lemma drop_take_drop {A} (l : list A) i k : drop i l = take k (drop i l) ++ drop (i + k) l.
Proof. by rewrite <-drop_drop, take_drop. Qed.

Lemma vertical_loop_ok ref s chunk refc mixed fuel pos out :
  (length chunk < 64)%nat → length refc = length chunk →
  refc = take (length chunk) (drop s ref) →
  (pos ≤ length chunk)%nat → (length chunk - pos < fuel)%nat →
  ∃ w, vertical_loop fuel out chunk refc mixed pos = Ok (out ++ w)
       ∧ Expands ref (s + pos) w (drop pos chunk).
Proof.
  intros Hc Hl Hr. revert pos out. induction fuel as [|fuel IH]; intros pos out Hp Hf; [lia|].
  cbn [vertical_loop]. destruct (Nat.ltb_spec pos (length chunk)) as [Hlt|].
  2:{ exists []. rewrite app_nil_r, drop_ge by lia. auto. }
  rewrite !slice_drop by lia. cbn [mbind outcome_bind]. set (eq := take_while_count _ _ _).
  pose proof (take_while_count_le Z.eqb (drop pos chunk) (drop pos refc)) as [Hle _].
  fold eq in Hle. rewrite length_drop in Hle. destruct (Nat.ltb_spec 0 eq) as [Heq|Heq].
  - destruct (header_bits eq ltac:(lia)) as (_&_&_&_&_&_&->).
    destruct (IH (pos + eq)%nat (out ++ [192 + Z.of_nat eq])) as (w&->&Hw); [lia..|].
    exists (192 + Z.of_nat eq :: w). rewrite <-app_assoc. split; [done|].
    rewrite (drop_take_drop chunk pos eq). econstructor; [lia| |by rewrite <-Nat.add_assoc].
    pose proof (take_while_count_eqb (drop pos chunk) (drop pos refc)) as E. fold eq in E.
    rewrite E, Hr, skipn_firstn_comm, drop_drop, take_take.
    apply get_range_Some. apply (f_equal length) in Hr. rewrite length_take, length_drop in Hr.
    split_and!; [lia|lia|]. f_equal. lia.
  - pose proof (take_while_count_progress (drop pos chunk) (drop pos refc)) as Hd.
    rewrite !length_drop, Hl in Hd. specialize (Hd eq_refl).
    set (diff := take_while_count (λ x y, negb (x =? y)) _ _) in *.
    pose proof (take_while_count_le (λ x y, negb (x =? y)) (drop pos chunk) (drop pos refc)) as [Hdl _].
    fold diff in Hdl. rewrite length_drop in Hdl.
    specialize (Hd ltac:(intros E; apply (f_equal length) in E; rewrite length_drop in E; simpl in E; lia)
                   ltac:(fold eq; lia)).
    rewrite slice_ok by lia. cbn [mbind outcome_bind]. replace (pos + diff - pos)%nat with diff by lia.
    set (part := take diff (drop pos chunk)).
    assert (length part = diff) as Hpl by (unfold part; rewrite length_take, length_drop; lia).
    assert (∃ w1, (if mixed then horizontal out part else Ok ((out ++ [u8 (Z.of_nat diff)]) ++ part))
                    = Ok (out ++ w1) ∧ Expands ref (s + pos) w1 part) as (w1&->&Hw1).
    { destruct mixed; [apply horizontal_ok; lia|]. exists (Z.of_nat (length part) :: part).
      rewrite u8_small, <-app_assoc, Hpl by lia. split; [done|]. rewrite <-Hpl at 1.
      apply expands_literal. lia. }
    cbn [mbind outcome_bind]. destruct (IH (pos + diff)%nat (out ++ w1)) as (w&->&Hw); [lia..|].
    exists (w1 ++ w). rewrite <-app_assoc. split; [done|].
    rewrite (drop_take_drop chunk pos diff). apply expands_app; [done|].
    fold part. by rewrite Hpl, <-Nat.add_assoc.
Qed.

Lemma compress_loop_ok mode article ref fuel pos out :
  (length article ≤ length ref)%nat → (pos ≤ length article)%nat →
  (length article - pos < fuel)%nat →
  ∃ w, compress_loop fuel mode article ref pos out = Ok (out ++ w)
       ∧ Expands ref pos w (drop pos article).
Proof.
  intros Hl. revert pos out. induction fuel as [|fuel IH]; intros pos out Hp Hf; [lia|].
  cbn [compress_loop]. destruct (Nat.ltb_spec pos (length article)) as [Hlt|].
  2:{ exists []. rewrite app_nil_r, drop_ge by lia. auto. }
  rewrite sub_usize_ok by lia. cbn [mbind outcome_bind].
  set (n := Nat.min CHUNK (length article - pos)). assert (0 < n < 64)%nat as Hn by (unfold n, CHUNK; lia).
  rewrite !slice_ok by (unfold n, CHUNK in *; lia). cbn [mbind outcome_bind].
  replace (pos + n - pos)%nat with n by lia.
  set (chunk := take n (drop pos article)). set (refc := take n (drop pos ref)).
  assert (length chunk = n) as Hcl by (unfold chunk; rewrite length_take, length_drop; unfold n; lia).
  assert (length refc = n) as Hrl by (unfold refc; rewrite length_take, length_drop; unfold n in *; lia).
  match goal with |- context [?m ≫= _] => assert (∃ w1, m = Ok (out ++ w1) ∧ Expands ref pos w1 chunk)
    as (w1&->&Hw1) end.
  { destruct mode.
    - exists (Z.of_nat (length chunk) :: chunk). rewrite u8_small, <-app_assoc, Hcl by lia.
      split; [done|]. rewrite <-Hcl at 1. apply expands_literal. lia.
    - apply horizontal_ok. lia.
    - destruct (vertical_loop_ok ref pos chunk refc false (S (length chunk)) 0 out) as (w&?&Hw);
        [lia..|unfold refc; by rewrite Hcl|lia|lia|]. exists w. by rewrite Nat.add_0_r, drop_0 in Hw.
    - destruct (vertical_loop_ok ref pos chunk refc true (S (length chunk)) 0 out) as (w&?&Hw);
        [lia..|unfold refc; by rewrite Hcl|lia|lia|]. exists w. by rewrite Nat.add_0_r, drop_0 in Hw. }
  cbn [mbind outcome_bind]. destruct (IH (pos + n)%nat (out ++ w1)) as (w&->&Hw); [unfold n; lia..|].
  exists (w1 ++ w). rewrite <-app_assoc. split; [done|].
  rewrite (drop_take_drop article pos n). apply expands_app; [done|]. fold chunk. by rewrite Hcl.
Qed.

Lemma compress_ok mode article ref :
  (length article ≤ length ref)%nat →
  ∃ w, compress mode article ref = Ok w ∧ Expands ref 0 w article.
Proof.
  intros Hl. destruct (compress_loop_ok mode article ref (S (length article)) 0 []) as (w&E&Hw); [lia..|].
  exists w. split; [exact E|]. by rewrite drop_0 in Hw.
Qed.

(** A literal article does not depend on the reference. *)
Lemma compress_literal_expands article ref ref' w :
  (length article ≤ length ref)%nat →
  compress Literal article ref = Ok w → Expands ref' 0 w article.
Proof.
  intros Hl Hw.
  assert (∀ fuel pos out, (pos ≤ length article)%nat → (length article - pos < fuel)%nat →
    ∃ w, compress_loop fuel Literal article ref pos out = Ok (out ++ w)
       ∧ Expands ref' pos w (drop pos article)) as H.
  { induction fuel as [|fuel IH]; intros pos out Hp Hf; [lia|]. cbn [compress_loop].
    destruct (Nat.ltb_spec pos (length article)) as [Hlt|].
    2:{ exists []. rewrite app_nil_r, drop_ge by lia. auto. }
    rewrite sub_usize_ok by lia. cbn [mbind outcome_bind].
    set (n := Nat.min CHUNK (length article - pos)). assert (0 < n < 64)%nat as Hn by (unfold n, CHUNK; lia).
    rewrite !slice_ok by (unfold n, CHUNK in *; lia). cbn [mbind outcome_bind].
    replace (pos + n - pos)%nat with n by lia. set (chunk := take n (drop pos article)).
    assert (length chunk = n) as Hcl by (unfold chunk; rewrite length_take, length_drop; unfold n; lia).
    destruct (IH (pos + n)%nat ((out ++ [u8 (Z.of_nat n)]) ++ chunk)) as (v&->&Hv); [unfold n; lia..|].
    exists (Z.of_nat (length chunk) :: chunk ++ v). rewrite u8_small, <-!app_assoc, Hcl by lia.
    split; [done|]. rewrite (drop_take_drop article pos n). fold chunk. rewrite <-Hcl at 1.
    constructor; [lia|]. by rewrite Hcl. }
  destruct (H (S (length article)) 0%nat []) as (v&E&Hv); [lia..|].
  unfold compress in Hw. rewrite E in Hw. injection Hw as <-. by rewrite drop_0 in Hv.
Qed.

(** ** The two ends *)

(** The article as the two ends see it: compressed by one, decompressed by the
    other. *)
Inductive Op : Type := OpArticle (a : bytes) | OpSync.

Fixpoint transfer (c : Compressor) (d : Decompressor) (ops : list Op)
    : Compressor * Decompressor * option (list bytes) :=
  match ops with
  | [] => (c, d, Some [])
  | OpSync :: ops => transfer (sync_point c) d ops
  | OpArticle a :: ops =>
      match compress_article c a with
      | (c, Ok w) =>
          match decompress_article d w with
          | (d, Ok a') =>
              let '(c, d, r) := transfer c d ops in (c, d, cons a' <$> r)
          | (d, _) => (c, d, None)
          end
      | (c, _) => (c, d, None)
      end
  end.

Definition articles (ops : list Op) : list bytes :=
  omap (λ o, match o with OpArticle a => Some a | OpSync => None end) ops.

(** Both ends hold the same reference, as long as the longest article. *)
Definition in_step (c : Compressor) (d : Decompressor) : Prop :=
  c_reference c = d_reference d ∧ capacity (c_reference c) = d_max_article d.

Lemma update_length r a :
  length (rbuf (update r a)) = Nat.max (length (rbuf r)) (length a).
Proof.
  unfold update. simpl. rewrite length_app, length_drop.
  destruct (Nat.ltb_spec (length (rbuf r)) (length a)); [|lia].
  unfold grow. rewrite length_app, length_replicate. lia.
Qed.

Lemma compress_article_ok c a :
  ∃ r w, compress_article c a = (mkCompressor (compression c) (update r a) false, Ok w)
    ∧ Expands (rbuf r) 0 w a
    ∧ ((length a ≤ capacity (c_reference c))%nat → r = c_reference c)
    ∧ (after_sync c = true → ∀ ref', Expands ref' 0 w a).
Proof.
  unfold compress_article, capacity. set (r := if (_ <? _)%nat then _ else _).
  assert (length a ≤ length (rbuf r))%nat as Hl.
  { unfold r. destruct (Nat.ltb_spec (length (rbuf (c_reference c))) (length a)); [|done].
    simpl. unfold grow. rewrite length_app, length_replicate. lia. }
  destruct (compress_ok (if after_sync c then Literal else mode_of (compression c)) a (rbuf r) Hl)
    as (w&E&Hw).
  unfold as_slice. rewrite E. exists r, w. split_and!; [done|done| |].
  - intros Ha. unfold r. destruct (Nat.ltb_spec (length (rbuf (c_reference c))) (length a)); [lia|done].
  - intros Hs ref'. rewrite Hs in E. by eapply compress_literal_expands.
Qed.

Lemma transfer_ok c d ops :
  in_step c d → Forall (λ a, (length a ≤ d_max_article d)%nat) (articles ops) →
  ∃ c' d', transfer c d ops = (c', d', Some (articles ops)) ∧ in_step c' d'.
Proof.
  revert c d. induction ops as [|[a|] ops IH]; intros c d Hs Ha.
  { by exists c, d. }
  - unfold articles in Ha. simpl in Ha. inversion_clear Ha as [|?? Hla Ha']. destruct Hs as [Hr Hc].
    destruct (compress_article_ok c a) as (r&w&E&Hw&Hrr&_). cbn [transfer]. rewrite E.
    rewrite Hrr in * by (rewrite Hc; done).
    unfold decompress_article, as_slice. rewrite <-Hr, (decompress_expands _ _ _ _ Hw) by done.
    set (c1 := mkCompressor _ _ _). set (d1 := mkDecompressor _ _ _).
    destruct (IH c1 d1) as (c'&d'&E'&Hs').
    + split; [done|]. unfold capacity, c1, d1 in *. cbn [c_reference d_max_article]. rewrite update_length. lia.
    + done.
    + rewrite E'. by exists c', d'.
  - cbn [transfer]. apply IH; [|done]. by destruct Hs.
Qed.

Lemma in_step_new c n : in_step (compressor_new c n) (decompressor_new n).
Proof.
  split; [done|]. unfold capacity. simpl. rewrite length_replicate. lia.
Qed.

(** The decompressor on arbitrary input. *)
Lemma decompress_loop_safe w ref max fuel pos out :
  (length out ≤ max)%nat → (pos ≤ length w)%nat → (length w - pos < fuel)%nat →
  let r := decompress_loop fuel w ref max pos out in
  r.2 ≠ Panic ∧ (length r.1 ≤ max)%nat.
Proof.
  revert pos out. induction fuel as [|fuel IH]; intros pos out Ho Hp Hf; [lia|].
  cbn [decompress_loop]. destruct (Nat.ltb_spec pos (length w)) as [Hlt|]; [|done].
  destruct (lookup_lt_is_Some_2 w pos Hlt) as [h ->]. cbv zeta.
  set (n := Z.to_nat (Z.land h 63)). destruct (Z.land h 192 =? 192).
  - destruct (Nat.ltb_spec max (length out + n)); simpl; [done|].
    destruct (get_range _ _ _) as [src|] eqn:Hr; [|done]. apply get_range_length in Hr.
    apply IH; rewrite ?length_app; lia.
  - destruct (Z.land h 192 =? 128).
    + destruct (w !! (pos + 1)%nat) as [b|] eqn:Hb; [|done]. apply lookup_lt_Some in Hb.
      destruct (Nat.ltb_spec max (length out + Z.to_nat (Z.land h 127))); simpl; [done|].
      apply IH; rewrite ?length_app, ?length_replicate; lia.
    + destruct (Z.land h 192 =? 0); [|done].
      destruct (get_range _ _ _) as [src|] eqn:Hr; [|done].
      pose proof Hr as (_&?&_)%get_range_Some. apply get_range_length in Hr.
      destruct (Nat.ltb_spec max (length out + n)); simpl; [done|].
      apply IH; rewrite ?length_app; lia.
Qed.

(** ** Theorems *)

(** C31: compression is lossless. In every mode, with any reference at least as
    long as the article, compression does not panic and the decompressor with
    the same reference restores the article; and what literal mode produces is
    restored with any other reference as well. *)
Theorem compress_roundtrip mode article ref ref' max :
  (length article ≤ length ref)%nat → (length article ≤ max)%nat →
  ∃ w, compress mode article ref = Ok w ∧ decompress w ref max = (article, Ok tt)
       ∧ (mode = Literal → decompress w ref' max = (article, Ok tt)).
Proof.
  intros Hl Hm. destruct (compress_ok mode article ref Hl) as (w&E&Hw). exists w.
  split_and!; [done|by apply decompress_expands|]. intros ->.
  apply decompress_expands; [|done]. by eapply compress_literal_expands.
Qed.

Example compress_roundtrip_witness :
  ∃ w, compress Mixed [1; 2; 9; 9; 9; 4] [1; 2; 3; 3; 3; 4; 5] = Ok w
    ∧ w = [0xC2; 0x83; 9; 0xC1]
    ∧ decompress w [1; 2; 3; 3; 3; 4; 5] 6 = ([1; 2; 9; 9; 9; 4], Ok tt).
Proof.
  destruct (compress_roundtrip Mixed [1; 2; 9; 9; 9; 4] [1; 2; 3; 3; 3; 4; 5] [] 6)
    as (w&H1&H2&_); [simpl; lia..|].
  exists w. split; [exact H1|]. split; [|exact H2].
  vm_compute in H1. injection H1 as <-. reflexivity.
Defined.

(** C32: the two ends stay in step. From new ends for articles of at most [n]
    bytes, any sequence of articles no longer than that, with synchronisation
    points anywhere, is restored article by article with any negotiated
    compression, and the references of both ends are equal at the end. *)
Theorem transfer_restores c n ops :
  Forall (λ a, (length a ≤ n)%nat) (articles ops) →
  ∃ c' d', transfer (compressor_new c n) (decompressor_new n) ops = (c', d', Some (articles ops))
    ∧ c_reference c' = d_reference d'.
Proof.
  intros Ha. destruct (transfer_ok (compressor_new c n) (decompressor_new n) ops) as (c'&d'&E&Hs&_).
  - apply in_step_new.
  - apply (Forall_impl _ _ _ Ha). intros a. simpl. lia.
  - by exists c', d'.
Qed.

Example transfer_restores_witness :
  ∃ c' d', transfer (compressor_new Compression.Mixed 8) (decompressor_new 8)
      [OpArticle [1; 1; 1; 2]; OpArticle [1; 1; 3; 3]; OpSync; OpArticle [1; 1; 3]]
    = (c', d', Some [[1; 1; 1; 2]; [1; 1; 3; 3]; [1; 1; 3]]).
Proof.
  destruct (transfer_restores Compression.Mixed 8
    [OpArticle [1; 1; 1; 2]; OpArticle [1; 1; 3; 3]; OpSync; OpArticle [1; 1; 3]])
    as (c'&d'&H&_); [by_compute|].
  exists c', d'. exact H.
Defined.

(** The decompressor is safe. On any bytes, with any reference, it does not
    panic or loop, and it never holds more than the maximum article length,
    whether it succeeds or not; a failed call leaves the reference as it was. *)
Theorem decompress_safe d w ref max :
  (decompress w ref max).2 ≠ Panic ∧ (length (decompress w ref max).1 ≤ max)%nat
  ∧ no_panic (decompress_article d w).2
  ∧ (is_ok (decompress_article d w).2 = false →
     d_reference (decompress_article d w).1 = d_reference d).
Proof.
  assert (∀ ref max, (decompress w ref max).2 ≠ Panic ∧ (length (decompress w ref max).1 ≤ max)%nat) as H
    by (intros; apply decompress_loop_safe; simpl; lia).
  destruct (H ref max). split_and!; [done..| |].
  - unfold decompress_article, no_panic. destruct (H (as_slice (d_reference d)) (d_max_article d)) as [Hn _].
    by destruct (decompress w (as_slice (d_reference d)) (d_max_article d)) as [out [| |]].
  - unfold decompress_article.
    by destruct (decompress w (as_slice (d_reference d)) (d_max_article d)) as [out [| |]].
Qed.

(** A restart does depend on the reference. The sender has sent the article
    [abcdef] which the receiver dropped while it waited for a
    resynchronisation; both restart from the checkpoint before it, and the
    sender marks the synchronisation point. The first article is literal and
    is received, but it is shorter than the lost one, so that the tails of the
    two references differ: the next article, compressed vertically, is
    decompressed without an error into other bytes. *)
Theorem resync_corrupts :
  let abcdef := [97; 98; 99; 100; 101; 102] in
  let xyz := [120; 121; 122] in
  let sender := (compress_article (compressor_new Compression.Vertical 8) abcdef).1 in
  let receiver := decompressor_new 8 in
  ∃ c' d',
    transfer (sync_point sender) receiver [OpArticle xyz; OpArticle abcdef]
      = (c', d', Some [xyz; [97; 98; 99; 0; 0; 0]]).
Proof. vm_compute. eauto. Qed.
