(* ===== verification/Article.v ===== *)
(** * Articles ([crates/pesit-core/src/article.rs])

    Record formats, the cutter of a file into articles, the packer of articles
    into data FPDUs with its segmentation, and the reassembler. *)

From S2P Require Import Prelude Diag Pi Kinds Fpdu Params.
Open Scope Z_scope.

Module Article.
Import Fpdu.

Inductive RecordFormat : Type := Bu | Bf | Bv | Tv | Tf.

#[global] Instance record_format_eq_dec : EqDecision RecordFormat.
Proof. solve_decision. Defined.

Definition article_format (f : RecordFormat) : ArticleFormat :=
  match f with
  | Bf | Tf => ArticleFormat.Fixed
  | Bu | Bv | Tv => ArticleFormat.Variable_
  end.

Definition is_text (f : RecordFormat) : bool :=
  match f with Tv | Tf => true | _ => false end.

(** The two letters of the code. *)
Definition format_code (f : RecordFormat) : ustring :=
  match f with
  | Bu => [66; 85]
  | Bf => [66; 70]
  | Bv => [66; 86]
  | Tv => [84; 86]
  | Tf => [84; 70]
  end.

Definition to_ascii_uppercase (s : ustring) : ustring :=
  map (λ c, if (97 <=? c) && (c <=? 122) then c - 32 else c) s.

Definition parse_format (code : ustring) : option RecordFormat :=
  let u := to_ascii_uppercase code in
  List.find (λ f, bool_decide (u = format_code f)) [Bu; Bf; Bv; Tv; Tf].

Inductive RecordError : Type :=
| UnfilledRecord (len record_len : nat)
| LineTooLong (len record_len : nat).

(** *** The cutter *)

Record ArticleCutter : Type := mkArticleCutter {
  format : RecordFormat;
  record_len : nat;
  cbuf : bytes;
  cpos : nat;
}.

Definition cutter_new (format : RecordFormat) (record_len : nat) : ArticleCutter :=
  mkArticleCutter format (Nat.max record_len 1) [] 0.

Definition cutter_push (c : ArticleCutter) (data : bytes) : ArticleCutter :=
  let c :=
    if (0 <? cpos c)%nat && (length (cbuf c) / 2 <=? cpos c)%nat
    then mkArticleCutter (format c) (record_len c) (drop (cpos c) (cbuf c)) 0
    else c in
  mkArticleCutter (format c) (record_len c) (cbuf c ++ data) (cpos c).

Definition advance (c : ArticleCutter) (n : nat) : ArticleCutter :=
  mkArticleCutter (format c) (record_len c) (cbuf c) (cpos c + n).

(** [iter().position(|b| *b == x)]. *)
Fixpoint position (x : Z) (l : bytes) : option nat :=
  match l with
  | [] => None
  | b :: l => if b =? x then Some 0%nat else S <$> position x l
  end.

(** [strip_suffix(b"\r").unwrap_or(line)]. *)
Fixpoint strip_cr (line : bytes) : bytes :=
  match line with
  | [] => []
  | [13] => []
  | b :: line => b :: strip_cr line
  end.

Definition text_article (c : ArticleCutter) (line : bytes) : outcome RecordError bytes :=
  if (record_len c <? length line)%nat then Err (LineTooLong (length line) (record_len c))
  else
    let a := line in
    let a := if decide (format c = Tf) then a ++ replicate (record_len c - length a) 32 else a in
    Ok (if decide (a = []) then a ++ [32] else a).

Definition next_article (c : ArticleCutter)
    : ArticleCutter * outcome RecordError (option bytes) :=
  match slice (cbuf c) (cpos c) (length (cbuf c)) with
  | Err e => (c, Err e)
  | Panic => (c, Panic)
  | Ok avail =>
      match format c with
      | Bu | Bf | Bv =>
          if (record_len c <=? length avail)%nat
          then (advance c (record_len c), Ok (Some (take (record_len c) avail)))
          else (c, Ok None)
      | Tv | Tf =>
          match position 10 avail with
          | Some nl =>
              let line := take nl avail in
              let line := strip_cr line in
              match text_article c line with
              | Ok article => (advance c (nl + 1), Ok (Some article))
              | Err e => (c, Err e)
              | Panic => (c, Panic)
              end
          | None => (c, Ok None)
          end
      end
  end.

Definition buffered (c : ArticleCutter) : outcome RecordError nat :=
  sub_usize (length (cbuf c)) (cpos c).

Definition finish (c : ArticleCutter) : ArticleCutter * outcome RecordError (option bytes) :=
  match slice (cbuf c) (cpos c) (length (cbuf c)) with
  | Err e => (c, Err e)
  | Panic => (c, Panic)
  | Ok rest =>
      let c := mkArticleCutter (format c) (record_len c) (cbuf c) (length (cbuf c)) in
      if decide (rest = []) then (c, Ok None)
      else
        (c, match format c with
            | Bu | Bv => Ok (Some rest)
            | Bf => Err (UnfilledRecord (length rest) (record_len c))
            | Tv | Tf => a ← text_article c (strip_cr rest); Ok (Some a)
            end)
  end.

(** [iter().rposition(p)]. *)
Fixpoint rposition (p : Z → bool) (l : bytes) : option nat :=
  match l with
  | [] => None
  | b :: l =>
      match rposition p l with
      | Some i => Some (S i)
      | None => if p b then Some 0%nat else None
      end
  end.

Definition trim_trailing_spaces (a : bytes) : bytes :=
  let end_ := match rposition (λ b, negb (b =? 32)) a with Some i => (i + 1)%nat | None => 0%nat end in
  take end_ a.

Definition article_to_bytes (format : RecordFormat) (article : bytes) : bytes :=
  if is_text format then
    let trimmed := if decide (format = Tf) then trim_trailing_spaces article else article in
    trimmed ++ [10]
  else article.

(** *** The packer *)

Definition MAX_ARTICLES_PER_DTF : nat := 255.

Record ArticlePacker : Type := mkArticlePacker {
  pk_dst : Z;
  max_dtf_len : nat;
  multi_article : bool;
  pending : bytes;
  pending_count : nat;
}.

Definition packer_new (id_dst : Z) (max_dtf_len : nat) (multi_article : bool) : ArticlePacker :=
  mkArticlePacker id_dst (Nat.max max_dtf_len (HEADER_LEN + 1)) multi_article [] 0.

Definition max_single (p : ArticlePacker) : nat := max_dtf_len p - HEADER_LEN.

(** [flush_into]: the FPDU it pushes, if any. *)
Definition flush (p : ArticlePacker) : ArticlePacker * outcome Empty_set (option Fpdu) :=
  if (pending_count p =? 0)%nat then (p, Ok None)
  else
    let data := pending p in
    let p' := mkArticlePacker (pk_dst p) (max_dtf_len p) (multi_article p) [] 0 in
    (p', if (pending_count p =? 1)%nat then
           d ← slice data 2 (length data); Ok (Some (data_fpdu FpduKind.Dtf (pk_dst p) 0 d))
         else
           Ok (Some (data_fpdu FpduKind.Dtf (pk_dst p) (u8 (Z.of_nat (pending_count p))) data))).

(** The loop over the chunks of a long article. *)
Fixpoint segments (id_dst : Z) (first : bool) (chunks : list bytes) : list Fpdu :=
  match chunks with
  | [] => []
  | c :: rest =>
      let last := bool_decide (rest = []) in
      let kind :=
        match first, last with
        | true, _ => FpduKind.DtfDa
        | false, false => FpduKind.DtfMa
        | false, true => FpduKind.DtfFa
        end in
      data_fpdu kind id_dst 0 c :: segments id_dst false rest
  end.

Definition packer_push (p : ArticlePacker) (article : bytes)
    : ArticlePacker * outcome Empty_set (list Fpdu) :=
  if (max_single p <? length article)%nat then
    let '(p, r) := flush p in
    (p, f ← r; Ok (option_list f ++ segments (pk_dst p) true (chunks (max_single p) article)))
  else if negb (multi_article p) then
    (p, Ok [data_fpdu FpduKind.Dtf (pk_dst p) 0 article])
  else
    let needed := (2 + length article)%nat in
    let '(p, r) :=
      if (0 <? pending_count p)%nat
         && ((max_dtf_len p <? HEADER_LEN + length (pending p) + needed)%nat
             || (MAX_ARTICLES_PER_DTF <=? pending_count p)%nat)
      then flush p else (p, Ok None) in
    (mkArticlePacker (pk_dst p) (max_dtf_len p) (multi_article p)
       (pending p ++ be16 (u16 (Z.of_nat (length article))) ++ article) (S (pending_count p)),
     f ← r; Ok (option_list f)).

Definition has_pending (p : ArticlePacker) : bool := (0 <? pending_count p)%nat.

(** *** Articles of a data FPDU *)

Fixpoint articles_loop (fuel : nat) (data : bytes) (pos : nat) (out : list bytes)
    : outcome DecodeError (list bytes) :=
  match fuel with
  | O => Panic
  | S fuel =>
      if (pos <? length data)%nat then
        match get_range data pos (pos + 2) with
        | None => Err (err_protocol TruncatedArticleLength)
        | Some l =>
            l0 ← idx l 0; l1 ← idx l 1;
            let len := Z.to_nat (of_be16 l0 l1) in
            let start := (pos + 2)%nat in
            match get_range data start (start + len) with
            | None => Err (err_protocol ArticleExceeds)
            | Some a => articles_loop fuel data (start + len) (out ++ [a])
            end
        end
      else Ok out
  end.

Definition articles_of (fpdu : Fpdu) : outcome DecodeError (list bytes) :=
  if bool_decide (kind fpdu = FpduKind.Dtf) && (0 <? id_src fpdu) then
    out ← articles_loop (S (length (data fpdu))) (data fpdu) 0 [];
    if negb (Z.of_nat (length out) =? id_src fpdu)
    then Err (err_protocol (ArticleCount (id_src fpdu) (length out)))
    else Ok out
  else Ok [data fpdu].

(** *** The reassembler *)

Record Reassembler : Type := mkReassembler { partial : option bytes; max_len : nat }.

Inductive ReassemblyError : Type :=
| NoStart (kind : FpduKind)
| Interleaved (kind : FpduKind)
| TooLong (max : nat).

Definition reassembler_new (max_len : nat) : Reassembler := mkReassembler None max_len.
Definition in_progress (r : Reassembler) : bool := bool_decide (is_Some (partial r)).

Definition check (r : Reassembler) (len : nat) : outcome ReassemblyError unit :=
  if (0 <? max_len r)%nat && (max_len r <? len)%nat then Err (TooLong (max_len r)) else Ok tt.

(** A partial article taken by DTFMA or DTFFA is lost on an error. *)
Definition reassembler_feed (r : Reassembler) (fpdu : Fpdu)
    : Reassembler * outcome ReassemblyError (list bytes) :=
  match kind fpdu with
  | FpduKind.Dtf =>
      match partial r with
      | Some _ => (r, Err (Interleaved (kind fpdu)))
      | None => (r, map_err (λ _, Interleaved (kind fpdu)) (articles_of fpdu))
      end
  | FpduKind.DtfDa =>
      match partial r with
      | Some _ => (r, Err (Interleaved (kind fpdu)))
      | None =>
          match check r (length (data fpdu)) with
          | Ok _ => (mkReassembler (Some (data fpdu)) (max_len r), Ok [])
          | Err e => (r, Err e)
          | Panic => (r, Panic)
          end
      end
  | FpduKind.DtfMa | FpduKind.DtfFa =>
      match partial r with
      | None => (r, Err (NoStart (kind fpdu)))
      | Some p =>
          let taken := mkReassembler None (max_len r) in
          match check r (length p + length (data fpdu)) with
          | Err e => (taken, Err e)
          | Panic => (taken, Panic)
          | Ok _ =>
              let p := p ++ data fpdu in
              if decide (kind fpdu = FpduKind.DtfMa)
              then (mkReassembler (Some p) (max_len r), Ok [])
              else (taken, Ok [p])
          end
      end
  | _ => (r, Ok [])
  end.

End Article.
