(* ===== verification/CutterProps.v ===== *)
(** * Cutting a file into articles: properties

    The articles do not depend on how the file is fed to the cutter, and the
    file is restored from them. *)

From S2P Require Import Prelude Diag Pi Kinds Fpdu Params Article.
Open Scope Z_scope.
Import Article.

(** ** The bytes not yet consumed *)

Definition avail (c : ArticleCutter) : bytes := drop (cpos c) (cbuf c).
Definition cutter_ok (c : ArticleCutter) : Prop := (cpos c ≤ length (cbuf c))%nat.

(** [next_article] as a function of these bytes: the article and the number of
    bytes it consumes. *)
Definition text_article_of (fmt : RecordFormat) (rl : nat) (line : bytes) : outcome RecordError bytes :=
  text_article (mkArticleCutter fmt rl [] 0) line.

Definition next_avail (fmt : RecordFormat) (rl : nat) (av : bytes)
    : outcome RecordError (option (bytes * nat)) :=
  if is_text fmt then
    match position 10 av with
    | Some nl => a ← text_article_of fmt rl (strip_cr (take nl av)); Ok (Some (a, (nl + 1)%nat))
    | None => Ok None
    end
  else if (rl <=? length av)%nat then Ok (Some (take rl av, rl)) else Ok None.

Lemma position_lt x l n : position x l = Some n → (n < length l)%nat.
Proof.
  revert n. induction l as [|b l IH]; intros n; simpl; [done|].
  destruct (b =? x); [intros [= <-]; lia|].
  destruct (position x l) as [m|]; [|done]. intros [= <-]. specialize (IH m eq_refl). lia.
Qed.

Lemma position_app x l k n : position x l = Some n → position x (l ++ k) = Some n.
Proof.
  revert n. induction l as [|b l IH]; intros n; simpl; [done|].
  destruct (b =? x); [done|]. destruct (position x l) as [m|]; [|done].
  by rewrite (IH m eq_refl).
Qed.

Lemma position_None x l k : x ∉ l → position x (l ++ x :: k) = Some (length l).
Proof.
  induction l as [|b l IH]; intros Hn; simpl; [by rewrite Z.eqb_refl|].
  apply not_elem_of_cons in Hn as [Hb Hn]. destruct (Z.eqb_spec b x); [congruence|].
  by rewrite IH.
Qed.

Lemma text_article_no_panic c line : no_panic (text_article c line).
Proof. unfold text_article. by destruct (_ <? _)%nat. Qed.

Lemma next_article_avail c :
  cutter_ok c →
  next_article c =
    match next_avail (format c) (record_len c) (avail c) with
    | Ok (Some (a, k)) => (advance c k, Ok (Some a))
    | Ok None => (c, Ok None)
    | Err e => (c, Err e)
    | Panic => (c, Panic)
    end.
Proof.
  intros Hc. unfold next_article. rewrite slice_ok by (done || lia).
  rewrite take_ge by (rewrite length_drop; lia). fold (avail c). unfold next_avail.
  assert (∀ line, text_article c line = text_article_of (format c) (record_len c) line) as E by done.
  destruct (is_text (format c)) eqn:Ht; destruct (format c); try done.
  all: try by destruct (_ <=? _)%nat.
  all: destruct (position 10 (avail c)); [|done]; rewrite E; by destruct (text_article_of _ _ _).
Qed.

Lemma next_avail_consumes fmt rl av a k :
  (0 < rl)%nat → next_avail fmt rl av = Ok (Some (a, k)) → (0 < k ≤ length av)%nat.
Proof.
  intros Hrl. unfold next_avail. destruct (is_text fmt).
  - destruct (position 10 av) as [nl|] eqn:Hp; [|done]. apply position_lt in Hp.
    destruct (text_article_of _ _ _); [|done..]. intros [= _ <-]. lia.
  - destruct (Nat.leb_spec rl (length av)); [|done]. intros [= _ <-]. lia.
Qed.

Lemma next_avail_mono fmt rl av d a k :
  next_avail fmt rl av = Ok (Some (a, k)) → next_avail fmt rl (av ++ d) = Ok (Some (a, k)).
Proof.
  unfold next_avail. destruct (is_text fmt).
  - destruct (position 10 av) as [nl|] eqn:Hp; [|done].
    rewrite (position_app _ _ _ _ Hp). apply position_lt in Hp. by rewrite take_app_le by lia.
  - destruct (Nat.leb_spec rl (length av)); [|done]. rewrite length_app.
    destruct (Nat.leb_spec rl (length av + length d)); [|lia]. by rewrite take_app_le.
Qed.

Lemma next_avail_mono_err fmt rl av d e :
  next_avail fmt rl av = Err e → next_avail fmt rl (av ++ d) = Err e.
Proof.
  unfold next_avail. destruct (is_text fmt).
  - destruct (position 10 av) as [nl|] eqn:Hp; [|done].
    rewrite (position_app _ _ _ _ Hp). apply position_lt in Hp. by rewrite take_app_le by lia.
  - by destruct (_ <=? _)%nat.
Qed.

Lemma next_avail_no_panic fmt rl av : next_avail fmt rl av ≠ Panic.
Proof.
  unfold next_avail. destruct (is_text fmt); [|by destruct (_ <=? _)%nat].
  destruct (position 10 av); [|done].
  pose proof (text_article_no_panic (mkArticleCutter fmt rl [] 0) (strip_cr (take n av))) as H.
  unfold text_article_of. by destruct (text_article _ _).
Qed.

(** ** Taking all complete articles *)

Fixpoint drain (fuel : nat) (c : ArticleCutter) : ArticleCutter * list bytes * outcome RecordError unit :=
  match fuel with
  | O => (c, [], Panic)
  | S fuel =>
      match next_article c with
      | (c, Ok (Some a)) => let '(c, l, r) := drain fuel c in (c, a :: l, r)
      | (c, Ok None) => (c, [], Ok tt)
      | (c, Err e) => (c, [], Err e)
      | (c, Panic) => (c, [], Panic)
      end
  end.
Definition drain_all (c : ArticleCutter) := drain (S (length (cbuf c))) c.

(** The pieces of a file pushed one after the other, every complete article
    taken after each of them, as the reading loop of a transfer does. *)
Fixpoint feed (c : ArticleCutter) (pieces : list bytes)
    : ArticleCutter * list bytes * outcome RecordError unit :=
  match pieces with
  | [] => (c, [], Ok tt)
  | d :: pieces =>
      let '(c, l, r) := drain_all (cutter_push c d) in
      match r with
      | Ok _ => let '(c, l', r) := feed c pieces in (c, l ++ l', r)
      | _ => (c, l, r)
      end
  end.

(** The articles of a file, up to the first error. *)
Definition cut (fmt : RecordFormat) (rl : nat) (pieces : list bytes)
    : list bytes * outcome RecordError unit :=
  let '(c, l, r) := feed (cutter_new fmt rl) pieces in
  match r with
  | Ok _ =>
      match (finish c).2 with
      | Ok (Some a) => (l ++ [a], Ok tt)
      | Ok None => (l, Ok tt)
      | Err e => (l, Err e)
      | Panic => (l, Panic)
      end
  | _ => (l, r)
  end.

(** The same on the unconsumed bytes. *)
Fixpoint drain_av (fuel : nat) (fmt : RecordFormat) (rl : nat) (av : bytes)
    : bytes * list bytes * outcome RecordError unit :=
  match fuel with
  | O => (av, [], Panic)
  | S fuel =>
      match next_avail fmt rl av with
      | Ok (Some (a, k)) => let '(av, l, r) := drain_av fuel fmt rl (drop k av) in (av, a :: l, r)
      | Ok None => (av, [], Ok tt)
      | Err e => (av, [], Err e)
      | Panic => (av, [], Panic)
      end
  end.

Lemma avail_advance c k : avail (advance c k) = drop k (avail c).
Proof. unfold avail, advance. simpl. by rewrite drop_drop. Qed.

Lemma drain_av_irrel fmt rl f g av :
  (0 < rl)%nat → (length av < f)%nat → (length av < g)%nat →
  drain_av f fmt rl av = drain_av g fmt rl av.
Proof.
  intros Hrl. revert g av. induction f as [|f IH]; intros g av Hf Hg; [lia|].
  destruct g as [|g]; [lia|]. cbn [drain_av].
  destruct (next_avail fmt rl av) as [[[a k]|]| |] eqn:Hn; [|done..].
  apply next_avail_consumes in Hn; [|done].
  by rewrite (IH g) by (rewrite length_drop; lia).
Qed.

Lemma drain_refines fuel c :
  (0 < record_len c)%nat → cutter_ok c →
  let '(c', l, r) := drain fuel c in
  drain_av fuel (format c) (record_len c) (avail c) = (avail c', l, r)
  ∧ format c' = format c ∧ record_len c' = record_len c ∧ cutter_ok c'.
Proof.
  revert c. induction fuel as [|fuel IH]; intros c Hrl Hc; [done|]. cbn [drain drain_av].
  rewrite next_article_avail by done.
  destruct (next_avail _ _ _) as [[[a k]|]| |] eqn:Hn; [|done..].
  apply next_avail_consumes in Hn; [|done]. unfold avail in Hn. rewrite length_drop in Hn.
  unfold cutter_ok in Hc.
  specialize (IH (advance c k) Hrl ltac:(unfold cutter_ok; simpl; lia)).
  destruct (drain fuel (advance c k)) as [[c' l] r]. rewrite avail_advance in IH.
  destruct IH as (E&?&?&?). simpl in E. by rewrite E.
Qed.

Lemma avail_push c d : cutter_ok c → avail (cutter_push c d) = avail c ++ d.
Proof.
  intros Hc. unfold cutter_push, avail. destruct (_ && _); simpl; [by rewrite drop_0|].
  unfold cutter_ok in Hc. by rewrite drop_app_le.
Qed.

Lemma push_ok c d : cutter_ok c → cutter_ok (cutter_push c d).
Proof.
  unfold cutter_ok, cutter_push. intros Hc.
  destruct (_ && _); simpl; rewrite length_app; [|lia]. lia.
Qed.

Lemma push_format c d :
  format (cutter_push c d) = format c ∧ record_len (cutter_push c d) = record_len c.
Proof. unfold cutter_push. by destruct (_ && _). Qed.

(** All complete articles of the unconsumed bytes. *)
Definition take_all (fmt : RecordFormat) (rl : nat) (av : bytes) := drain_av (S (length av)) fmt rl av.

Lemma take_all_step fmt rl av :
  (0 < rl)%nat →
  take_all fmt rl av =
    match next_avail fmt rl av with
    | Ok (Some (a, k)) => let '(av, l, r) := take_all fmt rl (drop k av) in (av, a :: l, r)
    | Ok None => (av, [], Ok tt)
    | Err e => (av, [], Err e)
    | Panic => (av, [], Panic)
    end.
Proof.
  intros Hrl. unfold take_all. cbn [drain_av].
  destruct (next_avail fmt rl av) as [[[a k]|]| |] eqn:Hn; [|done..].
  apply next_avail_consumes in Hn; [|done].
  by rewrite (drain_av_irrel fmt rl (length av) (S (length (drop k av)))) by (rewrite ?length_drop; lia).
Qed.

Lemma take_all_ind fmt rl (P : bytes → Prop) :
  (0 < rl)%nat →
  (∀ av, (∀ a k, next_avail fmt rl av = Ok (Some (a, k)) → P (drop k av)) → P av) → ∀ av, P av.
Proof.
  intros Hrl HP av. induction av as [av IH] using (induction_ltof1 _ length).
  apply HP. intros a k Hn. apply next_avail_consumes in Hn; [|done]. apply IH.
  unfold ltof. rewrite length_drop. lia.
Qed.

Lemma take_all_no_panic fmt rl av : (0 < rl)%nat → (take_all fmt rl av).2 ≠ Panic.
Proof.
  intros Hrl. revert av. apply (take_all_ind fmt rl _ Hrl). intros av IH.
  rewrite take_all_step by done. pose proof (next_avail_no_panic fmt rl av).
  destruct (next_avail fmt rl av) as [[[a k]|]| |] eqn:Hn; [|done..].
  specialize (IH a k eq_refl). by destruct (take_all fmt rl (drop k av)) as [[??] ?].
Qed.

Lemma take_all_rest fmt rl av rest l :
  (0 < rl)%nat → take_all fmt rl av = (rest, l, Ok tt) → next_avail fmt rl rest = Ok None.
Proof.
  intros Hrl. revert av rest l.
  apply (take_all_ind fmt rl (λ av, ∀ rest l, take_all fmt rl av = (rest, l, Ok tt) →
    next_avail fmt rl rest = Ok None) Hrl).
  intros av IH rest l. rewrite take_all_step by done.
  destruct (next_avail fmt rl av) as [[[a k]|]| |] eqn:Hav; [| |done..].
  - specialize (IH a k eq_refl). destruct (take_all fmt rl (drop k av)) as [[rest' l'] r].
    intros [= -> <- ->]. by eapply IH.
  - by intros [= <- <-].
Qed.

(** More bytes only add articles. *)
Lemma take_all_app fmt rl av d :
  (0 < rl)%nat →
  take_all fmt rl (av ++ d) =
    let '(rest, l, r) := take_all fmt rl av in
    match r with
    | Ok _ => let '(rest', l', r') := take_all fmt rl (rest ++ d) in (rest', l ++ l', r')
    | _ => (rest ++ d, l, r)
    end.
Proof.
  intros Hrl. revert av. apply (take_all_ind fmt rl _ Hrl). intros av IH.
  rewrite (take_all_step fmt rl av) by done.
  destruct (next_avail fmt rl av) as [[[a k]|]|e|] eqn:Hn.
  - rewrite take_all_step by done. rewrite (next_avail_mono _ _ _ d _ _ Hn).
    pose proof Hn as Hk. apply next_avail_consumes in Hk; [|done].
    rewrite drop_app_le by lia. rewrite (IH a k eq_refl).
    destruct (take_all fmt rl (drop k av)) as [[rest l] [u|e|]]; [|done..].
    by destruct (take_all fmt rl (rest ++ d)) as [[??] ?].
  - by destruct (take_all fmt rl (av ++ d)) as [[??] ?].
  - rewrite take_all_step by done. by rewrite (next_avail_mono_err _ _ _ d _ Hn).
  - by destruct (next_avail_no_panic fmt rl av).
Qed.

Lemma drain_all_take_all c :
  (0 < record_len c)%nat → cutter_ok c →
  let '(c', l, r) := drain_all c in
  take_all (format c) (record_len c) (avail c) = (avail c', l, r)
  ∧ format c' = format c ∧ record_len c' = record_len c ∧ cutter_ok c'.
Proof.
  intros Hrl Hc. pose proof (drain_refines (S (length (cbuf c))) c Hrl Hc) as H.
  unfold drain_all. destruct (drain _ c) as [[c' l] r]. destruct H as (E&?). split; [|done].
  rewrite <-E. unfold take_all. apply drain_av_irrel; [done|lia|].
  unfold avail. rewrite length_drop. lia.
Qed.

Lemma feed_take_all c pieces :
  (0 < record_len c)%nat → cutter_ok c → next_avail (format c) (record_len c) (avail c) = Ok None →
  let '(c', l, r) := feed c pieces in
  ∃ rest, take_all (format c) (record_len c) (avail c ++ concat pieces) = (rest, l, r)
  ∧ (r = Ok tt → rest = avail c') ∧ format c' = format c ∧ record_len c' = record_len c ∧ cutter_ok c'.
Proof.
  revert c. induction pieces as [|d pieces IH]; intros c Hrl Hc Hn; cbn [feed concat].
  { exists (avail c). rewrite app_nil_r, take_all_step, Hn by done. auto. }
  pose proof (push_format c d) as [Ef Er].
  pose proof (drain_all_take_all (cutter_push c d) ltac:(by rewrite Er) (push_ok c d Hc)) as H.
  destruct (drain_all (cutter_push c d)) as [[c1 l1] r1]. rewrite avail_push, Ef, Er in H by done.
  destruct H as (E&Ef1&Er1&Hc1). rewrite app_assoc, take_all_app, E by done.
  destruct r1 as [[]|e|].
  - specialize (IH c1 ltac:(by rewrite Er1) Hc1). rewrite Ef1, Er1 in IH.
    assert (next_avail (format c) (record_len c) (avail c1) = Ok None) as Hn1.
    { by eapply take_all_rest. }
    specialize (IH Hn1). destruct (feed c1 pieces) as [[c2 l2] r2].
    destruct IH as (rest&E2&?&?&?&?). rewrite E2. by exists rest.
  - by exists (avail c1 ++ concat pieces).
  - by exists (avail c1 ++ concat pieces).
Qed.

(** ** The articles of a file *)

(** What [finish] adds to the complete articles. *)
Definition finish_av (fmt : RecordFormat) (rl : nat) (rest : bytes) (l : list bytes)
    : list bytes * outcome RecordError unit :=
  if decide (rest = []) then (l, Ok tt)
  else
    match fmt with
    | Bu | Bv => (l ++ [rest], Ok tt)
    | Bf => (l, Err (UnfilledRecord (length rest) rl))
    | Tv | Tf =>
        match text_article_of fmt rl (strip_cr rest) with
        | Ok a => (l ++ [a], Ok tt)
        | Err e => (l, Err e)
        | Panic => (l, Panic)
        end
    end.

Definition cut_file (fmt : RecordFormat) (rl : nat) (file : bytes)
    : list bytes * outcome RecordError unit :=
  let '(rest, l, r) := take_all fmt rl file in
  match r with Ok _ => finish_av fmt rl rest l | _ => (l, r) end.

Lemma cut_cut_file fmt rl pieces :
  (0 < rl)%nat → cut fmt rl pieces = cut_file fmt rl (concat pieces).
Proof.
  intros Hrl. pose proof (feed_take_all (cutter_new fmt rl) pieces) as H. simpl in H.
  replace (Nat.max rl 1) with rl in H by lia. specialize (H Hrl (le_0_n _)).
  assert (next_avail fmt rl (avail (cutter_new fmt rl)) = Ok None) as Hn.
  { unfold next_avail. simpl. destruct (is_text fmt); [done|]. by destruct rl; [lia|]. }
  specialize (H Hn). unfold cut, cut_file. destruct (feed _ pieces) as [[c l] r].
  destruct H as (rest&E&Hrest&Hf&Hr&Hc). unfold avail in E. simpl in E. rewrite E.
  destruct r as [[]|e|]; [|done..]. rewrite (Hrest eq_refl).
  unfold finish, finish_av. rewrite slice_ok by (done || lia).
  rewrite take_ge by (rewrite length_drop; lia). fold (avail c).
  assert (∀ c' line, format c' = fmt → record_len c' = rl →
    text_article c' line = text_article_of fmt rl line) as Et.
  { intros [f r' b p] line Hf' Hr'. simpl in *. by subst. }
  destruct (decide (avail c = [])); [done|]. simpl. rewrite Hf.
  destruct fmt; simpl; rewrite ?Hr; try done; rewrite Et by (by rewrite ?Hf, ?Hr);
    by destruct (text_article_of _ _ _).
Qed.

(** *** Binary formats *)

Lemma take_all_binary fmt rl av :
  (0 < rl)%nat → is_text fmt = false →
  ∃ rest l, take_all fmt rl av = (rest, l, Ok tt) ∧ (length rest < rl)%nat
    ∧ Forall (λ a, length a = rl) l
    ∧ av = concat l ++ rest
    ∧ chunks rl av = l ++ (if decide (rest = []) then [] else [rest]).
Proof.
  intros Hrl Hf. revert av. apply (take_all_ind fmt rl _ Hrl). intros av IH.
  rewrite take_all_step by done. unfold next_avail in *. rewrite Hf in *.
  destruct (Nat.leb_spec rl (length av)) as [Hle|Hlt].
  - destruct (IH _ _ eq_refl) as (rest&l&->&?&?&E&Ec). exists rest, (take rl av :: l).
    split_and!; [done|done|constructor; [rewrite length_take; lia|done]| |].
    + cbn [concat]. by rewrite <-app_assoc, <-E, take_drop.
    + rewrite chunks_step by (done || (intros ->; simpl in *; lia)). by rewrite Ec.
  - exists av, []. split_and!; [done|done|constructor|done|].
    destruct (decide (av = [])) as [->|Hne]; [done|].
    rewrite chunks_step by done. rewrite take_ge, drop_ge by lia. done.
Qed.

(** *** Text formats *)

Lemma strip_cr_id line : last line ≠ Some 13 → strip_cr line = line.
Proof.
  induction line as [|b line IH]; intros Hl; [done|]. cbn [strip_cr].
  destruct line as [|c line].
  - destruct (decide (b = 13)) as [->|Hb]; [done|]. by repeat case_match.
  - rewrite last_cons_cons in Hl. rewrite (IH Hl).
    by repeat case_match.
Qed.

Lemma trim_trailing_spaces_strip a : trim_trailing_spaces a = strip_trailing (λ b, b =? 32) a.
Proof.
  unfold trim_trailing_spaces. induction a as [|b a IH]; [done|]. cbn [rposition strip_trailing].
  destruct (rposition (λ b, negb (b =? 32)) a) as [i|] eqn:Hr; cbn [Nat.add take].
  - rewrite <-IH. destruct a as [|c a]; [done|]. by rewrite Nat.add_1_r.
  - rewrite <-IH. cbn [take]. by destruct (b =? 32).
Qed.

Lemma strip_spaces_id a : last a ≠ Some 32 → strip_trailing (λ b, b =? 32) a = a.
Proof.
  destruct a as [|a b _] using rev_ind; [done|]. rewrite last_snoc. intros Hb.
  apply strip_trailing_id. apply Z.eqb_neq. congruence.
Qed.

(** The article of a line. *)
Definition line_article (fmt : RecordFormat) (rl : nat) (line : bytes) : bytes :=
  let a := if decide (fmt = Tf) then line ++ replicate (rl - length line) 32 else line in
  if decide (a = []) then [32] else a.

Lemma text_article_of_line fmt rl line :
  (length line ≤ rl)%nat → text_article_of fmt rl line = Ok (line_article fmt rl line).
Proof.
  intros Hl. unfold text_article_of, text_article, line_article. simpl.
  destruct (Nat.ltb_spec rl (length line)); [lia|].
  destruct (decide (fmt = Tf)), (decide (_ = [])) as [E|]; [|done| |done]; by rewrite E.
Qed.

Definition unlines (lines : list bytes) : bytes := concat (map (λ l, l ++ [10]) lines).

(** A line that its format represents exactly. *)
Definition line_ok (fmt : RecordFormat) (rl : nat) (line : bytes) : Prop :=
  10 ∉ line ∧ (length line ≤ rl)%nat ∧ last line ≠ Some 13
  ∧ (if decide (fmt = Tf) then last line ≠ Some 32 else line ≠ []).

#[global] Instance line_ok_dec fmt rl line : Decision (line_ok fmt rl line).
Proof. unfold line_ok. destruct (decide (fmt = Tf)); apply _. Defined.

Lemma article_of_line fmt rl line :
  is_text fmt = true → line_ok fmt rl line →
  article_to_bytes fmt (line_article fmt rl line) = line ++ [10].
Proof.
  intros Hf (_&Hl&_&Hx). unfold article_to_bytes, line_article. rewrite Hf. f_equal.
  destruct (decide (fmt = Tf)) as [->|].
  - rewrite trim_trailing_spaces_strip. destruct (decide (_ = [])) as [E|_].
    + apply app_eq_nil in E as [-> _]. done.
    + rewrite strip_trailing_replicate by done. by apply strip_spaces_id.
  - by destruct (decide (line = [])).
Qed.

Lemma take_all_lines fmt rl lines rest :
  (0 < rl)%nat → is_text fmt = true →
  Forall (λ l, 10 ∉ l ∧ (length l ≤ rl)%nat ∧ last l ≠ Some 13) lines → 10 ∉ rest →
  take_all fmt rl (unlines lines ++ rest) = (rest, map (line_article fmt rl) lines, Ok tt).
Proof.
  intros Hrl Hf Hl Hr. induction Hl as [|line lines (Hn&Hlen&Hcr) Hl IH]; rewrite take_all_step by done;
    unfold next_avail; rewrite Hf.
  - change (unlines [] ++ rest) with rest. assert (position 10 rest = None) as ->; [|done].
    clear -Hr. induction rest as [|b rest IH]; [done|]. simpl.
    apply not_elem_of_cons in Hr as [Hb Hr]. destruct (Z.eqb_spec b 10); [congruence|].
    by rewrite IH.
  - unfold unlines. cbn [map concat]. fold (unlines lines). rewrite <-!app_assoc. cbn [app].
    rewrite position_None by done. rewrite take_app_length, strip_cr_id by done.
    rewrite text_article_of_line by done. simpl.
    rewrite <-(drop_drop _ 1 (length line)), drop_app_length. simpl.
    by rewrite drop_0, IH.
Qed.

(** ** Theorems *)

(** C34: the articles of a file do not depend on how it is read. Whatever the
    pieces in which the bytes are pushed, taking every complete article after
    each of them and finishing at the end gives the same articles, or the same
    error after the same articles, as pushing the whole file at once; and the
    cutter never panics and always terminates. *)
Theorem cut_pieces fmt rl pieces :
  (0 < rl)%nat →
  cut fmt rl pieces = cut fmt rl [concat pieces] ∧ (cut fmt rl pieces).2 ≠ Panic.
Proof.
  intros Hrl. rewrite !cut_cut_file by done. cbn [concat]. rewrite app_nil_r. split; [done|].
  unfold cut_file. pose proof (take_all_no_panic fmt rl (concat pieces) Hrl) as Hp.
  destruct (take_all _ _ _) as [[rest l] [[]| |]]; [|done..].
  unfold finish_av. destruct (decide (rest = [])); [done|].
  pose proof (text_article_no_panic (mkArticleCutter fmt rl [] 0) (strip_cr rest)) as Ht.
  unfold no_panic in Ht. fold (text_article_of fmt rl (strip_cr rest)) in Ht.
  by destruct fmt; try done; destruct (text_article_of _ _ _).
Qed.

Example cut_pieces_witness :
  cut Tv 10 [[104; 101]; [108; 13]; [10; 119; 10; 108]] = ([[104; 101; 108]; [119]; [108]], Ok tt)
  ∧ cut Tv 10 [[104; 101]; [108; 13]; [10; 119; 10; 108]] = cut Tv 10 [[104; 101; 108; 13; 10; 119; 10; 108]].
Proof.
  split; [vm_compute; reflexivity|].
  apply (cut_pieces Tv 10 [[104; 101]; [108; 13]; [10; 119; 10; 108]]). lia.
Defined.

(** binary files. In the undefined and variable binary formats the articles
    are the consecutive pieces of the record length, the last one possibly
    shorter; in the fixed format a file whose length is a multiple of the
    record length gives these same pieces, and any other file the complete
    ones and then the error about its unfilled last record. Written one after
    the other the articles are the file. *)
Theorem cut_binary rl file :
  (0 < rl)%nat →
  let arts := chunks rl file in
  cut Bu rl [file] = (arts, Ok tt) ∧ cut Bv rl [file] = (arts, Ok tt)
  ∧ concat (map (article_to_bytes Bu) arts) = file
  ∧ Forall (λ a, (0 < length a ≤ rl)%nat) arts
  ∧ (if decide (length file mod rl = 0)%nat
     then cut Bf rl [file] = (arts, Ok tt) ∧ Forall (λ a, length a = rl) arts
     else ∃ l last, arts = l ++ [last] ∧ Forall (λ a, length a = rl) l
            ∧ cut Bf rl [file] = (l, Err (UnfilledRecord (length last) rl))).
Proof.
  intros Hrl arts. rewrite !cut_cut_file by done. cbn [concat]. rewrite app_nil_r. unfold cut_file.
  destruct (take_all_binary Bu rl file Hrl eq_refl) as (rest&l&E1&Hlt&Hl&Ef&Ec).
  assert (∀ fmt, is_text fmt = false → take_all fmt rl file = (rest, l, Ok tt)) as E.
  { intros fmt Hf. rewrite <-E1. unfold take_all. generalize (S (length file)) as fuel. generalize file.
    intros av fuel. revert av. induction fuel as [|fuel IH]; intros av; [done|]. cbn [drain_av].
    unfold next_avail. rewrite Hf. simpl. destruct (_ <=? _)%nat; [|done]. by rewrite IH. }
  assert (length file = length l * rl + length rest)%nat as Hlen.
  { rewrite Ef, length_app. f_equal. clear -Hl. induction Hl as [|a l Ha Hl IH]; [done|].
    cbn [concat length]. rewrite length_app, IH, Ha. lia. }
  assert (length file mod rl = length rest)%nat as Hmod.
  { rewrite Hlen, Nat.add_comm, Nat.Div0.mod_add. by apply Nat.mod_small. }
  rewrite !E by done. unfold finish_av. fold arts in Ec. rewrite Hmod.
  assert (Forall (λ a, (0 < length a ≤ rl)%nat) l) as Hl' by (apply (Forall_impl _ _ _ Hl); simpl; lia).
  destruct (decide (rest = [])) as [->|Hne].
  - rewrite app_nil_r in Ec, Ef. rewrite Ec. cbn [length]. rewrite decide_True by done.
    rewrite map_id, <-Ef. auto 10.
  - assert (length rest ≠ 0%nat) by (by destruct rest).
    rewrite Ec. split_and!; [done|done| | |].
    + simpl. rewrite map_id, concat_app, Ef. simpl. by rewrite app_nil_r.
    + apply Forall_app. split; [done|]. repeat constructor; lia.
    + destruct (decide _); [lia|]. by exists l, rest.
Qed.

Example cut_binary_witness :
  cut Bu 4 [[97; 98; 99; 100; 101; 102; 103; 104; 105; 106]]
    = ([[97; 98; 99; 100]; [101; 102; 103; 104]; [105; 106]], Ok tt)
  ∧ concat (map (article_to_bytes Bu) (chunks 4 [97; 98; 99; 100; 101])) = [97; 98; 99; 100; 101].
Proof.
  split.
  - apply (cut_binary 4 [97; 98; 99; 100; 101; 102; 103; 104; 105; 106]). lia.
  - apply (cut_binary 4 [97; 98; 99; 100; 101]). lia.
Defined.

(** Text files. A file of lines, none longer than the record length, with no
    carriage return at the end of a line, and no empty line in the variable
    format or trailing blank in the fixed format, gives one article per line
    (of exactly the record length in the fixed format), and writing the
    articles restores the file. *)
Theorem cut_text fmt rl lines :
  (0 < rl)%nat → is_text fmt = true → Forall (line_ok fmt rl) lines →
  ∃ arts, cut fmt rl [unlines lines] = (arts, Ok tt)
    ∧ length arts = length lines
    ∧ concat (map (article_to_bytes fmt) arts) = unlines lines
    ∧ Forall (λ a, (0 < length a ≤ rl)%nat) arts
    ∧ (fmt = Tf → Forall (λ a, length a = rl) arts).
Proof.
  intros Hrl Hf Hl. exists (map (line_article fmt rl) lines).
  rewrite cut_cut_file by done. cbn [concat]. unfold cut_file.
  rewrite take_all_lines; [|done|done| |apply not_elem_of_nil].
  2:{ apply (Forall_impl _ _ _ Hl). intros l (?&?&?&_). auto. }
  split_and!.
  - unfold finish_av. by rewrite decide_True.
  - by rewrite length_map.
  - unfold unlines. rewrite map_map. f_equal. apply List.map_ext_Forall.
    apply (Forall_impl _ _ _ Hl). intros l. by apply article_of_line.
  - apply Forall_map. apply (Forall_impl _ _ _ Hl). intros l (_&?&_&Hx). simpl. unfold line_article.
    destruct (decide (fmt = Tf)).
    + destruct (decide _) as [E|_]; [simpl; lia|]. rewrite length_app, length_replicate. lia.
    + destruct (decide (l = [])) as [->|]; [simpl; lia|]. destruct l; simpl in *; [done|lia].
  - intros ->. apply Forall_map. apply (Forall_impl _ _ _ Hl). intros l (_&?&_&Hx). simpl.
    unfold line_article. destruct (decide (Tf = Tf)); [|done]. destruct (decide (_ = [])) as [E|_].
    + apply (f_equal length) in E. rewrite length_app, length_replicate in E. simpl in E. lia.
    + rewrite length_app, length_replicate. lia.
Qed.

Example cut_text_witness :
  ∃ arts, cut Tf 6 [unlines [[97; 98]; []; [99; 32; 100]]] = (arts, Ok tt)
    ∧ concat (map (article_to_bytes Tf) arts) = [97; 98; 10; 10; 99; 32; 100; 10].
Proof.
  destruct (cut_text Tf 6 [[97; 98]; []; [99; 32; 100]]) as (arts&H1&_&H2&_);
    [lia|reflexivity|by_compute|].
  exists arts. split; [exact H1|exact H2].
Defined.
