(* ===== verification/PackerProps.v ===== *)
(** * Packing, segmentation and reassembly: properties

    The data FPDUs of the packer fit the negotiated size and the reassembler
    restores the articles from them. *)

From S2P Require Import Prelude Diag Pi Kinds Fpdu FpduNum FpduCodec Params Compress Article.
Open Scope Z_scope.
Import Fpdu Article.

(** ** Length-prefixed articles *)

Definition prefixed (a : bytes) : bytes := be16 (u16 (Z.of_nat (length a))) ++ a.
Definition prefixed_all (l : list bytes) : bytes := concat (map prefixed l).

Lemma length_prefixed a : length (prefixed a) = (2 + length a)%nat.
Proof. unfold prefixed. rewrite length_app. done. Qed.

Lemma prefixed_all_snoc l a : prefixed_all (l ++ [a]) = prefixed_all l ++ prefixed a.
Proof. unfold prefixed_all. rewrite map_app, concat_app. simpl. by rewrite app_nil_r. Qed.

Lemma be16_idx0 {E} n : idx (E:=E) (be16 n) 0 = Ok ((n / 256) mod 256).
Proof. done. Qed.
Lemma be16_idx1 {E} n : idx (E:=E) (be16 n) 1 = Ok (n mod 256).
Proof. done. Qed.

Definition len16 (a : bytes) : Prop := (length a ≤ MAX_FPDU_LEN)%nat.

Lemma articles_loop_at l before out fuel :
  Forall len16 l → (length l < fuel)%nat →
  articles_loop fuel (before ++ prefixed_all l) (length before) out = Ok (out ++ l).
Proof.
  intros Hl. revert before out fuel. induction Hl as [|a l Ha Hl IH]; intros before out fuel Hf;
    (destruct fuel as [|fuel]; [simpl in Hf; lia|]); cbn [articles_loop].
  { change (prefixed_all []) with (@nil Z). rewrite !app_nil_r. by rewrite Nat.ltb_irrefl. }
  change (prefixed_all (a :: l)) with (prefixed a ++ prefixed_all l).
  specialize (IH (before ++ prefixed a) (out ++ [a]) fuel ltac:(simpl in Hf; lia)).
  rewrite <-!app_assoc in IH. cbn [app] in IH. rewrite length_app, length_prefixed in IH.
  match goal with |- context [(?x <? length ?y)%nat] =>
    destruct (Nat.ltb_spec x (length y)); [|rewrite !length_app, length_prefixed in *; lia] end.
  set (n := u16 (Z.of_nat (length a))).
  assert (n = Z.of_nat (length a)) as En.
  { unfold n, u16. unfold len16, MAX_FPDU_LEN in Ha. apply Z.mod_small. lia. }
  unfold prefixed. fold n. rewrite <-!app_assoc.
  replace (length before + 2)%nat with (length before + length (be16 n))%nat by done.
  rewrite get_range_app_mid, be16_idx0, be16_idx1. cbn [mbind outcome_bind]. cbv zeta.
  rewrite of_be16_be16 by (unfold u16_ok; unfold len16, MAX_FPDU_LEN in Ha; lia). rewrite En, Nat2Z.id.
  pose proof (get_range_app_mid (before ++ be16 n) a (prefixed_all l)) as E.
  rewrite length_app, <-!app_assoc in E. rewrite <-En, E. rewrite <-IH.
  unfold prefixed. fold n. rewrite <-!app_assoc. f_equal. cbn [length be16]. lia.
Qed.

Lemma articles_of_multi dst l :
  Forall len16 l → (0 < length l ≤ 255)%nat →
  articles_of (data_fpdu FpduKind.Dtf dst (u8 (Z.of_nat (length l))) (prefixed_all l)) = Ok l.
Proof.
  intros Hl Hn. unfold articles_of. cbn [kind data id_src data_fpdu].
  unfold u8. rewrite Z.mod_small by lia. rewrite bool_decide_true by done.
  destruct (Z.ltb_spec 0 (Z.of_nat (length l))); [|lia]. cbn [andb].
  assert (length l ≤ length (prefixed_all l))%nat as Hle.
  { clear. induction l as [|a l IH]; [done|].
    change (prefixed_all (a :: l)) with (prefixed a ++ prefixed_all l).
    rewrite length_app, length_prefixed. simpl. lia. }
  rewrite (articles_loop_at l [] []) by (done || lia). cbn [mbind outcome_bind app].
  by rewrite Z.eqb_refl.
Qed.

(** ** The reassembler over a list of FPDUs *)

Fixpoint feed_all (r : Reassembler) (fs : list Fpdu) : Reassembler * outcome ReassemblyError (list bytes) :=
  match fs with
  | [] => (r, Ok [])
  | f :: fs =>
      match reassembler_feed r f with
      | (r, Ok l) => let '(r, x) := feed_all r fs in (r, l' ← x; Ok (l ++ l'))
      | (r, Err e) => (r, Err e)
      | (r, Panic) => (r, Panic)
      end
  end.

Lemma feed_all_app r fs gs r1 l1 r2 l2 :
  feed_all r fs = (r1, Ok l1) → feed_all r1 gs = (r2, Ok l2) →
  feed_all r (fs ++ gs) = (r2, Ok (l1 ++ l2)).
Proof.
  revert r l1. induction fs as [|f fs IH]; intros r l1; simpl.
  { by intros [= -> <-] ->. }
  destruct (reassembler_feed r f) as [r' [l| |]]; [|done..].
  destruct (feed_all r' fs) as [r'' [l'| |]] eqn:E; [|done..]. simpl. intros [= -> <-] Hg.
  rewrite (IH r' l' E Hg). simpl. by rewrite <-app_assoc.
Qed.

(** An article that the limit allows. *)
Definition within (m : nat) (a : bytes) : Prop := m = 0%nat ∨ (length a ≤ m)%nat.

Lemma check_within r n : (max_len r = 0%nat ∨ (n ≤ max_len r)%nat) → check r n = Ok tt.
Proof.
  intros H. unfold check. destruct (Nat.ltb_spec 0 (max_len r)); [|done].
  destruct (Nat.ltb_spec (max_len r) n); [lia|done].
Qed.

Lemma feed_segments_rest m dst p cs :
  cs ≠ [] → within m (p ++ concat cs) →
  feed_all (mkReassembler (Some p) m) (segments dst false cs)
    = (mkReassembler None m, Ok [p ++ concat cs]).
Proof.
  intros Hne. revert p. induction cs as [|c cs IH]; intros p Hw; [done|]. cbn [segments feed_all].
  assert (length (p ++ concat (c :: cs)) = (length p + length c + length (concat cs))%nat) as El
    by (simpl; rewrite !length_app; lia).
  unfold within in Hw. rewrite El in Hw.
  assert (check (mkReassembler (Some p) m) (length p + length c) = Ok tt) as Hc
    by (apply check_within; simpl; lia).
  destruct (decide (cs = [])) as [->|Hcs].
  - rewrite bool_decide_true by done. unfold reassembler_feed. cbn [kind data_fpdu partial data max_len].
    rewrite Hc. simpl. by rewrite !app_nil_r.
  - rewrite bool_decide_false by done. unfold reassembler_feed. cbn [kind data_fpdu partial data max_len].
    rewrite Hc. simpl. rewrite IH; [|done|].
    + simpl. by rewrite <-app_assoc.
    + unfold within. rewrite !length_app. lia.
Qed.

Lemma feed_segments m dst c cs :
  cs ≠ [] → within m (c ++ concat cs) →
  feed_all (mkReassembler None m) (segments dst true (c :: cs)) = (mkReassembler None m, Ok [c ++ concat cs]).
Proof.
  intros Hne Hw. cbn [segments feed_all]. unfold reassembler_feed at 1. cbn [kind data_fpdu partial data max_len].
  rewrite check_within by (unfold within in Hw; rewrite length_app in Hw; simpl; lia).
  by rewrite feed_segments_rest.
Qed.

Lemma slice_drop_2 {E} a : (2 ≤ length (prefixed_all [a]))%nat →
  slice (E:=E) (prefixed_all [a]) 2 (length (prefixed_all [a])) = Ok a.
Proof.
  intros H. rewrite slice_ok by lia. f_equal. unfold prefixed_all. simpl. rewrite app_nil_r.
  apply take_ge. lia.
Qed.

Lemma feed_dtf r f l :
  kind f = FpduKind.Dtf → partial r = None → articles_of f = Ok l → reassembler_feed r f = (r, Ok l).
Proof. intros Hk Hp Ha. unfold reassembler_feed. by rewrite Hk, Hp, Ha. Qed.

Lemma feed_mono m dst a :
  feed_all (mkReassembler None m) [data_fpdu FpduKind.Dtf dst 0 a] = (mkReassembler None m, Ok [a]).
Proof. done. Qed.

(** ** The packer *)

(** The pending articles [ps] and the room they take. *)
Record packer_inv (p : ArticlePacker) (ps : list bytes) : Prop := {
  inv_dst : byte_ok (pk_dst p);
  inv_max : (HEADER_LEN < max_dtf_len p ≤ MAX_FPDU_LEN)%nat;
  inv_pending : pending p = prefixed_all ps;
  inv_mono : multi_article p = false → ps = [];
  inv_count : pending_count p = length ps;
  inv_few : (length ps ≤ MAX_ARTICLES_PER_DTF)%nat;
  inv_short : Forall (λ a, (HEADER_LEN + length a ≤ max_dtf_len p)%nat ∧ bytes_ok a) ps;
  inv_room : (1 < length ps)%nat → (HEADER_LEN + length (prefixed_all ps) ≤ max_dtf_len p)%nat;
}.

(** A data FPDU that fits. *)
Definition data_ok (max : nat) (f : Fpdu) : Prop :=
  FpduKind.is_data (kind f) = true ∧ (encoded_len f ≤ max)%nat ∧ wf f.

Lemma data_fpdu_ok max k dst src d :
  FpduKind.is_data k = true → byte_ok dst → byte_ok src → bytes_ok d →
  (HEADER_LEN + length d ≤ max)%nat → (max ≤ MAX_FPDU_LEN)%nat → data_ok max (data_fpdu k dst src d).
Proof.
  intros Hk Hd Hs Hb Hl Hm.
  assert (encoded_len (data_fpdu k dst src d) = (HEADER_LEN + length d)%nat) as E
    by (unfold encoded_len; simpl; by rewrite Hk).
  split_and!; [done|by rewrite E|]. constructor; simpl; rewrite ?Hk; try done. rewrite E. lia.
Qed.

Lemma prefixed_all_ok l : Forall bytes_ok l → bytes_ok (prefixed_all l).
Proof.
  induction 1 as [|a l Ha Hl IH]; [constructor|]. change (prefixed_all (a :: l)) with (prefixed a ++ prefixed_all l).
  apply bytes_ok_app. split; [|done]. apply bytes_ok_app. auto with bytes.
Qed.

(** Flushing sends exactly the pending articles. *)
Lemma flush_ok p ps m :
  packer_inv p ps →
  ∃ f, flush p = (mkArticlePacker (pk_dst p) (max_dtf_len p) (multi_article p) [] 0, Ok f)
    ∧ Forall (data_ok (max_dtf_len p)) (option_list f)
    ∧ feed_all (mkReassembler None m) (option_list f) = (mkReassembler None m, Ok ps).
Proof.
  intros [Hd Hm Hp Hmo Hc Hf Hs Hr]. unfold flush. rewrite Hc, Hp.
  destruct ps as [|a [|b ps]]; cbn [length Nat.eqb].
  - exists None. split_and!; [|constructor|done]. f_equal. destruct p; simpl in *. by subst.
  - rewrite slice_drop_2 by (simpl; lia).
    exists (Some (data_fpdu FpduKind.Dtf (pk_dst p) 0 a)). inversion_clear Hs as [|?? [Hla Hba] _].
    split_and!.
    + done.
    + constructor; [|constructor]. apply data_fpdu_ok; try done; unfold byte_ok; lia.
    + apply feed_mono.
  - set (l := a :: b :: ps) in *. eexists. split; [done|].
    assert (Forall len16 l) as H16.
    { apply (Forall_impl _ _ _ Hs). intros x [? _]. unfold len16, HEADER_LEN in *. lia. }
    split.
    + constructor; [|constructor]. apply data_fpdu_ok; try done; [unfold byte_ok, u8; lia_dm| |by apply Hr; simpl; lia|lia].
      apply prefixed_all_ok. apply (Forall_impl _ _ _ Hs). by intros x [_ ?].
    + change (feed_all (mkReassembler None m)
        [data_fpdu FpduKind.Dtf (pk_dst p) (u8 (Z.of_nat (length l))) (prefixed_all l)]
        = (mkReassembler None m, Ok l)).
      cbn [feed_all].
      erewrite feed_dtf; [|done|done|].
      2:{ apply (articles_of_multi (pk_dst p) l); [done|].
          unfold MAX_ARTICLES_PER_DTF in Hf. simpl in *. lia. }
      simpl. by rewrite app_nil_r.
Qed.

Lemma segments_ok max dst first cs :
  byte_ok dst → (max ≤ MAX_FPDU_LEN)%nat →
  Forall (λ c, (HEADER_LEN + length c ≤ max)%nat ∧ bytes_ok c) cs →
  Forall (data_ok max) (segments dst first cs).
Proof.
  intros Hd Hm Hc. revert first. induction Hc as [|c cs [Hl Hb] Hc IH]; intros first; [constructor|].
  cbn [segments]. constructor; [|apply IH].
  assert (byte_ok 0) by (unfold byte_ok; lia).
  apply data_fpdu_ok; try done. by destruct first, (bool_decide (cs = [])).
Qed.

Lemma Forall_concat_inv {A} (P : A → Prop) (ls : list (list A)) :
  Forall P (concat ls) → Forall (Forall P) ls.
Proof. induction ls as [|l ls IH]; simpl; [constructor|]. intros [??]%Forall_app. auto. Qed.

(** One article: what was sent and what is pending are the articles so far. *)
Lemma packer_push_ok p ps a m :
  packer_inv p ps → bytes_ok a → ((max_single p < length a)%nat → within m a) →
  ∃ p' fs out ps', packer_push p a = (p', Ok fs)
    ∧ packer_inv p' ps' ∧ max_dtf_len p' = max_dtf_len p
    ∧ Forall (data_ok (max_dtf_len p)) fs
    ∧ feed_all (mkReassembler None m) fs = (mkReassembler None m, Ok out)
    ∧ ps ++ [a] = out ++ ps'.
Proof.
  intros Hinv Ha Hw. pose proof Hinv as [Hd Hm Hp Hmo Hc Hf Hs Hr].
  destruct (flush_ok p ps m Hinv) as (f&Ef&Hfok&Hfeed). unfold packer_push.
  set (p0 := mkArticlePacker (pk_dst p) (max_dtf_len p) (multi_article p) [] 0) in *.
  assert (packer_inv p0 []) as Hinv0.
  { constructor; simpl; try done; [unfold MAX_ARTICLES_PER_DTF; lia|lia]. }
  destruct (Nat.ltb_spec (max_single p) (length a)) as [Hlong|Hshort].
  - (* segmentation *)
    rewrite Ef. cbn [mbind outcome_bind]. unfold max_single in *.
    change (pk_dst p0) with (pk_dst p). change (max_dtf_len p0) with (max_dtf_len p).
    set (n := (max_dtf_len p - HEADER_LEN)%nat) in *. unfold HEADER_LEN in *.
    assert (0 < n)%nat as Hn by lia. assert (a ≠ []) as Hne by (intros ->; simpl in *; lia).
    assert (drop n a ≠ []) as Hdn.
    { intros E. apply (f_equal length) in E. rewrite length_drop in E. simpl in E. lia. }
    pose proof (concat_chunks n a Hn) as Ecat. pose proof (chunks_length_le n a Hn) as Hcl.
    rewrite (chunks_step n a Hn Hne), (chunks_step n _ Hn Hdn) in *.
    set (cs := take n (drop n a) :: _) in *.
    exists p0. eexists _, (ps ++ [a]), []. split; [done|].
    split_and!; [done|done| | |by rewrite app_nil_r].
    + apply Forall_app. split; [done|]. apply segments_ok; [done|lia|].
      assert (Forall bytes_ok (take n a :: cs)) as Hb by (apply Forall_concat_inv; by rewrite Ecat).
      apply (Forall_impl _ _ _ (proj2 (Forall_and _ _) (conj Hcl Hb))).
      intros c [? ?]. split; [unfold HEADER_LEN; lia|done].
    + eapply feed_all_app; [exact Hfeed|]. cbn [concat] in Ecat.
      pose proof (feed_segments m (pk_dst p) (take n a) cs) as Hsg. rewrite Ecat in Hsg. apply Hsg; auto.
  - destruct (multi_article p) eqn:Hmulti; cbn [negb].
    + (* packed with others *)
      assert (HEADER_LEN + length a ≤ max_dtf_len p)%nat as Hfit by (unfold max_single, HEADER_LEN in *; lia).
      match goal with |- context [if ?b then flush p else _] => destruct b eqn:Hfull end.
      * rewrite Ef. cbn [mbind outcome_bind]. eexists _, (option_list f), ps, [a]. split; [done|].
        split_and!; [|done|done|done|done]. constructor; simpl; try done; try congruence.
        -- unfold prefixed_all. simpl. by rewrite app_nil_r.
        -- unfold MAX_ARTICLES_PER_DTF. lia.
        -- by repeat constructor.
        -- lia.
      * cbn [mbind outcome_bind]. eexists _, [], [], (ps ++ [a]). split; [done|].
        split_and!; [|done|constructor|done|done].
        constructor; cbn [pk_dst max_dtf_len multi_article pending pending_count]; try done; try congruence.
        -- by rewrite Hp, prefixed_all_snoc.
        -- rewrite Hc, length_app. simpl. lia.
        -- rewrite Hc in Hfull. rewrite length_app. simpl.
           destruct (Nat.ltb_spec 0 (length ps)); cbn [andb] in Hfull; [|unfold MAX_ARTICLES_PER_DTF; lia].
           apply orb_false_iff in Hfull as [_ Hfull%Nat.leb_gt]. lia.
        -- apply Forall_app. split; [done|]. by repeat constructor.
        -- rewrite length_app. cbn [length]. intros H1. rewrite prefixed_all_snoc, length_app, length_prefixed.
           rewrite Hc in Hfull. destruct (Nat.ltb_spec 0 (length ps)); [|lia]. cbn [andb] in Hfull.
           apply orb_false_iff in Hfull as [Hfull%Nat.ltb_ge _]. rewrite Hp in Hfull. lia.
    + (* alone in its FPDU, nothing is ever pending *)
      rewrite (Hmo eq_refl) in *.
      eexists p, [data_fpdu FpduKind.Dtf (pk_dst p) 0 a], [a], []. split; [done|].
      split_and!; [done|done| |done|done]. constructor; [|constructor].
      apply data_fpdu_ok; try done; unfold byte_ok, max_single, HEADER_LEN in *; lia.
Qed.

(** All the articles of a transfer, then the final flush. *)
Fixpoint pack (p : ArticlePacker) (arts : list bytes) : ArticlePacker * outcome Empty_set (list Fpdu) :=
  match arts with
  | [] => let '(p, r) := flush p in (p, f ← r; Ok (option_list f))
  | a :: arts =>
      match packer_push p a with
      | (p, Ok fs) => let '(p, r) := pack p arts in (p, gs ← r; Ok (fs ++ gs))
      | (p, Err e) => (p, Err e)
      | (p, Panic) => (p, Panic)
      end
  end.

Lemma pack_ok p ps arts m :
  packer_inv p ps → Forall bytes_ok arts → Forall (within m) arts →
  ∃ p' fs, pack p arts = (p', Ok fs) ∧ has_pending p' = false
    ∧ Forall (data_ok (max_dtf_len p)) fs
    ∧ feed_all (mkReassembler None m) fs = (mkReassembler None m, Ok (ps ++ arts)).
Proof.
  intros Hinv Hb. revert p ps Hinv. induction Hb as [|a arts Ha Hb IH]; intros p ps Hinv Hw; cbn [pack].
  - destruct (flush_ok p ps m Hinv) as (f&->&Hf&Hfeed). eexists _, _. split; [done|].
    rewrite app_nil_r. by split_and!.
  - inversion_clear Hw as [|?? Hwa Hw'].
    destruct (packer_push_ok p ps a m Hinv Ha (λ _, Hwa)) as (p1&fs&out&ps'&->&Hinv'&Hmax&Hfs&Hfeed&Hout).
    destruct (IH p1 ps' Hinv' Hw') as (p2&gs&->&Hpend&Hgs&Hfeed'). eexists p2, (fs ++ gs).
    split; [done|]. split; [done|]. rewrite Hmax in Hgs. split; [by apply Forall_app|].
    rewrite (feed_all_app _ _ _ _ _ _ _ Hfeed Hfeed'). by rewrite app_assoc, <-Hout, <-app_assoc.
Qed.

Lemma packer_new_inv dst max multi :
  byte_ok dst → (max ≤ MAX_FPDU_LEN)%nat → packer_inv (packer_new dst max multi) [].
Proof.
  intros Hd Hm. constructor; cbn [packer_new pk_dst max_dtf_len pending pending_count]; try done.
  all: unfold HEADER_LEN, MAX_FPDU_LEN, MAX_ARTICLES_PER_DTF in *; simpl length; lia.
Qed.

(** ** Arbitrary data FPDUs *)

Lemma articles_loop_safe d fuel pos out :
  bytes_ok d → (pos ≤ length d)%nat → (length d - pos < fuel)%nat →
  safe (articles_loop fuel d pos out) (λ r, ∃ new,
    r = out ++ new ∧ drop pos d = prefixed_all new).
Proof.
  intros Hb. revert pos out. induction fuel as [|fuel IH]; intros pos out Hp Hf; [lia|].
  cbn [articles_loop]. destruct (Nat.ltb_spec pos (length d)) as [Hlt|].
  2:{ exists []. by rewrite app_nil_r, drop_ge by lia. }
  destruct (get_range d pos (pos + 2)) as [l|] eqn:Hr; [|done].
  destruct (get_range_two _ _ _ Hr) as (x&y&->&Hx&Hy). cbn [idx lookup list_lookup mbind outcome_bind].
  pose proof (bytes_ok_lookup _ _ _ Hb Hx) as Hxb. pose proof (bytes_ok_lookup _ _ _ Hb Hy) as Hyb.
  pose proof (of_be16_range _ _ Hxb Hyb) as Hn. set (n := Z.to_nat (of_be16 x y)).
  destruct (get_range d (pos + 2) (pos + 2 + n)) as [a|] eqn:Ha; [|done].
  pose proof (get_range_length _ _ _ _ Ha) as Hal. replace (pos + 2 + n - (pos + 2))%nat with n in Hal by lia.
  apply get_range_Some in Ha as (_&Hfit&Ea). apply get_range_Some in Hr as (_&_&Er).
  eapply safe_mono; [apply IH; lia|]. intros r (new&->&Hnew). exists (a :: new).
  rewrite <-app_assoc. split; [done|].
  change (prefixed_all (a :: new)) with (prefixed a ++ prefixed_all new). rewrite <-Hnew.
  assert (prefixed a = [x; y] ++ a) as ->.
  { unfold prefixed. rewrite Hal. unfold n, u16_ok in *. rewrite Z2Nat.id by lia. f_equal.
    unfold u16. rewrite Z.mod_small by lia. unfold be16, of_be16, byte_ok in *. repeat f_equal; lia_dm. }
  rewrite Er, Ea. replace (pos + 2 - pos)%nat with 2%nat by lia.
  replace (pos + 2 + n - (pos + 2))%nat with n by lia.
  rewrite <-(drop_drop d n (pos + 2)), <-app_assoc, take_drop, <-(drop_drop d 2 pos).
  by rewrite take_drop.
Qed.

Lemma articles_of_safe f :
  bytes_ok (data f) →
  safe (articles_of f) (λ l,
    if bool_decide (kind f = FpduKind.Dtf) && (0 <? id_src f)
    then Z.of_nat (length l) = id_src f ∧ data f = prefixed_all l
    else l = [data f]).
Proof.
  intros Hb. unfold articles_of. destruct (_ && _); [|done].
  eapply safe_bind; [apply articles_loop_safe; [done|lia..]|].
  intros l (new&->&Hnew). cbn [app]. rewrite drop_0 in Hnew.
  destruct (Z.eqb_spec (Z.of_nat (length new)) (id_src f)); [|done]. by simpl.
Qed.

(** ** Theorems *)

(** C33: packing and reassembly. Any sequence of articles, packed several to a
    FPDU or not, segmented when they are too long, is sent without a panic as
    data FPDUs that are well formed and fit the negotiated size, leaves nothing
    pending, and the reassembler restores exactly these articles in order, when
    each article is within its limit. *)
Theorem pack_reassemble dst max multi m arts :
  byte_ok dst → (max ≤ MAX_FPDU_LEN)%nat → Forall bytes_ok arts → Forall (within m) arts →
  ∃ p fs, pack (packer_new dst max multi) arts = (p, Ok fs)
    ∧ has_pending p = false
    ∧ Forall (data_ok (Nat.max max (HEADER_LEN + 1))) fs
    ∧ feed_all (reassembler_new m) fs = (reassembler_new m, Ok arts).
Proof.
  intros Hd Hm Hb Hw.
  destruct (pack_ok _ [] arts m (packer_new_inv dst max multi Hd Hm) Hb Hw) as (p&fs&E&Hp&Hf&Hfeed).
  by exists p, fs.
Qed.

Example pack_reassemble_witness :
  ∃ p fs, pack (packer_new 9 10 true) [[97; 98]; []; [48; 49; 50; 51; 52; 53; 54; 55; 56; 57]] = (p, Ok fs)
    ∧ length fs = 5%nat
    ∧ feed_all (reassembler_new 10) fs
      = (reassembler_new 10, Ok [[97; 98]; []; [48; 49; 50; 51; 52; 53; 54; 55; 56; 57]]).
Proof.
  destruct (pack_reassemble 9 10 true 10 [[97; 98]; []; [48; 49; 50; 51; 52; 53; 54; 55; 56; 57]])
    as (p&fs&H1&_&_&H2).
  - unfold byte_ok. lia.
  - apply Nat.leb_le. vm_compute. reflexivity.
  - by_compute.
  - repeat (constructor; [right; simpl; lia|]). constructor.
  - exists p, fs. split; [exact H1|]. split; [|exact H2].
    vm_compute in H1. injection H1 as <- <-. reflexivity.
Defined.

(** The articles of a received data FPDU. Reading them never panics; when it
    succeeds the FPDU is either a multi-article DTF whose announced count is the
    number of articles and whose content is exactly these articles with their
    lengths, or it carries its whole content as one article or fragment. *)
Theorem articles_of_sound f :
  wf f →
  no_panic (articles_of f)
  ∧ ∀ l, articles_of f = Ok l →
      (kind f = FpduKind.Dtf ∧ 0 < id_src f ∧ Z.of_nat (length l) = id_src f ∧ data f = prefixed_all l)
      ∨ ((kind f ≠ FpduKind.Dtf ∨ id_src f = 0) ∧ l = [data f]).
Proof.
  intros Hf. pose proof (articles_of_safe f (wf_data f Hf)) as Hs. split; [by eapply safe_no_panic|].
  intros l Hl. rewrite Hl in Hs. simpl in Hs. pose proof (wf_src f Hf) as Hsrc. unfold byte_ok in Hsrc.
  destruct (bool_decide_reflect (kind f = FpduKind.Dtf)); simpl in Hs; [|by right; auto].
  destruct (Z.ltb_spec 0 (id_src f)); [left; tauto|]. right. split; [right; lia|done].
Qed.

Example articles_of_sound_witness :
  let f := data_fpdu FpduKind.Dtf 1 2 [0; 1; 97; 0; 2; 98; 99] in
  articles_of f = Ok [[97]; [98; 99]]
  ∧ ((kind f = FpduKind.Dtf ∧ 0 < id_src f ∧ Z.of_nat 2 = id_src f ∧ data f = prefixed_all [[97]; [98; 99]])
     ∨ ((kind f ≠ FpduKind.Dtf ∨ id_src f = 0) ∧ [[97]; [98; 99]] = [data f])).
Proof.
  intros f. split; [reflexivity|].
  destruct (articles_of_sound f ltac:(by_compute)) as [_ H]. exact (H [[97]; [98; 99]] eq_refl).
Defined.

(** The reassembler. With a partial article within its limit, a well-formed
    FPDU never makes it panic; a fragment without a start and a DTF or DTFDA
    inside an article are refused; other kinds are ignored; what it keeps
    and what it returns for a segmented article stay within the limit; and only
    DTFDA and DTFMA leave an article in progress that was not before. *)
Theorem reassembler_feed_sound r f :
  wf f → (∀ p, partial r = Some p → within (max_len r) p) →
  no_panic (reassembler_feed r f).2
  ∧ (∀ p, partial (reassembler_feed r f).1 = Some p → within (max_len r) p)
  ∧ (in_progress r = true → kind f = FpduKind.Dtf ∨ kind f = FpduKind.DtfDa →
       reassembler_feed r f = (r, Err (Interleaved (kind f))))
  ∧ (in_progress r = false → kind f = FpduKind.DtfMa ∨ kind f = FpduKind.DtfFa →
       reassembler_feed r f = (r, Err (NoStart (kind f))))
  ∧ (FpduKind.is_data (kind f) = false → reassembler_feed r f = (r, Ok []))
  ∧ (kind f = FpduKind.DtfFa → ∀ l, (reassembler_feed r f).2 = Ok l →
       ∃ p, partial r = Some p ∧ l = [p ++ data f] ∧ within (max_len r) (p ++ data f)
            ∧ in_progress (reassembler_feed r f).1 = false).
Proof.
  intros Hf Hp. pose proof (articles_of_safe f (wf_data f Hf)) as Hs. apply safe_no_panic in Hs.
  assert (∀ n, check r n = Ok tt ∧ (max_len r = 0%nat ∨ (n ≤ max_len r)%nat)
    ∨ check r n = Err (TooLong (max_len r))) as Hc.
  { intros n. unfold check. destruct (Nat.ltb_spec 0 (max_len r)); [|left; split; [done|lia]].
    destruct (Nat.ltb_spec (max_len r) n); [by right|left; split; [done|lia]]. }
  unfold reassembler_feed, in_progress.
  destruct (kind f) eqn:Hk, (partial r) as [p|] eqn:Hpr; simpl;
    rewrite ?Hpr; try (split_and!; intros; try done; naive_solver).
  - split_and!; [|done|done|by intros _ []|done|done]. unfold no_panic, map_err in *. by destruct (articles_of f).
  - destruct (Hc (length p + length (data f))%nat) as [[-> Hw]| ->]; simpl;
      (split_and!; [done| |by intros _ []|done|done|done]); intros q [= <-].
    unfold within. by rewrite length_app.
  - destruct (Hc (length (data f))) as [[-> Hw]| ->]; simpl; rewrite ?Hpr;
      (split_and!; [done| |done|by intros _ []|done|done]); by intros q [= <-].
  - destruct (Hc (length p + length (data f))%nat) as [[-> Hw]| ->]; simpl;
      (split_and!; [done|done|by intros _ []|done|done|]); intros _ l; [|done].
    intros [= <-]. exists p. split_and!; try done. unfold within. by rewrite length_app.
Qed.

Example reassembler_feed_sound_witness :
  let r := mkReassembler (Some [1; 2]) 3 in
  no_panic (reassembler_feed r (data_fpdu FpduKind.DtfFa 1 0 [3])).2
  ∧ (reassembler_feed r (data_fpdu FpduKind.DtfFa 1 0 [3; 4])).2 = Err (TooLong 3).
Proof.
  intros r. split; [|reflexivity].
  destruct (reassembler_feed_sound r (data_fpdu FpduKind.DtfFa 1 0 [3])) as [H _]; [by_compute| |exact H].
  intros p [= <-]. right. simpl. lia.
Defined.

(** The limit of the reassembler is checked on compressed articles. An
    article of the maximum length, 130 bytes without repetition, is compressed
    into 133 bytes, sent in segments of 64 bytes, and refused by a
    reassembler that was created for articles of 130 bytes, although the
    decompressor would restore it. *)
Theorem compressed_segments_refused :
  let article := map Z.of_nat (seq 0 130) in
  ∃ c w p fs, Compress.compress_article (Compress.compressor_new Compression.Horizontal 130) article = (c, Ok w)
    ∧ length w = 133%nat
    ∧ (Compress.decompress_article (Compress.decompressor_new 130) w).2 = Ok article
    ∧ packer_push (packer_new 1 70 false) w = (p, Ok fs)
    ∧ (feed_all (reassembler_new 130) fs).2 = Err (TooLong 130).
Proof.
  vm_compute. eexists _, _, _, _. repeat (split; [reflexivity|]). reflexivity.
Qed.
