(* ===== verification/Builder.v ===== *)
(** * Constructors of the FPDUs ([crates/pesit-core/src/builder.rs])

    The FPDUs of the profile built from their parameters, and the file
    description carried by CREATE, SELECT and ACK(SELECT). *)

From S2P Require Import Prelude Diag Pi Kinds Fpdu Params.
Open Scope Z_scope.

Module Builder.
Import Fpdu.

(** [Option::filter(|s| !s.is_empty())]. *)
Definition non_empty {A} (o : option (list A)) : option (list A) :=
  match o with Some [] => None | _ => o end.

(** [if let Some(x) = o { f.set...(x) }]. *)
Definition when_some {A} (o : option A) (set : Fpdu → A → Fpdu) (f : Fpdu) : Fpdu :=
  match o with Some x => set f x | None => f end.
Definition when (b : bool) (set : Fpdu → Fpdu) (f : Fpdu) : Fpdu := if b then set f else f.

Definition with_diag (f : Fpdu) (d : Diagnostic) : Fpdu := set_diag f d.
Definition with_num (f : Fpdu) (pi : Pi) (v : Z) : Fpdu := set_num f pi v.

Record ConnectParams : Type := mkConnectParams {
  cp_requester : ustring;
  cp_server : ustring;
  cp_password : option ustring;
  cp_version : Version;
  cp_sync : SyncOption;
  cp_access : AccessType;
  cp_resync : bool;
  cp_crc : bool;
  cp_timeout : option Z;
  cp_free_message : option ustring;
}.

Definition set_message (m : option ustring) (f : Fpdu) : Fpdu :=
  when_some (non_empty m) (λ f m, set_text f Pi.FreeMessage m) f.

Definition connect (p : ConnectParams) (id_src : Z) : Fpdu :=
  let f := with_ids (new FpduKind.Connect) 0 id_src in
  let f := when (cp_crc p) (λ f, set_num f Pi.Crc 1) f in
  let f := set_text f Pi.Requester (cp_requester p) in
  let f := set_text f Pi.Server (cp_server p) in
  let f := when_some (non_empty (cp_password p)) (λ f p, set_text f Pi.AccessControl p) f in
  let f := set_num f Pi.Version (Version.code (cp_version p)) in
  let f := when (SyncOption.enabled (cp_sync p))
             (λ f, set f Pi.SyncOption (SyncOption.to_bytes (cp_sync p))) f in
  let f := set_num f Pi.AccessType (AccessType.code (cp_access p)) in
  let f := when (cp_resync p) (λ f, set_num f Pi.Resync 1) f in
  let f := when_some (cp_timeout p) (λ f t, set_num f Pi.Timeout t) f in
  set_message (cp_free_message p) f.

Definition aconnect (id_dst id_src : Z) (version : Version) (sync : SyncOption) (resync : bool)
    (free_message : option ustring) : Fpdu :=
  let f := with_num (with_ids (new FpduKind.Aconnect) id_dst id_src) Pi.Version (Version.code version) in
  let f := when (SyncOption.enabled sync) (λ f, set f Pi.SyncOption (SyncOption.to_bytes sync)) f in
  let f := when resync (λ f, set_num f Pi.Resync 1) f in
  set_message free_message f.

Definition rconnect (id_dst : Z) (diag : Diagnostic) (free_message : option ustring) : Fpdu :=
  set_message free_message (with_diag (with_ids (new FpduKind.Rconnect) id_dst 0) diag).

Definition release (id_dst id_src : Z) (diag : Diagnostic) : Fpdu :=
  with_diag (with_ids (new FpduKind.Release) id_dst id_src) diag.

Definition relconf (id_dst id_src : Z) : Fpdu := with_ids (new FpduKind.Relconf) id_dst id_src.

Definition abort (id_dst id_src : Z) (diag : Diagnostic) : Fpdu :=
  with_diag (with_ids (new FpduKind.Abort) id_dst id_src) diag.

Record FileSpec : Type := mkFileSpec {
  fs_requester : option ustring;
  fs_server : option ustring;
  file_type : Z;
  file_name : ustring;
  fs_transfer_id : Z;
  restarted : bool;
  data_code : option Z;
  priority : Z;
  fs_max_entity_size : Z;
  fs_article_format : ArticleFormat;
  article_length : Z;
  organisation : option Z;
  label : option ustring;
  reservation_unit : option Z;
  max_reservation : Z;
  creation_date : option ustring;
  extraction_date : option ustring;
  client_id : option ustring;
  bank_id : option ustring;
  file_access_control : option ustring;
  fs_free_message : option ustring;
}.

Definition text (s : ustring) : bytes := encode_text s.
Definition text_of (v : bytes) : ustring := trim_end v.

(** [if let Some(x) = o { items.push(g(x)) }]. *)
Definition item_some {A} (o : option A) (g : A → Pi * bytes) : list (Pi * bytes) :=
  match o with Some x => [g x] | None => [] end.

Definition file_id_group (s : FileSpec) : list (Pi * bytes) :=
  item_some (fs_requester s) (λ r, (Pi.Requester, text r))
  ++ item_some (fs_server s) (λ r, (Pi.Server, text r))
  ++ [(Pi.FileType, encode_num (file_type s)); (Pi.FileName, text (file_name s))].

Definition logical_group (s : FileSpec) : list (Pi * bytes) :=
  [(Pi.ArticleFormat, [ArticleFormat.code (fs_article_format s)]);
   (Pi.ArticleLength, encode_num (article_length s))]
  ++ item_some (organisation s) (λ o, (Pi.FileOrganisation, [o]))
  ++ item_some (non_empty (label s)) (λ l, (Pi.FileLabel, text l)).

Definition physical_group (s : FileSpec) : list (Pi * bytes) :=
  item_some (reservation_unit s) (λ u, (Pi.ReservationUnit, [u]))
  ++ [(Pi.MaxReservation, encode_num (max_reservation s))].

Definition historical_group (s : FileSpec) : option (list (Pi * bytes)) :=
  created ← creation_date s;
  Some ([(Pi.CreationDate, text created)]
        ++ item_some (extraction_date s) (λ e, (Pi.ExtractionDate, text e))).

Definition common_tail (s : FileSpec) (f : Fpdu) : Fpdu :=
  let f := when_some (client_id s) (λ f c, set_text f Pi.ClientId c) f in
  let f := when_some (bank_id s) (λ f b, set_text f Pi.BankId b) f in
  let f := when_some (file_access_control s) (λ f a, set_text f Pi.FileAccessControl a) f in
  set_message (fs_free_message s) f.

Definition create (s : FileSpec) (id_dst : Z) : Fpdu :=
  let f := with_ids (new FpduKind.Create) id_dst 0 in
  let f := set_pgi f Pgi.FileId (file_id_group s) in
  let f := set_num f Pi.TransferId (fs_transfer_id s) in
  let f := when (restarted s) (λ f, set_num f Pi.Restarted 1) f in
  let f := when_some (data_code s) (λ f c, set f Pi.DataCode [c]) f in
  let f := set f Pi.Priority [priority s] in
  let f := set_num f Pi.MaxEntitySize (fs_max_entity_size s) in
  let f := set_pgi f Pgi.LogicalAttributes (logical_group s) in
  let f := set_pgi f Pgi.PhysicalAttributes (physical_group s) in
  let f := when_some (historical_group s) (λ f h, set_pgi f Pgi.HistoricalAttributes h) f in
  common_tail s f.

Definition select (s : FileSpec) (id_dst : Z) (attributes : RequestedAttributes) : Fpdu :=
  let f := with_ids (new FpduKind.Select) id_dst 0 in
  let f := set_pgi f Pgi.FileId (file_id_group s) in
  let f := set_num f Pi.TransferId (fs_transfer_id s) in
  let f := when (negb (RequestedAttributes.code attributes =? 0))
             (λ f, set f Pi.RequestedAttributes [RequestedAttributes.code attributes]) f in
  let f := when (restarted s) (λ f, set_num f Pi.Restarted 1) f in
  let f := set f Pi.Priority [priority s] in
  let f := set_num f Pi.MaxEntitySize (fs_max_entity_size s) in
  common_tail s f.

Definition ack_select (s : FileSpec) (id_dst : Z) (attributes : RequestedAttributes) : Fpdu :=
  let f := with_diag (with_ids (new FpduKind.AckSelect) id_dst 0) Diagnostic.OK in
  let f := set_pgi f Pgi.FileId (file_id_group s) in
  let f := set_num f Pi.TransferId (fs_transfer_id s) in
  let f := when_some (data_code s) (λ f c, set f Pi.DataCode [c]) f in
  let f := set_num f Pi.MaxEntitySize (fs_max_entity_size s) in
  let f := when (RequestedAttributes.logical attributes)
             (λ f, set_pgi f Pgi.LogicalAttributes (logical_group s)) f in
  let f := when (RequestedAttributes.physical attributes)
             (λ f, set_pgi f Pgi.PhysicalAttributes (physical_group s)) f in
  let f := when (RequestedAttributes.historical attributes)
             (when_some (historical_group s) (λ f h, set_pgi f Pgi.HistoricalAttributes h)) f in
  let f := when_some (client_id s) (λ f c, set_text f Pi.ClientId c) f in
  let f := when_some (bank_id s) (λ f b, set_text f Pi.BankId b) f in
  set_message (fs_free_message s) f.

(** [f.pgi(FileId).and_then(|g| g.iter().find(..))]. *)
Definition in_file_id (f : Fpdu) (pi : Pi) : option ustring :=
  g ← pgi f Pgi.FileId; text_of <$> find_item pi g.

Definition first_byte (f : Fpdu) (pi : Pi) : option Z := get f pi ≫= head.

Definition from_fpdu (f : Fpdu) : FileSpec := mkFileSpec
  (in_file_id f Pi.Requester)
  (in_file_id f Pi.Server)
  (default 0 (get_num f Pi.FileType))
  (default [] (get_text f Pi.FileName))
  (default 0 (FpduExt.transfer_id f))
  (bool_decide (get_num f Pi.Restarted = Some 1))
  (first_byte f Pi.DataCode)
  (default 0 (first_byte f Pi.Priority))
  (default 0 (FpduExt.max_entity_size f))
  (default ArticleFormat.Fixed (ArticleFormat.from_bytes <$> get f Pi.ArticleFormat))
  (u16 (Z.min (default 0 (get_num f Pi.ArticleLength)) 0xFFFF))
  (first_byte f Pi.FileOrganisation)
  (get_text f Pi.FileLabel)
  (first_byte f Pi.ReservationUnit)
  (default 0 (get_num f Pi.MaxReservation))
  (get_text f Pi.CreationDate)
  (get_text f Pi.ExtractionDate)
  (get_text f Pi.ClientId)
  (get_text f Pi.BankId)
  (get_text f Pi.FileAccessControl)
  (get_text f Pi.FreeMessage).

Definition ack_create (id_dst : Z) (diag : Diagnostic) (transfer_id : option Z)
    (max_entity_size : Z) (free_message : option ustring) : Fpdu :=
  let f := with_diag (with_ids (new FpduKind.AckCreate) id_dst 0) diag in
  let f := when_some transfer_id (λ f t, set_num f Pi.TransferId t) f in
  let f := set_num f Pi.MaxEntitySize max_entity_size in
  set_message free_message f.

Definition nack_select (id_dst : Z) (diag : Diagnostic) (free_message : option ustring) : Fpdu :=
  set_message free_message (with_diag (with_ids (new FpduKind.AckSelect) id_dst 0) diag).

Definition deselect (id_dst : Z) (diag : Diagnostic) : Fpdu :=
  with_diag (with_ids (new FpduKind.Deselect) id_dst 0) diag.

Definition ack_deselect (id_dst : Z) (diag : Diagnostic) : Fpdu :=
  with_diag (with_ids (new FpduKind.AckDeselect) id_dst 0) diag.

Definition set_compression (c : Compression) (f : Fpdu) : Fpdu :=
  when (bool_decide (c ≠ Compression.None_))
    (λ f, set f Pi.Compression (Compression.to_bytes c)) f.

Definition orf (id_dst : Z) (compression : Compression) : Fpdu :=
  set_compression compression (with_ids (new FpduKind.Orf) id_dst 0).

Definition ack_orf (id_dst : Z) (diag : Diagnostic) (compression : Compression) : Fpdu :=
  set_compression compression (with_diag (with_ids (new FpduKind.AckOrf) id_dst 0) diag).

Definition crf (id_dst : Z) (diag : Diagnostic) : Fpdu :=
  with_diag (with_ids (new FpduKind.Crf) id_dst 0) diag.

Definition ack_crf (id_dst : Z) (diag : Diagnostic) : Fpdu :=
  with_diag (with_ids (new FpduKind.AckCrf) id_dst 0) diag.

Definition read (id_dst restart_point : Z) : Fpdu :=
  with_num (with_ids (new FpduKind.Read) id_dst 0) Pi.RestartPoint restart_point.

Definition ack_read (id_dst : Z) (diag : Diagnostic) : Fpdu :=
  with_diag (with_ids (new FpduKind.AckRead) id_dst 0) diag.

Definition write (id_dst : Z) : Fpdu := with_ids (new FpduKind.Write) id_dst 0.

Definition ack_write (id_dst : Z) (diag : Diagnostic) (restart_point : Z) : Fpdu :=
  with_num (with_diag (with_ids (new FpduKind.AckWrite) id_dst 0) diag) Pi.RestartPoint restart_point.

Definition dtf_end (id_dst : Z) (diag : Diagnostic) : Fpdu :=
  with_diag (with_ids (new FpduKind.DtfEnd) id_dst 0) diag.

Definition syn (id_dst number : Z) : Fpdu :=
  with_num (with_ids (new FpduKind.Syn) id_dst 0) Pi.SyncNumber number.

Definition ack_syn (id_dst number : Z) : Fpdu :=
  with_num (with_ids (new FpduKind.AckSyn) id_dst 0) Pi.SyncNumber number.

Definition resyn (id_dst : Z) (diag : Diagnostic) (restart_point : Z) : Fpdu :=
  with_num (with_diag (with_ids (new FpduKind.Resyn) id_dst 0) diag) Pi.RestartPoint restart_point.

Definition ack_resyn (id_dst restart_point : Z) : Fpdu :=
  with_num (with_ids (new FpduKind.AckResyn) id_dst 0) Pi.RestartPoint restart_point.

Definition idt (id_dst : Z) (diag : Diagnostic) (code : EndCode) : Fpdu :=
  set (with_diag (with_ids (new FpduKind.Idt) id_dst 0) diag) Pi.EndCode [EndCode.code code].

Definition ack_idt (id_dst : Z) : Fpdu := with_ids (new FpduKind.AckIdt) id_dst 0.

Definition set_counts (byte_count article_count : option Z) (f : Fpdu) : Fpdu :=
  let f := when_some byte_count (λ f b, set_num f Pi.ByteCount b) f in
  when_some article_count (λ f a, set_num f Pi.ArticleCount a) f.

Definition trans_end (id_dst : Z) (byte_count article_count : option Z) : Fpdu :=
  set_counts byte_count article_count (with_ids (new FpduKind.TransEnd) id_dst 0).

Definition ack_trans_end (id_dst : Z) (diag : Diagnostic) (byte_count article_count : option Z) : Fpdu :=
  set_counts byte_count article_count (with_diag (with_ids (new FpduKind.AckTransEnd) id_dst 0) diag).

Definition msg (kind : FpduKind) (id_dst : Z) (spec : FileSpec) (expects_reply : bool)
    (message : option bytes) : Fpdu :=
  let f := with_ids (new kind) id_dst 0 in
  let f := set_pgi f Pgi.FileId (file_id_group spec) in
  let f := set_num f Pi.TransferId (fs_transfer_id spec) in
  let f := when expects_reply (λ f, set f Pi.RequestedAttributes [1]) f in
  let f := when_some (data_code spec) (λ f c, set f Pi.DataCode [c]) f in
  let f := set f Pi.Priority [priority spec] in
  let f := when_some (historical_group spec) (λ f h, set_pgi f Pgi.HistoricalAttributes h) f in
  let f := when_some (client_id spec) (λ f c, set_text f Pi.ClientId c) f in
  let f := when_some (bank_id spec) (λ f b, set_text f Pi.BankId b) f in
  when_some (non_empty message) (λ f m, set f Pi.Message m) f.

Definition msg_segment (kind : FpduKind) (id_dst : Z) (segment : bytes) : Fpdu :=
  let f := with_ids (new kind) id_dst 0 in
  when (bool_decide (segment ≠ [])) (λ f, set f Pi.Message segment) f.

Definition ack_msg (id_dst : Z) (diag : Diagnostic) (transfer_id : option Z) (reply : option bytes)
    : Fpdu :=
  let f := with_diag (with_ids (new FpduKind.AckMsg) id_dst 0) diag in
  let f := when_some transfer_id (λ f t, set_num f Pi.TransferId t) f in
  when_some (non_empty reply) (λ f r, set f Pi.Message r) f.

End Builder.
