(* ===== verification/Setters.v ===== *)
(** * The setters of an FPDU: properties

    What [set], [set_num], [set_text] and [set_pgi] keep of an FPDU, and what
    the accessors read after them. *)

From S2P Require Import Prelude Diag Pi Kinds Fpdu FpduNum FpduCodec.
Open Scope Z_scope.
Import Fpdu.

(** ** Insertion by code *)

Lemma set_param_Forall P p l : P p → Forall P l → Forall P (set_param p l).
Proof.
  intros Hp. induction 1 as [|q l Hq Hl IH]; simpl; [by repeat constructor|].
  destruct (_ =? _); [by constructor|]. destruct (_ <? _); by repeat constructor.
Qed.

Lemma set_param_ascending p l last :
  last < param_code p → ascending last (param_codes l) = true →
  ascending last (param_codes (set_param p l)) = true.
Proof.
  revert last. induction l as [|q l IH]; intros last Hp Ha; simpl in *.
  { rewrite andb_true_r. by apply Z.ltb_lt. }
  apply andb_true_iff in Ha as [Hq%Z.ltb_lt Ha].
  destruct (Z.eqb_spec (param_code q) (param_code p)) as [E|Hne].
  - simpl. rewrite <-E, Ha, andb_true_r. by apply Z.ltb_lt.
  - destruct (Z.ltb_spec (param_code p) (param_code q)); simpl.
    + rewrite Ha, andb_true_r. apply andb_true_iff. split; by apply Z.ltb_lt.
    + rewrite IH by (done || lia). rewrite andb_true_r. by apply Z.ltb_lt.
Qed.

Definition param_len (p : Param) : nat :=
  match p with
  | Param_Pi _ value => unit_len (length value)
  | Param_Pgi _ items => unit_len (items_len items)
  end.
Definition params_len (l : list Param) : nat := sum_list_with param_len l.

Lemma set_param_len p l : (params_len (set_param p l) ≤ param_len p + params_len l)%nat.
Proof.
  unfold params_len. induction l as [|q l IH]; simpl; [lia|].
  destruct (_ =? _); simpl; [lia|]. destruct (_ <? _); simpl; lia.
Qed.

Lemma encoded_len_params f :
  FpduKind.is_data (kind f) = false → encoded_len f = (HEADER_LEN + params_len (params f))%nat.
Proof. intros Hk. unfold encoded_len. by rewrite Hk. Qed.

(** Items in ascending order are not moved by the sort. *)
Lemma insert_item_least x l last :
  last = Pi.code x.1 → ascending last (item_codes l) = true → insert_item x l = x :: l.
Proof.
  intros -> Ha. destruct l as [|y l]; [done|]. simpl in *.
  apply andb_true_iff in Ha as [Hy%Z.ltb_lt _]. destruct (Z.leb_spec (Pi.code x.1) (Pi.code y.1)); [done|lia].
Qed.

Lemma sort_items_ascending l last : ascending last (item_codes l) = true → sort_items l = l.
Proof.
  revert last. induction l as [|x l IH]; intros last Ha; [done|]. simpl in *.
  apply andb_true_iff in Ha as [_ Ha]. rewrite (IH _ Ha). by eapply insert_item_least.
Qed.

(** ** Accessors after setters *)

Lemma same_code_pi pi p : param_code p = Pi.code pi → ∃ w, p = Param_Pi pi w.
Proof.
  destruct p as [q w|g items]; simpl; intros E.
  - assert (Some q = Some pi) as [= ->] by (by rewrite <-!Pi.from_code_code, E). by exists w.
  - pose proof (Pgi.code_disjoint pi) as Hd. by rewrite <-E, Pgi.pgi_from_code_code in Hd.
Qed.

Lemma same_code_pgi g p : param_code p = Pgi.code g → ∃ items, p = Param_Pgi g items.
Proof.
  destruct p as [q w|h items]; simpl; intros E.
  - pose proof (Pgi.code_disjoint q) as Hd. by rewrite E, Pgi.pgi_from_code_code in Hd.
  - assert (Some h = Some g) as [= ->] by (by rewrite <-!Pgi.pgi_from_code_code, E). by exists items.
Qed.

(** The parameter [p] holds a value of [q], at the top level or in a group. *)
Definition holds (q : Pi) (p : Param) : option bytes :=
  match p with
  | Param_Pi r v => if decide (r = q) then Some v else None
  | Param_Pgi _ items => find_item q items
  end.

Lemma get_in_cons q p l :
  get_in q (p :: l) = match holds q p with Some v => Some v | None => get_in q l end.
Proof. destruct p as [r v|g items]; simpl; [by destruct (decide (r = q))|done]. Qed.

Lemma get_in_set_ne q p l :
  holds q p = None → (∀ p', p' ∈ l → param_code p' = param_code p → holds q p' = None) →
  get_in q (set_param p l) = get_in q l.
Proof.
  intros Hp. induction l as [|r l IH]; intros Hl; cbn [set_param].
  { by rewrite get_in_cons, Hp. }
  destruct (Z.eqb_spec (param_code r) (param_code p)) as [E|Hne].
  - rewrite !get_in_cons, Hp, (Hl r); [done|by left|done].
  - destruct (_ <? _); rewrite !get_in_cons; [by rewrite Hp|].
    rewrite IH; [done|]. intros p' Hp'. apply Hl. by right.
Qed.

Lemma get_in_set_eq q p l v :
  holds q p = Some v → (∀ p', p' ∈ l → param_code p' ≠ param_code p → holds q p' = None) →
  get_in q (set_param p l) = Some v.
Proof.
  intros Hp. induction l as [|r l IH]; intros Hl; cbn [set_param].
  { by rewrite get_in_cons, Hp. }
  destruct (Z.eqb_spec (param_code r) (param_code p)) as [E|Hne].
  - by rewrite get_in_cons, Hp.
  - destruct (_ <? _); rewrite get_in_cons; [by rewrite Hp|].
    rewrite (Hl r) by (done || by left). apply IH. intros p' Hp'. apply Hl. by right.
Qed.

(** Every parameter is where the catalogue puts it: group members in their
    group, the others at the top level. *)
Definition placed (p : Param) : Prop :=
  match p with
  | Param_Pi pi _ => Pgi.of_pi pi = None
  | Param_Pgi g items => Forall (λ i, Pgi.of_pi i.1 = Some g) items
  end.

Lemma find_item_None q items : Forall (λ i, i.1 ≠ q) items → find_item q items = None.
Proof.
  induction 1 as [|[r v] items Hr Hi IH]; [done|]. unfold find_item in *. simpl in *.
  by rewrite bool_decide_false.
Qed.

Lemma holds_placed_pi q v p : Pgi.of_pi q = None → placed p → param_code p ≠ param_code (Param_Pi q v) →
  holds q p = None.
Proof.
  intros Hq Hp Hc. destruct p as [r w|g items]; simpl in *.
  - destruct (decide (r = q)); [by subst|done].
  - apply find_item_None. apply (Forall_impl _ _ _ Hp). intros i Hi <-. congruence.
Qed.

Lemma holds_placed_pgi q g items p : Pgi.of_pi q = Some g → placed p →
  param_code p ≠ param_code (Param_Pgi g items) → holds q p = None.
Proof.
  intros Hq Hp Hc. destruct p as [r w|h items']; simpl in *.
  - destruct (decide (r = q)); [|done]. subst. congruence.
  - apply find_item_None. apply (Forall_impl _ _ _ Hp). intros i Hi <-. congruence.
Qed.

Lemma get_set_eq f pi v : Pgi.of_pi pi = None → Forall placed (params f) → get (set f pi v) pi = Some v.
Proof.
  intros Ho Hp. unfold get, set. simpl. apply get_in_set_eq; [simpl; by rewrite decide_True|].
  intros p' Hin Hc. rewrite Forall_forall in Hp. eapply holds_placed_pi; [done|by apply Hp|exact Hc].
Qed.

Lemma get_set_ne f pi v q : q ≠ pi → get (set f pi v) q = get f q.
Proof.
  intros Hq. unfold get, set. simpl. apply get_in_set_ne; [simpl; by rewrite decide_False|].
  intros p' _ Hc. apply same_code_pi in Hc as [w ->]. simpl. by rewrite decide_False.
Qed.

Lemma get_set_pgi_eq f g items q last :
  ascending last (item_codes items) = true →
  Pgi.of_pi q = Some g → Forall placed (params f) →
  get (set_pgi f g items) q = find_item q items ∨ pgi f g ≠ None.
Proof.
  intros Ha Ho Hp. unfold get, set_pgi. simpl. rewrite (sort_items_ascending _ _ Ha).
  destruct (find_item q items) as [v|] eqn:Hf.
  - left. apply get_in_set_eq; [done|]. intros p' Hin Hc. rewrite Forall_forall in Hp.
    eapply holds_placed_pgi; [done|by apply Hp|exact Hc].
  - destruct (pgi f g) as [old|] eqn:Hg; [by right|left].
    assert (get_in q (params f) = None) as Hn.
    { unfold pgi in Hg. clear -Ho Hp Hg. induction Hp as [|p l Hpl Hl IH]; [done|].
      rewrite get_in_cons. destruct p as [r w|h old]; simpl in *.
      - destruct (decide (r = q)); [subst; congruence|]. by apply IH.
      - destruct (decide (h = g)); [done|]. rewrite find_item_None; [by apply IH|].
        apply (Forall_impl _ _ _ Hpl). intros i Hi <-. congruence. }
    rewrite <-Hn. apply get_in_set_ne; [done|]. intros p' Hin Hc.
    apply same_code_pgi in Hc as [old ->]. simpl.
    clear -Hin Hg. unfold pgi in Hg. exfalso. revert Hg. induction (params f) as [|p l IH].
    + by apply elem_of_nil in Hin.
    + apply elem_of_cons in Hin as [<-|Hin]; simpl; [by rewrite decide_True|].
      destruct p as [|h ?]; [by apply IH|]. destruct (decide (h = g)); [done|by apply IH].
Qed.

Lemma get_set_pgi_ne f g items q :
  Pgi.of_pi q ≠ Some g → Forall (λ i, Pgi.of_pi i.1 = Some g) (sort_items items) →
  Forall placed (params f) → get (set_pgi f g items) q = get f q.
Proof.
  intros Ho Hi Hp. unfold get, set_pgi. simpl. apply get_in_set_ne.
  - simpl. apply find_item_None. apply (Forall_impl _ _ _ Hi). intros i Hi' <-. done.
  - intros p' Hin Hc. apply same_code_pgi in Hc as [old ->]. simpl. rewrite Forall_forall in Hp.
    specialize (Hp _ Hin). simpl in Hp. apply find_item_None.
    apply (Forall_impl _ _ _ Hp). intros i Hi' <-. done.
Qed.
