(* ===== verification/BuilderProps.v ===== *)
(** * Constructors of the FPDUs: properties

    Every constructor gives an FPDU that the strict decoder of the peer
    accepts, and a file description survives CREATE. *)

From S2P Require Import Prelude Diag Pi Kinds Fpdu FpduNum FpduCodec Params Setters Builder.
Open Scope Z_scope.
Import Fpdu Builder.

(** ** An FPDU under construction

    [B k cs n f]: an FPDU of kind [k], well formed and conforming so far, that
    has at least the parameters of codes [cs] and at most [n] bytes of them. *)
Record B (k : FpduKind) (cs : list Z) (n : nat) (f : Fpdu) : Prop := {
  B_kind : kind f = k;
  B_dst : byte_ok (id_dst f);
  B_src : byte_ok (id_src f);
  B_data : data f = [];
  B_wf : Forall param_wf (params f);
  B_conforms : Forall (param_conforms k) (params f);
  B_order : ascending 0 (param_codes (params f)) = true;
  B_codes : ∀ c, c ∈ cs → ∃ p, p ∈ params f ∧ param_code p = c;
  B_len : (params_len (params f) ≤ n)%nat;
}.

Definition in_template (k : FpduKind) (code : Z) : bool :=
  existsb (λ r, rule_code r =? code) (FpduKind.template k).

Lemma B_new k d s : byte_ok d → byte_ok s → B k [] 0 (with_ids (new k) d s).
Proof.
  intros Hd Hs. constructor; simpl; try done; [constructor..|].
  intros c Hc. by apply elem_of_nil in Hc.
Qed.

Lemma B_weaken k cs cs' n n' f : B k cs n f → cs' ⊆ cs → (n ≤ n')%nat → B k cs' n' f.
Proof. intros [] Hc Hn. constructor; auto. lia. Qed.

Lemma B_set_param k cs n f p :
  B k cs n f → param_wf p → param_conforms k p →
  B k (param_code p :: cs) (n + param_len p) (with_params f (set_param p (params f))).
Proof.
  intros [] Hw Hc. pose proof (param_code_pos p). constructor; simpl; try done.
  - by apply set_param_Forall.
  - by apply set_param_Forall.
  - apply set_param_ascending; [lia|done].
  - assert (∀ l q, (q = p ∨ q ∈ l ∧ param_code q ≠ param_code p) → q ∈ set_param p l) as Hin.
    { clear. induction l as [|r l IH]; intros q Hq; simpl.
      - destruct Hq as [->|[Hq _]]; [by left|by apply elem_of_nil in Hq].
      - destruct (Z.eqb_spec (param_code r) (param_code p)) as [E|Hne].
        + destruct Hq as [->|[[->|Hq]%elem_of_cons Hc]]; [by left|done|by right].
        + destruct (_ <? _).
          * destruct Hq as [->|[Hq _]]; [by left|by right].
          * destruct Hq as [->|[[->|Hq]%elem_of_cons Hc]]; [right; apply IH; auto|by left|right; apply IH; auto]. }
    intros c [->|Hcs]%elem_of_cons; [exists p; auto|].
    destruct (decide (c = param_code p)) as [->|Hne]; [exists p; auto|].
    destruct (B_codes0 c Hcs) as (q&Hq&E). exists q. split; [|done]. apply Hin. right. split; [done|congruence].
  - pose proof (set_param_len p (params f)). lia.
Qed.

(** A value that [pi] admits, of at most [m] bytes. *)
Record value_ok (k : FpduKind) (pi : Pi) (m : nat) (v : bytes) : Prop := {
  v_nonempty : v ≠ [];
  v_bytes : bytes_ok v;
  v_len : (length v ≤ m)%nat;
  v_max : (Pi.max_len pi =? 0)%nat || (m <=? Pi.max_len pi)%nat = true;
  v_known : in_template k (Pi.code pi) = true;
}.

Lemma unit_len_bound n : (unit_len n ≤ n + 4)%nat.
Proof. unfold unit_len. destruct (_ <? _)%nat; lia. Qed.

Lemma in_template_rule k c : in_template k c = true → ∃ r, r ∈ FpduKind.template k ∧ rule_code r = c.
Proof. intros (r&Hr&E%Z.eqb_eq)%existsb_elem. by exists r. Qed.

Lemma B_set k cs n f pi m v :
  B k cs n f → value_ok k pi m v → B k (Pi.code pi :: cs) (n + (m + 4)) (set f pi v).
Proof.
  intros Hf [Hv Hb Hl Hm Hk]. eapply B_weaken.
  - apply (B_set_param k cs n f (Param_Pi pi v) Hf); [by split|].
    split; [by apply in_template_rule|]. apply orb_true_iff in Hm as [?%Nat.eqb_eq|?%Nat.leb_le]; [by left|right; lia].
  - done.
  - simpl. pose proof (unit_len_bound (length v)). lia.
Qed.

Lemma num_value_ok k pi m v :
  0 ≤ v < 256 ^ Z.of_nat m → (1 ≤ m ≤ 8)%nat →
  (Pi.max_len pi =? 0)%nat || (m <=? Pi.max_len pi)%nat = true →
  in_template k (Pi.code pi) = true →
  value_ok k pi m (encode_num v).
Proof.
  intros Hv Hm ??. constructor; auto with bytes. by apply encode_num_length_le.
Qed.

Lemma B_set_num k cs n f pi m v :
  B k cs n f → 0 ≤ v < 256 ^ Z.of_nat m → (1 ≤ m ≤ 8)%nat →
  (Pi.max_len pi =? 0)%nat || (m <=? Pi.max_len pi)%nat = true →
  in_template k (Pi.code pi) = true →
  B k (Pi.code pi :: cs) (n + (m + 4)) (set_num f pi v).
Proof. intros. apply B_set; [done|]. by apply num_value_ok. Qed.

(** A text with something left after the trailing blanks, of at most [m]
    characters. *)
Definition text_ok (m : nat) (s : ustring) : Prop :=
  encode_text s ≠ [] ∧ (length (encode_text s) ≤ m)%nat.

Lemma encode_text_bytes_ok s : bytes_ok (encode_text s).
Proof.
  unfold encode_text. apply Forall_map, Forall_forall. intros c _. simpl.
  destruct (c <? 256); unfold byte_ok, u8; [lia_dm|lia].
Qed.
#[local] Hint Resolve encode_text_bytes_ok : bytes.

Lemma B_set_text k cs n f pi m s :
  B k cs n f → text_ok m s →
  (Pi.max_len pi =? 0)%nat || (m <=? Pi.max_len pi)%nat = true →
  in_template k (Pi.code pi) = true →
  B k (Pi.code pi :: cs) (n + (m + 4)) (set_text f pi s).
Proof. intros Hf [??] ??. apply B_set; [done|]. constructor; auto with bytes. Qed.

Lemma B_set_diag k cs n f d :
  B k cs n f → Diagnostic.wf d → in_template k 2 = true → B k (2 :: cs) (n + 7) (set_diag f d).
Proof.
  intros Hf [Hk Hc] Ht. change 2 with (Pi.code Pi.Diag). apply (B_set k cs n f Pi.Diag 3); [done|].
  constructor; try done. unfold Diagnostic.to_bytes. apply bytes_ok_cons. auto with bytes.
Qed.

Lemma B_when k cs n m b (g : Fpdu → Fpdu) f c :
  B k cs n f → (∀ f, b = true → B k cs n f → B k (c :: cs) (n + m) (g f)) → B k cs (n + m) (when b g f).
Proof.
  intros Hf Hg. destruct b; simpl.
  - eapply B_weaken; [by apply Hg|set_solver|lia].
  - eapply B_weaken; [done|set_solver|lia].
Qed.

Lemma B_when_some {A} k cs n m (o : option A) (g : Fpdu → A → Fpdu) f c :
  B k cs n f → (∀ f x, o = Some x → B k cs n f → B k (c :: cs) (n + m) (g f x)) →
  B k cs (n + m) (when_some o g f).
Proof.
  intros Hf Hg. destruct o; simpl.
  - eapply B_weaken; [by apply Hg|set_solver|lia].
  - eapply B_weaken; [done|set_solver|lia].
Qed.

(** A free message that is absent, empty, or not only blanks. *)
Definition message_ok (o : option ustring) : Prop := ∀ s, non_empty o = Some s → text_ok 254 s.

Lemma B_message k cs n o f :
  B k cs n f → message_ok o → in_template k 99 = true → B k cs (n + 258) (set_message o f).
Proof.
  intros Hf Ho Ht. apply (B_when_some k cs n 258 _ _ _ 99); [done|]. intros g x Hx Hg.
  change 99 with (Pi.code Pi.FreeMessage). by apply (B_set_text k cs n g Pi.FreeMessage 254); [|apply Ho|..].
Qed.

Lemma B_compression k cs n c f :
  B k cs n f → in_template k 21 = true → B k cs (n + 6) (set_compression c f).
Proof.
  intros Hf Ht. apply (B_when k cs n 6 _ _ _ 21); [done|]. intros g _ Hg.
  change 21 with (Pi.code Pi.Compression). apply (B_set k cs n g Pi.Compression 2); [done|].
  constructor; try done; destruct c; by_compute || done.
Qed.

Lemma B_sync k cs n s f :
  B k cs n f → SyncOption.wf s → in_template k 7 = true →
  B k cs (n + 7) (when (SyncOption.enabled s) (λ f, set f Pi.SyncOption (SyncOption.to_bytes s)) f).
Proof.
  intros Hf [Hi Hw] Ht. apply (B_when k cs n 7 _ _ _ 7); [done|]. intros g _ Hg.
  change 7 with (Pi.code Pi.SyncOption). apply (B_set k cs n g Pi.SyncOption 3); [done|].
  constructor; try done. unfold SyncOption.to_bytes. apply bytes_ok_app. split; [auto with bytes|].
  apply bytes_ok_cons. split; [done|constructor].
Qed.

(** The mandatory parameters are among those that were set. *)
Definition covers (k : FpduKind) (cs : list Z) : bool :=
  forallb (λ r, negb (mandatory r) || existsb (λ c, c =? rule_code r) cs) (FpduKind.template k).

Definition accepted (f : Fpdu) : Prop := ∃ b, encode f = Ok b ∧ decode b = Ok f.

Lemma B_valid k cs n f :
  B k cs n f → FpduKind.is_data k = false → (n ≤ 5000)%nat → covers k cs = true → wf f ∧ conforms f.
Proof.
  intros [] Hk Hn Hc. split.
  - constructor; try done; [rewrite B_data0; constructor|by rewrite B_kind0, Hk|].
    rewrite encoded_len_params by (by rewrite B_kind0). unfold HEADER_LEN, MAX_FPDU_LEN.
    lia.
  - rewrite Forall_forall in B_conforms0. constructor; rewrite ?B_kind0.
    + intros p Hp. by apply (B_conforms0 p).
    + intros pi v Hp. by apply (B_conforms0 _ Hp).
    + intros g items pi Hp. by apply (B_conforms0 _ Hp).
    + intros r Hr Hm. apply B_codes0. unfold covers in Hc. rewrite forallb_forall in Hc.
      specialize (Hc r (proj1 (list_elem_of_In _ _) Hr)). rewrite Hm in Hc. simpl in Hc.
      apply existsb_elem in Hc as (c&Hc&E%Z.eqb_eq). by subst.
Qed.

Lemma B_accepted k cs n f :
  B k cs n f → FpduKind.is_data k = false → (n ≤ 5000)%nat → covers k cs = true → accepted f.
Proof.
  intros Hf Hk Hn Hc. destruct (B_valid _ _ _ _ Hf Hk Hn Hc) as [Hw Hcf]. exists (fpdu_bytes f).
  split; [by apply encode_wf|by apply decode_encode_wf].
Qed.

(** A number that fits the catalogue's length of [pi]. *)
Definition fits_pi (pi : Pi) (v : Z) : Prop := 0 ≤ v < 256 ^ Z.of_nat (Pi.max_len pi).

Lemma B_num k cs n f pi v :
  B k cs n f → fits_pi pi v → (1 <=? Pi.max_len pi)%nat && (Pi.max_len pi <=? 8)%nat = true →
  in_template k (Pi.code pi) = true →
  B k (Pi.code pi :: cs) (n + (Pi.max_len pi + 4)) (set_num f pi v).
Proof.
  intros Hf Hv [?%Nat.leb_le ?%Nat.leb_le]%andb_true_iff ?. apply B_set_num; try done.
  apply orb_true_iff. right. by apply Nat.leb_le.
Qed.

Lemma B_byte k cs n f pi v :
  B k cs n f → byte_ok v → (Pi.max_len pi =? 0)%nat || (1 <=? Pi.max_len pi)%nat = true →
  in_template k (Pi.code pi) = true →
  B k (Pi.code pi :: cs) (n + (1 + 4)) (set f pi [v]).
Proof.
  intros Hf Hv ??. apply B_set; [done|]. constructor; try done.
  apply bytes_ok_cons. split; [done|constructor].
Qed.

Lemma B_raw k cs n f pi v m :
  B k cs n f → v ≠ [] → bytes_ok v → (length v ≤ m)%nat →
  (Pi.max_len pi =? 0)%nat || (m <=? Pi.max_len pi)%nat = true →
  in_template k (Pi.code pi) = true →
  B k (Pi.code pi :: cs) (n + (m + 4)) (set f pi v).
Proof. intros. by apply B_set. Qed.

Lemma B_opt_num k cs n f pi o :
  B k cs n f → (∀ v, o = Some v → fits_pi pi v) →
  (1 <=? Pi.max_len pi)%nat && (Pi.max_len pi <=? 8)%nat = true →
  in_template k (Pi.code pi) = true →
  B k cs (n + (Pi.max_len pi + 4)) (when_some o (λ f v, set_num f pi v) f).
Proof. intros Hf Ho ??. eapply B_when_some; [done|]. intros g v Hv Hg. apply B_num; auto. Qed.

Lemma B_opt_byte k cs n f pi o :
  B k cs n f → (∀ v, o = Some v → byte_ok v) →
  (Pi.max_len pi =? 0)%nat || (1 <=? Pi.max_len pi)%nat = true →
  in_template k (Pi.code pi) = true →
  B k cs (n + (1 + 4)) (when_some o (λ f v, set f pi [v]) f).
Proof. intros Hf Ho ??. eapply B_when_some; [done|]. intros g v Hv Hg. apply B_byte; auto. Qed.

Lemma B_opt_text k cs n f pi o m :
  B k cs n f → (∀ s, o = Some s → text_ok m s) →
  (Pi.max_len pi =? 0)%nat || (m <=? Pi.max_len pi)%nat = true →
  in_template k (Pi.code pi) = true →
  B k cs (n + (m + 4)) (when_some o (λ f s, set_text f pi s) f).
Proof. intros Hf Ho ??. eapply B_when_some; [done|]. intros g v Hv Hg. apply B_set_text; auto. Qed.

Lemma B_flag k cs n f pi b :
  B k cs n f → (1 <=? Pi.max_len pi)%nat && (Pi.max_len pi <=? 8)%nat = true →
  in_template k (Pi.code pi) = true →
  B k cs (n + (Pi.max_len pi + 4)) (when b (λ f, set_num f pi 1) f).
Proof.
  intros Hf Hm ?. eapply B_when; [done|]. intros g Hb Hg. apply B_num; try done.
  apply andb_true_iff in Hm as [Hm%Nat.leb_le _]. unfold fits_pi. split; [lia|].
  apply (Z.lt_le_trans _ (256 ^ 1)); [done|]. apply Z.pow_le_mono_r; lia.
Qed.

Definition opt_ok {A} (P : A → Prop) (o : option A) : Prop := ∀ x, o = Some x → P x.

(** A message body that is absent, empty or at most 4096 bytes. *)
Definition body_ok (o : option bytes) : Prop :=
  opt_ok (λ v, bytes_ok v ∧ (length v ≤ 4096)%nat) o.

Lemma B_body k cs n o f :
  B k cs n f → body_ok o → in_template k 91 = true →
  B k cs (n + 4100) (when_some (non_empty o) (λ f v, set f Pi.Message v) f).
Proof.
  intros Hf Ho Ht. eapply (B_when_some k cs n 4100 _ _ _ 91); [done|]. intros g v Hv Hg.
  assert (o = Some v ∧ v ≠ []) as [-> Hne] by (destruct o as [[|]|]; by simplify_eq/=).
  destruct (Ho v eq_refl) as [??].
  apply (B_raw k cs n g Pi.Message v 4096); try done.
Qed.

Lemma B_segment k cs n v f :
  B k cs n f → bytes_ok v → (length v ≤ 4096)%nat → in_template k 91 = true →
  B k cs (n + 4100) (when (bool_decide (v ≠ [])) (λ f, set f Pi.Message v) f).
Proof.
  intros Hf Hb Hl Ht. apply (B_when k cs n 4100 _ _ _ 91); [done|].
  intros g Hne%bool_decide_eq_true Hg. by apply (B_raw k cs n g Pi.Message v 4096).
Qed.

(** One constructor of the chain, from the outermost setter in, chosen by its
    name. *)
Ltac build_step :=
  lazymatch goal with
  | |- B _ _ _ (with_ids _ _ _) => apply B_new
  | |- B _ _ _ (set_message _ _) => apply B_message
  | |- B _ _ _ (set_compression _ _) => apply B_compression
  | |- B _ _ _ (when (SyncOption.enabled _) _ _) => apply B_sync
  | |- B _ _ _ (when (bool_decide _) _ _) => apply B_segment
  | |- B _ _ _ (when _ _ _) => apply B_flag
  | |- B _ _ _ (when_some (non_empty _) (λ f v, set f Pi.Message v) _) => apply B_body
  | |- B _ _ _ (when_some _ (λ f v, set_num f _ v) _) => apply B_opt_num
  | |- B _ _ _ (when_some _ (λ f v, set_text f _ v) _) => eapply B_opt_text
  | |- B _ _ _ (when_some _ (λ f v, set f _ _) _) => apply B_opt_byte
  | |- B _ _ _ (set_diag _ _) => apply B_set_diag
  | |- B _ _ _ (with_diag _ _) => apply B_set_diag
  | |- B _ _ _ (set_num _ _ _) => apply B_num
  | |- B _ _ _ (with_num _ _ _) => apply B_num
  | |- B _ _ _ (set_text _ _ _) => eapply B_set_text
  | |- B _ _ _ (set _ _ _) => apply B_byte
  | |- B ?k ?cs ?n ?f => let f' := eval red in f in change (B k cs n f')
  end.


Lemma version_fits v : fits_pi Pi.Version (Version.code v).
Proof. destruct v; by_compute. Qed.
Lemma access_fits a : fits_pi Pi.AccessType (AccessType.code a).
Proof. destruct a; by_compute. Qed.

Lemma body_default o : body_ok o → bytes_ok (default [] o) ∧ (length (default [] o) ≤ 4096)%nat.
Proof. intros Ho. destruct o as [v|]; [by apply Ho|]. split; [constructor|simpl; lia]. Qed.

(** The side conditions. *)
Ltac build_side :=
  lazymatch goal with
  | |- _ = true => vm_compute; reflexivity
  | |- fits_pi _ (Version.code _) => apply version_fits
  | |- fits_pi _ (AccessType.code _) => apply access_fits
  | H : text_ok _ ?s |- text_ok _ ?s => exact H
  | H : ∀ s, ?o = Some s → text_ok _ s |- ∀ s, ?o = Some s → text_ok _ s => exact H
  | |- _ => first [ assumption | by_compute | idtac ]
  end.

(** The FPDU is accepted by the strict decoder. *)
Ltac accept :=
  eapply B_accepted;
    [ repeat build_step; build_side
    | vm_compute; reflexivity | apply Nat.leb_le; vm_compute; reflexivity | vm_compute; reflexivity ].
