(* ===== verification/FileSpecProps.v ===== *)
(** * The file description: properties

    A CREATE built from a file description is acceptable to the peer, which
    reads back the same description. *)

From S2P Require Import Prelude Diag Pi Kinds Fpdu FpduNum FpduCodec Params Setters Builder BuilderProps.
Open Scope Z_scope.
Import Fpdu Builder.

(** ** Reading a parameter through a chain of setters *)

Lemma get_set f pi v q :
  Pgi.of_pi pi = None → Forall placed (params f) →
  get (set f pi v) q = if decide (q = pi) then Some v else get f q.
Proof.
  intros Ho Hp. destruct (decide (q = pi)) as [->|Hq]; [by apply get_set_eq|by apply get_set_ne].
Qed.

Lemma pgi_set f pi v g : pgi (set f pi v) g = pgi f g.
Proof.
  unfold pgi, set. simpl. induction (params f) as [|p l IH]; [done|]. cbn [set_param].
  destruct (Z.eqb_spec (param_code p) (param_code (Param_Pi pi v))) as [E|].
  - apply same_code_pi in E as [w ->]. done.
  - destruct (_ <? _); [done|]. destruct p as [|h items]; simpl; [done|]. by destruct (decide (h = g)).
Qed.

Lemma pgi_set_pgi f g items h last :
  ascending last (item_codes items) = true →
  pgi (set_pgi f g items) h = if decide (h = g) then Some items else pgi f h.
Proof.
  intros Ha. unfold pgi, set_pgi. simpl. rewrite (sort_items_ascending _ _ Ha).
  induction (params f) as [|p l IH]; cbn [set_param].
  { simpl. destruct (decide (g = h)), (decide (h = g)); congruence. }
  destruct (Z.eqb_spec (param_code p) (param_code (Param_Pgi g items))) as [E|].
  - apply same_code_pgi in E as [old ->]. simpl.
    destruct (decide (g = h)), (decide (h = g)); congruence.
  - destruct (_ <? _).
    + simpl. destruct (decide (g = h)), (decide (h = g)); congruence.
    + destruct p as [|k its]; simpl in *; [done|].
      destruct (decide (k = h)) as [->|]; [|done]. by destruct (decide (h = g)) as [->|].
Qed.

Lemma get_set_pgi f g items q :
  ascending 0 (item_codes items) = true → Forall (λ i, Pgi.of_pi i.1 = Some g) items →
  Forall placed (params f) → pgi f g = None →
  get (set_pgi f g items) q = if decide (Pgi.of_pi q = Some g) then find_item q items else get f q.
Proof.
  intros Ha Hi Hp Hg. destruct (decide (Pgi.of_pi q = Some g)) as [Hq|Hq].
  - by destruct (get_set_pgi_eq f g items q 0 Ha Hq Hp).
  - apply get_set_pgi_ne; [done| |done]. by rewrite (sort_items_ascending _ _ Ha).
Qed.

Lemma get_when b g f q : get (when b g f) q = if b then get (g f) q else get f q.
Proof. by destruct b. Qed.
Lemma get_when_some {A} (o : option A) g f q :
  get (when_some o g f) q = match o with Some x => get (g f x) q | None => get f q end.
Proof. by destruct o. Qed.
Lemma pgi_when b g f h : (∀ f, pgi (g f) h = pgi f h) → pgi (when b g f) h = pgi f h.
Proof. intros H. destruct b; simpl; auto. Qed.
Lemma pgi_when_some {A} (o : option A) g f h :
  (∀ f x, pgi (g f x) h = pgi f h) → pgi (when_some o g f) h = pgi f h.
Proof. intros H. destruct o; simpl; auto. Qed.

(** ** Groups of a FPDU under construction *)

Lemma B_set_pgi k cs n f g items m :
  B k cs n f → items_wf g items → Forall (λ i, (length i.2 ≤ m)%nat) items →
  missing_member g items = None → in_template k (Pgi.code g) = true →
  B k (Pgi.code g :: cs) (n + (length items * (m + 4) + 4)) (set_pgi f g items).
Proof.
  intros Hf Hw Hm Hmem Ht. pose proof Hw as (_&Ha&Hc). unfold set_pgi.
  rewrite (sort_items_ascending _ _ Ha). eapply B_weaken.
  - apply (B_set_param k cs n f (Param_Pgi g items) Hf); [done|].
    split; [by apply in_template_rule|]. by apply missing_member_None.
  - done.
  - cbn [param_len]. pose proof (unit_len_bound (items_len items)).
    assert (items_len items ≤ length items * (m + 4))%nat; [|lia].
    clear -Hm. induction Hm as [|[pi v] items Hi Hm IH]; [done|].
    change (items_len ((pi, v) :: items)) with (unit_len (length v) + items_len items)%nat.
    pose proof (unit_len_bound (length v)). cbn [length snd] in *. rewrite Nat.mul_succ_l. lia.
Qed.

(** ** Descriptions that the format represents exactly *)

(** A text of at most [m] Latin-1 characters, not empty and without trailing
    blanks. *)
Definition canonical (m : nat) (s : ustring) : Prop :=
  s ≠ [] ∧ Forall (λ c, 0 ≤ c < 256) s ∧ trim_end s = s ∧ (length s ≤ m)%nat.

#[global] Instance canonical_dec m s : Decision (canonical m s).
Proof. unfold canonical. apply _. Defined.

Lemma canonical_encode m s : canonical m s → encode_text s = s.
Proof.
  intros (_&Hc&Ht&_). unfold encode_text. rewrite Ht. clear Ht.
  induction Hc as [|c s Hc Hs IH]; [done|]. simpl. rewrite IH.
  destruct (Z.ltb_spec c 256); [|lia]. f_equal. unfold u8. by apply Z.mod_small.
Qed.

Lemma canonical_decode m s : canonical m s → decode_text (encode_text s) = s.
Proof. intros Hs. rewrite (canonical_encode m s Hs). by destruct Hs as (_&_&?&_). Qed.

Lemma canonical_text_ok m s : canonical m s → text_ok m s.
Proof. intros Hs. split; rewrite (canonical_encode m s Hs); apply Hs. Qed.

Lemma canonical_bytes m s : canonical m s → encode_text s ≠ [] ∧ bytes_ok (encode_text s) ∧ (length (encode_text s) ≤ m)%nat.
Proof. intros Hs. rewrite (canonical_encode m s Hs). destruct Hs as (?&?&_&?). auto. Qed.

Record spec_ok (s : FileSpec) : Prop := {
  ok_requester : opt_ok (canonical 24) (fs_requester s);
  ok_server : opt_ok (canonical 24) (fs_server s);
  ok_file_type : u64_ok (file_type s);
  ok_file_name : canonical 76 (file_name s);
  ok_transfer_id : fits_pi Pi.TransferId (fs_transfer_id s);
  ok_data_code : opt_ok byte_ok (data_code s);
  ok_priority : byte_ok (priority s);
  ok_max_entity : fits_pi Pi.MaxEntitySize (fs_max_entity_size s);
  ok_article_length : u16_ok (article_length s);
  ok_organisation : opt_ok byte_ok (organisation s);
  ok_label : opt_ok (canonical 80) (label s);
  ok_reservation_unit : opt_ok byte_ok (reservation_unit s);
  ok_max_reservation : u64_ok (max_reservation s);
  ok_creation : opt_ok (canonical 12) (creation_date s);
  ok_extraction : opt_ok (canonical 12) (extraction_date s);
  ok_dates : creation_date s = None → extraction_date s = None;
  ok_client : opt_ok (canonical 24) (client_id s);
  ok_bank : opt_ok (canonical 24) (bank_id s);
  ok_access_control : opt_ok (canonical 16) (file_access_control s);
  ok_free_message : opt_ok (canonical 254) (fs_free_message s);
}.

(** A group that [set_pgi] may add: well formed, complete, items of at most [m]
    bytes. *)
Record group_ok (g : Pgi) (m : nat) (items : list (Pi * bytes)) : Prop := {
  g_wf : items_wf g items;
  g_len : Forall (λ i, (length i.2 ≤ m)%nat) items;
  g_complete : missing_member g items = None;
  g_count : (length items ≤ 4)%nat;
}.

Lemma item_wf g m pi v items :
  v ≠ [] → bytes_ok v → (length v ≤ m)%nat → Pgi.contains g pi = true →
  Forall (λ i, (i.2 ≠ [] ∧ bytes_ok i.2 ∧ Pgi.contains g i.1 = true) ∧ (length i.2 ≤ m)%nat) items →
  Forall (λ i, (i.2 ≠ [] ∧ bytes_ok i.2 ∧ Pgi.contains g i.1 = true) ∧ (length i.2 ≤ m)%nat) ((pi, v) :: items).
Proof. intros. by repeat constructor. Qed.

Lemma group_ok_of g m items :
  items ≠ [] → ascending 0 (item_codes items) = true →
  missing_member g items = None → (length items ≤ 4)%nat →
  Forall (λ i, (i.2 ≠ [] ∧ bytes_ok i.2 ∧ Pgi.contains g i.1 = true) ∧ (length i.2 ≤ m)%nat) items →
  group_ok g m items.
Proof. intros ???? [??]%Forall_and. constructor; try done. Qed.

Lemma byte_item v : byte_ok v → [v] ≠ [] ∧ bytes_ok [v] ∧ (length [v] ≤ 1)%nat.
Proof. intros Hv. split_and!; [done|apply bytes_ok_cons; split; [done|constructor]|simpl; lia]. Qed.

Ltac solve_item :=
  match goal with
  | H : canonical _ ?s |- context [encode_text ?s] =>
      destruct (canonical_bytes _ _ H) as (?&?&?); (done || lia)
  | |- encode_num _ ≠ [] => apply encode_num_nonempty
  | |- bytes_ok (encode_num _) => apply encode_num_bytes_ok
  | |- (length (encode_num ?v) ≤ _)%nat => pose proof (encode_num_length v); lia
  | H : byte_ok ?v |- context [[?v]] => destruct (byte_item v H) as (?&?&?); (done || (simpl; lia))
  end.

Ltac solve_group :=
  apply group_ok_of; [done|vm_compute; reflexivity|vm_compute; reflexivity|simpl; lia|];
  repeat (apply item_wf; [solve_item|solve_item|solve_item|reflexivity|]); apply Forall_nil_2.

Section Groups.
Context (s : FileSpec) (Hs : spec_ok s).

Lemma file_id_group_ok : group_ok Pgi.FileId 76 (file_id_group s).
Proof.
  pose proof (ok_requester s Hs) as Hr. pose proof (ok_server s Hs) as Hv.
  pose proof (ok_file_name s Hs) as Hn. unfold file_id_group, text.
  destruct (fs_requester s) as [r|], (fs_server s) as [v|]; simpl;
    try specialize (Hr _ eq_refl); try specialize (Hv _ eq_refl); solve_group.
Qed.

Lemma logical_group_ok : group_ok Pgi.LogicalAttributes 80 (logical_group s).
Proof.
  pose proof (ok_organisation s Hs) as Ho. pose proof (ok_label s Hs) as Hl.
  assert (byte_ok (ArticleFormat.code (fs_article_format s))) as Hf
    by (destruct (fs_article_format s); by_compute).
  unfold logical_group, text.
  destruct (organisation s) as [o|], (label s) as [[|c l]|]; simpl;
    try specialize (Ho _ eq_refl); try specialize (Hl _ eq_refl); solve_group.
Qed.

Lemma physical_group_ok : group_ok Pgi.PhysicalAttributes 8 (physical_group s).
Proof.
  pose proof (ok_reservation_unit s Hs) as Hu. unfold physical_group.
  destruct (reservation_unit s) as [u|]; simpl; try specialize (Hu _ eq_refl); solve_group.
Qed.

Lemma historical_group_ok h : historical_group s = Some h → group_ok Pgi.HistoricalAttributes 12 h.
Proof.
  pose proof (ok_creation s Hs) as Hc. pose proof (ok_extraction s Hs) as He.
  unfold historical_group, text. destruct (creation_date s) as [c|]; [|done]. simpl.
  specialize (Hc _ eq_refl).
  destruct (extraction_date s) as [e|]; simpl; try specialize (He _ eq_refl); intros [= <-]; solve_group.
Qed.
End Groups.

(** ** CREATE *)

Lemma B_group k cs n f g m items :
  B k cs n f → group_ok g m items → in_template k (Pgi.code g) = true →
  B k (Pgi.code g :: cs) (n + (4 * (m + 4) + 4)) (set_pgi f g items).
Proof.
  intros Hf [Hw Hl Hc Hn] Ht. eapply B_weaken; [by apply (B_set_pgi k cs n f g items m)|done|nia].
Qed.

Lemma group_placed g m items : group_ok g m items → Forall (λ i, Pgi.of_pi i.1 = Some g) items.
Proof.
  intros [(_&_&Hc) _ _ _]. apply (Forall_impl _ _ _ Hc). intros i (_&_&Hi). by apply Pgi.of_contains.
Qed.

Lemma group_ascending g m items : group_ok g m items → ascending 0 (item_codes items) = true.
Proof. by intros [(_&Ha&_) _ _ _]. Qed.

Lemma message_canonical o : opt_ok (canonical 254) o → message_ok o.
Proof.
  intros Ho s Hs. destruct o as [[|c t]|]; simpl in Hs; simplify_eq.
  by apply canonical_text_ok, Ho.
Qed.

Lemma canonical_text_opt m o : opt_ok (canonical m) o → ∀ s, o = Some s → text_ok m s.
Proof. intros Ho s Hs. by apply canonical_text_ok, Ho. Qed.

(** The other FPDUs that carry a description. *)
Section Described.
Context (s : FileSpec) (dst : Z) (Hs : spec_ok s) (Hd : byte_ok dst).

Lemma B_identified k : in_template k (Pgi.code Pgi.FileId) = true →
  B k [Pgi.code Pgi.FileId] (0 + (4 * (76 + 4) + 4)) (set_pgi (with_ids (new k) dst 0) Pgi.FileId (file_id_group s)).
Proof. intros Hk. apply (B_group _ _ _ _ _ 76); [by apply B_new|by apply file_id_group_ok|done]. Qed.

Lemma B_history k cs n f : B k cs n f → in_template k (Pgi.code Pgi.HistoricalAttributes) = true →
  B k cs (n + (4 * (12 + 4) + 4)) (when_some (historical_group s) (λ f h, set_pgi f Pgi.HistoricalAttributes h) f).
Proof.
  intros Hf Hk. apply (B_when_some _ _ _ (4 * (12 + 4) + 4) _ _ _ (Pgi.code Pgi.HistoricalAttributes)); [exact Hf|].
  intros g h Hh Hg. by eapply (B_group _ _ _ _ _ 12); [|apply (historical_group_ok s Hs)|].
Qed.

Lemma B_parties k cs n f : B k cs n f → in_template k 61 && in_template k 62 = true →
  B k cs (n + 28 + 28)
    (when_some (bank_id s) (λ f b, set_text f Pi.BankId b) (when_some (client_id s) (λ f c, set_text f Pi.ClientId c) f)).
Proof.
  intros Hf [H1 H2]%andb_true_iff. eapply (B_opt_text _ _ _ _ _ _ 24); [|apply canonical_text_opt, Hs|done..].
  eapply (B_opt_text _ _ _ _ _ _ 24); [exact Hf|apply canonical_text_opt, Hs|done..].
Qed.

Lemma B_attributes k cs n b g m items f :
  B k cs n f → group_ok g m items → in_template k (Pgi.code g) = true →
  B k cs (n + (4 * (m + 4) + 4)) (when b (λ f, set_pgi f g items) f).
Proof.
  intros Hf Hg Hk. eapply (B_when _ _ _ _ _ _ _ (Pgi.code g)); [exact Hf|]. intros h _ Hh. by eapply B_group.
Qed.

Lemma select_built attributes :
  ∃ n, (n ≤ 2000)%nat ∧ B FpduKind.Select [Pi.code Pi.MaxEntitySize; Pi.code Pi.Priority; Pi.code Pi.TransferId; Pgi.code Pgi.FileId] n
    (select s dst attributes).
Proof.
  eexists. split; [|unfold select, common_tail].
  2:{ apply B_message; [|apply message_canonical, Hs|done].
      eapply (B_opt_text _ _ _ _ _ _ 16); [|apply canonical_text_opt, Hs|done..].
      apply B_parties; [|done].
      apply B_num; [|apply (ok_max_entity s Hs)|done..].
      apply B_byte; [|apply (ok_priority s Hs)|done..].
      apply B_flag; [|done..].
      eapply (B_when _ _ _ (1 + 4) _ _ _ (Pi.code Pi.RequestedAttributes)).
      2:{ intros g _ Hg. apply B_byte; [exact Hg| |done..]. by destruct attributes as [[] [] []]. }
      apply B_num; [|apply (ok_transfer_id s Hs)|done..].
      by apply B_identified. }
  cbn [Pi.max_len]. lia.
Qed.

Lemma ack_select_built attributes :
  ∃ n, (n ≤ 2000)%nat ∧ B FpduKind.AckSelect [Pi.code Pi.MaxEntitySize; Pi.code Pi.TransferId; Pgi.code Pgi.FileId; 2] n
    (ack_select s dst attributes).
Proof.
  eexists. split; [|unfold ack_select].
  2:{ apply B_message; [|apply message_canonical, Hs|done].
      apply B_parties; [|done].
      eapply (B_when _ _ _ (4 * (12 + 4) + 4) _ _ _ (Pi.code Pi.MaxEntitySize)).
      2:{ intros g _ Hg. eapply B_weaken; [apply B_history; [exact Hg|done]|set_solver|lia]. }
      eapply (B_attributes _ _ _ _ _ 8); [|by apply physical_group_ok|done].
      eapply (B_attributes _ _ _ _ _ 80); [|by apply logical_group_ok|done].
      apply B_num; [|apply (ok_max_entity s Hs)|done..].
      apply B_opt_byte; [|apply (ok_data_code s Hs)|done..].
      apply B_num; [|apply (ok_transfer_id s Hs)|done..].
      eapply (B_group _ _ _ _ _ 76); [|by apply file_id_group_ok|done].
      apply B_set_diag; [by apply B_new|by_compute|done]. }
  cbn [Pi.max_len]. lia.
Qed.

Lemma msg_built k reply body :
  k = FpduKind.Msg ∨ k = FpduKind.MsgDm → body_ok body →
  ∃ cs n, (n ≤ 5000)%nat ∧ covers k cs = true ∧ B k cs n (msg k dst s reply body).
Proof.
  intros Hk Hb. eexists _, _. split; [|split].
  3:{ unfold msg. apply B_body; [|done|by destruct Hk as [->| ->]].
      apply B_parties; [|by destruct Hk as [->| ->]].
      apply B_history; [|by destruct Hk as [->| ->]].
      apply B_byte; [|apply (ok_priority s Hs)|done|by destruct Hk as [->| ->]].
      apply B_opt_byte; [|apply (ok_data_code s Hs)|done|by destruct Hk as [->| ->]].
      eapply (B_when _ _ _ 5 _ _ _ (Pi.code Pi.RequestedAttributes)).
      2:{ intros g _ Hg. apply B_byte; [exact Hg|done|done|by destruct Hk as [->| ->]]. }
      apply B_num; [|apply (ok_transfer_id s Hs)|done|by destruct Hk as [->| ->]].
      apply B_identified; by destruct Hk as [->| ->]. }
  - cbn [Pi.max_len]. lia.
  - by destruct Hk as [->| ->].
Qed.
End Described.

Section Create.
Context (s : FileSpec) (dst : Z) (Hs : spec_ok s) (Hd : byte_ok dst).

(** The FPDU before the groups of attributes, and after them. *)
Let f1 := set_pgi (with_ids (new FpduKind.Create) dst 0) Pgi.FileId (file_id_group s).
Let f2 := set_num f1 Pi.TransferId (fs_transfer_id s).
Let f3 := when (restarted s) (λ f, set_num f Pi.Restarted 1) f2.
Let f4 := when_some (data_code s) (λ f c, set f Pi.DataCode [c]) f3.
Let f5 := set f4 Pi.Priority [priority s].
Let f6 := set_num f5 Pi.MaxEntitySize (fs_max_entity_size s).
Let f7 := set_pgi f6 Pgi.LogicalAttributes (logical_group s).
Let f8 := set_pgi f7 Pgi.PhysicalAttributes (physical_group s).
Let f9 := when_some (historical_group s) (λ f h, set_pgi f Pgi.HistoricalAttributes h) f8.
Let f10 := when_some (client_id s) (λ f c, set_text f Pi.ClientId c) f9.
Let f11 := when_some (bank_id s) (λ f b, set_text f Pi.BankId b) f10.
Let f12 := when_some (file_access_control s) (λ f a, set_text f Pi.FileAccessControl a) f11.
Let f13 := set_message (fs_free_message s) f12.

Lemma create_eq : create s dst = f13.
Proof. reflexivity. Qed.

Let cs6 := [Pi.code Pi.MaxEntitySize; Pi.code Pi.Priority; Pi.code Pi.TransferId; Pgi.code Pgi.FileId].
Let cs8 := Pgi.code Pgi.PhysicalAttributes :: Pgi.code Pgi.LogicalAttributes :: cs6.

Let B6 : ∃ n, (n ≤ 500)%nat ∧ B FpduKind.Create cs6 n f6.
Proof.
  eexists. split; [|unfold cs6, f6, f5, f4, f3, f2, f1].
  2:{ apply B_num; [|apply (ok_max_entity s Hs)|done..].
      apply B_byte; [|apply (ok_priority s Hs)|done..].
      apply B_opt_byte; [|apply (ok_data_code s Hs)|done..].
      apply B_flag; [|done..].
      apply B_num; [|apply (ok_transfer_id s Hs)|done..].
      eapply (B_group _ _ _ _ _ 76); [apply B_new; [done|by_compute]|by apply file_id_group_ok|done]. }
  apply Nat.leb_le. vm_compute. reflexivity.
Qed.

Let B8 : ∃ n, (n ≤ 1000)%nat ∧ B FpduKind.Create cs8 n f8.
Proof.
  destruct B6 as (n&Hn&Hf). eexists. split; [|unfold cs8, f8, f7].
  2:{ eapply (B_group _ _ _ _ _ 8); [eapply (B_group _ _ _ _ _ 80)|by apply physical_group_ok|done];
        [exact Hf|by apply logical_group_ok|done]. }
  lia.
Qed.

Let B9 : ∃ n, (n ≤ 1100)%nat ∧ B FpduKind.Create cs8 n f9.
Proof.
  destruct B8 as (n&Hn&Hf). eexists. split; [|unfold f9].
  2:{ by apply B_history. }
  lia.
Qed.

Let B13 : ∃ n, (n ≤ 2000)%nat ∧ B FpduKind.Create cs8 n f13.
Proof.
  destruct B9 as (n&Hn&Hf). eexists. split; [|unfold f13, f12, f11, f10].
  2:{ apply B_message; [|apply message_canonical, Hs|done].
      eapply (B_opt_text _ _ _ _ _ _ 16); [|apply canonical_text_opt, Hs|done..].
      by apply B_parties; [| |]. }
  lia.
Qed.

Lemma create_built :
  ∃ cs n, (n ≤ 2000)%nat ∧ covers FpduKind.Create cs = true ∧ B FpduKind.Create cs n (create s dst).
Proof.
  destruct B13 as (n&Hn&Hf). rewrite create_eq. exists cs8, n. split; [done|]. split; [vm_compute; reflexivity|done].
Qed.

Lemma create_accepted : accepted (create s dst).
Proof. destruct create_built as (cs&n&Hn&Hc&Hf). apply (B_accepted _ _ _ _ Hf); [done|lia|done]. Qed.

(** *** What the peer reads *)

Lemma get_opt_set {A} (o : option A) pi (h : A → bytes) f q :
  Pgi.of_pi pi = None → Forall placed (params f) →
  get (when_some o (λ f x, set f pi (h x)) f) q
    = if decide (q = pi) then match o with Some x => Some (h x) | None => get f q end else get f q.
Proof.
  intros Ho Hp. destruct o as [x|]; simpl; [by apply get_set|]. by destruct (decide (q = pi)).
Qed.

Lemma placed_set f pi v : Pgi.of_pi pi = None → Forall placed (params f) → Forall placed (params (set f pi v)).
Proof. intros. unfold set. simpl. by apply set_param_Forall. Qed.
Lemma placed_set_pgi f g m items :
  group_ok g m items → Forall placed (params f) → Forall placed (params (set_pgi f g items)).
Proof.
  intros Hg Hp. unfold set_pgi. rewrite (sort_items_ascending _ _ (group_ascending _ _ _ Hg)).
  simpl. apply set_param_Forall; [|done]. by eapply group_placed.
Qed.
Lemma placed_opt {A} (o : option A) g f :
  (∀ f x, o = Some x → Forall placed (params f) → Forall placed (params (g f x))) →
  Forall placed (params f) → Forall placed (params (when_some o g f)).
Proof. intros H Hp. destruct o; simpl; auto. Qed.

Let P1 : Forall placed (params f1).
Proof. apply (placed_set_pgi _ _ 76); [by apply file_id_group_ok|constructor]. Qed.
Let P2 : Forall placed (params f2).
Proof. by apply placed_set. Qed.
Let P3 : Forall placed (params f3).
Proof. unfold f3. destruct (restarted s); [by apply placed_set|done]. Qed.
Let P4 : Forall placed (params f4).
Proof. apply placed_opt; [|done]. intros. by apply placed_set. Qed.
Let P5 : Forall placed (params f5).
Proof. by apply placed_set. Qed.
Let P6 : Forall placed (params f6).
Proof. by apply placed_set. Qed.
Let P7 : Forall placed (params f7).
Proof. apply (placed_set_pgi _ _ 80); [by apply logical_group_ok|done]. Qed.
Let P8 : Forall placed (params f8).
Proof. apply (placed_set_pgi _ _ 8); [by apply physical_group_ok|done]. Qed.
Let P9 : Forall placed (params f9).
Proof.
  apply placed_opt; [|done]. intros f h Hh. apply (placed_set_pgi _ _ 12). by apply (historical_group_ok s).
Qed.
Let P10 : Forall placed (params f10).
Proof. apply placed_opt; [|done]. intros. by apply placed_set. Qed.
Let P11 : Forall placed (params f11).
Proof. apply placed_opt; [|done]. intros. by apply placed_set. Qed.
Let P12 : Forall placed (params f12).
Proof. apply placed_opt; [|done]. intros. by apply placed_set. Qed.

Let pgi_f6 g : pgi f6 g = if decide (g = Pgi.FileId) then Some (file_id_group s) else None.
Proof.
  unfold f6, f5, set_num. rewrite !pgi_set. unfold f4. rewrite pgi_when_some by (intros; apply pgi_set).
  unfold f3. rewrite pgi_when by (intros; apply pgi_set). unfold f2, set_num. rewrite pgi_set.
  unfold f1. rewrite (pgi_set_pgi _ _ _ _ 0); [done|].
  eapply group_ascending. by apply file_id_group_ok.
Qed.
Let pgi_f7 g : pgi f7 g = if decide (g = Pgi.LogicalAttributes) then Some (logical_group s) else pgi f6 g.
Proof. apply (pgi_set_pgi _ _ _ _ 0). eapply group_ascending. by apply logical_group_ok. Qed.
Let pgi_f8 g : pgi f8 g = if decide (g = Pgi.PhysicalAttributes) then Some (physical_group s) else pgi f7 g.
Proof. apply (pgi_set_pgi _ _ _ _ 0). eapply group_ascending. by apply physical_group_ok. Qed.
Let pgi_f9 : pgi f9 Pgi.FileId = Some (file_id_group s).
Proof.
  unfold f9. destruct (historical_group s) as [h|] eqn:Hh; simpl.
  - rewrite (pgi_set_pgi _ _ _ _ 0); [by rewrite pgi_f8, pgi_f7, pgi_f6|].
    eapply group_ascending. by apply (historical_group_ok s).
  - by rewrite pgi_f8, pgi_f7, pgi_f6.
Qed.
Let pgi_f13 : pgi f13 Pgi.FileId = Some (file_id_group s).
Proof.
  unfold f13, set_message. rewrite pgi_when_some by (intros; apply pgi_set).
  unfold f12. rewrite pgi_when_some by (intros; apply pgi_set).
  unfold f11. rewrite pgi_when_some by (intros; apply pgi_set).
  unfold f10. rewrite pgi_when_some by (intros; apply pgi_set). apply pgi_f9.
Qed.

Let get_f1 q : get f1 q = if decide (Pgi.of_pi q = Some Pgi.FileId) then find_item q (file_id_group s) else None.
Proof.
  pose proof (file_id_group_ok s Hs) as Hg. unfold f1.
  rewrite get_set_pgi; [done|by eapply group_ascending|by eapply group_placed|constructor|done].
Qed.
Let get_f2 q : get f2 q = if decide (q = Pi.TransferId) then Some (encode_num (fs_transfer_id s)) else get f1 q.
Proof. by apply get_set. Qed.
Let get_f3 q : get f3 q =
  if decide (q = Pi.Restarted) then if restarted s then Some (encode_num 1) else get f2 q else get f2 q.
Proof.
  unfold f3. rewrite get_when. destruct (restarted s); [by apply get_set|]. by destruct (decide _).
Qed.
Let get_f4 q : get f4 q =
  if decide (q = Pi.DataCode) then match data_code s with Some c => Some [c] | None => get f3 q end else get f3 q.
Proof. by apply get_opt_set. Qed.
Let get_f5 q : get f5 q = if decide (q = Pi.Priority) then Some [priority s] else get f4 q.
Proof. by apply get_set. Qed.
Let get_f6 q : get f6 q =
  if decide (q = Pi.MaxEntitySize) then Some (encode_num (fs_max_entity_size s)) else get f5 q.
Proof. by apply get_set. Qed.
Let get_f7 q : get f7 q =
  if decide (Pgi.of_pi q = Some Pgi.LogicalAttributes) then find_item q (logical_group s) else get f6 q.
Proof.
  pose proof (logical_group_ok s Hs) as Hg. unfold f7.
  apply get_set_pgi; [by eapply group_ascending|by eapply group_placed|done|by rewrite pgi_f6].
Qed.
Let get_f8 q : get f8 q =
  if decide (Pgi.of_pi q = Some Pgi.PhysicalAttributes) then find_item q (physical_group s) else get f7 q.
Proof.
  pose proof (physical_group_ok s Hs) as Hg. unfold f8.
  apply get_set_pgi; [by eapply group_ascending|by eapply group_placed|done|by rewrite pgi_f7, pgi_f6].
Qed.
Let get_f9 q : get f9 q =
  if decide (Pgi.of_pi q = Some Pgi.HistoricalAttributes)
  then match historical_group s with Some h => find_item q h | None => get f8 q end else get f8 q.
Proof.
  unfold f9. destruct (historical_group s) as [h|] eqn:Hh; simpl.
  - pose proof (historical_group_ok s Hs h Hh) as Hg.
    apply get_set_pgi; [by eapply group_ascending|by eapply group_placed|done|by rewrite pgi_f8, pgi_f7, pgi_f6].
  - by destruct (decide _).
Qed.
Let get_f10 q : get f10 q =
  if decide (q = Pi.ClientId) then match client_id s with Some c => Some (encode_text c) | None => get f9 q end
  else get f9 q.
Proof. by apply get_opt_set. Qed.
Let get_f11 q : get f11 q =
  if decide (q = Pi.BankId) then match bank_id s with Some c => Some (encode_text c) | None => get f10 q end
  else get f10 q.
Proof. by apply get_opt_set. Qed.
Let get_f12 q : get f12 q =
  if decide (q = Pi.FileAccessControl)
  then match file_access_control s with Some c => Some (encode_text c) | None => get f11 q end else get f11 q.
Proof. by apply get_opt_set. Qed.
Let get_f13 q : get f13 q =
  if decide (q = Pi.FreeMessage)
  then match non_empty (fs_free_message s) with Some c => Some (encode_text c) | None => get f12 q end
  else get f12 q.
Proof. by apply get_opt_set. Qed.

Ltac read_create :=
  rewrite ?create_eq, get_f13, ?get_f12, ?get_f11, ?get_f10, ?get_f9, ?get_f8, ?get_f7, ?get_f6,
    ?get_f5, ?get_f4, ?get_f3, ?get_f2, ?get_f1;
  repeat (first [rewrite decide_False by done | rewrite decide_True by done]).

Lemma create_text pi (o : option ustring) m :
  get (create s dst) pi = encode_text <$> o → opt_ok (canonical m) o → get_text (create s dst) pi = o.
Proof.
  intros E Ho. unfold get_text. rewrite E. destruct o as [t|]; [|done]. simpl. f_equal.
  by apply (canonical_decode m), Ho.
Qed.

(** A text parameter at the top level. *)
Ltac top_text m H := apply (create_text _ _ m); [read_create; by destruct H as [|] eqn:?|by apply Hs].

Lemma create_in_group pi : in_file_id (create s dst) pi = text_of <$> find_item pi (file_id_group s).
Proof. unfold in_file_id. by rewrite create_eq, pgi_f13. Qed.

Lemma create_requester : in_file_id (create s dst) Pi.Requester = fs_requester s.
Proof.
  rewrite create_in_group. pose proof (ok_requester s Hs) as H. unfold file_id_group.
  destruct (fs_requester s) as [r|], (fs_server s) as [v|]; simpl; try done;
    f_equal; by apply (canonical_decode 24), H.
Qed.

Lemma create_server : in_file_id (create s dst) Pi.Server = fs_server s.
Proof.
  rewrite create_in_group. pose proof (ok_server s Hs) as H. unfold file_id_group.
  destruct (fs_requester s) as [r|], (fs_server s) as [v|]; simpl; try done;
    f_equal; by apply (canonical_decode 24), H.
Qed.

Lemma create_file_type : get_num (create s dst) Pi.FileType = Some (file_type s).
Proof.
  unfold get_num. read_create. unfold file_id_group.
  destruct (fs_requester s), (fs_server s); simpl; f_equal; apply decode_encode_num; apply Hs.
Qed.

Lemma create_file_name : get_text (create s dst) Pi.FileName = Some (file_name s).
Proof.
  unfold get_text. read_create. unfold file_id_group.
  destruct (fs_requester s), (fs_server s); simpl; f_equal; apply (canonical_decode 76); apply Hs.
Qed.

Lemma fits_u64 pi v : fits_pi pi v → (Pi.max_len pi ≤ 8)%nat → u64_ok v.
Proof.
  unfold fits_pi, u64_ok. intros Hv Hl.
  assert (256 ^ Z.of_nat (Pi.max_len pi) ≤ 256 ^ 8) by (apply Z.pow_le_mono_r; lia).
  change (256 ^ 8) with 18446744073709551616 in *. lia.
Qed.

Lemma create_transfer_id : FpduExt.transfer_id (create s dst) = Some (fs_transfer_id s).
Proof.
  pose proof (ok_transfer_id s Hs) as H. unfold FpduExt.transfer_id. read_create. simpl.
  rewrite decode_encode_num by (by apply (fits_u64 Pi.TransferId); [|simpl; lia]).
  f_equal. unfold u32. apply Z.mod_small. unfold fits_pi in H. simpl in H. lia.
Qed.

Lemma create_restarted : bool_decide (get_num (create s dst) Pi.Restarted = Some 1) = restarted s.
Proof. unfold get_num. read_create. by destruct (restarted s). Qed.

Lemma create_data_code : first_byte (create s dst) Pi.DataCode = data_code s.
Proof. unfold first_byte. read_create. destruct (data_code s), (restarted s); done. Qed.

Lemma create_priority : first_byte (create s dst) Pi.Priority = Some (priority s).
Proof. unfold first_byte. by read_create. Qed.

Lemma create_max_entity : FpduExt.max_entity_size (create s dst) = Some (fs_max_entity_size s).
Proof.
  pose proof (ok_max_entity s Hs) as H. unfold FpduExt.max_entity_size, get_num. read_create. simpl.
  rewrite decode_encode_num by (by apply (fits_u64 Pi.MaxEntitySize); [|simpl; lia]).
  f_equal. unfold fits_pi in H. simpl in H. unfold u16. rewrite Z.min_l by lia.
  apply Z.mod_small. lia.
Qed.

Lemma create_article_format :
  ArticleFormat.from_bytes <$> get (create s dst) Pi.ArticleFormat = Some (fs_article_format s).
Proof. read_create. unfold logical_group. simpl. by destruct (fs_article_format s). Qed.

Lemma create_article_length : get_num (create s dst) Pi.ArticleLength = Some (article_length s).
Proof.
  pose proof (ok_article_length s Hs) as H. unfold get_num. read_create. unfold logical_group. simpl.
  f_equal. apply decode_encode_num. unfold u16_ok, u64_ok in *. lia.
Qed.

Lemma create_organisation : first_byte (create s dst) Pi.FileOrganisation = organisation s.
Proof.
  unfold first_byte. read_create. unfold logical_group.
  destruct (organisation s), (label s) as [[|]|]; done.
Qed.

Lemma create_label : get_text (create s dst) Pi.FileLabel = label s.
Proof.
  pose proof (ok_label s Hs) as H. apply (create_text _ _ 80); [|done]. read_create. unfold logical_group.
  destruct (organisation s), (label s) as [[|c l]|]; simpl; try done; by destruct (H [] eq_refl).
Qed.

Lemma create_reservation_unit : first_byte (create s dst) Pi.ReservationUnit = reservation_unit s.
Proof. unfold first_byte. read_create. unfold physical_group. by destruct (reservation_unit s). Qed.

Lemma create_max_reservation : get_num (create s dst) Pi.MaxReservation = Some (max_reservation s).
Proof.
  pose proof (ok_max_reservation s Hs) as H. unfold get_num. read_create. unfold physical_group.
  destruct (reservation_unit s); simpl; f_equal; by apply decode_encode_num.
Qed.

Lemma create_creation : get_text (create s dst) Pi.CreationDate = creation_date s.
Proof.
  apply (create_text _ _ 12); [|apply Hs]. read_create. unfold historical_group.
  destruct (creation_date s); [|by destruct (restarted s)]. simpl. by destruct (extraction_date s).
Qed.

Lemma create_extraction : get_text (create s dst) Pi.ExtractionDate = extraction_date s.
Proof.
  pose proof (ok_dates s Hs) as H. apply (create_text _ _ 12); [|apply Hs]. read_create. unfold historical_group.
  destruct (creation_date s); [|rewrite (H eq_refl); by destruct (restarted s)]. simpl.
  by destruct (extraction_date s).
Qed.

Lemma create_client : get_text (create s dst) Pi.ClientId = client_id s.
Proof.
  apply (create_text _ _ 24); [|apply Hs]. read_create. destruct (client_id s); [done|]. by destruct (restarted s).
Qed.

Lemma create_bank : get_text (create s dst) Pi.BankId = bank_id s.
Proof.
  apply (create_text _ _ 24); [|apply Hs]. read_create. destruct (bank_id s); [done|]. by destruct (restarted s).
Qed.

Lemma create_access_control : get_text (create s dst) Pi.FileAccessControl = file_access_control s.
Proof.
  apply (create_text _ _ 16); [|apply Hs]. read_create.
  destruct (file_access_control s); [done|]. by destruct (restarted s).
Qed.

Lemma create_free_message : get_text (create s dst) Pi.FreeMessage = fs_free_message s.
Proof.
  pose proof (ok_free_message s Hs) as H. apply (create_text _ _ 254); [|apply Hs]. read_create.
  destruct (fs_free_message s) as [[|c t]|]; simpl; [by destruct (H [] eq_refl)|done|].
  by destruct (restarted s).
Qed.

Lemma from_fpdu_create_eq : from_fpdu (create s dst) = s.
Proof.
  pose proof (ok_article_length s Hs) as H. unfold from_fpdu.
  rewrite create_requester, create_server, create_file_type, create_file_name, create_transfer_id,
    create_restarted, create_data_code, create_priority, create_max_entity, create_article_format,
    create_article_length, create_organisation, create_label, create_reservation_unit,
    create_max_reservation, create_creation, create_extraction, create_client, create_bank,
    create_access_control, create_free_message. simpl.
  assert (u16 (Z.min (article_length s) 65535) = article_length s) as ->; [|by destruct s].
  unfold u16_ok, u16 in *. rewrite Z.min_l by lia. apply Z.mod_small. lia.
Qed.
End Create.

(** ** Theorems *)

(** The dates form one group, which needs the date of creation: without it the
    date of extraction is not sent. *)
Definition carried (s : FileSpec) : FileSpec :=
  match creation_date s with
  | Some _ => s
  | None => mkFileSpec (fs_requester s) (fs_server s) (file_type s) (file_name s) (fs_transfer_id s) (restarted s) (data_code s)
      (priority s) (fs_max_entity_size s) (fs_article_format s) (article_length s) (organisation s) (label s)
      (reservation_unit s) (max_reservation s) None None (client_id s) (bank_id s) (file_access_control s) (fs_free_message s)
  end.

Lemma create_carried s dst : create (carried s) dst = create s dst.
Proof.
  unfold carried. destruct (creation_date s) eqn:E; [done|]. destruct s. cbn in E. subst. reflexivity.
Qed.

Lemma carried_id s : (creation_date s = None → extraction_date s = None) ↔ carried s = s.
Proof.
  unfold carried. destruct (creation_date s) eqn:E; [done|]. destruct s. cbn in *. subst. split; [by intros ->|].
  intros [= H] _. done.
Qed.

(** C38: a file description survives CREATE. For a description whose texts are
    not empty, in Latin-1, without trailing blanks and not longer than the
    catalogue allows, and whose numbers are in the catalogue's ranges, the CREATE
    built from it is encoded without an error, the strict decoder of the peer
    reads the same FPDU, and the description that the peer extracts from it is
    the original one, apart from a date of extraction without a date of
    creation, which is not sent (and need not be such a text): it is the
    original one exactly when it has no such date. *)
Theorem create_roundtrip s dst :
  spec_ok (carried s) → byte_ok dst →
  ∃ b f, encode (create s dst) = Ok b ∧ decode b = Ok f ∧ from_fpdu f = carried s
    ∧ (from_fpdu f = s ↔ (creation_date s = None → extraction_date s = None)).
Proof.
  intros Hs Hd. destruct (create_accepted (carried s) dst Hs Hd) as (b&He&Hdec).
  assert (Hf := from_fpdu_create_eq (carried s) dst Hs Hd). rewrite create_carried in *.
  exists b, (create s dst). split_and!; [done..|]. rewrite Hf. symmetry. apply carried_id.
Qed.

Definition sample_spec : FileSpec :=
  mkFileSpec None (Some [67; 69; 84; 79; 77; 49]) 0 [80; 87; 83; 69; 78; 68] 42 false (Some 2) 0 32768
    ArticleFormat.Variable_ 4096 None (Some [108; 97; 98; 101; 108]) None 12
    (Some [50; 54; 48; 56; 50; 56; 49; 50; 48; 48; 48; 48]) None None None None None.

Example create_roundtrip_witness :
  ∃ b f, encode (create sample_spec 0x62) = Ok b ∧ decode b = Ok f ∧ from_fpdu f = sample_spec.
Proof.
  destruct (create_roundtrip sample_spec 0x62) as (b&f&H1&H2&H3&_); [|unfold byte_ok; lia|].
  { constructor; try by_compute; try (intros x [= <-]; by_compute); try (intros x [=]); try done. }
  exists b, f. split; [exact H1|]. split; [exact H2|exact H3].
Defined.

(** The strict decoder does not measure the members of a group: the name of a
    file may be longer than the catalogue allows. *)
Example long_member_accepted :
  let s := mkFileSpec None None 0 (replicate 100 65) 42 false None 0 32768 ArticleFormat.Variable_ 4096 None None None 12
             None None None None None None in
  Pi.max_len Pi.FileName = 76%nat
  ∧ ∃ b, encode (create s 1) = Ok b ∧ decode b = Ok (create s 1).
Proof. split; [reflexivity|]. eexists. split; vm_compute; reflexivity. Qed.

Lemma encode_params_app ps qs out :
  Forall (λ p, value_of p ≠ [] ∧ ∃ pi v, p = Param_Pi pi v) ps →
  ∃ out', encode_params (ps ++ qs) out = encode_params qs out'.
Proof.
  intros Hp. revert out. induction Hp as [|p ps [Hv (pi&v&->)] Hps IH]; intros out; [by exists out|].
  cbn [app encode_params]. simpl in Hv. rewrite bool_decide_false by done. apply IH.
Qed.

Lemma encode_empty_value f ps pi :
  FpduKind.is_data (kind f) = false → params f = ps ++ [Param_Pi pi []] →
  Forall (λ p, value_of p ≠ [] ∧ ∃ pi v, p = Param_Pi pi v) ps →
  (encoded_len f ≤ MAX_FPDU_LEN)%nat → encode f = Err (EmptyValue (Pi.code pi)).
Proof.
  intros Hk Hp Hps Hl. unfold encode, encode_into.
  destruct (Nat.ltb_spec MAX_FPDU_LEN (encoded_len f)); [lia|]. cbv zeta. rewrite Hk, Hp.
  match goal with |- context [encode_params _ ?o] =>
    destruct (encode_params_app ps [Param_Pi pi []] o Hps) as [out' ->] end.
  done.
Qed.

Lemma blank_message n f :
  (0 < n)%nat → set_message (Some (replicate n 32)) f = set f Pi.FreeMessage [].
Proof.
  intros Hn. pose proof (strip_trailing_replicate is_whitespace [] n 32 eq_refl) as E. simpl in E.
  assert (encode_text (replicate n 32) = []) as Et by (unfold encode_text, trim_end; by rewrite E).
  destruct n as [|n]; [lia|]. unfold set_message. cbn [replicate non_empty when_some].
  unfold set_text. by rewrite <-Et.
Qed.

(** a blank free message cannot be sent. The constructors leave out an empty
    message, but one of blanks only passes their filter and is then trimmed to
    an empty value: the refusal of a connection with such a message cannot be
    encoded, and neither can the acknowledgement of a file creation. *)
Theorem blank_message_refused dst d tid mes n :
  (0 < n)%nat →
  encode (rconnect dst d (Some (replicate n 32))) = Err (EmptyValue 99)
  ∧ encode (ack_create dst d (Some tid) mes (Some (replicate n 32))) = Err (EmptyValue 99).
Proof.
  intros Hn. unfold rconnect, ack_create. rewrite !blank_message by done.
  assert (∀ pi v, v ≠ [] → value_of (Param_Pi pi v) ≠ [] ∧ ∃ q w, Param_Pi pi v = Param_Pi q w) as Hpi
    by eauto.
  assert (50 ≤ MAX_FPDU_LEN)%nat as Hmax by (unfold MAX_FPDU_LEN; lia).
  pose proof (encode_num_length tid). pose proof (encode_num_length mes).
  pose proof (unit_len_bound (length (encode_num tid))). pose proof (unit_len_bound (length (encode_num mes))).
  split.
  - apply (encode_empty_value _ [Param_Pi Pi.Diag (Diagnostic.to_bytes d)] Pi.FreeMessage); [done|done| |].
    + repeat constructor; by apply Hpi.
    + etransitivity; [|exact Hmax]. apply Nat.leb_le. reflexivity.
  - apply (encode_empty_value _ [Param_Pi Pi.Diag (Diagnostic.to_bytes d);
      Param_Pi Pi.TransferId (encode_num tid); Param_Pi Pi.MaxEntitySize (encode_num mes)] Pi.FreeMessage);
      [done|done| |].
    + repeat (apply Forall_cons_2; [apply Hpi; auto with bytes; done|]). apply Forall_nil_2.
    + etransitivity; [|exact Hmax].
      change (6 + (5 + (unit_len (length (encode_num tid)) + (unit_len (length (encode_num mes)) + (2 + 0)))) ≤ 50)%nat.
      lia.
Qed.

Example blank_message_refused_witness :
  encode (rconnect 1 Diagnostic.CALLER_UNKNOWN (Some [32; 32])) = Err (EmptyValue 99).
Proof. apply (blank_message_refused 1 Diagnostic.CALLER_UNKNOWN 0 0 2). lia. Defined.
