(* ===== verification/ControlFpdus.v ===== *)
(** * The control FPDUs are acceptable to the peer

    The theorem on all constructors of [Builder]. *)

From S2P Require Import Prelude Diag Pi Kinds Fpdu FpduNum FpduCodec Params Setters Builder BuilderProps FileSpecProps.
Open Scope Z_scope.
Import Fpdu Builder.

(** The parameters of the constructors, in the ranges of their types and of the
    catalogue. *)
Record ArgsOk (dst src : Z) (d : Diagnostic) (m : option ustring) (n tid : Z) (otid : option Z)
    (mes : Z) (sync : SyncOption) (ec : EndCode) (bc ac : option Z) (body : option bytes) : Prop := {
  ok_dst : byte_ok dst;
  ok_src : byte_ok src;
  ok_diag : Diagnostic.wf d;
  ok_message : message_ok m;
  ok_sync_number : fits_pi Pi.SyncNumber n;
  ok_otid : opt_ok (fits_pi Pi.TransferId) otid;
  ok_mes : fits_pi Pi.MaxEntitySize mes;
  ok_sync : SyncOption.wf sync;
  ok_ec : byte_ok (EndCode.code ec);
  ok_bc : opt_ok (fits_pi Pi.ByteCount) bc;
  ok_ac : opt_ok (fits_pi Pi.ArticleCount) ac;
  ok_body : body_ok body;
}.

(** The request of a connection. *)
Record ConnectOk (p : ConnectParams) : Prop := {
  cp_requester_ok : text_ok 24 (cp_requester p);
  cp_server_ok : text_ok 24 (cp_server p);
  cp_password_ok : ∀ s, non_empty (cp_password p) = Some s → text_ok 16 s;
  cp_sync_ok : SyncOption.wf (cp_sync p);
  cp_timeout_ok : opt_ok (fits_pi Pi.Timeout) (cp_timeout p);
  cp_message_ok : message_ok (cp_free_message p);
}.

Lemma connect_accepted p src : ConnectOk p → byte_ok src → accepted (connect p src).
Proof.
  intros [] Hsrc. assert (byte_ok 0) by done.
  destruct p as [requester server password version sync access resync crc timeout message].
  cbn [cp_requester cp_server cp_password cp_sync cp_timeout cp_free_message] in *.
  unfold connect.
  cbn [cp_requester cp_server cp_password cp_version cp_sync cp_access cp_resync cp_crc cp_timeout cp_free_message].
  accept.
Qed.

(** The FPDUs that carry the description of a file. *)
Lemma described_accepted s dst attributes reply body :
  spec_ok s → byte_ok dst → body_ok body →
  Forall accepted
    [create s dst; select s dst attributes; ack_select s dst attributes;
     msg FpduKind.Msg dst s reply body; msg FpduKind.MsgDm dst s reply body].
Proof.
  intros Hs Hd Hb.
  destruct (select_built s dst Hs Hd attributes) as (n1&H1&B1). destruct (ack_select_built s dst Hs Hd attributes) as (n2&H2&B2).
  destruct (msg_built s dst Hs Hd FpduKind.Msg reply body) as (cs3&n3&H3&C3&B3); [by left|done|].
  destruct (msg_built s dst Hs Hd FpduKind.MsgDm reply body) as (cs4&n4&H4&C4&B4); [by right|done|].
  repeat apply Forall_cons_2; [by apply create_accepted| | | | |by apply Forall_nil_2];
    (eapply B_accepted; [eassumption|reflexivity|lia|done]).
Qed.

(** C37: the control FPDUs are acceptable. For identifiers on a byte, numbers in
    the ranges of the catalogue, texts that are not only blanks, descriptions of
    files in the ranges of the catalogue (texts in Latin-1 without trailing
    blanks, a date of creation with a date of extraction) and bodies of at most
    4096 bytes, every constructor of a control FPDU, from CONNECT to ACK(MSG),
    gives an FPDU that is encoded without an error and that the strict decoder
    of the peer reads back unchanged. *)
Theorem control_fpdus_accepted dst src d m n tid otid mes sync ec bc ac body v comp resync p s attributes reply :
  ArgsOk dst src d m n tid otid mes sync ec bc ac body → ConnectOk p → spec_ok s →
  Forall accepted
    ([connect p src;
      aconnect dst src v sync resync m; rconnect dst d m; release dst src d; relconf dst src;
      abort dst src d; ack_create dst d otid mes m; nack_select dst d m; deselect dst d;
      ack_deselect dst d; orf dst comp; ack_orf dst d comp; crf dst d; ack_crf dst d;
      read dst n; ack_read dst d; write dst; ack_write dst d n; dtf_end dst d; syn dst n;
      ack_syn dst n; resyn dst d n; ack_resyn dst n; idt dst d ec; ack_idt dst;
      trans_end dst bc ac; ack_trans_end dst d bc ac; ack_msg dst d otid body;
      msg_segment FpduKind.MsgMm dst (default [] body); msg_segment FpduKind.MsgFm dst (default [] body)]
     ++ [create s dst; select s dst attributes; ack_select s dst attributes;
         msg FpduKind.Msg dst s reply body; msg FpduKind.MsgDm dst s reply body]).
Proof.
  intros [] Hp Hs. apply Forall_app. split; [|by apply described_accepted].
  pose proof (body_default body ok_body0) as []. apply Forall_cons_2; [by apply connect_accepted|].
  repeat (apply Forall_cons_2); [..|by apply Forall_nil_2].
  all: unfold aconnect, rconnect, release, relconf, abort, ack_create, nack_select, deselect,
    ack_deselect, orf, ack_orf, crf, ack_crf, read, ack_read, write, ack_write, dtf_end, syn,
    ack_syn, resyn, ack_resyn, idt, ack_idt, trans_end, ack_trans_end, set_counts, ack_msg, msg_segment, with_diag, with_num.
  all: accept.
Qed.

Definition sample_connect : ConnectParams :=
  mkConnectParams [80] [67] (Some [120]) Version.E (SyncOption.mkSyncOption 32 1) AccessType.Write true true (Some 30) None.

Example control_fpdus_accepted_witness :
  Forall accepted [connect sample_connect 2; create sample_spec 1; ack_select sample_spec 1 RequestedAttributes.ALL;
    rconnect 1 Diagnostic.CALLER_UNKNOWN (Some [117; 110; 107]); trans_end 1 (Some 1000000) (Some 245)].
Proof.
  assert (ArgsOk 1 2 Diagnostic.CALLER_UNKNOWN (Some [117; 110; 107]) 7 1 None 4096 (SyncOption.mkSyncOption 32 1)
    EndCode.Error (Some 1000000) (Some 245) None) as H1.
  { constructor; try by_compute; try done.
    - intros s [= <-]. split; by_compute.
    - intros x [= <-]. by_compute.
    - intros x [= <-]. by_compute. }
  assert (ConnectOk sample_connect) as H2.
  { constructor; try (split; by_compute); [intros s [= <-]; split; by_compute|intros x [= <-]; by_compute|intros s [=]]. }
  assert (spec_ok sample_spec) as H3.
  { constructor; try by_compute; try (intros x [= <-]; by_compute); try (intros x [=]); try done. }
  pose proof (control_fpdus_accepted _ _ _ _ _ _ _ _ _ _ _ _ _ Version.E Compression.Mixed true _ _ RequestedAttributes.ALL true H1 H2 H3) as F.
  rewrite Forall_forall in F. apply Forall_forall. intros f Hf.
  repeat (apply elem_of_cons in Hf as [->|Hf]); [..|by apply elem_of_nil in Hf].
  - apply F. left.
  - apply F. do 30 right. left.
  - apply F. do 32 right. left.
  - apply F. do 2 right. left.
  - apply F. do 25 right. left.
Defined.
