(* ===== verification/Checkpoint.v ===== *)
(** * Synchronisation points ([crates/pesit-io/src/checkpoint.rs])

    The checkpoints of a transfer, their store in memory and its persistent
    version, and the interface that the data phase relies on. *)

From S2P Require Import Prelude.
From stdpp Require Import fin_maps.
Open Scope Z_scope.

Module Checkpoint.

Record Checkpoint : Type := mkCheckpoint {
  sync : Z;
  file_offset : Z;
  data_bytes : Z;
  articles : Z;
}.

#[global] Instance checkpoint_eq_dec : EqDecision Checkpoint.
Proof. solve_decision. Defined.

Definition checkpoint_default : Checkpoint := mkCheckpoint 0 0 0 0.

(** [BTreeMap<u32, Checkpoint>] and the last acknowledged number. *)
Record MemoryCheckpoints : Type := mkMemoryCheckpoints {
  points : gmap Z Checkpoint;
  acknowledged : Z;
}.

Definition mem_default : MemoryCheckpoints := mkMemoryCheckpoints ∅ 0.

Definition mem_record (m : MemoryCheckpoints) (cp : Checkpoint) : MemoryCheckpoints :=
  mkMemoryCheckpoints (<[sync cp := cp]> (points m)) (acknowledged m).

Definition mem_get (m : MemoryCheckpoints) (sync : Z) : option Checkpoint :=
  if sync =? 0 then Some checkpoint_default else points m !! sync.

(** [values().next_back()]: the value of the largest key. *)
Definition later (k : Z) (cp : Checkpoint) (acc : option (Z * Checkpoint)) : option (Z * Checkpoint) :=
  match acc with
  | Some (k', _) => if k' <? k then Some (k, cp) else acc
  | None => Some (k, cp)
  end.
Definition mem_last (m : MemoryCheckpoints) : option Checkpoint :=
  snd <$> map_fold later None (points m).

Definition mem_last_acknowledged (m : MemoryCheckpoints) : option Checkpoint :=
  if acknowledged m =? 0 then None else points m !! acknowledged m.

(** Checkpoints before the acknowledged one are no longer needed. *)
Definition mem_acknowledge (m : MemoryCheckpoints) (sync : Z) : MemoryCheckpoints :=
  let acknowledged := Z.max (acknowledged m) sync in
  mkMemoryCheckpoints (filter (λ p, acknowledged ≤ p.1) (points m)) acknowledged.

Definition mem_clear (m : MemoryCheckpoints) : MemoryCheckpoints := mem_default.

(** ** The persistent store

    The file system as far as the store uses it: the file and the temporary
    file next to it ([path.with_extension("tmp")], another name than the path,
    which the node ends in [.json]). A [fault] says where the operating system
    or the serializer refuses; a write that fails may leave any part of the
    data. [serde_json] is a parameter. *)
Record Disk : Type := mkDisk {
  file : option bytes;
  tmp : option bytes;
}.

Inductive fault : Type :=
  | NoFault
  | MkdirFails
  | WriteFails (partial : option bytes)
  | RenameFails
  | ReadFails
  | RemoveFails.

Section File.
Context (to_json : MemoryCheckpoints → option bytes) (of_json : bytes → option MemoryCheckpoints).

Record FileCheckpoints : Type := mkFileCheckpoints {
  disk : Disk;
  mem : MemoryCheckpoints;
}.

(** [open]: an unreadable file is an error, an absent or malformed one an empty store. *)
Definition open (f : fault) (d : Disk) : option FileCheckpoints :=
  match f with
  | ReadFails => None
  | _ => Some (mkFileCheckpoints d
           (match file d with
            | Some data => default mem_default (of_json data)
            | None => mem_default
            end))
  end.

(** [create_dir_all], [to_vec], [write] the temporary file, [rename] it. *)
Definition save (f : fault) (s : FileCheckpoints) : FileCheckpoints * bool :=
  match f with
  | MkdirFails => (s, false)
  | _ =>
      match to_json (mem s) with
      | None => (s, false)
      | Some data =>
          match f with
          | WriteFails partial => (mkFileCheckpoints (mkDisk (file (disk s)) partial) (mem s), false)
          | RenameFails => (mkFileCheckpoints (mkDisk (file (disk s)) (Some data)) (mem s), false)
          | _ => (mkFileCheckpoints (mkDisk (Some data) None) (mem s), true)
          end
      end
  end.

Definition record (f : fault) (s : FileCheckpoints) (cp : Checkpoint) : FileCheckpoints * bool :=
  save f (mkFileCheckpoints (disk s) (mem_record (mem s) cp)).

Definition get (s : FileCheckpoints) (sync : Z) : option Checkpoint := mem_get (mem s) sync.
Definition last (s : FileCheckpoints) : option Checkpoint := mem_last (mem s).
Definition last_acknowledged (s : FileCheckpoints) : option Checkpoint :=
  mem_last_acknowledged (mem s).

Definition acknowledge (f : fault) (s : FileCheckpoints) (sync : Z) : FileCheckpoints * bool :=
  save f (mkFileCheckpoints (disk s) (mem_acknowledge (mem s) sync)).

(** [remove_file]: an absent file is no error. *)
Definition clear (f : fault) (s : FileCheckpoints) : FileCheckpoints * bool :=
  let m := mem_clear (mem s) in
  match f, file (disk s) with
  | RemoveFails, Some _ => (mkFileCheckpoints (disk s) m, false)
  | _, _ => (mkFileCheckpoints (mkDisk None (tmp (disk s))) m, true)
  end.
End File.

(** ** The interface of the data phase

    The store that a transfer is given, and what it relies on when the store is
    [healthy]. The flag tells whether the operation succeeded. *)
Class CheckpointStore (C : Type) := {
  store_record : C → Checkpoint → C * bool;
  store_get : C → Z → option Checkpoint;
  store_last : C → option Checkpoint;
  store_last_acknowledged : C → option Checkpoint;
  store_acknowledge : C → Z → C * bool;
  store_clear : C → C * bool;
}.

Class CheckpointLaws (C : Type) `{CheckpointStore C} := {
  healthy : C → Prop;
  store_get_zero c : store_get c 0 = Some checkpoint_default;
  store_record_ok c cp : healthy c → ∃ c', store_record c cp = (c', true) ∧ healthy c';
  store_get_record c cp n :
    sync cp ≠ 0 → store_get (store_record c cp).1 n = if decide (n = sync cp) then Some cp else store_get c n;
  store_acknowledge_ok c n : healthy c → ∃ c', store_acknowledge c n = (c', true) ∧ healthy c';
  store_clear_ok c : healthy c → ∃ c', store_clear c = (c', true) ∧ healthy c';
}.

#[global] Instance memory_store : CheckpointStore MemoryCheckpoints := {|
  store_record := λ m cp, (mem_record m cp, true);
  store_get := mem_get;
  store_last := mem_last;
  store_last_acknowledged := mem_last_acknowledged;
  store_acknowledge := λ m n, (mem_acknowledge m n, true);
  store_clear := λ m, (mem_clear m, true);
|}.

(** The store on a file whose operations meet the fault [f]. *)
Definition file_store (to_json : MemoryCheckpoints → option bytes) (f : fault) : CheckpointStore FileCheckpoints := {|
  store_record := record to_json f;
  store_get := get;
  store_last := last;
  store_last_acknowledged := last_acknowledged;
  store_acknowledge := acknowledge to_json f;
  store_clear := clear f;
|}.

(** ** Lemmas *)

Lemma later_spec (m : gmap Z Checkpoint) :
  match map_fold later None m with
  | Some (k, cp) => m !! k = Some cp ∧ ∀ k', is_Some (m !! k') → k' ≤ k
  | None => m = ∅
  end.
Proof.
  apply (map_fold_weak_ind (λ r m, match r with
    | Some (k, cp) => m !! k = Some cp ∧ ∀ k', is_Some (m !! k') → k' ≤ k
    | None => m = ∅ end)); [done|].
  intros k cp m' r Hm IH. unfold later at 1. destruct r as [[k1 c1]|].
  - destruct IH as [Hl Hk]. destruct (Z.ltb_spec k1 k) as [Hlt|Hge].
    + split; [by rewrite lookup_insert_eq|]. intros k' Hk'.
      destruct (decide (k = k')) as [->|]; [lia|]. rewrite lookup_insert_ne in Hk' by done.
      specialize (Hk _ Hk'). lia.
    + assert (k ≠ k1) by (intros ->; congruence). rewrite lookup_insert_ne by done.
      split; [done|]. intros k' Hk'. destruct (decide (k = k')) as [->|]; [lia|].
      rewrite lookup_insert_ne in Hk' by done. by apply Hk.
  - subst. split; [by rewrite lookup_insert_eq|]. intros k' Hk'.
    destruct (decide (k = k')) as [->|]; [lia|]. rewrite lookup_insert_ne in Hk' by done.
    by destruct Hk'.
Qed.

(** [mem_last] is the point of the largest number. *)
Lemma mem_last_spec m cp :
  (∀ k c, points m !! k = Some c → sync c = k) →
  mem_last m = Some cp ↔
    points m !! sync cp = Some cp ∧ ∀ k, is_Some (points m !! k) → k ≤ sync cp.
Proof.
  intros Hk. unfold mem_last. pose proof (later_spec (points m)) as H.
  destruct (map_fold later None (points m)) as [[k c]|]; simpl.
  - destruct H as [Hl Hmax]. split.
    + intros [= <-]. rewrite (Hk _ _ Hl). auto.
    + intros [Hc Hmax']. f_equal. assert (k = sync cp) as ->; [|congruence].
      assert (k ≤ sync cp) by eauto. assert (sync cp ≤ k) by eauto. lia.
  - split; [done|]. rewrite H. by intros [? _].
Qed.

(** The invariant of a store whose points are recorded under their number. *)
Definition keyed (m : MemoryCheckpoints) : Prop := ∀ k c, points m !! k = Some c → sync c = k.

Lemma record_keyed m cp : keyed m → keyed (mem_record m cp).
Proof.
  intros Hm k c. simpl. destruct (decide (sync cp = k)) as [<-|].
  - rewrite lookup_insert_eq. by intros [= <-].
  - rewrite lookup_insert_ne by done. apply Hm.
Qed.

Lemma acknowledge_lookup m n k :
  points (mem_acknowledge m n) !! k
    = if bool_decide (Z.max (acknowledged m) n ≤ k) then points m !! k else None.
Proof.
  simpl. case_bool_decide as Hk.
  - destruct (points m !! k) as [c|] eqn:Hl.
    + by apply map_lookup_filter_Some.
    + apply map_lookup_filter_None. by left.
  - apply map_lookup_filter_None. right. intros c _. simpl. lia.
Qed.

Lemma acknowledge_keyed m n : keyed m → keyed (mem_acknowledge m n).
Proof. intros Hm k c. rewrite acknowledge_lookup. case_bool_decide; [apply Hm|done]. Qed.

Lemma mem_get_record m cp n :
  sync cp ≠ 0 → mem_get (mem_record m cp) n = if decide (n = sync cp) then Some cp else mem_get m n.
Proof.
  intros Hcp. unfold mem_get. simpl. destruct (Z.eqb_spec n 0) as [->|]; [by rewrite decide_False|].
  destruct (decide (n = sync cp)) as [->|]; [by rewrite lookup_insert_eq|by rewrite lookup_insert_ne].
Qed.

(** Both stores keep the laws; the one on a file as long as nothing fails. *)
#[global] Program Instance memory_laws : CheckpointLaws MemoryCheckpoints := {| healthy := λ _, True |}.
Next Obligation. done. Qed.
Next Obligation. eauto. Qed.
Next Obligation. intros m cp n Hcp. by apply mem_get_record. Qed.
Next Obligation. eauto. Qed.
Next Obligation. eauto. Qed.

Lemma file_laws (to_json : MemoryCheckpoints → option bytes) :
  (∀ m, is_Some (to_json m)) → @CheckpointLaws FileCheckpoints (file_store to_json NoFault).
Proof.
  intros Hj. refine {| healthy := λ _, True |}.
  - done.
  - intros s cp _. simpl. unfold record, save. simpl. destruct (Hj (mem_record (mem s) cp)) as [? ->]. eauto.
  - intros s cp n Hcp. simpl. unfold record, save, get. simpl.
    destruct (Hj (mem_record (mem s) cp)) as [? ->]. by apply mem_get_record.
  - intros s n _. simpl. unfold acknowledge, save. simpl. destruct (Hj (mem_acknowledge (mem s) n)) as [? ->]. eauto.
  - intros s _. simpl. unfold clear. destruct (file (disk s)); eauto.
Defined.

(** ** Theorems *)

(** The store of checkpoints. A recorded point is found under its number and
    the others are unchanged; 0 always is the beginning of the file; the last
    point is the one of the largest number; acknowledging a number keeps the
    points from the largest acknowledged number on and forgets the earlier
    ones, so that a new acknowledgement of an existing point makes it the last
    acknowledged one; and clearing forgets everything. *)
Theorem checkpoint_store m cp n k :
  keyed m → sync cp ≠ 0 → acknowledged m < n →
  keyed (mem_record m cp) ∧ keyed (mem_acknowledge m n)
  ∧ mem_get (mem_record m cp) k = (if decide (k = sync cp) then Some cp else mem_get m k)
  ∧ mem_get m 0 = Some checkpoint_default
  ∧ (∀ c, mem_last m = Some c ↔
        points m !! sync c = Some c ∧ ∀ k, is_Some (points m !! k) → k ≤ sync c)
  ∧ (∀ k, k ≠ 0 → mem_get (mem_acknowledge m n) k = if decide (n ≤ k) then mem_get m k else None)
  ∧ (n ≠ 0 → mem_last_acknowledged (mem_acknowledge m n) = points m !! n)
  ∧ mem_last (mem_clear m) = None.
Proof.
  intros Hm Hcp Hn. split_and!; [by apply record_keyed|by apply acknowledge_keyed| |done| | | |done].
  - by apply mem_get_record.
  - intros c. by apply mem_last_spec.
  - intros k' Hk'. unfold mem_get. destruct (Z.eqb_spec k' 0); [done|].
    rewrite acknowledge_lookup, Z.max_r by lia. by destruct (decide (n ≤ k')); case_bool_decide.
  - intros Hn0. unfold mem_last_acknowledged. rewrite acknowledge_lookup. simpl. rewrite Z.max_r by lia.
    destruct (Z.eqb_spec n 0); [done|]. by rewrite bool_decide_true.
Qed.

Example checkpoint_store_witness :
  let m := mem_record (mem_record mem_default (mkCheckpoint 1 100 100 1)) (mkCheckpoint 2 200 200 2) in
  mem_get (mem_acknowledge m 2) 1 = None
  ∧ mem_last_acknowledged (mem_acknowledge m 2) = Some (mkCheckpoint 2 200 200 2).
Proof.
  intros m.
  destruct (checkpoint_store m (mkCheckpoint 3 300 300 3) 2 0) as (_&_&_&_&_&H1&H2&_);
    [do 2 apply record_keyed; intros k c H; done|done|done|].
  split; [rewrite H1 by done; reflexivity|rewrite H2 by done; reflexivity].
Defined.

(** C39: the persistent store survives a restart. When [serde_json] reads back
    the stores it writes, opening the file after a successful operation gives
    the store in memory; after one that fails at any step (the directory, a
    partial write, the renaming, the removal) the file is the one of the last
    successful operation, never a partial one; and a file that is no store, or
    no file, gives an empty store. *)
Theorem file_checkpoints_persist
    (to_json : MemoryCheckpoints → option bytes) (of_json : bytes → option MemoryCheckpoints) f s cp n :
  (∀ m data, to_json m = Some data → of_json data = Some m) →
  let reopened s' m := open of_json NoFault (disk s') = Some (mkFileCheckpoints (disk s') m) in
  (let '(s', r) := record to_json f s cp in
     mem s' = mem_record (mem s) cp
     ∧ if r then reopened s' (mem_record (mem s) cp) else file (disk s') = file (disk s))
  ∧ (let '(s', r) := acknowledge to_json f s n in
     mem s' = mem_acknowledge (mem s) n
     ∧ if r then reopened s' (mem_acknowledge (mem s) n) else file (disk s') = file (disk s))
  ∧ (let '(s', r) := clear f s in
     mem s' = mem_default
     ∧ if r then reopened s' mem_default else file (disk s') = file (disk s))
  ∧ (∀ d, (∀ data, file d = Some data → of_json data = None) →
       open of_json NoFault d = Some (mkFileCheckpoints d mem_default)).
Proof.
  intros Hj reopened. unfold reopened, record, acknowledge, clear, save, open.
  split_and!.
  4: { intros d Hd. destruct (file d) as [data|]; [|done]. by rewrite (Hd data). }
  3: { destruct f, (file (disk s)) eqn:?; simpl; auto. }
  all: destruct f; simpl; try done.
  all: try match goal with |- context [match ?o with Some _ => _ | None => _ end] => destruct o eqn:Hm end; simpl; try done.
  all: by rewrite (Hj _ _ Hm).
Qed.

(** A concrete text of the stores: the number that [Countable] gives to the
    acknowledged number and the list of points. *)
Definition point_tuple (p : Z * Checkpoint) : Z * (Z * (Z * (Z * Z))) :=
  (p.1, (sync p.2, (file_offset p.2, (data_bytes p.2, articles p.2)))).
Definition tuple_point (q : Z * (Z * (Z * (Z * Z)))) : Z * Checkpoint :=
  (q.1, mkCheckpoint q.2.1 q.2.2.1 q.2.2.2.1 q.2.2.2.2).
Definition text_of (m : MemoryCheckpoints) : option bytes :=
  Some [Z.pos (encode (acknowledged m, point_tuple <$> map_to_list (points m)))].
Definition of_text (b : bytes) : option MemoryCheckpoints :=
  match b with
  | [Z.pos p] =>
      (λ q : Z * list (Z * (Z * (Z * (Z * Z)))),
         mkMemoryCheckpoints (list_to_map (tuple_point <$> q.2)) q.1) <$> decode p
  | _ => None
  end.

Lemma of_text_of m data : text_of m = Some data → of_text data = Some m.
Proof.
  intros [= <-]. unfold of_text. rewrite decode_encode. destruct m as [pts ack]. cbn [fmap option_fmap option_map fst snd points acknowledged].
  do 2 f_equal. rewrite <- (list_to_map_to_list pts) at 2. f_equal.
  induction (map_to_list pts) as [|[k []] l IH]; [done|]. rewrite !fmap_cons, IH. done.
Qed.

Example file_checkpoints_persist_witness :
  let s := mkFileCheckpoints (mkDisk None None) mem_default in
  let cp := mkCheckpoint 1 5 5 1 in
  (∀ m data, text_of m = Some data → of_text data = Some m)
  ∧ (let '(s', r) := record text_of NoFault s cp in
     r = true ∧ open of_text NoFault (disk s') = Some (mkFileCheckpoints (disk s') (mem_record mem_default cp)))
  ∧ file (disk (record text_of (WriteFails (Some [1])) s cp).1) = None.
Proof.
  intros s cp. split; [exact of_text_of|]. split.
  - pose proof (file_checkpoints_persist text_of of_text NoFault s cp 0 of_text_of) as [[_ H] _].
    split; [reflexivity|exact H].
  - pose proof (file_checkpoints_persist text_of of_text (WriteFails (Some [1])) s cp 0 of_text_of) as [[_ H] _].
    exact H.
Defined.

(** Numbers that restart from 0 after a resynchronisation are lost. When
    point 5 was acknowledged and the transfer is then resynchronised to the
    beginning of the file, the numbers start again at 1; acknowledging the new
    point 1 forgets it, and neither it nor any point is left. *)
Theorem resync_acknowledge_forgets :
  let m := mem_acknowledge (mem_record mem_default (mkCheckpoint 5 500 500 5)) 5 in
  let m := mem_record m (mkCheckpoint 1 100 100 1) in
  mem_get m 1 = Some (mkCheckpoint 1 100 100 1)
  ∧ mem_get (mem_acknowledge m 1) 1 = None
  ∧ mem_last_acknowledged (mem_acknowledge m 1) = Some (mkCheckpoint 5 500 500 5).
Proof. vm_compute. done. Qed.

End Checkpoint.
Abbreviation Checkpoint := Checkpoint.Checkpoint.
