(* ===== verification/ArticleIo.v ===== *)
(** * Sources and sinks of articles ([crates/pesit-io/src/io.rs])

    The interfaces between the data phase and the files, with the laws the
    data phase relies on, the source and the sink in memory and those on a
    file. The operating system's part (what a read returns, which call fails)
    is an explicit script. *)

From S2P Require Import Prelude Ebcdic Article.
Open Scope Z_scope.

Module ArticleIo.

Record Position : Type := mkPosition {
  file_offset : Z;
  data_bytes : Z;
  articles : Z;
}.

#[global] Instance position_eq_dec : EqDecision Position.
Proof. solve_decision. Defined.

Definition position_default : Position := mkPosition 0 0 0.

(** [io::Error]: a failed call of the operating system, or invalid data. *)
Inductive IoError : Type :=
| OsError
| InvalidData (e : Article.RecordError).

(** ** The interfaces *)

Class ArticleSource (S : Type) := {
  source_next : S → S * outcome IoError (option bytes);
  source_position : S → Position;
  source_rewind : S → Position → S * outcome IoError unit;
  source_size_hint : S → option Z;
}.

Class ArticleSink (K : Type) := {
  sink_write : K → bytes → K * outcome IoError unit;
  sink_checkpoint : K → K * outcome IoError Position;
  sink_truncate : K → Position → K * outcome IoError unit;
  sink_position : K → Position;
  sink_finish : K → K * outcome IoError unit;
}.

(** What the data phase relies on: a sink that [holds] some articles takes the
    next one, and a checkpoint gives a position that [marks] them, to which the
    sink can be cut back later. *)
Class ArticleSinkLaws (K : Type) `{ArticleSink K} := {
  holds : K → list bytes → Prop;
  marks : K → list bytes → Position → Prop;
  sink_write_ok k l a : holds k l →
    ∃ k', sink_write k a = (k', Ok tt) ∧ holds k' (l ++ [a]) ∧ ∀ l' p, marks k l' p → marks k' l' p;
  sink_checkpoint_ok k l : holds k l →
    ∃ k' p, sink_checkpoint k = (k', Ok p) ∧ holds k' l ∧ (∀ l' p, marks k l' p → marks k' l' p)
      ∧ ∀ n, marks k' l (mkPosition (file_offset p) n (Z.of_nat (length l)));
  sink_truncate_ok k l l' p : holds k (l ++ l') → marks k l p →
    ∃ k', sink_truncate k p = (k', Ok tt) ∧ holds k' l;
}.

(** The position after an article of [n] data bytes that ends at [offset], with
    counters that are not wrapped at 2^64. *)
Definition after_article (p : Position) (offset : Z) (n : nat) : Position :=
  mkPosition offset (data_bytes p + Z.of_nat n) (articles p + 1).

(** ** The source in memory *)

Record VecSource : Type := mkVecSource {
  vs_articles : list bytes;
  vs_index : nat;
  vs_pos : Position;
}.

Definition vec_source_new (l : list bytes) : VecSource := mkVecSource l 0 position_default.

(** [data.chunks(record_len.max(1))]. *)
Definition vec_source_from_bytes (data : bytes) (record_len : nat) : VecSource :=
  vec_source_new (chunks (Nat.max record_len 1) data).

Definition vec_source_next (s : VecSource) : VecSource * outcome IoError (option bytes) :=
  match vs_articles s !! vs_index s with
  | None => (s, Ok None)
  | Some a =>
      let n := data_bytes (vs_pos s) + Z.of_nat (length a) in
      (mkVecSource (vs_articles s) (S (vs_index s)) (after_article (vs_pos s) n (length a)),
       Ok (Some a))
  end.

Definition vec_source_rewind (s : VecSource) (pos : Position) : VecSource * outcome IoError unit :=
  (mkVecSource (vs_articles s) (Z.to_nat (articles pos)) pos, Ok tt).

#[global] Instance vec_source : ArticleSource VecSource := {|
  source_next := vec_source_next;
  source_position := vs_pos;
  source_rewind := vec_source_rewind;
  source_size_hint := λ s, Some (Z.of_nat (sum_list_with length (vs_articles s)));
|}.

(** ** The sink in memory *)

Record VecSink : Type := mkVecSink {
  vk_articles : list bytes;
  vk_pos : Position;
  vk_finished : bool;
}.

Definition vec_sink_new : VecSink := mkVecSink [] position_default false.
Definition vec_sink_bytes (k : VecSink) : bytes := concat (vk_articles k).

Definition vec_sink_write (k : VecSink) (article : bytes) : VecSink * outcome IoError unit :=
  let n := data_bytes (vk_pos k) + Z.of_nat (length article) in
  (mkVecSink (vk_articles k ++ [article]) (after_article (vk_pos k) n (length article)) (vk_finished k),
   Ok tt).

Definition vec_sink_truncate (k : VecSink) (pos : Position) : VecSink * outcome IoError unit :=
  (mkVecSink (take (Z.to_nat (articles pos)) (vk_articles k)) pos (vk_finished k), Ok tt).

Definition vec_sink_finish (k : VecSink) : VecSink * outcome IoError unit :=
  (mkVecSink (vk_articles k) (vk_pos k) true, Ok tt).

#[global] Instance vec_sink : ArticleSink VecSink := {|
  sink_write := vec_sink_write;
  sink_checkpoint := λ k, (k, Ok (vk_pos k));
  sink_truncate := vec_sink_truncate;
  sink_position := vk_pos;
  sink_finish := vec_sink_finish;
|}.

(** ** The source on a file

    [fs_io] is what the calls of the operating system will return: for a read
    the number of bytes it would give (at least one, at most what the buffer
    holds and the file has left), [None] for a failure; when it is used up
    every call succeeds and a read fills the buffer. The reader always stands
    at [fs_file_pos], because every buffer is consumed whole. *)
Definition BUFFER : nat := Z.to_nat 65536.

Record FileSource : Type := mkFileSource {
  fs_file : bytes;
  fs_io : list (option nat);
  fs_format : Article.RecordFormat;
  fs_record_len : nat;
  fs_cutter : Article.ArticleCutter;
  fs_pos : Position;
  fs_file_pos : nat;
  fs_eof : bool;
  fs_size : Z;
  fs_ebcdic : bool;
}.

Definition file_source_open (file : bytes) (io : list (option nat)) (format : Article.RecordFormat)
    (record_len : nat) : FileSource :=
  mkFileSource file io format record_len (Article.cutter_new format record_len) position_default 0
    false (Z.of_nat (length file)) false.

Definition with_ebcdic (s : FileSource) (ebcdic : bool) : FileSource :=
  mkFileSource (fs_file s) (fs_io s) (fs_format s) (fs_record_len s) (fs_cutter s) (fs_pos s)
    (fs_file_pos s) (fs_eof s) (fs_size s) ebcdic.

(** One call of the operating system. *)
Definition os_call (io : list (option nat)) : list (option nat) * option nat :=
  match io with [] => ([], Some BUFFER) | r :: io => (io, r) end.

(** [fill_buf]: the bytes that one read gives. *)
Definition os_read (rest : bytes) (n : nat) : bytes := take (Nat.min (Nat.max n 1) BUFFER) rest.

Definition fill (s : FileSource) : FileSource * outcome IoError bool :=
  let '(io, r) := os_call (fs_io s) in
  let mk c p e := mkFileSource (fs_file s) io (fs_format s) (fs_record_len s) c (fs_pos s) p e
                    (fs_size s) (fs_ebcdic s) in
  match r with
  | None => (mk (fs_cutter s) (fs_file_pos s) (fs_eof s), Err OsError)
  | Some n =>
      let buf := os_read (drop (fs_file_pos s) (fs_file s)) n in
      if decide (buf = []) then (mk (fs_cutter s) (fs_file_pos s) true, Ok false)
      else (mk (Article.cutter_push (fs_cutter s) buf) (fs_file_pos s + length buf)%nat (fs_eof s), Ok true)
  end.

(** The article as it goes on the wire. *)
Definition to_wire (ebcdic : bool) (a : bytes) : bytes := if ebcdic then Ebcdic.to_ebcdic a else a.

Definition with_article (s : FileSource) (c : Article.ArticleCutter) (pos : Position) : FileSource :=
  mkFileSource (fs_file s) (fs_io s) (fs_format s) (fs_record_len s) c pos (fs_file_pos s) (fs_eof s)
    (fs_size s) (fs_ebcdic s).

(** The [loop] of [next_article]. *)
Fixpoint file_next_loop (fuel : nat) (s : FileSource) : FileSource * outcome IoError (option bytes) :=
  match fuel with
  | O => (s, Panic)
  | S fuel =>
      match Article.next_article (fs_cutter s) with
      | (c, Err e) => (with_article s c (fs_pos s), Err (InvalidData e))
      | (c, Panic) => (with_article s c (fs_pos s), Panic)
      | (c, Ok (Some a)) =>
          match Article.buffered c with
          | Ok b =>
              match sub_usize (E:=IoError) (fs_file_pos s) b with
              | Ok off =>
                  (with_article s c (after_article (fs_pos s) (Z.of_nat off) (length a)),
                   Ok (Some (to_wire (fs_ebcdic s) a)))
              | _ => (with_article s c (fs_pos s), Panic)
              end
          | _ => (with_article s c (fs_pos s), Panic)
          end
      | (c, Ok None) =>
          let s := with_article s c (fs_pos s) in
          if fs_eof s then
            match Article.finish c with
            | (c, Err e) => (with_article s c (fs_pos s), Err (InvalidData e))
            | (c, Panic) => (with_article s c (fs_pos s), Panic)
            | (c, Ok None) => (with_article s c (fs_pos s), Ok None)
            | (c, Ok (Some a)) =>
                (with_article s c (after_article (fs_pos s) (Z.of_nat (fs_file_pos s)) (length a)),
                 Ok (Some (to_wire (fs_ebcdic s) a)))
            end
          else
            match fill s with
            | (s, Ok _) => file_next_loop fuel s
            | (s, Err e) => (s, Err e)
            | (s, Panic) => (s, Panic)
            end
      end
  end.

(** Every turn but the last two consumes a byte of the file or a call. *)
Definition file_source_next (s : FileSource) : FileSource * outcome IoError (option bytes) :=
  file_next_loop (2 + (length (fs_file s) - fs_file_pos s)) s.

Definition file_source_rewind (s : FileSource) (pos : Position) : FileSource * outcome IoError unit :=
  let '(io, r) := os_call (fs_io s) in
  match r with
  | None =>
      (mkFileSource (fs_file s) io (fs_format s) (fs_record_len s) (fs_cutter s) (fs_pos s)
         (fs_file_pos s) (fs_eof s) (fs_size s) (fs_ebcdic s), Err OsError)
  | Some _ =>
      (mkFileSource (fs_file s) io (fs_format s) (fs_record_len s)
         (Article.cutter_new (fs_format s) (fs_record_len s)) pos (Z.to_nat (file_offset pos)) false
         (fs_size s) (fs_ebcdic s), Ok tt)
  end.

#[global] Instance file_source : ArticleSource FileSource := {|
  source_next := file_source_next;
  source_position := fs_pos;
  source_rewind := file_source_rewind;
  source_size_hint := λ s, Some (fs_size s);
|}.

(** ** The sink on a file

    [fk_file] is the content of the open file, whose name is the temporary one
    until [finish] renames it, [fk_previous] what the final name held before,
    [fk_buf] the buffer of the writer, which stands at the end of the file.
    [fk_io] tells for each call of the operating system whether it succeeds
    ([None]) or fails after it wrote some bytes; used up, it always succeeds. *)
Record FileSink : Type := mkFileSink {
  fk_file : bytes;
  fk_previous : option bytes;
  fk_buf : bytes;
  fk_io : list (option nat);
  fk_format : Article.RecordFormat;
  fk_pos : Position;
  fk_finished : bool;
  fk_ebcdic : bool;
}.

Definition sink_call (io : list (option nat)) : list (option nat) * option nat :=
  match io with [] => ([], None) | r :: io => (io, r) end.

(** [set_len]. *)
Definition set_len (file : bytes) (n : nat) : bytes := take n file ++ replicate (n - length file) 0.

(** [n] calls one after the other. *)
Fixpoint sink_calls (n : nat) (io : list (option nat)) : list (option nat) * bool :=
  match n with
  | O => (io, true)
  | S n =>
      match sink_call io with
      | (io, None) => sink_calls n io
      | (io, Some _) => (io, false)
      end
  end.

(** [create]: the directory, then the partial file kept and cut to
    [resume_from], or emptied; [part] is the partial file that exists. *)
Definition file_sink_create (part previous : option bytes) (io : list (option nat))
    (format : Article.RecordFormat) (resume_from : option Position) : outcome IoError FileSink :=
  let mk file io pos := mkFileSink file previous [] io format pos false false in
  match resume_from with
  | Some p =>
      match sink_calls 5 io with
      | (io, true) => Ok (mk (set_len (default [] part) (Z.to_nat (file_offset p))) io p)
      | _ => Err OsError
      end
  | None =>
      match sink_calls 3 io with
      | (io, true) => Ok (mk [] io position_default)
      | _ => Err OsError
      end
  end.

Definition sink_with_ebcdic (k : FileSink) (ebcdic : bool) : FileSink :=
  mkFileSink (fk_file k) (fk_previous k) (fk_buf k) (fk_io k) (fk_format k) (fk_pos k) (fk_finished k) ebcdic.

(** The file, the buffer and the script; the rest is unchanged. *)
Definition with_file (k : FileSink) (file buf : bytes) (io : list (option nat)) : FileSink :=
  mkFileSink file (fk_previous k) buf io (fk_format k) (fk_pos k) (fk_finished k) (fk_ebcdic k).
Definition with_pos (k : FileSink) (pos : Position) : FileSink :=
  mkFileSink (fk_file k) (fk_previous k) (fk_buf k) (fk_io k) (fk_format k) pos (fk_finished k) (fk_ebcdic k).

(** [BufWriter::flush_buf]: what a failed write did not take stays buffered;
    an empty buffer costs no call. *)
Definition flush_buf (k : FileSink) : FileSink * bool :=
  if decide (fk_buf k = []) then (k, true)
  else
    match sink_call (fk_io k) with
    | (io, None) => (with_file k (fk_file k ++ fk_buf k) [] io, true)
    | (io, Some n) => (with_file k (fk_file k ++ take n (fk_buf k)) (drop n (fk_buf k)) io, false)
    end.

(** [BufWriter::write_all]: data that fits is buffered, otherwise the buffer is
    flushed first and data of at least the buffer's size is written at once. *)
Definition write_all (k : FileSink) (data : bytes) : FileSink * bool :=
  let spare := (BUFFER - length (fk_buf k))%nat in
  if (length data <? spare)%nat then (with_file k (fk_file k) (fk_buf k ++ data) (fk_io k), true)
  else
    let '(k, ok) := if (spare <? length data)%nat then flush_buf k else (k, true) in
    if negb ok then (k, false)
    else if (BUFFER <=? length data)%nat then
      match sink_call (fk_io k) with
      | (io, None) => (with_file k (fk_file k ++ data) (fk_buf k) io, true)
      | (io, Some n) => (with_file k (fk_file k ++ take n data) (fk_buf k) io, false)
      end
    else (with_file k (fk_file k) (fk_buf k ++ data) (fk_io k), true).

Definition from_wire (ebcdic : bool) (a : bytes) : bytes := if ebcdic then Ebcdic.to_latin1 a else a.

Definition file_sink_write (k : FileSink) (article : bytes) : FileSink * outcome IoError unit :=
  let article := from_wire (fk_ebcdic k) article in
  let data := Article.article_to_bytes (fk_format k) article in
  match write_all k data with
  | (k, true) =>
      (with_pos k (after_article (fk_pos k) (file_offset (fk_pos k) + Z.of_nat (length data)) (length article)),
       Ok tt)
  | (k, false) => (k, Err OsError)
  end.

(** [flush] and [sync_data]. *)
Definition file_sink_checkpoint (k : FileSink) : FileSink * outcome IoError Position :=
  match flush_buf k with
  | (k, false) => (k, Err OsError)
  | (k, true) =>
      match sink_call (fk_io k) with
      | (io, None) => (with_file k (fk_file k) (fk_buf k) io, Ok (fk_pos k))
      | (io, Some _) => (with_file k (fk_file k) (fk_buf k) io, Err OsError)
      end
  end.

(** [flush], [set_len] and [seek]; a failure of the last leaves the position. *)
Definition file_sink_truncate (k : FileSink) (pos : Position) : FileSink * outcome IoError unit :=
  match flush_buf k with
  | (k, false) => (k, Err OsError)
  | (k, true) =>
      match sink_call (fk_io k) with
      | (io, Some _) => (with_file k (fk_file k) (fk_buf k) io, Err OsError)
      | (io, None) =>
          let file := set_len (fk_file k) (Z.to_nat (file_offset pos)) in
          match sink_call io with
          | (io, Some _) => (with_file k file (fk_buf k) io, Err OsError)
          | (io, None) => (with_pos (with_file k file (fk_buf k) io) pos, Ok tt)
          end
      end
  end.

(** [flush], [sync_all] and [rename]. *)
Definition file_sink_finish (k : FileSink) : FileSink * outcome IoError unit :=
  if fk_finished k then (k, Ok tt)
  else
    match flush_buf k with
    | (k, false) => (k, Err OsError)
    | (k, true) =>
        match sink_calls 2 (fk_io k) with
        | (io, false) => (with_file k (fk_file k) (fk_buf k) io, Err OsError)
        | (io, true) =>
            (mkFileSink (fk_file k) (fk_previous k) (fk_buf k) io (fk_format k) (fk_pos k) true (fk_ebcdic k),
             Ok tt)
        end
    end.

(** What the final name holds. *)
Definition final_content (k : FileSink) : option bytes :=
  if fk_finished k then Some (fk_file k) else fk_previous k.

#[global] Instance file_sink : ArticleSink FileSink := {|
  sink_write := file_sink_write;
  sink_checkpoint := file_sink_checkpoint;
  sink_truncate := file_sink_truncate;
  sink_position := fk_pos;
  sink_finish := file_sink_finish;
|}.

End ArticleIo.
