(* ===== verification/ArticleIoProps.v ===== *)
(** * Sources and sinks of articles: properties

    The source on a file yields the articles of the file whatever the reads
    return, and goes on from any position it has reported; the sink on a file
    can be cut back to any position it has reported. *)

From S2P Require Import Prelude Diag Pi Kinds Fpdu Ebcdic Article CutterProps ArticleIo.
Open Scope Z_scope.
Import ArticleIo.

(** ** The source on a file *)

(** The bytes of the file that the articles returned so far do not cover, and
    where they start. *)
Definition left_over (s : FileSource) : bytes := avail (fs_cutter s) ++ drop (fs_file_pos s) (fs_file s).
Definition offset (s : FileSource) : nat := fs_file_pos s - length (avail (fs_cutter s)).

Record source_ok (s : FileSource) : Prop := {
  so_format : Article.format (fs_cutter s) = fs_format s;
  so_record_len : Article.record_len (fs_cutter s) = Nat.max (fs_record_len s) 1;
  so_cutter : cutter_ok (fs_cutter s);
  so_avail : (length (avail (fs_cutter s)) ≤ fs_file_pos s ≤ length (fs_file s))%nat;
  so_left : drop (offset s) (fs_file s) = left_over s;
  so_eof : fs_eof s = true → fs_file_pos s = length (fs_file s);
}.

(** The operating system does not fail. *)
Definition reliable (s : FileSource) : Prop := Forall is_Some (fs_io s).

(** What a source is made for; only reading changes the rest. *)
Definition same_source (s t : FileSource) : Prop :=
  fs_file s = fs_file t ∧ fs_format s = fs_format t ∧ fs_record_len s = fs_record_len t
  ∧ fs_size s = fs_size t ∧ fs_ebcdic s = fs_ebcdic t.

Lemma same_source_refl s : same_source s s.
Proof. done. Qed.
Lemma same_source_trans s t u : same_source s t → same_source t u → same_source s u.
Proof. unfold same_source. naive_solver congruence. Qed.

(** The next article of the bytes that are left at the end of a file. *)
Definition last_article (fmt : Article.RecordFormat) (rl : nat) (rest : bytes)
    : outcome Article.RecordError (option (bytes * nat)) :=
  if decide (rest = []) then Ok None
  else
    match fmt with
    | Article.Bu | Article.Bv => Ok (Some (rest, length rest))
    | Article.Bf => Err (Article.UnfilledRecord (length rest) rl)
    | Article.Tv | Article.Tf =>
        a ← text_article_of fmt rl (Article.strip_cr rest); Ok (Some (a, length rest))
    end.

(** The next article of a file and the bytes it takes. *)
Definition next_of (fmt : Article.RecordFormat) (rl : nat) (rest : bytes)
    : outcome Article.RecordError (option (bytes * nat)) :=
  match next_avail fmt rl rest with Ok None => last_article fmt rl rest | r => r end.

(** The result of a call on a source, from the bytes that are left. *)
Definition expected (s : FileSource) : outcome IoError (option bytes) :=
  match next_of (fs_format s) (Nat.max (fs_record_len s) 1) (left_over s) with
  | Ok (Some (a, _)) => Ok (Some (to_wire (fs_ebcdic s) a))
  | Ok None => Ok None
  | Err e => Err (InvalidData e)
  | Panic => Panic
  end.

(** The state after an article. *)
Definition took (s s' : FileSource) (a : bytes) (k : nat) : Prop :=
  left_over s' = drop k (left_over s) ∧ offset s' = (offset s + k)%nat
  ∧ fs_pos s' = after_article (fs_pos s) (Z.of_nat (offset s')) (length a).

Lemma next_of_consumes fmt rl rest a k :
  (0 < rl)%nat → next_of fmt rl rest = Ok (Some (a, k)) → (0 < k ≤ length rest)%nat.
Proof.
  intros Hrl. unfold next_of. destruct (next_avail fmt rl rest) as [[[a' k']|]| |] eqn:Hn; [| |done..].
  - intros [= -> ->]. by eapply next_avail_consumes.
  - unfold last_article. destruct (decide (rest = [])) as [->|Hr]; [done|].
    assert (0 < length rest)%nat by (destruct rest; simpl; [done|lia]).
    destruct fmt; try (by intros [= _ <-]; lia); try done.
    all: destruct (text_article_of _ _ _); [intros [= _ <-]; lia|done..].
Qed.

Lemma offset_left s : source_ok s → (offset s + length (left_over s) = length (fs_file s))%nat.
Proof.
  intros [_ _ _ Ha _ _]. unfold offset, left_over. rewrite length_app, length_drop. lia.
Qed.

Lemma text_article_cutter c line :
  Article.text_article c line = text_article_of (Article.format c) (Article.record_len c) line.
Proof. done. Qed.

Lemma finish_last c :
  cutter_ok c →
  Article.finish c =
    (Article.mkArticleCutter (Article.format c) (Article.record_len c) (Article.cbuf c) (length (Article.cbuf c)),
     match last_article (Article.format c) (Article.record_len c) (avail c) with
     | Ok (Some (a, _)) => Ok (Some a)
     | Ok None => Ok None
     | Err e => Err e
     | Panic => Panic
     end).
Proof.
  intros Hc. unfold Article.finish, cutter_ok in *. rewrite slice_ok by lia.
  rewrite take_ge by (rewrite length_drop; lia). fold (avail c). unfold last_article.
  destruct (decide (avail c = [])); [done|]. f_equal.
  destruct c as [fmt rl buf pos]. simpl. destruct fmt; try done.
  all: rewrite text_article_cutter; simpl; by destruct (text_article_of _ _ _).
Qed.

(** What one call does: it gives the next article of the bytes that are left,
    takes it off them, and moves the position to its end. *)
Definition next_spec (s s' : FileSource) (r : outcome IoError (option bytes)) : Prop :=
  r = expected s ∧ same_source s s' ∧ reliable s' ∧ source_ok s'
  ∧ match next_of (fs_format s) (Nat.max (fs_record_len s) 1) (left_over s) with
    | Ok (Some (a, k)) => took s s' a k
    | Ok None => left_over s' = left_over s ∧ fs_pos s' = fs_pos s
    | _ => fs_pos s' = fs_pos s
    end.

Lemma next_article_drop s a k :
  source_ok s → next_avail (fs_format s) (Nat.max (fs_record_len s) 1) (avail (fs_cutter s)) = Ok (Some (a, k)) →
  let s' := with_article s (Article.advance (fs_cutter s) k)
              (after_article (fs_pos s) (Z.of_nat (offset s + k)) (length a)) in
  source_ok s' ∧ took s s' a k ∧ Article.buffered (Article.advance (fs_cutter s) k) = Ok (length (avail (fs_cutter s)) - k)%nat
  ∧ sub_usize (E:=IoError) (fs_file_pos s) (length (avail (fs_cutter s)) - k) = Ok (offset s + k)%nat.
Proof.
  intros Hs Hn s'. apply next_avail_consumes in Hn as Hk; [|lia]. destruct Hs as [Hf Hr Hc Ha Hl He].
  unfold cutter_ok in Hc.
  assert (length (avail (fs_cutter s)) = length (Article.cbuf (fs_cutter s)) - Article.cpos (fs_cutter s))%nat as Hlen.
  { unfold avail. by rewrite length_drop. }
  assert (left_over s' = drop k (left_over s)) as El.
  { unfold left_over, s'. simpl. rewrite avail_advance. by rewrite drop_app_le by lia. }
  assert (offset s' = (offset s + k)%nat) as Eo.
  { unfold offset, s'. simpl. rewrite avail_advance, length_drop. lia. }
  split_and!.
  - split; try done.
    + unfold cutter_ok, s'. simpl. lia.
    + unfold s'. simpl. rewrite avail_advance, length_drop. lia.
    + rewrite El, Eo, <-Hl. unfold s'. simpl. by rewrite drop_drop.
  - split_and!; [done|done|]. by rewrite Eo.
  - unfold Article.buffered. rewrite sub_usize_ok by (simpl; lia). simpl. f_equal. lia.
  - rewrite sub_usize_ok by lia. unfold offset. f_equal. lia.
Qed.

Lemma next_of_complete fmt rl av d a k :
  next_avail fmt rl av = Ok (Some (a, k)) → next_of fmt rl (av ++ d) = Ok (Some (a, k)).
Proof. intros H. unfold next_of. by rewrite (next_avail_mono _ _ _ d _ _ H). Qed.

Lemma fill_ok s :
  source_ok s → reliable s → fs_eof s = false →
  let '(s', r) := fill s in
  source_ok s' ∧ reliable s' ∧ same_source s s' ∧ fs_pos s' = fs_pos s
  ∧ left_over s' = left_over s ∧ offset s' = offset s
  ∧ ((r = Ok true ∧ fs_eof s' = false ∧ (fs_file_pos s < fs_file_pos s')%nat) ∨ (r = Ok false ∧ fs_eof s' = true)).
Proof.
  intros [Hf Hr Hc Ha Hl He] Hio Heof. unfold fill.
  assert (∃ io n, os_call (fs_io s) = (io, Some n) ∧ Forall is_Some io) as (io&n&->&Hio').
  { unfold reliable in Hio. destruct (fs_io s) as [|r io]; [by eexists _, _|].
    apply Forall_cons in Hio as [[n ->] ?]. by eexists _, _. }
  set (rest := drop (fs_file_pos s) (fs_file s)).
  set (m := Nat.min (Nat.max n 1) BUFFER).
  assert (0 < m)%nat as Hm by (unfold m, BUFFER; lia).
  unfold os_read. fold m. destruct (decide (take m rest = [])) as [Hb|Hb].
  - assert (rest = []) as Hrest by (destruct rest, m; simpl in *; done || lia).
    assert (fs_file_pos s = length (fs_file s)) as Hp.
    { apply (f_equal length) in Hrest. unfold rest in Hrest. rewrite length_drop in Hrest. simpl in Hrest. lia. }
    split_and!; try done; by right.
  - assert (length (take m rest) ≠ 0%nat) by (by rewrite length_zero_iff_nil).
    assert (fs_file_pos s + length (take m rest) ≤ length (fs_file s))%nat.
    { rewrite length_take. unfold rest. rewrite length_drop. lia. }
    pose proof (push_format (fs_cutter s) (take m rest)) as [Ef Er].
    match goal with |- source_ok ?x ∧ _ => set (s' := x) end.
    assert (left_over s' = left_over s) as El.
    { unfold left_over, s'. simpl. rewrite avail_push, <-app_assoc by done. f_equal. fold rest.
      rewrite <-drop_drop. fold rest. rewrite length_take.
      destruct (Nat.le_gt_cases m (length rest)).
      - rewrite Nat.min_l by lia. apply take_drop.
      - rewrite Nat.min_r, drop_all, app_nil_r by lia. by rewrite take_ge by lia. }
    assert (offset s' = offset s) as Eo.
    { unfold offset, s'. simpl. rewrite avail_push, length_app by done. lia. }
    split_and!; try done; [|by left; split_and!; [done|done|simpl; lia]].
    split; [by etrans; [apply Ef|]|by etrans; [apply Er|]|by apply push_ok| | |simpl; by rewrite Heof].
    + change (length (avail (Article.cutter_push (fs_cutter s) (take m rest)))
        ≤ fs_file_pos s + length (take m rest) ≤ length (fs_file s))%nat. rewrite avail_push, length_app by done. lia.
    + by rewrite El, Eo.
Qed.

Lemma file_next_loop_ok fuel s :
  source_ok s → reliable s →
  (1 + (if fs_eof s then 0 else 1 + (length (fs_file s) - fs_file_pos s)) ≤ fuel)%nat →
  let '(s', r) := file_next_loop fuel s in next_spec s s' r.
Proof.
  revert s. induction fuel as [|fuel IH]; intros s Hs Hio Hfuel; [destruct (fs_eof s); lia|].
  pose proof Hs as [Hf Hr Hc Ha Hl He]. cbn [file_next_loop].
  rewrite next_article_avail by done. rewrite Hf, Hr.
  destruct (next_avail _ _ (avail (fs_cutter s))) as [[[a k]|]|e|] eqn:Hn.
  - pose proof (next_article_drop s a k Hs Hn) as (Hs'&Ht&->&->). split_and!; try done.
    + unfold expected, left_over. by rewrite (next_of_complete _ _ _ _ _ _ Hn).
    + unfold left_over at 1. by rewrite (next_of_complete _ _ _ _ _ _ Hn).
  - assert (with_article s (fs_cutter s) (fs_pos s) = s) as -> by (by destruct s).
    destruct (fs_eof s) eqn:Heof.
    + specialize (He eq_refl). rewrite finish_last, Hf, Hr by done.
      assert (left_over s = avail (fs_cutter s)) as Ew.
      { unfold left_over. by rewrite He, drop_all, app_nil_r. }
      assert (next_of (fs_format s) (Nat.max (fs_record_len s) 1) (left_over s)
        = last_article (fs_format s) (Nat.max (fs_record_len s) 1) (avail (fs_cutter s))) as En.
      { unfold next_of. by rewrite Ew, Hn. }
      assert (∀ pos, let s' := with_article s (Article.mkArticleCutter (fs_format s) (Nat.max (fs_record_len s) 1)
          (Article.cbuf (fs_cutter s)) (length (Article.cbuf (fs_cutter s)))) pos in
        source_ok s' ∧ left_over s' = [] ∧ offset s' = length (fs_file s)) as Hend.
      { intros pos s'. assert (avail (fs_cutter s') = []) as Ea by (unfold avail, s'; simpl; by rewrite drop_all).
        assert (left_over s' = []) as Ev by (unfold left_over; rewrite Ea; simpl; by rewrite He, drop_all).
        assert (offset s' = length (fs_file s)) as Eo by (unfold offset; rewrite Ea; simpl; lia).
        split_and!; [|done|done]. split; try done.
        - unfold cutter_ok, s'. simpl. done.
        - rewrite Ea. simpl. lia.
        - rewrite Ev, Eo. by rewrite drop_all. }
      pose proof (offset_left s Hs) as Hoff.
      destruct (last_article _ _ _) as [[[a k]|]|e|] eqn:Hla.
      all: match goal with |- next_spec _ (with_article _ _ ?p) _ => destruct (Hend p) as (Hs'&Hv'&Ho') end.
      all: unfold next_spec, expected; rewrite En; split_and!; try done.
      2: { rewrite Hv', Ew. revert Hla. unfold last_article. destruct (decide _); [done|].
           destruct (fs_format s); try done; by destruct (text_article_of _ _ _). }
      assert (k = length (left_over s)) as ->.
      { rewrite Ew. revert Hla. unfold last_article. destruct (decide _); [done|].
        destruct (fs_format s); try (by intros [= _ <-]); try done.
        all: destruct (text_article_of _ _ _); [by intros [= _ <-]|done..]. }
      split_and!; [by rewrite Hv', drop_all|rewrite Ho'; lia|]. simpl. by rewrite Ho', He.
    + pose proof (fill_ok s Hs Hio Heof) as Hfill. destruct (fill s) as [s1 r1].
      destruct Hfill as (Hs1&Hio1&Hsame&Hp&El&Eo&Hcase).
      pose proof Hsame as (Efile&Efmt&Erl&Esz&Eeb).
      assert (next_spec s1 (file_next_loop fuel s1).1 (file_next_loop fuel s1).2) as H1.
      { specialize (IH s1 Hs1 Hio1). destruct (file_next_loop fuel s1) as [s2 r2]. apply IH.
        rewrite <-Efile. destruct Hs1 as [_ _ _ Ha1 _ _]. rewrite <-Efile in Ha1.
        destruct Hcase as [(_&->&?)|(_&->)]; lia. }
      assert (r1 = Ok true ∨ r1 = Ok false) as Hr1 by naive_solver.
      destruct (file_next_loop fuel s1) as [s2 r2] eqn:E2. simpl in H1.
      assert (next_spec s s2 r2) as H2; [|by destruct Hr1 as [-> | ->]; rewrite ?E2].
      destruct H1 as (->&Hsame2&Hio2&Hs2&Ht). unfold next_spec, expected in *.
      rewrite Efmt, Erl, Eeb, <-El. split_and!; try done.
      * by eapply same_source_trans.
      * destruct (next_of _ _ _) as [[[a k]|]| |]; unfold took in *; congruence.
  - split_and!; try done.
    + unfold expected, left_over, next_of. by rewrite (next_avail_mono_err _ _ _ _ _ Hn).
    + unfold left_over at 1, next_of. by rewrite (next_avail_mono_err _ _ _ _ _ Hn).
  - by destruct (next_avail_no_panic _ _ _ Hn).
Qed.

Lemma file_source_next_ok s :
  source_ok s → reliable s → next_spec s (file_source_next s).1 (file_source_next s).2.
Proof.
  intros Hs Hio. unfold file_source_next.
  pose proof (file_next_loop_ok (2 + (length (fs_file s) - fs_file_pos s)) s Hs Hio) as H.
  destruct (file_next_loop _ s) as [s' r]. apply H. destruct (fs_eof s); lia.
Qed.

(** *** Reading on *)

(** At most [n] articles with the position after each, and how the reading ended. *)
Fixpoint read_n {S} `{ArticleSource S} (n : nat) (s : S)
    : list (bytes * Position) * outcome IoError unit :=
  match n with
  | O => ([], Ok tt)
  | Datatypes.S n =>
      match source_next s with
      | (s, Ok (Some a)) => let '(l, r) := read_n n s in ((a, source_position s) :: l, r)
      | (s, Ok None) => ([], Ok tt)
      | (s, Err e) => ([], Err e)
      | (s, Panic) => ([], Panic)
      end
  end.

(** Only the bytes that are left and the position matter. *)
Lemma read_n_ext n s t :
  source_ok s → source_ok t → reliable s → reliable t → same_source s t →
  left_over s = left_over t → fs_pos s = fs_pos t → read_n n s = read_n n t.
Proof.
  revert s t. induction n as [|n IH]; intros s t Hs Ht His Hit Hst Hl Hp; [done|].
  cbn [read_n source_next file_source].
  pose proof (file_source_next_ok s Hs His) as (Er&Hss&His'&Hs'&Hm).
  pose proof (file_source_next_ok t Ht Hit) as (Er'&Htt&Hit'&Ht'&Hm').
  pose proof Hst as (Ef&Efmt&Erl&Esz&Eeb).
  assert (offset s = offset t) as Eo.
  { pose proof (offset_left s Hs). pose proof (offset_left t Ht). rewrite Hl, Ef in *. lia. }
  destruct (file_source_next s) as [s1 r1], (file_source_next t) as [t1 r1']. simpl in *.
  assert (r1 = r1') as <-.
  { rewrite Er, Er'. unfold expected. by rewrite Efmt, Erl, Eeb, Hl. }
  destruct r1 as [[a|]|e|]; try done.
  unfold expected in Er. rewrite <-Efmt, <-Erl, <-Hl in Hm'.
  destruct (next_of _ _ _) as [[[a' k]|]| |]; try done.
  destruct Hm as (El1&Eo1&Ep1), Hm' as (El2&Eo2&Ep2).
  assert (fs_pos s1 = fs_pos t1) as Ep by (rewrite Ep1, Ep2, Hp; congruence).
  rewrite (IH s1 t1); try done; [by rewrite Ep| |by rewrite El1, El2, Hl].
  destruct Hss as (?&?&?&?&?), Htt as (?&?&?&?&?). unfold same_source. split_and!; congruence.
Qed.

(** Cutting a file, one article at a time. *)
Lemma cut_file_step fmt rl rest :
  (0 < rl)%nat →
  cut_file fmt rl rest =
    match next_of fmt rl rest with
    | Ok (Some (a, k)) => let '(l, r) := cut_file fmt rl (drop k rest) in (a :: l, r)
    | Ok None => ([], Ok tt)
    | Err e => ([], Err e)
    | Panic => ([], Panic)
    end.
Proof.
  intros Hrl. unfold cut_file at 1. rewrite take_all_step by done. unfold next_of.
  destruct (next_avail fmt rl rest) as [[[a k]|]|e|] eqn:Hn; try done.
  - unfold cut_file. destruct (take_all fmt rl (drop k rest)) as [[rest' l] [u|e|]]; try done.
    unfold finish_av. destruct (decide _); [done|]. destruct fmt; try done.
    all: by destruct (text_article_of _ _ _).
  - unfold finish_av, last_article. destruct (decide (rest = [])) as [->|Hr]; [done|].
    assert (cut_file fmt rl [] = ([], Ok tt)) as E.
    { unfold cut_file. rewrite take_all_step by done. unfold next_avail. simpl.
      destruct (Article.is_text fmt), (Nat.leb_spec rl 0); done || lia. }
    destruct fmt; try done; [by rewrite drop_all, E..| |].
    all: destruct (text_article_of _ _ _); try done; simpl; by rewrite drop_all, E.
Qed.

Lemma read_n_cut n s :
  source_ok s → reliable s → (length (left_over s) < n)%nat →
  (map fst (read_n n s).1, (read_n n s).2)
  = let '(l, r) := cut_file (fs_format s) (Nat.max (fs_record_len s) 1) (left_over s) in
    (map (to_wire (fs_ebcdic s)) l, map_err InvalidData r).
Proof.
  revert s. induction n as [|n IH]; intros s Hs Hio Hn; [lia|].
  cbn [read_n source_next file_source].
  pose proof (file_source_next_ok s Hs Hio) as (Er&Hss&His'&Hs'&Hm).
  destruct (file_source_next s) as [s1 r1]. simpl in Er, Hss, His', Hs', Hm.
  rewrite cut_file_step by lia. rewrite Er. unfold expected.
  destruct (next_of _ _ _) as [[[a k]|]| |] eqn:Hnx; try done.
  apply next_of_consumes in Hnx as Hk; [|lia]. destruct Hm as (El&Eo&Ep).
  destruct Hss as (Ef&Efmt&Erl&Esz&Eeb). specialize (IH s1 Hs' His').
  rewrite El, <-Efmt, <-Erl, <-Eeb in IH. specialize (IH ltac:(rewrite length_drop; lia)).
  destruct (read_n n s1) as [l1 o1]. destruct (cut_file _ _ (drop k _)) as [l r].
  simpl in *. by injection IH as -> ->.
Qed.

(** *** Restarting *)

(** The sources on a file that a transfer meets: opened, read, rewound to the
    position of one of them (such as the one a checkpoint recorded). *)
Inductive reached (file : bytes) (fmt : Article.RecordFormat) (rl : nat) (eb : bool) : FileSource → Prop :=
| reached_open io :
    Forall is_Some io → reached file fmt rl eb (with_ebcdic (file_source_open file io fmt rl) eb)
| reached_next s s' a :
    reached file fmt rl eb s → source_next s = (s', Ok a) → reached file fmt rl eb s'
| reached_rewind s t :
    reached file fmt rl eb s → reached file fmt rl eb t →
    reached file fmt rl eb (source_rewind s (source_position t)).1.

(** What holds of them. *)
Record reached_inv (file : bytes) (fmt : Article.RecordFormat) (rl : nat) (eb : bool) (s : FileSource) : Prop := {
  ri_ok : source_ok s;
  ri_reliable : reliable s;
  ri_same : same_source (file_source_open file [] fmt rl) (with_ebcdic s false) ∧ fs_ebcdic s = eb;
  ri_offset : file_offset (fs_pos s) = Z.of_nat (offset s);
}.

Lemma open_inv file fmt rl eb io :
  Forall is_Some io → reached_inv file fmt rl eb (with_ebcdic (file_source_open file io fmt rl) eb).
Proof.
  intros Hio. split; [|done|done|done].
  split; try done; [unfold cutter_ok; simpl; lia|simpl; lia].
Qed.

Lemma rewind_ok file fmt rl eb s t :
  reached_inv file fmt rl eb s → reached_inv file fmt rl eb t →
  let s' := (source_rewind s (source_position t)).1 in
  (source_rewind s (source_position t)).2 = Ok tt
  ∧ reached_inv file fmt rl eb s' ∧ left_over s' = left_over t ∧ fs_pos s' = fs_pos t.
Proof.
  intros [Hs His [Hss Hse] Hso] [Ht Hit [Hts Hte] Hto]. simpl. unfold file_source_rewind.
  assert (∃ io n, os_call (fs_io s) = (io, Some n) ∧ Forall is_Some io) as (io&n&->&Hio').
  { unfold reliable in His. destruct (fs_io s) as [|r io]; [by eexists _, _|].
    apply Forall_cons in His as [[n ->] ?]. by eexists _, _. }
  simpl. rewrite Hto, Nat2Z.id. unfold same_source in *. simpl in *.
  pose proof (so_left t Ht) as Hleft. pose proof (offset_left t Ht) as Hoff.
  assert (fs_file s = fs_file t) as Ef by naive_solver congruence.
  match goal with |- _ ∧ reached_inv _ _ _ _ ?x ∧ _ => set (s' := x) end.
  assert (left_over s' = left_over t) as El by (unfold left_over at 1, avail; simpl; by rewrite Ef).
  assert (offset s' = offset t) as Eo by (unfold offset at 1, avail; simpl; lia).
  split_and!; [done| |done|done]. split; [|done|done|by rewrite Eo].
  split; try done; [unfold cutter_ok; simpl; lia|simpl; rewrite Ef; lia|].
  rewrite El, Eo. simpl. by rewrite Ef.
Qed.

Lemma reached_inv_of file fmt rl eb s : reached file fmt rl eb s → reached_inv file fmt rl eb s.
Proof.
  induction 1 as [io Hio|s s' a _ [Hs His [Hss Hse] Hso] Hn|s t _ IHs _ IHt].
  - by apply open_inv.
  - cbn [source_next file_source] in Hn.
    pose proof (file_source_next_ok s Hs His) as (Er&Hs2&His'&Hs'&Hm). rewrite Hn in *. simpl in *.
    assert (fs_ebcdic s' = eb) as Eeb by (unfold same_source in *; naive_solver congruence).
    split; [done|done| |].
    + split; [|done]. unfold same_source in *. simpl in *. naive_solver congruence.
    + unfold expected in Er. pose proof (offset_left s Hs). pose proof (offset_left s' Hs').
      assert (fs_file s = fs_file s') as Ef by (unfold same_source in *; naive_solver).
      destruct (next_of _ _ _) as [[[b k]|]| |]; try done.
      * destruct Hm as (El&Eo&->). done.
      * destruct Hm as [El ->]. rewrite Hso. rewrite El, Ef in *. lia.
  - by apply rewind_ok.
Qed.

(** C40: a transfer restarts where it stopped. Whatever the lengths of
    the reads of the operating system, none of which fails, reading a file to its end gives the articles (or
    the error) of cutting its content, translated when asked for. And from any
    source on the file, rewinding to the position that any other one reports
    (as a resynchronisation or a restart does with a checkpoint) succeeds and
    goes on reading exactly what that one would read, with the same positions. *)
Theorem file_source_rewind_resumes file fmt rl eb s t n :
  reached file fmt rl eb s → reached file fmt rl eb t →
  (∀ io, Forall is_Some io → (length file < n)%nat →
     let '(l, r) := read_n n (with_ebcdic (file_source_open file io fmt rl) eb) in
     let '(arts, r') := cut fmt (Nat.max rl 1) [file] in
     map fst l = map (to_wire eb) arts ∧ r = map_err InvalidData r')
  ∧ (source_rewind s (source_position t)).2 = Ok tt
  ∧ read_n n (source_rewind s (source_position t)).1 = read_n n t.
Proof.
  intros Hs%reached_inv_of Ht%reached_inv_of.
  destruct (rewind_ok file fmt rl eb s t Hs Ht) as (Hr&[Hs1 Hi1 [Hss1 He1] _]&El&Ep). split_and!; [|done|].
  - intros io Hio Hn. destruct (open_inv file fmt rl eb io Hio) as [Ho Hoi _ _].
    pose proof (read_n_cut n _ Ho Hoi Hn) as E. rewrite cut_cut_file by lia. simpl concat. rewrite app_nil_r.
    destruct (read_n n _) as [l r]. destruct (cut_file _ _ file) as [arts r'] eqn:Ec.
    unfold left_over in E. simpl in E. rewrite drop_0, Ec in E. simpl in E. by injection E as -> ->.
  - destruct Ht as [Ht Hit [Hts Hte] _]. apply read_n_ext; try done.
    unfold same_source in *. simpl in *. naive_solver congruence.
Qed.

(** Three lines, rewound to after the first one. *)
Example file_source_rewind_resumes_witness :
  let file := [97; 98; 10; 99; 10; 100] in
  let s0 := with_ebcdic (file_source_open file [Some 2%nat; Some 3%nat] Article.Tv 80) false in
  let s1 := (source_next s0).1 in
  let s2 := (source_next (source_next s1).1).1 in
  read_n 7 (source_rewind s2 (source_position s1)).1 = read_n 7 s1
  ∧ map fst (read_n 7 s1).1 = [[99]; [100]].
Proof.
  intros file s0 s1 s2.
  assert (reached file Article.Tv 80 false s0) as H0 by (refine (reached_open _ _ _ _ [Some 2%nat; Some 3%nat] _); by repeat constructor).
  assert (reached file Article.Tv 80 false s1) as H1 by (eapply reached_next; [exact H0|vm_compute; reflexivity]).
  assert (reached file Article.Tv 80 false s2) as H2.
  { eapply (reached_next _ _ _ _ (source_next s1).1); [|vm_compute; reflexivity].
    eapply reached_next; [exact H1|vm_compute; reflexivity]. }
  split; [|vm_compute; reflexivity].
  apply (file_source_rewind_resumes file Article.Tv 80 false s2 s1 7 H2 H1).
Defined.

(** ** The sink on a file *)

(** What the temporary file holds once the buffer is flushed. *)
Definition content (k : FileSink) : bytes := fk_file k ++ fk_buf k.

Definition sink_ok (k : FileSink) : Prop :=
  file_offset (fk_pos k) = Z.of_nat (length (content k)) ∧ fk_finished k = false
  ∧ Forall (.= None) (fk_io k).

(** The bytes that an article adds to the file, and its length once translated. *)
Definition stored (k : FileSink) (a : bytes) : bytes :=
  Article.article_to_bytes (fk_format k) (from_wire (fk_ebcdic k) a).

Fixpoint write_list {K} `{ArticleSink K} (k : K) (l : list bytes) : K * outcome IoError unit :=
  match l with
  | [] => (k, Ok tt)
  | a :: l =>
      match sink_write k a with
      | (k, Ok _) => write_list k l
      | r => r
      end
  end.

(** Same file as far as format and names go. *)
Definition same_sink (k k' : FileSink) : Prop :=
  fk_format k = fk_format k' ∧ fk_ebcdic k = fk_ebcdic k' ∧ fk_previous k = fk_previous k'
  ∧ fk_pos k = fk_pos k' ∧ fk_finished k = fk_finished k'.

Lemma sink_call_ok io : Forall (.= None) io → ∃ io', sink_call io = (io', None) ∧ Forall (.= None) io'.
Proof.
  destruct io as [|r io]; [by exists []|]. intros [-> ?]%Forall_cons. by exists io.
Qed.

Lemma sink_calls_ok n io : Forall (.= None) io → ∃ io', sink_calls n io = (io', true) ∧ Forall (.= None) io'.
Proof.
  revert io. induction n as [|n IH]; intros io Hio; [by exists io|].
  cbn [sink_calls]. destruct (sink_call_ok io Hio) as (io1&->&H1). by apply IH.
Qed.

Lemma flush_buf_ok k :
  Forall (.= None) (fk_io k) →
  ∃ k', flush_buf k = (k', true) ∧ fk_file k' = content k ∧ fk_buf k' = []
    ∧ Forall (.= None) (fk_io k') ∧ same_sink k k'.
Proof.
  intros Hio. unfold flush_buf, content. destruct (decide (fk_buf k = [])) as [E|].
  - exists k. by rewrite E, app_nil_r.
  - destruct (sink_call_ok _ Hio) as (io&->&?). by eexists.
Qed.

Lemma write_all_ok k data :
  Forall (.= None) (fk_io k) →
  ∃ k', write_all k data = (k', true) ∧ content k' = content k ++ data
    ∧ Forall (.= None) (fk_io k') ∧ same_sink k k'.
Proof.
  intros Hio. unfold write_all.
  destruct (_ <? _)%nat eqn:Hs; [by eexists; split_and!; [done|by unfold content; simpl; rewrite app_assoc|done|done]|].
  assert (∃ k1, (if (BUFFER - length (fk_buf k) <? length data)%nat then flush_buf k else (k, true)) = (k1, true)
    ∧ content k1 = content k ∧ Forall (.= None) (fk_io k1) ∧ same_sink k k1
    ∧ ((BUFFER <= length data)%nat → fk_buf k1 = [])) as (k1&->&Ec&Hio1&Hsame&Hbuf).
  { destruct (Nat.ltb_spec (BUFFER - length (fk_buf k)) (length data)).
    - destruct (flush_buf_ok k Hio) as (k1&->&Ef&Eb&?&?). exists k1.
      split_and!; try done. unfold content at 1. by rewrite Ef, Eb, app_nil_r.
    - exists k. split_and!; try done. intros ?. assert (length (fk_buf k) = 0%nat) by (unfold BUFFER in *; lia).
      by apply length_zero_iff_nil. }
  cbn [negb]. unfold content in *. destruct (Nat.leb_spec BUFFER (length data)).
  - destruct (sink_call_ok _ Hio1) as (io&->&?). specialize (Hbuf ltac:(done)). rewrite Hbuf in *.
    eexists. split_and!; [done| |done|done]. simpl. by rewrite <-Ec, !app_nil_r.
  - eexists. split_and!; [done| |done|done]. simpl. by rewrite <-Ec, app_assoc.
Qed.

Lemma file_sink_write_ok k a :
  sink_ok k →
  ∃ k', file_sink_write k a = (k', Ok tt) ∧ sink_ok k' ∧ content k' = content k ++ stored k a
    ∧ fk_format k' = fk_format k ∧ fk_ebcdic k' = fk_ebcdic k ∧ fk_previous k' = fk_previous k
    ∧ fk_pos k' = after_article (fk_pos k) (Z.of_nat (length (content k')))
                    (length (from_wire (fk_ebcdic k) a)).
Proof.
  intros (Hp&Hf&Hio). unfold file_sink_write. fold (stored k a).
  destruct (write_all_ok k (stored k a) Hio) as (k'&->&Ec&Hio'&Efmt&Eeb&Epr&Epos&Efin).
  eexists. split_and!; [done| |exact Ec|done..|].
  - unfold sink_ok. split_and!; [|simpl; by rewrite <-Efin|done].
    change (file_offset (fk_pos k') + Z.of_nat (length (stored k a)) = Z.of_nat (length (content k'))).
    rewrite Ec, length_app, <-Epos. lia.
  - change (after_article (fk_pos k') (file_offset (fk_pos k') + Z.of_nat (length (stored k a)))
      (length (from_wire (fk_ebcdic k) a))
      = after_article (fk_pos k) (Z.of_nat (length (content k'))) (length (from_wire (fk_ebcdic k) a))).
    rewrite Ec, length_app, <-Epos. f_equal. lia.
Qed.

Lemma write_list_ok k l :
  sink_ok k →
  ∃ k', write_list k l = (k', Ok tt) ∧ sink_ok k' ∧ content k' = content k ++ concat (map (stored k) l)
    ∧ fk_format k' = fk_format k ∧ fk_ebcdic k' = fk_ebcdic k ∧ fk_previous k' = fk_previous k
    ∧ articles (fk_pos k') = articles (fk_pos k) + Z.of_nat (length l)
    ∧ data_bytes (fk_pos k')
      = data_bytes (fk_pos k) + Z.of_nat (sum_list_with (λ a, length (from_wire (fk_ebcdic k) a)) l).
Proof.
  revert k. induction l as [|a l IH]; intros k Hk.
  - exists k. simpl. rewrite app_nil_r. split_and!; [done|done|done|done|done|done|lia|lia].
  - cbn [write_list sink_write file_sink].
    destruct (file_sink_write_ok k a Hk) as (k1&->&Hk1&Ec&Ef&Ee&Epr&Ep).
    destruct (IH k1 Hk1) as (k2&->&Hk2&Ec2&Ef2&Ee2&Epr2&Ea2&Ed2). exists k2.
    assert (stored k1 = stored k) as Est by (unfold stored; by rewrite Ef, Ee).
    split_and!; try congruence.
    + rewrite Ec2, Ec, Est. simpl. by rewrite app_assoc.
    + rewrite Ea2, Ep. simpl. lia.
    + rewrite Ed2, Ep, Ee. simpl. lia.
Qed.

(** What the final name holds does not change before [finish]. *)
Definition unpublished (k k' : FileSink) : Prop :=
  fk_previous k' = fk_previous k ∧ fk_finished k' = fk_finished k.

Lemma flush_buf_unpublished k : unpublished k (flush_buf k).1.
Proof.
  unfold flush_buf. destruct (decide _); [done|]. by destruct (sink_call _) as [? [|]].
Qed.

Lemma write_all_unpublished k data : unpublished k (write_all k data).1.
Proof.
  unfold write_all. destruct (_ <? _)%nat; [done|].
  assert (∀ b : bool, unpublished k (if b then flush_buf k else (k, true)).1) as H.
  { intros []; [apply flush_buf_unpublished|done]. }
  specialize (H (BUFFER - length (fk_buf k) <? length data)%nat).
  destruct (if _ : bool then flush_buf k else _) as [k1 []]; [|exact H]. cbn [negb fst] in *.
  destruct (_ <=? _)%nat; [|exact H]. by destruct (sink_call _) as [? [|]].
Qed.

Lemma sink_unpublished k a p :
  unpublished k (sink_write k a).1 ∧ unpublished k (sink_checkpoint k).1
  ∧ unpublished k (sink_truncate k p).1.
Proof.
  cbn [sink_write sink_checkpoint sink_truncate file_sink].
  unfold file_sink_write, file_sink_checkpoint, file_sink_truncate.
  pose proof (write_all_unpublished k (Article.article_to_bytes (fk_format k) (from_wire (fk_ebcdic k) a))) as Hw.
  pose proof (flush_buf_unpublished k) as Hf. split_and!.
  - by destruct (write_all _ _) as [k1 []].
  - destruct (flush_buf k) as [k1 []]; [|exact Hf]. by destruct (sink_call _) as [? [|]].
  - destruct (flush_buf k) as [k1 []]; [|exact Hf]. destruct (sink_call _) as [? [|]]; [done|].
    by destruct (sink_call _) as [? [|]].
Qed.

Lemma set_len_take l n : (n ≤ length l)%nat → set_len l n = take n l.
Proof. intros Hn. unfold set_len. replace (n - length l)%nat with 0%nat by lia. apply app_nil_r. Qed.

(** A checkpoint and a cut, when nothing fails. *)
Lemma file_sink_checkpoint_ok k :
  sink_ok k →
  ∃ k', file_sink_checkpoint k = (k', Ok (fk_pos k)) ∧ fk_file k' = content k ∧ fk_buf k' = []
    ∧ sink_ok k' ∧ same_sink k k'.
Proof.
  intros (Hp&Hf&Hio). destruct (flush_buf_ok k Hio) as (kf&Eflush&Efile&Ebuf&Hiof&Hsame).
  destruct (sink_call_ok _ Hiof) as (io1&Ecall&Hio1). pose proof Hsame as (Sf&Se&Sp&Spos&Sfin).
  unfold file_sink_checkpoint. rewrite Eflush, Ecall. eexists.
  split_and!; [by rewrite <-Spos|done|done| |done]. unfold sink_ok, content. simpl.
  rewrite Efile, Ebuf, app_nil_r, <-Spos, <-Sfin. done.
Qed.

Lemma file_sink_truncate_ok k p n :
  sink_ok k → file_offset p = Z.of_nat n → (n ≤ length (content k))%nat →
  ∃ k', file_sink_truncate k p = (k', Ok tt) ∧ content k' = take n (content k)
    ∧ fk_pos k' = p ∧ sink_ok k' ∧ fk_format k' = fk_format k ∧ fk_ebcdic k' = fk_ebcdic k.
Proof.
  intros (_&Hf&Hio) Hp Hn. destruct (flush_buf_ok k Hio) as (kf&Eflush&Efile&Ebuf&Hiof&Sf&Se&Sp&Spos&Sfin).
  destruct (sink_call_ok _ Hiof) as (io1&Ecall&Hio1). destruct (sink_call_ok _ Hio1) as (io2&Ecall2&Hio2).
  unfold file_sink_truncate. rewrite Eflush, Ecall, Ecall2, Hp, Nat2Z.id, Efile, set_len_take by done.
  set (k' := with_pos _ _). assert (content k' = take n (content k)) as Ec.
  { unfold content at 1. simpl. by rewrite Ebuf, app_nil_r. }
  exists k'. split_and!; [done|done|done| |done|done].
  split_and!; [|simpl; by rewrite <-Sfin|done]. rewrite Ec. cbn. rewrite length_take, Hp. f_equal. lia.
Qed.

(** *** The laws of the sinks *)

#[global] Program Instance vec_sink_laws : ArticleSinkLaws VecSink := {|
  holds := λ k l, vk_articles k = l;
  marks := λ _ l p, articles p = Z.of_nat (length l);
|}.
Next Obligation. intros k l a <-. eexists. split; [done|]. by split. Qed.
Next Obligation. intros k l <-. eexists _, _. split; [done|]. by split_and!. Qed.
Next Obligation.
  intros k l l' p Hk Hp. eexists. split; [done|]. simpl. by rewrite Hk, Hp, Nat2Z.id, take_app_length.
Qed.

(** The one on a file as long as nothing fails. *)
#[global] Program Instance file_sink_laws : ArticleSinkLaws FileSink := {|
  holds := λ k l, sink_ok k ∧ content k = concat (map (stored k) l);
  marks := λ k l p, file_offset p = Z.of_nat (length (concat (map (stored k) l)));
|}.
Next Obligation.
  intros k l a [Hk Hc]. destruct (file_sink_write_ok k a Hk) as (k'&E&Hk'&Ec&Ef&Ee&_).
  exists k'. assert (∀ x, stored k' x = stored k x) as Es by (intros x; unfold stored; by rewrite Ef, Ee).
  split; [done|]. split; [split; [done|]|].
  - rewrite Ec, Hc, map_app, concat_app. simpl. rewrite app_nil_r, Es. f_equal. f_equal. by apply map_ext.
  - intros l' p ->. by rewrite (map_ext _ _ Es).
Qed.
Next Obligation.
  intros k l [Hk Hc]. destruct (file_sink_checkpoint_ok k Hk) as (k'&E&Ef&Eb&Hk'&S1&S2&_).
  assert (∀ x, stored k' x = stored k x) as Es by (intros x; unfold stored; by rewrite S1, S2).
  exists k', (fk_pos k). split; [done|]. rewrite (map_ext _ _ Es). split_and!.
  - done.
  - unfold content. by rewrite Ef, Eb, app_nil_r.
  - intros l' p ->. by rewrite (map_ext _ _ Es).
  - intros n. rewrite <-Hc. apply Hk.
Qed.
Next Obligation.
  intros k l l' p [Hk Hc] Hp. rewrite map_app, concat_app in Hc.
  destruct (file_sink_truncate_ok k p _ Hk Hp) as (k'&E&Ec&_&Hk'&Ef&Ee); [rewrite Hc, length_app; lia|].
  exists k'. split; [done|]. split; [done|]. rewrite Ec, Hc, take_app_length. f_equal. apply map_ext.
  intros x. unfold stored. by rewrite Ef, Ee.
Qed.

(** The received file. When the operating system does not fail, writing
    articles appends their bytes (translated when asked for) and moves the
    position by as many; a checkpoint leaves nothing in the buffer and reports
    the position; cutting the sink back to an earlier position restores the
    file and the position as they were then; and finishing gives the final name
    the whole file. Whatever fails, nothing but a successful end changes what
    the final name holds. *)
Theorem file_sink_restores k l :
  sink_ok k →
  ∃ k1, write_list k l = (k1, Ok tt) ∧ content k1 = content k ++ concat (map (stored k) l)
    ∧ articles (fk_pos k1) = articles (fk_pos k) + Z.of_nat (length l)
    ∧ file_offset (fk_pos k1) = Z.of_nat (length (content k1))
    ∧ (∃ k2, sink_checkpoint k1 = (k2, Ok (fk_pos k1)) ∧ fk_file k2 = content k1 ∧ fk_buf k2 = []
         ∧ sink_ok k2)
    ∧ (∃ k2, sink_truncate k1 (fk_pos k) = (k2, Ok tt) ∧ content k2 = content k
         ∧ fk_pos k2 = fk_pos k ∧ sink_ok k2)
    ∧ (∃ k2, sink_finish k1 = (k2, Ok tt) ∧ final_content k2 = Some (content k1))
    ∧ ∀ k' a p, fk_finished k' = false →
        Forall (λ k2, final_content k2 = fk_previous k')
          [(sink_write k' a).1; (sink_checkpoint k').1; (sink_truncate k' p).1].
Proof.
  intros Hk. destruct (write_list_ok k l Hk) as (k1&Ew&(Hp&Hf&Hio)&Ec&Efmt&Eeb&Epr&Ea&_).
  exists k1. destruct (flush_buf_ok k1 Hio) as (kf&Eflush&Efile&Ebuf&Hiof&Sf&Se&Sp&Spos&Sfin).
  cbn [sink_checkpoint sink_truncate sink_finish file_sink].
  split_and!; [done|done|done|done| | | |].
  - destruct (file_sink_checkpoint_ok k1) as (k2&?&?&?&?&_); [done|]. by exists k2.
  - destruct Hk as (Hpk&_&_).
    destruct (file_sink_truncate_ok k1 _ _ (conj Hp (conj Hf Hio)) Hpk) as (k2&E2&Ec2&?&?&_);
      [rewrite Ec, length_app; lia|]. exists k2. split_and!; [done|by rewrite Ec2, Ec, take_app_length|done|done].
  - unfold file_sink_finish. rewrite Hf, Eflush. destruct (sink_calls_ok 2 _ Hiof) as (io&->&_).
    eexists. split; [done|]. unfold final_content. simpl. by rewrite Efile.
  - intros k' a p Hf'. destruct (sink_unpublished k' a p) as ([E1 E2]&[E3 E4]&[E5 E6]).
    assert (∀ k2, fk_previous k2 = fk_previous k' → fk_finished k2 = fk_finished k' →
      final_content k2 = fk_previous k') as Hu by (intros k2 Ea' Eb'; unfold final_content; by rewrite Eb', Hf').
    repeat apply Forall_cons_2; [by apply Hu..|constructor].
Qed.

Example file_sink_restores_witness :
  let k := mkFileSink [1; 2] None [] [] Article.Bu (mkPosition 2 2 1) false false in
  ∃ k1, write_list k [[3]; [4; 5]] = (k1, Ok tt) ∧ content k1 = [1; 2; 3; 4; 5].
Proof.
  intros k. destruct (file_sink_restores k [[3]; [4; 5]]) as (k1&E&Ec&_).
  - split_and!; [reflexivity|reflexivity|constructor].
  - exists k1. split; [exact E|exact Ec].
Defined.
