(* ===== verification/Link.v ===== *)
(** * The link ([crates/pesit-io/src/link.rs], [error.rs], [transport.rs])

    The errors of a session with the diagnostic that each sends in an ABORT,
    and the FPDU link over the transport. What arrives, when, and which writes
    fail is an explicit script. *)

From S2P Require Import Prelude Diag Pi Kinds Fpdu Params Frame State Compress Article ArticleIo.
Open Scope Z_scope.

(** ** Errors *)

Inductive TransportError : Type :=
| TransportIo
| Closed
| TooLarge (len max : nat)
| Invalid (len : nat).

(** The text of a [Negotiation] error. *)
Inductive Reason : Type :=
| Transition (e : Machine.TransitionError)
| Encoding (e : Fpdu.EncodeError)
| ResynNotNegotiated
| UnknownRestartPoint (point : Z).

(** The text of a [Counts] error. *)
Inductive Mismatch : Type :=
| ByteMismatch (peer local : Z)
| ArticleMismatch (peer local : Z).

Inductive SessionError : Type :=
| Transport (e : TransportError)
| Decode (e : Fpdu.DecodeError)
| Protocol (state : State) (kind : FpduKind)
| Aborted (diag : Diagnostic) (message : option ustring)
| Refused (request : FpduKind) (diag : Diagnostic) (message : option ustring)
| PreconnectRefused
| Io (e : ArticleIo.IoError)
| Record_ (e : Article.RecordError)
| Reassembly (e : Article.ReassemblyError)
| Decompress (e : Compress.DecompressError)
| Cancelled
| Timeout
| Negotiation (why : Reason)
| Counts (what : Mismatch).

Definition abort_diag (e : SessionError) : Diagnostic :=
  match e with
  | Transport _ => Diagnostic.NETWORK_INCIDENT
  | Decode e => Fpdu.diag e
  | Aborted diag _ | Refused _ diag _ => diag
  | PreconnectRefused => Diagnostic.CALLER_NOT_AUTHORISED
  | Io _ => Diagnostic.IO_ERROR
  | Record_ _ => Diagnostic.RECORD_TOO_LONG
  | Protocol _ _ | Reassembly _ | Decompress _ => Diagnostic.REMOTE_PROTOCOL_ERROR
  | Cancelled => Diagnostic.VOLUNTARY_STOP
  | Timeout => Diagnostic.TIMEOUT
  | Negotiation _ => Diagnostic.NEGOTIATION_FAILURE
  | Counts _ => Diagnostic.INVALID_COUNTS
  end.

(** ** State with errors

    A computation on a state of type [S]; the state it reached stays when it
    fails. *)
Definition M (S A : Type) : Type := S → S * outcome SessionError A.

#[global] Instance M_ret {S} : MRet (M S) := λ _ a s, (s, Ok a).
#[global] Instance M_bind {S} : MBind (M S) := λ _ _ f m s,
  match m s with
  | (s, Ok a) => f a s
  | (s, Err e) => (s, Err e)
  | (s, Panic) => (s, Panic)
  end.

Definition lift {S A} (r : outcome SessionError A) : M S A := λ s, (s, r).
Definition gets {S A} (f : S → A) : M S A := λ s, (s, Ok (f s)).
Definition modify {S} (f : S → S) : M S unit := λ s, (f s, Ok tt).
Definition raise {S A} (e : SessionError) : M S A := lift (Err e).

(** A computation on a part of the state. *)
Definition zoom {S T A} (get : S → T) (put : T → S → S) (m : M T A) : M S A := λ s,
  let '(t, r) := m (get s) in (put t s, r).

Lemma bind_eq {S A B} (m : M S A) (f : A → M S B) s s' a :
  m s = (s', Ok a) → (m ≫= f) s = f a s'.
Proof. intros H. unfold mbind, M_bind. by rewrite H. Qed.

Lemma bind_err {S A B} (m : M S A) (f : A → M S B) s s' e :
  m s = (s', Err e) → (m ≫= f) s = (s', Err e).
Proof. intros H. unfold mbind, M_bind. by rewrite H. Qed.

(** ** The link

    [rx] is what each request for an entity will meet: an entity of the peer, a
    failure of the reader task (after which it stops), the end of the queue, or
    nothing yet, which is a timeout for a request that waits; once used up
    nothing more arrives. [writes] tells which writes fail. *)
Inductive Arrival : Type :=
| Entity (b : bytes)
| Failure (e : TransportError)
| Disconnected
| Nothing.

Record Link : Type := mkLink {
  sent : list bytes;
  writes : list (option TransportError);
  rx : list Arrival;
  pending : list Fpdu;
  link_crc : bool;
  max_entity : nat;
  closed : bool;
}.

Definition link_new (writes : list (option TransportError)) (rx : list Arrival) : Link :=
  mkLink [] writes rx [] false (Z.to_nat 0xFFFF) false.

Definition set_crc (on : bool) (l : Link) : Link :=
  mkLink (sent l) (writes l) (rx l) (pending l) on (max_entity l) (closed l).

(** [max.clamp(HEADER_LEN + 1, 0xFFFF)]. *)
Definition set_max_entity (max : nat) (l : Link) : Link :=
  mkLink (sent l) (writes l) (rx l) (pending l) (link_crc l)
    (Nat.min (Nat.max max (Fpdu.HEADER_LEN + 1)) (Z.to_nat 0xFFFF)) (closed l).

Definition next_arrival (l : Link) : Link * Arrival :=
  match rx l with
  | [] => (l, Nothing)
  | a :: rx => (mkLink (sent l) (writes l) rx (pending l) (link_crc l) (max_entity l) (closed l), a)
  end.

Definition close_link (l : Link) : Link :=
  mkLink (sent l) (writes l) (rx l) (pending l) (link_crc l) (max_entity l) true.

Definition with_pending (p : list Fpdu) (l : Link) : Link :=
  mkLink (sent l) (writes l) (rx l) p (link_crc l) (max_entity l) (closed l).

(** [FrameWriter::write_entity]. *)
Definition send_entity (entity : bytes) : M Link unit := λ l,
  if (Z.to_nat 0xFFFF <? length entity)%nat
  then (l, Err (Transport (TooLarge (length entity) (Z.to_nat 0xFFFF))))
  else
    match writes l with
    | Some e :: w => (mkLink (sent l) w (rx l) (pending l) (link_crc l) (max_entity l) (closed l),
                      Err (Transport e))
    | w => (mkLink (sent l ++ [entity]) (tail w) (rx l) (pending l) (link_crc l) (max_entity l) (closed l),
            Ok tt)
    end.

Definition send (f : Fpdu) : M Link unit :=
  crc ← gets link_crc;
  entity ← lift (map_err (λ e, Negotiation (Encoding e)) (Frame.single_entity f crc));
  send_entity entity.

Definition recv_entity : M Link bytes := λ l,
  if closed l then (l, Err (Transport Closed))
  else
    match next_arrival l with
    | (l, Entity e) => (l, Ok e)
    | (l, Failure e) => (close_link l, Err (Transport e))
    | (l, Disconnected) => (close_link l, Err (Transport Closed))
    | (l, Nothing) => (l, Err Timeout)
    end.

(** The FPDUs of an entity, queued one by one until the first that is refused. *)
Fixpoint queue_parts (parts : list bytes) : M Link unit :=
  match parts with
  | [] => mret tt
  | b :: parts =>
      f ← lift (map_err Decode (Fpdu.decode b));
      modify (λ l, with_pending (pending l ++ [f]) l) ;;
      queue_parts parts
  end.

Definition queue_entity (entity : bytes) : M Link unit :=
  crc ← gets link_crc;
  parts ← lift (map_err Decode (Frame.split_entity entity crc));
  queue_parts parts.

Definition pop : M Link (option Fpdu) := λ l,
  match pending l with
  | [] => (l, Ok None)
  | f :: p => (with_pending p l, Ok (Some f))
  end.

Definition recv : M Link Fpdu :=
  first ← pop;
  match first with
  | Some f => mret f
  | None =>
      entity ← recv_entity;
      queue_entity entity ;;
      next ← pop;
      lift (ok_or next (Transport (Invalid (length entity))))
  end.

Definition try_recv : M Link (option Fpdu) :=
  first ← pop;
  match first with
  | Some f => mret (Some f)
  | None =>
      is_closed ← gets closed;
      if is_closed : bool then mret None
      else λ l,
        match next_arrival l with
        | (l, Entity e) => (queue_entity e ;; pop) l
        | (l, Failure e) => (close_link l, Err (Transport e))
        | (l, Disconnected) => (close_link l, Err (Transport Closed))
        | (l, Nothing) => (l, Ok None)
        end
  end.

Definition unread (f : Fpdu) (l : Link) : Link := with_pending (f :: pending l) l.
