(* ===== verification/LinkProps.v ===== *)
(** * The link: properties

    Weakest preconditions for computations that can fail, and the queue of
    FPDUs: what is sent on one side arrives in order on the other. *)

From S2P Require Import Prelude Diag Pi Kinds Crc Fpdu FpduNum FpduCodec Params Frame State Compress Article ArticleIo Link.
Open Scope Z_scope.
Import Fpdu.

(** ** Weakest preconditions

    [wp E m Q s]: started in [s], [m] does not panic, [Q] holds of its result
    and [E] of its error. *)
Definition wp {S A} (E : S → SessionError → Prop) (m : M S A) (Q : S → A → Prop) (s : S) : Prop :=
  match m s with
  | (s, Ok a) => Q s a
  | (s, Err e) => E s e
  | (_, Panic) => False
  end.

Section Wp.
Context {S : Type} (E : S → SessionError → Prop).

Lemma wp_mono {A} (m : M S A) (Q Q' : S → A → Prop) s :
  wp E m Q s → (∀ s a, Q s a → Q' s a) → wp E m Q' s.
Proof. unfold wp. destruct (m s) as [s' [a|e|]]; auto. Qed.

Lemma wp_bind {A B} (m : M S A) (f : A → M S B) Q s :
  wp E m (λ s a, wp E (f a) Q s) s → wp E (m ≫= f) Q s.
Proof. unfold wp, mbind, M_bind. by destruct (m s) as [s' [a|e|]]. Qed.

Lemma wp_ret {A} (a : A) Q s : Q s a → wp E (mret a) Q s.
Proof. done. Qed.

Lemma wp_eq {A} (m : M S A) Q s s' a : m s = (s', Ok a) → Q s' a → wp E m Q s.
Proof. unfold wp. by intros ->. Qed.

Lemma wp_gets {A} (f : S → A) Q s : Q s (f s) → wp E (gets f) Q s.
Proof. done. Qed.

Lemma wp_modify (f : S → S) Q s : Q (f s) tt → wp E (modify f) Q s.
Proof. done. Qed.

Lemma wp_raise {A} e (Q : S → A → Prop) s : E s e → wp E (raise e) Q s.
Proof. done. Qed.

Lemma wp_zoom {T A} (get : S → T) put (m : M T A) Q s :
  wp (λ t e, E (put t s) e) m (λ t a, Q (put t s) a) (get s) → wp E (zoom get put m) Q s.
Proof. unfold wp, zoom. by destruct (m (get s)) as [t [a|e|]]. Qed.

Lemma wp_if (b : bool) {A} (m1 m2 : M S A) Q s :
  (b = true → wp E m1 Q s) → (b = false → wp E m2 Q s) → wp E (if b then m1 else m2) Q s.
Proof. destruct b; auto. Qed.

(** What a successful specification says of the run. *)
Lemma wp_run {A} (m : M S A) Q s :
  wp E m Q s → (∃ s' a, m s = (s', Ok a) ∧ Q s' a) ∨ (∃ s' e, m s = (s', Err e) ∧ E s' e).
Proof. unfold wp. destruct (m s) as [s' [a|e|]]; eauto; done. Qed.

End Wp.

(** The next computation, whose specification is [H]. *)

(** ** Entities *)

(** An FPDU that the strict decoder of the peer accepts. *)
Definition valid (f : Fpdu) : Prop := wf f ∧ conforms f.

(** The entity that concatenates FPDUs. *)
Definition entity_of (crc : bool) (fs : list Fpdu) : bytes := concat (map (Frame.framed crc) (map fpdu_bytes fs)).

Definition framed_len (crc : bool) (f : Fpdu) : nat := encoded_len f + if crc then Crc.CRC_LEN else 0.

Lemma entity_of_snoc crc fs f :
  entity_of crc (fs ++ [f]) = entity_of crc fs ++ Frame.framed crc (fpdu_bytes f).
Proof. unfold entity_of. rewrite !map_app, concat_app. simpl. by rewrite app_nil_r. Qed.

Lemma entity_of_cons_length crc f fs : (0 < length (entity_of crc (f :: fs)))%nat.
Proof.
  unfold entity_of. simpl. rewrite length_app, Frame.length_framed, length_fpdu_bytes.
  pose proof (encoded_len_ge f). unfold HEADER_LEN in *. lia.
Qed.

Lemma split_entity_of crc fs : Forall valid fs → Frame.split_entity (entity_of crc fs) crc = Ok (map fpdu_bytes fs).
Proof.
  intros Hv. apply Frame.split_framed. apply Forall_fmap. apply (Forall_impl _ _ _ Hv).
  intros f [Hw _]. by apply Frame.sized_fpdu.
Qed.

Lemma decode_valid f : valid f → decode (fpdu_bytes f) = Ok f.
Proof. intros [Hw Hc]. by apply decode_encode_wf. Qed.

(** ** Receiving *)

Lemma with_pending_eq l : with_pending (pending l) l = l.
Proof. by destruct l. Qed.

Lemma queue_parts_ok fs l :
  Forall valid fs → queue_parts (map fpdu_bytes fs) l = (with_pending (pending l ++ fs) l, Ok tt).
Proof.
  intros Hv. revert l. induction Hv as [|f fs Hf Hv IH]; intros l; cbn [map queue_parts].
  - by rewrite app_nil_r, with_pending_eq.
  - rewrite decode_valid by done. unfold mbind, M_bind, lift, modify. cbn [map_err]. rewrite IH. simpl.
    by rewrite <-app_assoc.
Qed.

Lemma queue_entity_ok fs l :
  Forall valid fs → queue_entity (entity_of (link_crc l) fs) l = (with_pending (pending l ++ fs) l, Ok tt).
Proof.
  intros Hv. unfold queue_entity. unfold mbind at 1, M_bind at 1, gets. unfold mbind, M_bind, lift.
  rewrite split_entity_of by done. by apply queue_parts_ok.
Qed.

(** The FPDUs that are queued or will arrive, batch by batch. *)
Record incoming (l : Link) (batches : list (list Fpdu)) (fs : list Fpdu) : Prop := {
  in_open : closed l = false;
  in_rx : rx l = map (λ g, Entity (entity_of (link_crc l) g)) batches;
  in_batches : Forall (λ g, g ≠ [] ∧ Forall valid g) batches;
  in_fs : fs = pending l ++ concat batches;
}.

Definition with_rx (rx : list Arrival) (p : list Fpdu) (l : Link) : Link :=
  mkLink (sent l) (writes l) rx p (link_crc l) (max_entity l) (closed l).

Lemma recv_entity_ok e rx' l :
  closed l = false → rx l = Entity e :: rx' → recv_entity l = (with_rx rx' (pending l) l, Ok e).
Proof. intros Hc Hr. unfold recv_entity, next_arrival, with_rx. by rewrite Hr, Hc. Qed.

(** The next FPDU, and no other change to the link. *)
Lemma recv_incoming l batches f fs :
  incoming l batches (f :: fs) →
  ∃ rx' p' batches', recv l = (with_rx rx' p' l, Ok f) ∧ incoming (with_rx rx' p' l) batches' fs.
Proof.
  intros [Hc Hr Hb Hf]. unfold recv. unfold mbind at 1, M_bind at 1, pop at 1.
  destruct (pending l) as [|f' p] eqn:Hp.
  - destruct batches as [|g bs]; [done|]. inversion_clear Hb as [|?? [Hg Hv] Hbs].
    cbn [map concat app] in *. destruct g as [|f' g]; [done|]. injection Hf as -> Hf.
    unfold mbind at 1, M_bind at 1. rewrite (recv_entity_ok _ _ l Hc Hr).
    set (l1 := with_rx _ _ l). unfold mbind at 1, M_bind at 1.
    change (link_crc l) with (link_crc l1). rewrite queue_entity_ok by done.
    unfold l1 at 2. cbn [with_rx pending]. rewrite Hp. cbn [app].
    exists (map (λ g, Entity (entity_of (link_crc l) g)) bs), g, bs. split; [done|]. by split.
  - injection Hf as -> Hf. exists (rx l), p, batches. split; [done|]. by split.
Qed.

(** A single FPDU that arrives when nothing is queued. *)
Lemma recv_one l f rx' :
  closed l = false → pending l = [] → valid f → rx l = Entity (entity_of (link_crc l) [f]) :: rx' →
  recv l = (with_rx rx' [] l, Ok f) ∧ try_recv l = (with_rx rx' [] l, Ok (Some f)).
Proof.
  intros Hc Hp Hv Hr. assert (Forall valid [f]) as Hvs by by apply Forall_singleton.
  set (l1 := with_rx rx' [] l).
  assert (queue_entity (entity_of (link_crc l) [f]) l1 = (with_pending [f] l1, Ok tt)) as Hq.
  { change (link_crc l) with (link_crc l1). by rewrite queue_entity_ok. }
  split.
  - unfold recv. unfold mbind at 1, M_bind at 1, pop at 1. rewrite Hp.
    rewrite (bind_eq _ _ _ _ _ (recv_entity_ok _ _ l Hc Hr)), Hp. fold l1. by rewrite (bind_eq _ _ _ _ _ Hq).
  - unfold try_recv. unfold mbind at 1, M_bind at 1, pop at 1. rewrite Hp.
    unfold mbind at 1, M_bind at 1, gets at 1. rewrite Hc. unfold next_arrival. rewrite Hr, Hp.
    replace (mkLink _ _ _ _ _ _ _) with l1 by (unfold l1, with_rx; by rewrite Hc).
    by rewrite (bind_eq _ _ _ _ _ Hq).
Qed.

(** Nothing arrives: a request that waits times out, a poll gives nothing. *)
Lemma recv_nothing l :
  closed l = false → pending l = [] → (rx l = [] ∨ ∃ rx', rx l = Nothing :: rx') →
  recv l = (with_rx (tail (rx l)) [] l, Err Timeout) ∧ try_recv l = (with_rx (tail (rx l)) [] l, Ok None).
Proof.
  intros Hc Hp Hr. unfold recv, try_recv, recv_entity, next_arrival, mbind, M_bind, pop, gets, with_rx.
  destruct l as [s w r p lc me cl]; cbn in *. subst p cl. by destruct Hr as [->|[rx' ->]].
Qed.

(** ** Sending *)

Definition with_sent (out : list bytes) (l : Link) : Link :=
  mkLink out (writes l) (rx l) (pending l) (link_crc l) (max_entity l) (closed l).

Lemma send_entity_ok e l :
  writes l = [] → (length e ≤ MAX_FPDU_LEN)%nat → send_entity e l = (with_sent (sent l ++ [e]) l, Ok tt).
Proof.
  intros Hw He. unfold send_entity. change (Z.to_nat 0xFFFF) with MAX_FPDU_LEN.
  destruct (Nat.ltb_spec MAX_FPDU_LEN (length e)); [lia|]. unfold with_sent. by rewrite Hw.
Qed.

Lemma send_ok f l :
  writes l = [] → wf f → (framed_len (link_crc l) f ≤ MAX_FPDU_LEN)%nat →
  send f l = (with_sent (sent l ++ [entity_of (link_crc l) [f]]) l, Ok tt).
Proof.
  intros Hw Hf Hl. unfold send. unfold mbind at 1, M_bind at 1, gets. unfold mbind, M_bind, lift.
  unfold Frame.single_entity. rewrite encode_wf by done. cbn [mbind outcome_bind map_err].
  replace (if link_crc l then Crc.append (fpdu_bytes f) else fpdu_bytes f) with (entity_of (link_crc l) [f])
    by (unfold entity_of; simpl; by rewrite app_nil_r).
  apply send_entity_ok; [done|]. unfold entity_of. simpl.
  rewrite app_nil_r, Frame.length_framed, length_fpdu_bytes. exact Hl.
Qed.
