(* ===== verification/Transport.v ===== *)
(** * The transport ([crates/pesit-io/src/transport.rs])

    Entities on a byte stream: written with a two-byte length in front
    ([LengthPrefixed]) or back to back ([Raw]), where the reader delimits single
    FPDUs by their own length. The reader side of a stream is what is left to
    read and the error that follows it; its check bytes flag is shared with the
    link. *)

From S2P Require Import Prelude Pi Kinds Crc Ebcdic Fpdu Link.
Open Scope Z_scope.

Inductive Framing : Type := LengthPrefixed | Raw.

Definition MAX_ENTITY : nat := Z.to_nat 0xFFFF + 2 + Crc.CRC_LEN.

Record FrameReader : Type := mkFrameReader {
  inner : bytes;
  ending : TransportError;
  r_framing : Framing;
  r_crc : bool;
  r_max_len : nat;
  first : bool;
  probe_crc : bool;
}.

(** ** Reading *)

Definition R (A : Type) : Type := FrameReader → FrameReader * outcome TransportError A.

#[global] Instance R_ret : MRet R := λ _ a r, (r, Ok a).
#[global] Instance R_bind : MBind R := λ _ _ f m r,
  match m r with
  | (r, Ok a) => f a r
  | (r, Err e) => (r, Err e)
  | (r, Panic) => (r, Panic)
  end.

Definition fail {A} (e : TransportError) : R A := λ r, (r, Err e).
Definition asks {A} (f : FrameReader → A) : R A := λ r, (r, Ok (f r)).

Definition updates (f : FrameReader → FrameReader) : R unit := λ r, (f r, Ok tt).

Definition with_inner (b : bytes) (r : FrameReader) : FrameReader :=
  mkFrameReader b (ending r) (r_framing r) (r_crc r) (r_max_len r) (first r) (probe_crc r).

(** [std::mem::replace(&mut self.first, false)], and of [self.probe_crc]. *)
Definition take_first : R bool := λ r,
  (mkFrameReader (inner r) (ending r) (r_framing r) (r_crc r) (r_max_len r) false (probe_crc r), Ok (first r)).
Definition take_probe : R bool := λ r,
  (mkFrameReader (inner r) (ending r) (r_framing r) (r_crc r) (r_max_len r) (first r) false, Ok (probe_crc r)).

Definition store_crc (on : bool) (r : FrameReader) : FrameReader :=
  mkFrameReader (inner r) (ending r) (r_framing r) on (r_max_len r) (first r) (probe_crc r).

(** What a stream that ends too early still had is lost. *)
Definition read_exact_or_closed (n : nat) : R bytes := λ r,
  if (n <=? length (inner r))%nat
  then (with_inner (drop n (inner r)) r, Ok (take n (inner r)))
  else (with_inner [] r, Err (ending r)).

(** Whether a raw CONNECT has PI 1 = 1. *)
Definition connect_requests_crc (fpdu : bytes) : bool :=
  match Fpdu.decode_lenient fpdu with
  | Ok f => bool_decide (Fpdu.get_num f Pi.Crc = Some 1)
  | _ => false
  end.

Definition read_prefixed (declared : nat) : R bytes :=
  max_len ← asks r_max_len;
  if (max_len <? declared)%nat then fail (TooLarge declared max_len)
  else if (declared =? 0)%nat then fail (Invalid 0)
  else read_exact_or_closed declared.

Definition is_connect (v : bytes) : bool := bool_decide (get_range v 2 4 = Some [0x40; 0x20]).

Definition read_raw (head : bytes) (declared : nat) : R bytes :=
  if (declared <? Fpdu.HEADER_LEN)%nat then fail (Invalid declared)
  else
    crc ← asks r_crc;
    let extra := if crc : bool then Crc.CRC_LEN else 0%nat in
    max_len ← asks r_max_len;
    if (max_len <? declared + extra)%nat then fail (TooLarge (declared + extra) max_len)
    else
      rest ← read_exact_or_closed (declared + extra - 2);
      let v := head ++ rest in
      probe ← take_probe;
      if probe && (extra =? 0)%nat && is_connect v && connect_requests_crc v then
        check ← read_exact_or_closed Crc.CRC_LEN;
        updates (store_crc true) ;; mret (v ++ check)
      else mret v.

Definition starts_preconnect (head : bytes) : bool := bool_decide (head = take 2 Ebcdic.PRECONNECT_MAGIC).
Definition starts_answer (head : bytes) : bool :=
  bool_decide (head = take 2 Ebcdic.PRECONNECT_ACK) || bool_decide (head = take 2 Ebcdic.PRECONNECT_NAK).

Definition read_entity : R bytes :=
  head ← read_exact_or_closed 2;
  is_first ← take_first;
  if is_first && starts_preconnect head then
    rest ← read_exact_or_closed (Ebcdic.PRECONNECT_LEN - 2); mret (head ++ rest)
  else if is_first && starts_answer head then
    rest ← read_exact_or_closed 2; mret (head ++ rest)
  else
    let declared := match head with b0 :: b1 :: _ => Z.to_nat (of_be16 b0 b1) | _ => 0%nat end in
    framing ← asks r_framing;
    match framing with
    | LengthPrefixed => read_prefixed declared
    | Raw => read_raw head declared
    end.

(** The reader task of a link: what it queues until the first error. *)
Fixpoint reader_task (fuel : nat) (r : FrameReader) : list Arrival :=
  match fuel with
  | O => []
  | S fuel =>
      match read_entity r with
      | (r, Ok e) => Entity e :: reader_task fuel r
      | (_, Err e) => [Failure e]
      | (_, Panic) => []
      end
  end.

(** ** Writing

    A fault is a write that fails after some bytes have left, in [write_all] or
    in [flush]. *)
Record FrameWriter : Type := mkFrameWriter {
  written : bytes;
  w_framing : Framing;
  faults : list (option nat);
}.

Definition write_all (b : bytes) (w : FrameWriter) : FrameWriter * outcome TransportError unit :=
  match faults w with
  | Some n :: fs => (mkFrameWriter (written w ++ take n b) (w_framing w) fs, Err TransportIo)
  | fs => (mkFrameWriter (written w ++ b) (w_framing w) (tail fs), Ok tt)
  end.

Definition write_entity (e : bytes) (w : FrameWriter) : FrameWriter * outcome TransportError unit :=
  if (Z.to_nat 0xFFFF <? length e)%nat then (w, Err (TooLarge (length e) (Z.to_nat 0xFFFF)))
  else
    match w_framing w with
    | LengthPrefixed => write_all (be16 (Z.of_nat (length e)) ++ e) w
    | Raw => write_all e w
    end.

Definition write_raw (b : bytes) (w : FrameWriter) : FrameWriter * outcome TransportError unit := write_all b w.

(** Both sides of a stream: [input] is what will be read and [e] how it ends. *)
Definition split (input : bytes) (e : TransportError) (framing : Framing) (max_len : nat) (faults : list (option nat))
    : FrameReader * FrameWriter :=
  (mkFrameReader input e framing false (Nat.min max_len MAX_ENTITY) true true, mkFrameWriter [] framing faults).
