(* ===== verification/Datapath.v ===== *)
(** * The data phase ([crates/pesit-io/src/datapath.rs])

    Sending the articles of a source with synchronisation points, receiving
    them into a sink, resynchronisation and interruption, over the link, the
    state machine and the store of checkpoints. The loops have a fuel, whose
    exhaustion is a panic. *)

From S2P Require Import Prelude Diag Pi Kinds Crc Fpdu Params Frame State Compress Article Builder.
From S2P Require Import Checkpoint ArticleIo Link.
Open Scope Z_scope.

Definition DEFAULT_SYNC_INTERVAL : Z := 1024 * 1024.

Record DataParams : Type := mkDataParams {
  peer_id : Z;
  dp_sync : SyncOption;
  dp_resync : bool;
  dp_compression : Compression;
  dp_crc : bool;
  dp_max_entity : nat;
  dp_multi_article : bool;
  dp_max_article : nat;
  dp_role : Role;
}.

Record Progress : Type := mkProgress {
  pr_data_bytes : Z;
  pr_articles : Z;
  pr_sync : Z;
  pr_total_hint : option Z;
}.

Inductive DataEnd : Type :=
| Completed
| EndedWithError (diag : Diagnostic)
| Interrupted (code : EndCode) (diag : Diagnostic) (by_peer : bool).

(** The counters are not wrapped at 2^64. *)
Record DataResult : Type := mkDataResult {
  dr_end : DataEnd;
  dr_data_bytes : Z;
  dr_articles : Z;
  dr_last_sync : Z;
}.

Definition position_of (cp : Checkpoint) : ArticleIo.Position :=
  ArticleIo.mkPosition (Checkpoint.file_offset cp) (Checkpoint.data_bytes cp) (Checkpoint.articles cp).

Definition peer_message (f : Fpdu) : option ustring :=
  match Fpdu.get_text f Pi.FreeMessage with
  | Some m => Some m
  | None => Fpdu.get_text f Pi.DiagComplement
  end.

(** ** What both directions use

    The link, the machine, the checkpoints and the controls: what the
    cancellation flag will read at each look, and the progress reported. *)
Record Env (C : Type) : Type := mkEnv {
  e_link : Link;
  e_machine : Machine;
  e_checkpoints : C;
  e_cancel : list bool;
  e_progress : list Progress;
}.
Arguments mkEnv {C} _ _ _ _ _.
Arguments e_link {C} _. Arguments e_machine {C} _. Arguments e_checkpoints {C} _.
Arguments e_cancel {C} _. Arguments e_progress {C} _.

Section Env.
Context {C : Type} `{Checkpoint.CheckpointStore C}.

Definition on_link {A} (m : M Link A) : M (Env C) A :=
  zoom e_link (λ l e, mkEnv l (e_machine e) (e_checkpoints e) (e_cancel e) (e_progress e)) m.

Definition set_machine (m : Machine) (e : Env C) : Env C :=
  mkEnv (e_link e) m (e_checkpoints e) (e_cancel e) (e_progress e).

(** [machine.apply(Event::local(..)).map_err(Negotiation)?]. *)
Definition apply_local (ev : LocalEvent) : M (Env C) unit := λ e,
  match Machine.apply (e_machine e) (Event.local ev) with
  | (m, inl _) => (set_machine m e, Ok tt)
  | (m, inr err) => (set_machine m e, Err (Negotiation (Transition err)))
  end.

Definition apply_received (f : Fpdu) : M (Env C) bool := λ e,
  if decide (Fpdu.kind f = FpduKind.Abort) then
    (set_machine (Machine.apply (e_machine e) (Event.received FpduKind.Abort false)).1 e,
     Err (Aborted (FpduExt.diag_or_ok f) (peer_message f)))
  else
    match Machine.apply (e_machine e) (Event.received (Fpdu.kind f) (Fpdu.is_negative f)) with
    | (m, inl b) => (set_machine m e, Ok b)
    | (m, inr _) => (set_machine m e, Err (Protocol (Machine.state m) (Fpdu.kind f)))
    end.

(** An operation of the store, whose failure is an I/O error. *)
Definition on_store (op : C → C * bool) : M (Env C) unit := λ e,
  let '(c, ok) := op (e_checkpoints e) in
  (mkEnv (e_link e) (e_machine e) c (e_cancel e) (e_progress e),
   if ok : bool then Ok tt else Err (Io ArticleIo.OsError)).

Definition cancelled : M (Env C) bool := λ e,
  (mkEnv (e_link e) (e_machine e) (e_checkpoints e) (tail (e_cancel e)) (e_progress e),
   Ok (hd false (e_cancel e))).

Definition report (p : Progress) : M (Env C) unit :=
  modify (λ e, mkEnv (e_link e) (e_machine e) (e_checkpoints e) (e_cancel e) (e_progress e ++ [p])).

(** The loop of [interrupt]. *)
Fixpoint interrupt_loop (fuel : nat) (params : DataParams) : M (Env C) unit :=
  match fuel with
  | O => lift Panic
  | S fuel =>
      f ← on_link recv;
      match Fpdu.kind f with
      | FpduKind.AckIdt => apply_received f ;; mret tt
      | FpduKind.Idt =>
          apply_received f ;;
          on_link (send (Builder.ack_idt (peer_id params))) ;;
          modify (λ e, set_machine (Machine.apply (e_machine e) (Event.local L_Accept)).1 e)
      | _ => apply_received f ;; interrupt_loop fuel params
      end
  end.

Definition interrupt (fuel : nat) (params : DataParams) (diag : Diagnostic) (code : EndCode) : M (Env C) unit :=
  apply_local L_Cancel ;;
  on_link (send (Builder.idt (peer_id params) diag code)) ;;
  interrupt_loop fuel params.

Definition cancel_code (params : DataParams) : EndCode :=
  match dp_role params with
  | Requester => EndCode.CancelByRequester
  | Server => EndCode.CancelByServer
  end.

(** The checkpoint that a RESYN asks for; an unknown one is the beginning. *)
Definition resync_point (c : C) (requested : Z) : Checkpoint :=
  if requested =? 0 then Checkpoint.checkpoint_default
  else default Checkpoint.checkpoint_default (Checkpoint.store_get c requested).

End Env.

(** ** Sending

    The variables of [send_data]. *)
Record Sending (Src : Type) : Type := mkSending {
  source : Src;
  packer : Article.ArticlePacker;
  entity : Frame.EntityBuilder;
  compressor : option Compress.Compressor;
  data_bytes : Z;
  articles : Z;
  sync_no : Z;
  bytes_since_sync : Z;
  unacked : list Z;
  prev_pos : ArticleIo.Position;
  total_hint : option Z;
}.
Arguments mkSending {Src} _ _ _ _ _ _ _ _ _ _ _.
Arguments source {Src} _. Arguments packer {Src} _. Arguments entity {Src} _.
Arguments compressor {Src} _. Arguments data_bytes {Src} _. Arguments articles {Src} _.
Arguments sync_no {Src} _. Arguments bytes_since_sync {Src} _. Arguments unacked {Src} _.
Arguments prev_pos {Src} _. Arguments total_hint {Src} _.

Section Send.
Context {C Src : Type} `{Checkpoint.CheckpointStore C} `{ArticleIo.ArticleSource Src}.

Definition SendState : Type := Env C * Sending Src.

Definition env {A} (m : M (Env C) A) : M SendState A := zoom fst (λ e st, (e, st.2)) m.
Definition vars {A} (f : Sending Src → A) : M SendState A := gets (λ st, f st.2).
Definition set_vars (f : Sending Src → Sending Src) : M SendState unit := modify (λ st, (st.1, f st.2)).

Definition set_source (s : Src) (v : Sending Src) : Sending Src :=
  mkSending s (packer v) (entity v) (compressor v) (data_bytes v) (articles v) (sync_no v)
    (bytes_since_sync v) (unacked v) (prev_pos v) (total_hint v).
Definition set_packer (p : Article.ArticlePacker) (v : Sending Src) : Sending Src :=
  mkSending (source v) p (entity v) (compressor v) (data_bytes v) (articles v) (sync_no v)
    (bytes_since_sync v) (unacked v) (prev_pos v) (total_hint v).
Definition set_entity (b : Frame.EntityBuilder) (v : Sending Src) : Sending Src :=
  mkSending (source v) (packer v) b (compressor v) (data_bytes v) (articles v) (sync_no v)
    (bytes_since_sync v) (unacked v) (prev_pos v) (total_hint v).
Definition set_compressor (c : option Compress.Compressor) (v : Sending Src) : Sending Src :=
  mkSending (source v) (packer v) (entity v) c (data_bytes v) (articles v) (sync_no v)
    (bytes_since_sync v) (unacked v) (prev_pos v) (total_hint v).
Definition set_counters (bytes arts sync since : Z) (v : Sending Src) : Sending Src :=
  mkSending (source v) (packer v) (entity v) (compressor v) bytes arts sync since (unacked v)
    (prev_pos v) (total_hint v).
Definition set_unacked (u : list Z) (v : Sending Src) : Sending Src :=
  mkSending (source v) (packer v) (entity v) (compressor v) (data_bytes v) (articles v) (sync_no v)
    (bytes_since_sync v) u (prev_pos v) (total_hint v).
Definition set_prev_pos (p : ArticleIo.Position) (v : Sending Src) : Sending Src :=
  mkSending (source v) (packer v) (entity v) (compressor v) (data_bytes v) (articles v) (sync_no v)
    (bytes_since_sync v) (unacked v) p (total_hint v).

(** The calls on the variables. *)
Definition rewind (pos : ArticleIo.Position) : M SendState unit := λ st,
  let '(s, r) := ArticleIo.source_rewind (source st.2) pos in
  ((st.1, set_source s st.2), map_err Io r).

Definition next_article : M SendState (option bytes) := λ st,
  let '(s, r) := ArticleIo.source_next (source st.2) in
  ((st.1, set_source s st.2), map_err Io r).

Definition infallible {E A} (r : outcome Empty_set A) : outcome E A :=
  map_err (λ e : Empty_set, match e with end) r.

Definition packer_flush : M SendState (option Fpdu) := λ st,
  let '(p, r) := Article.flush (packer st.2) in ((st.1, set_packer p st.2), infallible r).

Definition packer_push (a : bytes) : M SendState (list Fpdu) := λ st,
  let '(p, r) := Article.packer_push (packer st.2) a in ((st.1, set_packer p st.2), infallible r).

(** [match compressor.as_mut() { Some(c) => c.compress(..), None => article }]. *)
Definition compress (a : bytes) : M SendState bytes := λ st,
  match compressor st.2 with
  | None => (st, Ok a)
  | Some c =>
      let '(c, r) := Compress.compress_article c a in ((st.1, set_compressor (Some c) st.2), infallible r)
  end.

Definition take_entity : M SendState bytes := λ st,
  let '(b, e) := Frame.take (entity st.2) in ((st.1, set_entity b st.2), Ok e).

(** [link.send_entity(&entity.take()).await?]. *)
Definition send_taken : M SendState unit := e ← take_entity; env (on_link (send_entity e)).

(** [entity.push(f).map_err(..)?]. *)
Definition push_entity (f : Fpdu) : M SendState unit := λ st,
  let '(b, r) := Frame.push (entity st.2) f in
  ((st.1, set_entity b st.2), map_err (λ e, Negotiation (Encoding e)) r).

(** An FPDU into the entity, which is sent before when it does not fit. *)
Definition push_fpdu (f : Fpdu) : M SendState unit :=
  b ← vars entity;
  (if Frame.fits b (Fpdu.encoded_len f) then mret tt else send_taken) ;;
  push_entity f.

Fixpoint push_fpdus (fs : list Fpdu) : M SendState unit :=
  match fs with [] => mret tt | f :: fs => push_fpdu f ;; push_fpdus fs end.

(** [packer.flush()] into the entity. *)
Definition flush_packer : M SendState unit :=
  f ← packer_flush;
  match f with Some f => push_fpdu f | None => mret tt end.

Definition result (end_ : DataEnd) : M SendState DataResult :=
  vars (λ v, mkDataResult end_ (data_bytes v) (articles v) (sync_no v)).

(** [while unacked.front().is_some_and(|u| *u <= n) { unacked.pop_front(); }]. *)
Fixpoint drop_acked (n : Z) (l : list Z) : list Z :=
  match l with
  | [] => []
  | u :: l' => if u <=? n then drop_acked n l' else l
  end.

(** The macro [handle_async!]: an FPDU received while sending; [Some] when the
    data phase ends. *)
Definition handle_async (params : DataParams) (f : Fpdu) : M SendState (option DataEnd) :=
  match Fpdu.kind f with
  | FpduKind.AckSyn =>
      env (apply_received f) ;;
      let n := default 0 (FpduExt.sync_number f) in
      set_vars (λ v, set_unacked (drop_acked n (unacked v)) v) ;;
      env (on_store (λ c, Checkpoint.store_acknowledge c n)) ;;
      mret None
  | FpduKind.Resyn =>
      env (apply_received f) ;;
      if negb (dp_resync params) then raise (Negotiation ResynNotNegotiated)
      else
        let requested := default 0 (FpduExt.restart_point f) in
        cp ← env (gets (λ e, resync_point (e_checkpoints e) requested));
        env (on_link (send (Builder.ack_resyn (peer_id params) (Checkpoint.sync cp)))) ;;
        env (apply_local L_Accept) ;;
        rewind (position_of cp) ;;
        set_vars (λ v, set_prev_pos (ArticleIo.source_position (source v)) v) ;;
        packer_flush ;;
        take_entity ;;
        set_vars (λ v, set_compressor (Compress.sync_point <$> compressor v) v) ;;
        set_vars (set_counters (Checkpoint.data_bytes cp) (Checkpoint.articles cp) (Checkpoint.sync cp) 0) ;;
        set_vars (set_unacked []) ;;
        mret None
  | FpduKind.Idt =>
      env (apply_received f) ;;
      take_entity ;;
      env (on_link (send (Builder.ack_idt (peer_id params)))) ;;
      env (apply_local L_Accept) ;;
      mret (Some (Interrupted (default (EndCode.Other 0) (FpduExt.end_code f)) (FpduExt.diag_or_ok f) true))
  | _ => env (apply_received f) ;; mret None
  end.

(** [while let Some(f) = link.try_recv()? { .. }]. *)
Fixpoint drain (fuel : nat) (params : DataParams) : M SendState (option DataEnd) :=
  match fuel with
  | O => lift Panic
  | S fuel =>
      f ← env (on_link try_recv);
      match f with
      | None => mret None
      | Some f =>
          r ← handle_async params f;
          match r with Some e => mret (Some e) | None => drain fuel params end
      end
  end.

(** The synchronisation point before the article that would exceed the interval;
    the wire form of the article, compressed again after it. *)
Definition sync_before (params : DataParams) (article wire : bytes) : M SendState bytes :=
  flush_packer ;;
  set_vars (λ v, set_counters (data_bytes v) (articles v) (u32 (sync_no v + 1)) (bytes_since_sync v) v) ;;
  n ← vars sync_no;
  push_fpdu (Builder.syn (peer_id params) n) ;;
  send_taken ;;
  env (apply_local L_Sync) ;;
  cp ← vars (λ v, Checkpoint.mkCheckpoint (sync_no v) (ArticleIo.file_offset (prev_pos v))
                    (data_bytes v) (articles v));
  env (on_store (λ c, Checkpoint.store_record c cp)) ;;
  (if (0 <? SyncOption.window (dp_sync params))
   then set_vars (λ v, set_unacked (unacked v ++ [sync_no v]) v) else mret tt) ;;
  set_vars (λ v, set_counters (data_bytes v) (articles v) (sync_no v) 0 v) ;;
  c ← vars compressor;
  match c with
  | None => mret wire
  | Some c => set_vars (set_compressor (Some (Compress.sync_point c))) ;; compress article
  end.

Definition interval (params : DataParams) : option Z :=
  if SyncOption.enabled (dp_sync params)
  then Some (default DEFAULT_SYNC_INTERVAL (SyncOption.interval_bytes (dp_sync params)))
  else None.

Definition progress : M SendState unit :=
  p ← vars (λ v, mkProgress (data_bytes v) (articles v) (sync_no v) (total_hint v));
  env (report p).

(** The packing of a wire article and the counters. *)
Definition send_wire (wire : bytes) : M SendState unit :=
  fs ← packer_push wire;
  push_fpdus fs ;;
  left ← vars (λ v, Frame.remaining (entity v));
  (if (left <? Fpdu.HEADER_LEN + 1)%nat then send_taken else mret tt) ;;
  env (apply_local L_SendData) ;;
  let n := Z.of_nat (length wire) in
  set_vars (λ v, set_counters (data_bytes v + n) (articles v + 1) (sync_no v) (bytes_since_sync v + n) v) ;;
  set_vars (λ v, set_prev_pos (ArticleIo.source_position (source v)) v) ;;
  progress.

(** One article: its compression, the synchronisation point before it, and the
    rest. *)
Definition send_article (params : DataParams) (article : bytes) : M SendState unit :=
  wire ← compress article;
  since ← vars bytes_since_sync;
  wire ← match interval params with
         | Some iv =>
             if (0 <? since) && (iv <? since + Z.of_nat (length wire))
             then sync_before params article wire else mret wire
         | None => mret wire
         end;
  send_wire wire.

(** The [loop]; [None] at the end of the source. *)
Fixpoint send_loop (fuel : nat) (params : DataParams) : M SendState (option DataResult) :=
  match fuel with
  | O => lift Panic
  | S fuel =>
      e ← drain fuel params;
      match e with
      | Some e => r ← result e; mret (Some r)
      | None =>
          cancel ← env cancelled;
          if cancel : bool then
            b ← vars entity;
            (if Frame.is_empty b then mret tt else send_taken) ;;
            env (interrupt fuel params Diagnostic.VOLUNTARY_STOP (cancel_code params)) ;;
            r ← result (Interrupted (cancel_code params) Diagnostic.VOLUNTARY_STOP false);
            mret (Some r)
          else
            u ← vars unacked;
            let window := SyncOption.window (dp_sync params) in
            if (0 <? window) && (window <=? Z.of_nat (length u)) then
              f ← env (on_link recv);
              e ← handle_async params f;
              match e with
              | Some e => r ← result e; mret (Some r)
              | None => send_loop fuel params
              end
            else
              a ← next_article;
              match a with
              | None => mret None
              | Some a => send_article params a ;; send_loop fuel params
              end
      end
  end.

(** The end of data. *)
Definition send_end (params : DataParams) : M SendState DataResult :=
  flush_packer ;;
  push_fpdu (Builder.dtf_end (peer_id params) Diagnostic.OK) ;;
  send_taken ;;
  env (apply_local L_DataEnd) ;;
  progress ;;
  result Completed.

Definition send_start (params : DataParams) (src : Src) (start : Checkpoint) : Sending Src :=
  let crc_cost := if dp_crc params then Crc.CRC_LEN else 0%nat in
  mkSending src
    (Article.packer_new (peer_id params) (dp_max_entity params - crc_cost) (dp_multi_article params))
    (Frame.new (dp_max_entity params) (dp_crc params))
    (if decide (dp_compression params = Compression.None_) then None
     else Some (Compress.compressor_new (dp_compression params) (Nat.max (dp_max_article params) 1)))
    (Checkpoint.data_bytes start) (Checkpoint.articles start) (Checkpoint.sync start) 0 []
    (ArticleIo.source_position src) (ArticleIo.source_size_hint src).

Definition send_data (fuel : nat) (params : DataParams) (start : Checkpoint) : M SendState DataResult :=
  set_vars (λ v, send_start params (source v) start) ;;
  rewind (position_of start) ;;
  set_vars (λ v, set_prev_pos (ArticleIo.source_position (source v)) v) ;;
  early ← send_loop fuel params;
  match early with
  | Some r => mret r
  | None => send_end params
  end.

End Send.

(** ** Receiving

    The variables of [receive_data]. *)
Record Receiving (K : Type) : Type := mkReceiving {
  sink : K;
  reassembler : Article.Reassembler;
  decompressor : option Compress.Decompressor;
  r_data_bytes : Z;
  r_articles : Z;
  last_sync : Z;
}.
Arguments mkReceiving {K} _ _ _ _ _ _.
Arguments sink {K} _. Arguments reassembler {K} _. Arguments decompressor {K} _.
Arguments r_data_bytes {K} _. Arguments r_articles {K} _. Arguments last_sync {K} _.

Section Receive.
Context {C K : Type} `{Checkpoint.CheckpointStore C} `{ArticleIo.ArticleSink K}.

Definition ReceiveState : Type := Env C * Receiving K.

Definition renv {A} (m : M (Env C) A) : M ReceiveState A := zoom fst (λ e st, (e, st.2)) m.
Definition rvars {A} (f : Receiving K → A) : M ReceiveState A := gets (λ st, f st.2).
Definition set_rvars (f : Receiving K → Receiving K) : M ReceiveState unit :=
  modify (λ st, (st.1, f st.2)).

Definition set_sink (k : K) (v : Receiving K) : Receiving K :=
  mkReceiving k (reassembler v) (decompressor v) (r_data_bytes v) (r_articles v) (last_sync v).
Definition set_reassembler (r : Article.Reassembler) (v : Receiving K) : Receiving K :=
  mkReceiving (sink v) r (decompressor v) (r_data_bytes v) (r_articles v) (last_sync v).
Definition set_decompressor (d : option Compress.Decompressor) (v : Receiving K) : Receiving K :=
  mkReceiving (sink v) (reassembler v) d (r_data_bytes v) (r_articles v) (last_sync v).
Definition set_totals (bytes arts sync : Z) (v : Receiving K) : Receiving K :=
  mkReceiving (sink v) (reassembler v) (decompressor v) bytes arts sync.

Definition on_sink {A} (op : K → K * outcome ArticleIo.IoError A) : M ReceiveState A := λ st,
  let '(k, r) := op (sink st.2) in ((st.1, set_sink k st.2), map_err Io r).

Definition feed (f : Fpdu) : M ReceiveState (list bytes) := λ st,
  let '(r, x) := Article.reassembler_feed (reassembler st.2) f in
  ((st.1, set_reassembler r st.2), map_err Reassembly x).

(** [match decompressor.as_mut() { Some(d) => d.decompress(..)?, None => article }]. *)
Definition decompress (a : bytes) : M ReceiveState bytes := λ st,
  match decompressor st.2 with
  | None => (st, Ok a)
  | Some d =>
      let '(d, r) := Compress.decompress_article d a in
      ((st.1, set_decompressor (Some d) st.2), map_err Decompress r)
  end.

Definition rresult (end_ : DataEnd) : M ReceiveState DataResult :=
  rvars (λ v, mkDataResult end_ (r_data_bytes v) (r_articles v) (last_sync v)).

Definition rprogress : M ReceiveState unit :=
  p ← rvars (λ v, mkProgress (r_data_bytes v) (r_articles v) (last_sync v) None);
  renv (report p).

(** The articles of one data FPDU. *)
Fixpoint store_articles (l : list bytes) : M ReceiveState unit :=
  match l with
  | [] => mret tt
  | a :: l =>
      x ← decompress a;
      on_sink (λ k, ArticleIo.sink_write k x) ;;
      set_rvars (λ v, set_totals (r_data_bytes v + Z.of_nat (length a)) (r_articles v + 1) (last_sync v) v) ;;
      store_articles l
  end.

(** Back to a checkpoint: the sink, the counters and the reassembler. *)
Definition back_to (params : DataParams) (cp : Checkpoint) : M ReceiveState unit :=
  on_sink (λ k, ArticleIo.sink_truncate k (position_of cp)) ;;
  set_rvars (set_totals (Checkpoint.data_bytes cp) (Checkpoint.articles cp) (Checkpoint.sync cp)) ;;
  set_rvars (set_reassembler (Article.reassembler_new (dp_max_article params))).

(** The inner [loop] that waits for ACK(RESYN). *)
Fixpoint wait_ack_resyn (fuel : nat) : M ReceiveState Fpdu :=
  match fuel with
  | O => lift Panic
  | S fuel =>
      g ← renv (on_link recv);
      match Fpdu.kind g with
      | FpduKind.AckResyn => mret g
      | FpduKind.Abort => renv (apply_received g) ;; wait_ack_resyn fuel
      | _ => wait_ack_resyn fuel
      end
  end.

(** Resynchronisation on a CRC error. *)
Definition request_resync (fuel : nat) (params : DataParams) : M ReceiveState unit :=
  renv (apply_local L_Resync) ;;
  n ← rvars last_sync;
  renv (on_link (send (Builder.resyn (peer_id params) Diagnostic.TRANSMISSION_ERROR n))) ;;
  ack ← wait_ack_resyn fuel;
  renv (apply_received ack) ;;
  let point := default 0 (FpduExt.restart_point ack) in
  cp ← (if point =? 0 then mret Checkpoint.checkpoint_default
        else
          o ← renv (gets (λ e, Checkpoint.store_get (e_checkpoints e) point));
          lift (ok_or o (Negotiation (UnknownRestartPoint point))));
  back_to params cp.

(** An FPDU received; [Some] when the data phase ends. *)
Definition handle (params : DataParams) (f : Fpdu) : M ReceiveState (option DataResult) :=
  if FpduKind.is_data (Fpdu.kind f) then
    renv (apply_received f) ;;
    l ← feed f;
    store_articles l ;;
    rprogress ;;
    mret None
  else
    match Fpdu.kind f with
    | FpduKind.Syn =>
        renv (apply_received f) ;;
        last ← rvars last_sync;
        let n := default (u32 (last + 1)) (FpduExt.sync_number f) in
        pos ← on_sink ArticleIo.sink_checkpoint;
        cp ← rvars (λ v, Checkpoint.mkCheckpoint n (ArticleIo.file_offset pos) (r_data_bytes v) (r_articles v));
        renv (on_store (λ c, Checkpoint.store_record c cp)) ;;
        set_rvars (λ v, set_totals (r_data_bytes v) (r_articles v) n v) ;;
        (if negb (SyncOption.window (dp_sync params) =? 0) || negb (SyncOption.enabled (dp_sync params)) then
           renv (on_link (send (Builder.ack_syn (peer_id params) n))) ;;
           renv (apply_local L_Accept)
         else mret tt) ;;
        mret None
    | FpduKind.DtfEnd =>
        renv (apply_received f) ;;
        let diag := FpduExt.diag_or_ok f in
        rprogress ;;
        r ← rresult (if Diagnostic.is_ok diag then Completed else EndedWithError diag);
        mret (Some r)
    | FpduKind.Resyn =>
        renv (apply_received f) ;;
        let requested := default 0 (FpduExt.restart_point f) in
        cp ← renv (gets (λ e, resync_point (e_checkpoints e) requested));
        back_to params cp ;;
        renv (on_link (send (Builder.ack_resyn (peer_id params) (Checkpoint.sync cp)))) ;;
        renv (apply_local L_Accept) ;;
        mret None
    | FpduKind.Idt =>
        renv (apply_received f) ;;
        renv (on_link (send (Builder.ack_idt (peer_id params)))) ;;
        renv (apply_local L_Accept) ;;
        r ← rresult (Interrupted (default (EndCode.Other 0) (FpduExt.end_code f)) (FpduExt.diag_or_ok f) true);
        mret (Some r)
    | _ => renv (apply_received f) ;; mret None
    end.

(** The error that starts a resynchronisation. *)
Definition is_crc_error (params : DataParams) (e : SessionError) : bool :=
  match e with
  | Decode d => bool_decide (Fpdu.diag d = Diagnostic.TRANSMISSION_ERROR) && dp_resync params
  | _ => false
  end.

(** [link.recv(..)], an error of the check bytes as [None]. *)
Definition recv_or_crc (params : DataParams) : M ReceiveState (option Fpdu) := λ st,
  match renv (on_link recv) st with
  | (st, Ok f) => (st, Ok (Some f))
  | (st, Err e) => if is_crc_error params e then (st, Ok None) else (st, Err e)
  | (st, Panic) => (st, Panic)
  end.

Fixpoint receive_loop (fuel : nat) (params : DataParams) : M ReceiveState DataResult :=
  match fuel with
  | O => lift Panic
  | S fuel =>
      cancel ← renv cancelled;
      if cancel : bool then
        renv (interrupt fuel params Diagnostic.VOLUNTARY_STOP (cancel_code params)) ;;
        rresult (Interrupted (cancel_code params) Diagnostic.VOLUNTARY_STOP false)
      else
        f ← recv_or_crc params;
        match f with
        | None => request_resync fuel params ;; receive_loop fuel params
        | Some f =>
            r ← handle params f;
            match r with Some r => mret r | None => receive_loop fuel params end
        end
  end.

Definition receive_start (params : DataParams) (k : K) (start : Checkpoint) : Receiving K :=
  mkReceiving k (Article.reassembler_new (dp_max_article params))
    (if decide (dp_compression params = Compression.None_) then None
     else Some (Compress.decompressor_new (Nat.max (dp_max_article params) 1)))
    (Checkpoint.data_bytes start) (Checkpoint.articles start) (Checkpoint.sync start).

Definition receive_data (fuel : nat) (params : DataParams) (start : Checkpoint) : M ReceiveState DataResult :=
  set_rvars (λ v, receive_start params (sink v) start) ;;
  receive_loop fuel params.

End Receive.

(** ** The counters of TRANS.END *)

Definition check_counts (f : Fpdu) (data_bytes articles : Z) : outcome SessionError unit :=
  (match Fpdu.get_num f Pi.ByteCount with
   | Some b => if b =? data_bytes then Ok tt else Err (Counts (ByteMismatch b data_bytes))
   | None => Ok tt
   end) ;;
  match Fpdu.get_num f Pi.ArticleCount with
  | Some a => if a =? articles then Ok tt else Err (Counts (ArticleMismatch a articles))
  | None => Ok tt
  end.
