(* ===== verification/DataFlow.v ===== *)
(** * What a transfer carries

    The data phase seen from above: the wire articles and synchronisation
    points that the FPDUs of a transfer stand for, the articles that they
    restore, and the totals that both sides compute from them. *)

From S2P Require Import Prelude Diag Pi Kinds Fpdu FpduCodec Params Compress CompressProps Article PackerProps Builder.
From S2P Require Import Datapath.
Open Scope Z_scope.
Import Fpdu Article Compress.

(** ** The flow *)

Inductive Item : Type :=
| Wire (w : bytes)
| Point (n : Z).

(** The FPDUs for [dst] and the items that they carry, for a reassembler of
    limit [m] that is between two articles before and after each item. *)
Inductive Flow (dst : Z) (m : nat) : list Fpdu → list Item → Prop :=
| Flow_nil : Flow dst m [] []
| Flow_data gs ws fs its :
    Forall (λ f, FpduKind.is_data (kind f) = true) gs →
    feed_all (reassembler_new m) gs = (reassembler_new m, Ok ws) →
    Flow dst m fs its → Flow dst m (gs ++ fs) (map Wire ws ++ its)
| Flow_point n fs its :
    0 ≤ n < 2 ^ 24 → Flow dst m fs its → Flow dst m (Builder.syn dst n :: fs) (Point n :: its).

Lemma flow_app dst m fs its gs js : Flow dst m fs its → Flow dst m gs js → Flow dst m (fs ++ gs) (its ++ js).
Proof.
  intros H Hg. induction H as [|hs ws fs its Hd Hf H IH|n fs its Hn H IH]; [done|..].
  - rewrite <-!app_assoc. by constructor.
  - by constructor.
Qed.

Lemma flow_data dst m gs ws :
  Forall (λ f, FpduKind.is_data (kind f) = true) gs →
  feed_all (reassembler_new m) gs = (reassembler_new m, Ok ws) → Flow dst m gs (map Wire ws).
Proof. intros Hd Hf. rewrite <-(app_nil_r gs), <-(app_nil_r (map Wire ws)). constructor; [done..|constructor]. Qed.

Lemma flow_point dst m n : 0 ≤ n < 2 ^ 24 → Flow dst m [Builder.syn dst n] [Point n].
Proof. intros. constructor; [done|constructor]. Qed.

(** ** Totals *)

Definition wire_of (i : Item) : option bytes := match i with Wire w => Some w | Point _ => None end.
Definition point_of (i : Item) : option Z := match i with Wire _ => None | Point n => Some n end.
Definition wires (its : list Item) : list bytes := omap wire_of its.
Definition points (its : list Item) : list Z := omap point_of its.

Definition total_bytes (start : Z) (its : list Item) : Z := start + Z.of_nat (sum_list_with length (wires its)).
Definition total_articles (start : Z) (its : list Item) : Z := start + Z.of_nat (length (wires its)).
Definition last_point (start : Z) (its : list Item) : Z := default start (last (points its)).

Lemma wires_app its js : wires (its ++ js) = wires its ++ wires js.
Proof. apply omap_app. Qed.

Lemma points_app its js : points (its ++ js) = points its ++ points js.
Proof. apply omap_app. Qed.

Lemma wires_wires ws : wires (map Wire ws) = ws.
Proof. unfold wires. induction ws as [|w ws IH]; [done|]. simpl. by f_equal. Qed.

Lemma points_wires ws : points (map Wire ws) = [].
Proof. unfold points. by induction ws. Qed.

Lemma total_bytes_app z its js : total_bytes z (its ++ js) = total_bytes (total_bytes z its) js.
Proof. unfold total_bytes. rewrite wires_app, sum_list_with_app. lia. Qed.

Lemma total_articles_app z its js : total_articles z (its ++ js) = total_articles (total_articles z its) js.
Proof. unfold total_articles. rewrite wires_app, length_app. lia. Qed.

Lemma last_point_app z its js : last_point z (its ++ js) = last_point (last_point z its) js.
Proof. unfold last_point. rewrite points_app, last_app. by destruct (last (points js)). Qed.

Lemma last_point_wires z ws : last_point z (map Wire ws) = z.
Proof. unfold last_point. by rewrite points_wires. Qed.

(** The points are numbered one after the other. *)
Definition consecutive (start : Z) (its : list Item) : Prop :=
  points its = seqZ (start + 1) (Z.of_nat (length (points its))).

Lemma consecutive_wires z its ws : consecutive z its → consecutive z (its ++ map Wire ws).
Proof. unfold consecutive. by rewrite points_app, points_wires, app_nil_r. Qed.

Lemma consecutive_last z its :
  consecutive z its → last_point z its = z + Z.of_nat (length (points its)).
Proof.
  unfold consecutive, last_point. intros E. rewrite E at 1. destruct (length (points its)) as [|n] eqn:En.
  - simpl. lia.
  - rewrite seqZ_S, last_snoc. cbn. lia.
Qed.

Lemma consecutive_snoc z its : consecutive z its → consecutive z (its ++ [Point (last_point z its + 1)]).
Proof.
  intros Hc. rewrite (consecutive_last _ _ Hc). unfold consecutive in *. rewrite points_app, length_app. cbn.
  rewrite Nat.add_1_r, seqZ_S, <-Hc. do 2 f_equal. lia.
Qed.

Lemma consecutive_bound z its n : consecutive z its → n ∈ points its → z < n.
Proof. unfold consecutive. intros -> Hn%elem_of_seqZ. lia. Qed.

(** ** The articles restored *)

(** The receiver's step on a wire article. *)
Definition unwire (d : option Decompressor) (w : bytes) : option Decompressor * outcome DecompressError bytes :=
  match d with
  | None => (None, Ok w)
  | Some d => let '(d, r) := decompress_article d w in (Some d, r)
  end.

Inductive Restores : option Decompressor → list Item → list bytes → option Decompressor → Prop :=
| R_nil d : Restores d [] [] d
| R_wire d w d1 a its arts d2 :
    unwire d w = (d1, Ok a) → Restores d1 its arts d2 → Restores d (Wire w :: its) (a :: arts) d2
| R_point d n its arts d2 : Restores d its arts d2 → Restores d (Point n :: its) arts d2.

Lemma restores_app d its as1 d1 js as2 d2 :
  Restores d its as1 d1 → Restores d1 js as2 d2 → Restores d (its ++ js) (as1 ++ as2) d2.
Proof. induction 1; intros; simpl; [done|econstructor; eauto..]. Qed.

Lemma restores_app_inv d its js arts d2 :
  Restores d (its ++ js) arts d2 →
  ∃ as1 as2 d1, arts = as1 ++ as2 ∧ Restores d its as1 d1 ∧ Restores d1 js as2 d2.
Proof.
  revert d arts. induction its as [|i its IH]; intros d arts H.
  { exists [], arts, d. split; [done|]. split; [constructor|done]. }
  inversion H as [|? ? d1 ? ? as1 ? Hu Hr|? ? ? ? ? Hr]; subst;
    destruct (IH _ _ Hr) as (as1'&as2&d'&->&H1&H2).
  - exists (a :: as1'), as2, d'. split; [done|]. split; [by econstructor|done].
  - exists as1', as2, d'. split; [done|]. split; [by constructor|done].
Qed.

Lemma restores_length d its arts d' : Restores d its arts d' → length arts = length (wires its).
Proof. induction 1; simpl; [done|by f_equal|done]. Qed.

Lemma restores_det d its arts1 d1 :
  Restores d its arts1 d1 → ∀ arts2 d2, Restores d its arts2 d2 → arts1 = arts2 ∧ d1 = d2.
Proof.
  induction 1 as [d|d w d1 a its arts d2 Hu _ IH|d n its arts d2 _ IH]; intros arts2 d3 H2;
    inversion H2 as [|? ? d1' a' ? arts' ? Hu' Hr'|? ? ? ? ? Hr']; subst.
  - done.
  - rewrite Hu in Hu'. injection Hu' as <- <-. by destruct (IH _ _ Hr') as [-> ->].
  - by apply IH.
Qed.

(** ** The two ends in step *)

Definition in_step_opt (c : option Compressor) (d : option Decompressor) : Prop :=
  match c, d with
  | None, None => True
  | Some c, Some d => in_step c d
  | _, _ => False
  end.

Lemma update_idemp r a : update (update r a) a = update r a.
Proof.
  unfold update. cbn [rbuf]. set (b := drop (length a) (if (length (rbuf r) <? length a)%nat then _ else _)).
  destruct (Nat.ltb_spec (length (a ++ b)) (length a)) as [H|_]; [rewrite length_app in H; lia|].
  by rewrite drop_app_length.
Qed.

(** One article: compressed in step, or literally after a synchronisation
    point whatever article was compressed just before it. *)
Lemma compress_in_step c d a :
  in_step c d → (length a ≤ d_max_article d)%nat → bytes_ok a →
  ∃ c' w, compress_article c a = (c', Ok w) ∧ (length w ≤ 2 * length a)%nat ∧ bytes_ok w
    ∧ (∃ d', decompress_article d w = (d', Ok a) ∧ in_step c' d' ∧ d_max_article d' = d_max_article d)
    ∧ ∃ c2 w2, compress_article (sync_point c') a = (c2, Ok w2) ∧ (length w2 ≤ 2 * length a)%nat ∧ bytes_ok w2
        ∧ ∃ d2, decompress_article d w2 = (d2, Ok a) ∧ in_step c2 d2 ∧ d_max_article d2 = d_max_article d.
Proof.
  intros [Hr Hcap] Ha Hb.
  destruct (compress_article_ok c a) as (r&w&E&Hw&Hle&_). specialize (Hle ltac:(lia)). subst r.
  set (c' := mkCompressor _ _ _) in E.
  assert (capacity (update (c_reference c) a) = capacity (c_reference c)) as Hcap'.
  { unfold capacity. rewrite update_length. unfold capacity in Hcap. lia. }
  destruct (compress_article_ok (sync_point c') a) as (r2&w2&E2&Hw2&Hle2&Hany).
  specialize (Hle2 ltac:(simpl; lia)). subst r2. specialize (Hany eq_refl).
  exists c', w. split; [done|]. destruct (expands_size _ _ _ _ Hw Hb). split_and!; [done|done|..].
  - eexists. split; [|split].
    + unfold decompress_article. rewrite (decompress_expands _ _ w a); [done| |done]. unfold as_slice. by rewrite <-Hr.
    + split; simpl; [by rewrite Hr|lia].
    + done.
  - eexists _, w2. split; [exact E2|]. destruct (expands_size _ _ _ _ Hw2 Hb). split_and!; [done|done|].
    eexists. split; [|split].
    + unfold decompress_article. rewrite (decompress_expands _ _ w2 a); [done| |done]. apply Hany.
    + split; simpl; [by rewrite update_idemp, Hr|rewrite update_idemp; lia].
    + done.
Qed.
