(* ===== verification/SendProps.v ===== *)
(** * Sending data: properties

    What [send_data] puts on the link when the peer only acknowledges: the
    FPDUs of the articles of the source, in entities within the negotiated
    size, with the totals and the compressor in step. *)

From S2P Require Import Prelude Diag Pi Kinds Crc Fpdu FpduNum FpduCodec Params Frame State Compress CompressProps Article.
From S2P Require Import PackerProps Setters Builder BuilderProps Checkpoint ArticleIo Link LinkProps Datapath DataFlow.
Open Scope Z_scope.
Import Fpdu.

(** ** The FPDUs of the data phase *)

Lemma B_small k cs n f :
  B k cs n f → FpduKind.is_data k = false → (n ≤ 7)%nat → covers k cs = true →
  valid f ∧ (encoded_len f ≤ 13)%nat.
Proof.
  intros HB Hk Hn Hc. split; [by apply (B_valid k cs n); [done|done|lia|done]|].
  destruct HB. rewrite encoded_len_params by (by rewrite B_kind). unfold HEADER_LEN. lia.
Qed.

Ltac small_fpdu := eapply B_small; [repeat build_step; build_side|done|simpl; lia|done].

Lemma fits_sync n : 0 ≤ n < 2 ^ 24 → fits_pi Pi.SyncNumber n.
Proof. done. Qed.

Lemma syn_valid dst n : byte_ok dst → 0 ≤ n < 2 ^ 24 →
  valid (Builder.syn dst n) ∧ (encoded_len (Builder.syn dst n) ≤ 13)%nat.
Proof. intros Hd Hn. assert (byte_ok 0) by done. pose proof (fits_sync n Hn). small_fpdu. Qed.

Lemma ack_syn_valid dst n : byte_ok dst → 0 ≤ n < 2 ^ 24 →
  valid (Builder.ack_syn dst n) ∧ (encoded_len (Builder.ack_syn dst n) ≤ 13)%nat.
Proof. intros Hd Hn. assert (byte_ok 0) by done. pose proof (fits_sync n Hn). small_fpdu. Qed.

Lemma dtf_end_valid dst d : byte_ok dst → Diagnostic.wf d →
  valid (Builder.dtf_end dst d) ∧ (encoded_len (Builder.dtf_end dst d) ≤ 13)%nat.
Proof. intros Hd Hn. assert (byte_ok 0) by done. small_fpdu. Qed.

(** ** The output of the sender *)

Section Output.
Context {C Src : Type} (params : DataParams) (sent0 : list bytes).
Abbreviation state := (Env C * Sending Src)%type.

(** An entity is not empty and within the negotiated size. *)
Definition batch_ok (g : list Fpdu) : Prop :=
  g ≠ [] ∧ (length (entity_of (dp_crc params) g) ≤ dp_max_entity params)%nat.

(** The FPDUs pushed so far: in the entities sent since [sent0] and in the one
    under construction, which is within the negotiated size. *)
Record emitted (st : state) (fs : list Fpdu) : Prop := {
  em_valid : Forall valid fs;
  em_writes : writes (e_link st.1) = [];
  em_crc : Frame.crc (entity st.2) = dp_crc params;
  em_max : Frame.max_len (entity st.2) = dp_max_entity params;
  em_bound : (length (Frame.buf (entity st.2)) ≤ dp_max_entity params)%nat;
  em_split : ∃ batches g, fs = concat batches ++ g ∧ Forall batch_ok batches
    ∧ sent (e_link st.1) = sent0 ++ map (entity_of (dp_crc params)) batches
    ∧ Frame.buf (entity st.2) = entity_of (dp_crc params) g ∧ Frame.count (entity st.2) = length g;
}.

(** Another output; everything else is the same. *)
Definition with_output (out : list bytes) (b : Frame.EntityBuilder) (st : state) : state :=
  (mkEnv (with_sent out (e_link st.1)) (e_machine st.1) (e_checkpoints st.1) (e_cancel st.1) (e_progress st.1),
   set_entity b st.2).

Context (Hmax : (dp_max_entity params ≤ MAX_FPDU_LEN)%nat).

Lemma send_taken_ok st fs :
  emitted st fs → (0 < Frame.count (entity st.2))%nat →
  ∃ out b, send_taken st = (with_output out b st, Ok tt)
    ∧ emitted (with_output out b st) fs ∧ b = Frame.new (dp_max_entity params) (dp_crc params).
Proof.
  intros [Hv Hw Hc Hm Hb (bs&g&Hfs&Hbs&Hs&Hbuf&Hn)] Hpos.
  exists (sent (e_link st.1) ++ [Frame.buf (entity st.2)]), (Frame.take (entity st.2)).1. split; [|split].
  - unfold send_taken, take_entity. unfold mbind, M_bind. destruct st as [e v]. cbn [fst snd] in *.
    cbn [Frame.take]. unfold env, zoom, on_link, zoom. cbn [fst snd].
    rewrite send_entity_ok by (done || lia). done.
  - split; try done; [simpl; lia|]. exists (bs ++ [g]), []. cbn [with_output fst snd].
    split_and!; [by rewrite concat_app, !app_nil_r; simpl; rewrite app_nil_r| |simpl|done|done].
    + apply Forall_app. split; [done|]. apply Forall_singleton. split; [intros ->; simpl in Hn; lia|by rewrite <-Hbuf].
    + by rewrite Hs, map_app, <-app_assoc, Hbuf.
  - unfold Frame.take, Frame.new. simpl. by rewrite Hc, Hm.
Qed.

Lemma push_entity_ok st fs f :
  emitted st fs → valid f → Frame.fits (entity st.2) (encoded_len f) = true →
  ∃ b, push_entity f st = (with_output (sent (e_link st.1)) b st, Ok tt)
    ∧ emitted (with_output (sent (e_link st.1)) b st) (fs ++ [f]) ∧ (0 < Frame.count b)%nat.
Proof.
  intros [Hv Hw Hc Hm Hb (bs&g&Hfs&Hbs&Hs&Hbuf&Hn)] [Hwf Hcf] Hfits.
  exists (Frame.push (entity st.2) f).1. unfold push_entity. rewrite (Frame.push_wf _ _ Hwf). split; [|split].
  - destruct st as [[[] ? ? ? ?] v]. done.
  - cbn [fst]. split; try done; cbn [with_output set_entity fst snd entity Frame.crc Frame.max_len Frame.buf].
    + apply Forall_app. split; [done|]. by apply Forall_singleton.
    + unfold Frame.fits, Frame.cost in Hfits. rewrite Hc in *. rewrite length_app, Frame.length_framed, length_fpdu_bytes.
      destruct (dp_crc params); cbn [andb] in Hfits.
      * destruct (0 <? _)%nat; [done|]. apply Nat.leb_le in Hfits. lia.
      * apply Nat.leb_le in Hfits. lia.
    + exists bs, (g ++ [f]). rewrite Hfs, app_assoc. split_and!; try done.
      * by rewrite Hbuf, Hc, entity_of_snoc.
      * simpl. rewrite Hn, length_app. simpl. lia.
  - simpl. lia.
Qed.

Lemma fits_empty b n :
  Frame.count b = 0%nat → Frame.buf b = [] → (n + (if Frame.crc b then Crc.CRC_LEN else 0) ≤ Frame.max_len b)%nat →
  Frame.fits b n = true.
Proof.
  intros Hn Hbuf Hle. unfold Frame.fits, Frame.cost. rewrite Hn, Hbuf. rewrite andb_false_r.
  apply Nat.leb_le. simpl. destruct (Frame.crc b); lia.
Qed.

Lemma emitted_empty st fs : emitted st fs → Frame.count (entity st.2) = 0%nat → Frame.buf (entity st.2) = [].
Proof. intros [_ _ _ _ _ (bs&g&_&_&_&->&Hn)] H0. rewrite H0 in Hn. by destruct g. Qed.

Lemma push_fpdu_ok st fs f :
  emitted st fs → valid f → (framed_len (dp_crc params) f ≤ dp_max_entity params)%nat →
  ∃ out b, push_fpdu f st = (with_output out b st, Ok tt)
    ∧ emitted (with_output out b st) (fs ++ [f]) ∧ (0 < Frame.count b)%nat.
Proof.
  intros He Hv Hl. unfold push_fpdu. erewrite bind_eq by reflexivity.
  destruct (Frame.fits (entity st.2) (encoded_len f)) eqn:Hfits.
  - erewrite bind_eq by reflexivity. destruct (push_entity_ok st fs f He Hv Hfits) as (b&E&He'&Hn). eauto.
  - assert (0 < Frame.count (entity st.2))%nat as Hpos.
    { destruct (Nat.eq_dec (Frame.count (entity st.2)) 0) as [H0|]; [|lia].
      rewrite fits_empty in Hfits; [done|done|by apply (emitted_empty st fs)|].
      rewrite (em_crc _ _ He), (em_max _ _ He). exact Hl. }
    destruct (send_taken_ok st fs He Hpos) as (out&b&E&He'&->). rewrite (bind_eq _ _ _ _ _ E).
    set (st1 := with_output _ _ st) in *.
    destruct (push_entity_ok st1 fs f He' Hv) as (b'&E'&He2&Hn).
    { by apply fits_empty. }
    exists (sent (e_link st1.1)), b'. by rewrite E'.
Qed.

Lemma push_fpdus_ok st fs gs :
  emitted st fs → Forall valid gs → Forall (λ f, framed_len (dp_crc params) f ≤ dp_max_entity params)%nat gs →
  ∃ out b, push_fpdus gs st = (with_output out b st, Ok tt) ∧ emitted (with_output out b st) (fs ++ gs).
Proof.
  intros He Hv. revert st fs He. induction Hv as [|g gs Hg Hv IH]; intros st fs He Hl; cbn [push_fpdus].
  - exists (sent (e_link st.1)), (entity st.2). rewrite app_nil_r. destruct st as [[[] ? ? ? ?] []]. done.
  - inversion_clear Hl as [|?? Hlg Hl']. destruct (push_fpdu_ok st fs g He Hg Hlg) as (out&b&E&He'&_).
    rewrite (bind_eq _ _ _ _ _ E). destruct (IH _ _ He' Hl') as (out'&b'&E'&He2).
    exists out', b'. by rewrite <-app_assoc in He2.
Qed.

End Output.

(** ** The peer of the sender *)

(** What reaches a sender: nothing yet, or the acknowledgement of a point. *)
Inductive ack_or_nothing (crc : bool) : Arrival → Prop :=
| an_nothing : ack_or_nothing crc Nothing
| an_ack id n : byte_ok id → 0 ≤ n < 2 ^ 24 →
    ack_or_nothing crc (Entity (entity_of crc [Builder.ack_syn id n])).

Section Peer.
Context {C Src : Type} `{!Checkpoint.CheckpointStore C} `{!Checkpoint.CheckpointLaws C} `{!ArticleIo.ArticleSource Src}.
Context (params : DataParams).
Abbreviation state := (Env C * Sending Src)%type.

(** A sender in its data phase whose peer only acknowledges and that nobody
    cancels. *)
Record quiet (st : state) : Prop := {
  q_state : State.is_sending (Machine.state (e_machine st.1)) = true;
  q_pending : pending (e_link st.1) = [];
  q_open : closed (e_link st.1) = false;
  q_rx : Forall (ack_or_nothing (link_crc (e_link st.1))) (rx (e_link st.1));
  q_cancel : Forall (.= false) (e_cancel st.1);
  q_healthy : Checkpoint.healthy (e_checkpoints st.1);
}.

(** What acknowledgements and looks at the cancellation flag change. *)
Definition with_peer (rx : list Arrival) (c : C) (can : list bool) (u : list Z) (st : state) : state :=
  (mkEnv (with_rx rx [] (e_link st.1)) (e_machine st.1) c can (e_progress st.1), set_unacked u st.2).

Lemma quiet_output out b st : quiet st → quiet (with_output out b st).
Proof. by intros []. Qed.

Lemma emitted_peer sent0 rx c can u st fs :
  emitted params sent0 st fs → emitted params sent0 (with_peer rx c can u st) fs.
Proof. by intros []. Qed.

Lemma apply_stay s e :
  State.is_sending s = true → e ∈ [Local L_SendData; Local L_Sync; Received FpduKind.AckSyn false] →
  State.apply s e = State.Next s.
Proof.
  intros Hs He. rewrite !elem_of_cons, elem_of_nil in He.
  destruct s; try done; destruct He as [->|[->|[->|[]]]]; done.
Qed.

Lemma machine_stay m e :
  State.is_sending (Machine.state m) = true →
  e ∈ [Local L_SendData; Local L_Sync; Received FpduKind.AckSyn false] → Machine.apply m e = (m, inl false).
Proof. intros Hs He. unfold Machine.apply. rewrite (apply_stay _ _ Hs He). by destruct m. Qed.

Lemma ack_syn_number id n : 0 ≤ n < 2 ^ 24 → FpduExt.sync_number (Builder.ack_syn id n) = Some n.
Proof.
  intros Hn. unfold FpduExt.sync_number.
  change (get (Builder.ack_syn id n) Pi.SyncNumber) with (Some (encode_num n)).
  cbn [fmap option_fmap option_map]. rewrite decode_encode_num by (unfold u64_ok; lia).
  f_equal. unfold u32. apply Z.mod_small. lia.
Qed.

Lemma handle_ack_ok st id n :
  quiet st → 0 ≤ n < 2 ^ 24 →
  ∃ c u, handle_async params (Builder.ack_syn id n) st
      = (with_peer (rx (e_link st.1)) c (e_cancel st.1) u st, Ok None)
    ∧ quiet (with_peer (rx (e_link st.1)) c (e_cancel st.1) u st).
Proof.
  intros [Hs Hp Ho Hr Hc Hh] Hn. unfold handle_async.
  change (kind (Builder.ack_syn id n)) with FpduKind.AckSyn. cbv iota.
  rewrite ack_syn_number by done. change (default 0 (Some n)) with n.
  assert (env (apply_received (Builder.ack_syn id n)) st = (st, Ok false)) as E.
  { unfold env, zoom, apply_received. destruct st as [e v]. cbn [fst snd] in *.
    change (kind (Builder.ack_syn id n)) with FpduKind.AckSyn. rewrite decide_False by done.
    change (is_negative (Builder.ack_syn id n)) with false.
    rewrite machine_stay; [by destruct e|done|]. rewrite !elem_of_cons. auto. }
  rewrite (bind_eq _ _ _ _ _ E). erewrite bind_eq by reflexivity.
  destruct (Checkpoint.store_acknowledge_ok (e_checkpoints st.1) n Hh) as (c&Ec&Hhc).
  exists c, (drop_acked n (unacked st.2)). split; [|by split].
  unfold mbind, M_bind, env, zoom, on_store. destruct st as [e v]. cbn [fst snd e_checkpoints] in *.
  rewrite Ec. unfold mret, M_ret, with_peer, with_rx. cbn [fst snd e_link] in *. rewrite <-Hp. by destruct e as [[] ? ? ? ?].
Qed.

Lemma cancel_head l : Forall (.= false) l → hd false l = false ∧ Forall (.= false) (tail l).
Proof. by destruct 1 as [|b l ->]. Qed.

(** Polling takes every acknowledgement that has arrived. *)
Lemma drain_ok fuel st :
  quiet st → (length (rx (e_link st.1)) < fuel)%nat →
  ∃ rx' c u, drain fuel params st = (with_peer rx' c (e_cancel st.1) u st, Ok None)
    ∧ quiet (with_peer rx' c (e_cancel st.1) u st) ∧ (length rx' ≤ length (rx (e_link st.1)))%nat.
Proof.
  revert st. induction fuel as [|fuel IH]; intros st Hq Hf; [lia|]. cbn [drain].
  assert (∀ rx', Forall (ack_or_nothing (link_crc (e_link st.1))) rx' →
    quiet (with_peer rx' (e_checkpoints st.1) (e_cancel st.1) (unacked st.2) st)) as Hq1 by (by destruct Hq; split).
  assert (∀ rx' r, try_recv (e_link st.1) = (with_rx rx' [] (e_link st.1), r) →
    env (on_link try_recv) st
      = (with_peer rx' (e_checkpoints st.1) (e_cancel st.1) (unacked st.2) st, r)) as Hpoll.
  { intros rx' r E. unfold env, on_link, zoom. rewrite E. by destruct st as [[] []]. }
  destruct Hq as [Hs Hp Ho Hr Hc Hh]. destruct (rx (e_link st.1)) as [|x rx'] eqn:Erx.
  - destruct (recv_nothing (e_link st.1) Ho Hp) as [_ E]; [by left|]. rewrite Erx in E.
    rewrite (bind_eq _ _ _ _ _ (Hpoll _ _ E)). eexists _, _, _. split; [done|]. split; [by apply Hq1|done].
  - inversion Hr as [|?? Hx Hr']; subst. destruct Hx as [|id n Hid Hn].
    + destruct (recv_nothing (e_link st.1) Ho Hp) as [_ E]; [eauto|]. rewrite Erx in E.
      rewrite (bind_eq _ _ _ _ _ (Hpoll _ _ E)). eexists _, _, _. split; [done|]. split; [by apply Hq1|simpl; lia].
    + destruct (ack_syn_valid id n Hid Hn) as [Hv _].
      destruct (recv_one (e_link st.1) _ _ Ho Hp Hv Erx) as [_ E].
      rewrite (bind_eq _ _ _ _ _ (Hpoll _ _ E)).
      destruct (handle_ack_ok _ id n (Hq1 _ Hr') Hn) as (c&u&Eh&Hq2).
      rewrite (bind_eq _ _ _ _ _ Eh).
      destruct (IH _ Hq2) as (rx2&c2&u2&Ed&Hq3&Hl); [simpl in *; lia|].
      exists rx2, c2, u2. split; [exact Ed|]. split; [exact Hq3|]. simpl in *. lia.
Qed.

End Peer.

(** ** What has been sent *)

(** Large enough for the FPDUs of the data phase. *)
Definition entity_size_ok (params : DataParams) : Prop :=
  (15 ≤ dp_max_entity params ≤ MAX_FPDU_LEN)%nat.

(** The longest wire article that goes in one FPDU. *)
Definition room (params : DataParams) : nat :=
  dp_max_entity params - (if dp_crc params then Crc.CRC_LEN else 0).

Section Track.
Context {C Src : Type} `{!Checkpoint.CheckpointStore C} `{!Checkpoint.CheckpointLaws C} `{!ArticleIo.ArticleSource Src}.
Context (params : DataParams) (sent0 : list bytes) (start : Checkpoint).
Context (Hsize : entity_size_ok params) (Hpeer : byte_ok (peer_id params)).
Abbreviation state := (Env C * Sending Src)%type.
Abbreviation m := (dp_max_article params).

(** The FPDUs [fs] carry the items [its], the wire articles [ps] are still in
    the packer, and the totals are those of all these. *)
Record track (st : state) (fs : list Fpdu) (its : list Item) (ps : list bytes) : Prop := {
  t_emitted : emitted params sent0 st fs;
  t_flow : Flow (peer_id params) m fs its;
  t_packer : packer_inv (packer st.2) ps;
  t_room : Article.max_dtf_len (packer st.2) = room params;
  t_bytes : data_bytes st.2 = total_bytes (Checkpoint.data_bytes start) (its ++ map Wire ps);
  t_articles : articles st.2 = total_articles (Checkpoint.articles start) (its ++ map Wire ps);
  t_sync : sync_no st.2 = last_point (Checkpoint.sync start) its;
  t_points : consecutive (Checkpoint.sync start) its;
}.

(** A state with the same fields, as far as [track] and [carried] look. *)
Ltac same_track H := destruct H as [[] ? ? ? ? ? ? ?]; split; [by split|done..].
Ltac same_carried H := destruct H as [[[] ? ? ? ? ? ? ?] ?]; split; [split; [by split|done..]|done].

Lemma data_ok_valid fs :
  Forall (data_ok (room params)) fs →
  Forall valid fs ∧ Forall (λ f, FpduKind.is_data (kind f) = true) fs
  ∧ Forall (λ f, framed_len (dp_crc params) f ≤ dp_max_entity params)%nat fs.
Proof.
  intros Hok. split_and!; apply (Forall_impl _ _ _ Hok); intros f (Hd&Hl&Hw); [split; [done|by apply data_conforms]|done|].
  unfold framed_len, room, entity_size_ok, Crc.CRC_LEN in *. destruct (dp_crc params); lia.
Qed.

Lemma small_fits f : (encoded_len f ≤ 13)%nat → (framed_len (dp_crc params) f ≤ dp_max_entity params)%nat.
Proof. unfold framed_len, entity_size_ok, Crc.CRC_LEN in *. destruct (dp_crc params); lia. Qed.

Lemma max_ok : (dp_max_entity params ≤ MAX_FPDU_LEN)%nat.
Proof. apply Hsize. Qed.

(** The packer is emptied into the entity. *)
Lemma flush_packer_ok st fs its ps :
  track st fs its ps →
  ∃ out b p fs', flush_packer st = (with_output out b (st.1, set_packer p st.2), Ok tt)
    ∧ track (with_output out b (st.1, set_packer p st.2)) fs' (its ++ map Wire ps) [].
Proof.
  intros [He Hf Hp Hr Hb Ha Hs Hpt]. destruct (flush_ok _ _ m Hp) as (f&Ef&Hok&Hfeed).
  set (p' := Article.mkArticlePacker _ _ _ _ _) in Ef. rewrite Hr in Hok.
  destruct (data_ok_valid _ Hok) as (Hv&Hd&Hl).
  assert (packer_inv p' []) as Hp'.
  { destruct Hp. constructor; simpl; try done; [unfold Article.MAX_ARTICLES_PER_DTF; lia|lia]. }
  assert (packer_flush st = ((st.1, set_packer p' st.2), Ok f)) as E
    by (unfold packer_flush; rewrite Ef; done).
  unfold flush_packer. rewrite (bind_eq _ _ _ _ _ E).
  assert (emitted params sent0 (st.1, set_packer p' st.2) fs) as He1 by (by destruct He; split).
  destruct (push_fpdus_ok params sent0 max_ok _ fs (option_list f) He1 Hv Hl) as (out&b&Epush&He2).
  exists out, b, p', (fs ++ option_list f). split.
  - destruct f as [f|]; [|exact Epush]. change (option_list (Some f)) with [f] in Epush. cbn [push_fpdus] in Epush.
    revert Epush. unfold mbind, M_bind. by destruct (push_fpdu f _) as [? [[]| |]].
  - split; cbn [with_output set_entity set_packer fst snd packer data_bytes articles sync_no]; try done.
    + apply flow_app; [done|]. by apply flow_data.
    + by rewrite app_nil_r.
    + by rewrite app_nil_r.
    + by rewrite last_point_app, last_point_wires.
    + by apply consecutive_wires.
Qed.

(** What the steps of the sender leave alone. *)
Definition untouched (st st' : state) : Prop :=
  source st'.2 = source st.2 ∧ rx (e_link st'.1) = rx (e_link st.1).

(** A local event that keeps the sending state. *)
Lemma local_stay st ev :
  quiet st → ev = L_SendData ∨ ev = L_Sync → env (Src:=Src) (apply_local ev) st = (st, Ok tt).
Proof.
  intros Hq Hev. unfold env, zoom, apply_local. rewrite machine_stay.
  - by destruct st as [[] []].
  - apply Hq.
  - rewrite !elem_of_cons. unfold Event.local. destruct Hev as [->| ->]; auto.
Qed.

Lemma env_store (st : state) op c :
  op (e_checkpoints st.1) = (c, true) →
  env (on_store op) st
    = ((mkEnv (e_link st.1) (e_machine st.1) c (e_cancel st.1) (e_progress st.1), st.2), Ok tt).
Proof. intros E. unfold env, zoom, on_store. by rewrite E. Qed.

(** The article again, literally, after a synchronisation point. *)
Definition compress_again (c : option Compress.Compressor) (a wire : bytes)
    : option Compress.Compressor * outcome Empty_set bytes :=
  match c with
  | None => (None, Ok wire)
  | Some c => let '(c, r) := Compress.compress_article (Compress.sync_point c) a in (Some c, r)
  end.

Definition never {S} (_ : S) (_ : SessionError) : Prop := False.

Lemma sync_before_ok st fs its ps a wire c2 w2 :
  track st fs its ps → quiet st → 0 ≤ sync_no st.2 → sync_no st.2 + 1 < 2 ^ 24 →
  compress_again (compressor st.2) a wire = (c2, Ok w2) →
  wp never (sync_before params a wire) (λ st' r, r = w2 ∧ ∃ fs',
    track st' fs' (its ++ map Wire ps ++ [Point (sync_no st.2 + 1)]) []
    ∧ quiet st' ∧ untouched st st' ∧ compressor st'.2 = c2) st.
Proof.
  intros Ht Hq H0' Hn Hc. unfold sync_before.
  destruct (flush_packer_ok _ _ _ _ Ht) as (out1&b1&p1&fs1&E1&Ht1).
  apply wp_bind. eapply wp_eq; [exact E1|]. clear E1. apply wp_bind, wp_modify. apply wp_bind, wp_gets.
  cbn [fst snd set_counters sync_no with_output set_entity set_packer].
  replace (u32 (sync_no st.2 + 1)) with (sync_no st.2 + 1) by (unfold u32; rewrite Z.mod_small; lia).
  set (n := sync_no st.2 + 1) in *.
  destruct (syn_valid (peer_id params) n Hpeer ltac:(lia)) as [Hv Hl].
  match goal with |- wp _ _ _ ?s => set (st2 := s) end.
  assert (emitted params sent0 st2 fs1) as He2 by (destruct (t_emitted _ _ _ _ Ht1); by split).
  destruct (push_fpdu_ok params sent0 max_ok _ _ _ He2 Hv (small_fits _ Hl)) as (out3&b3&E3&He3&Hpos).
  apply wp_bind. eapply wp_eq; [exact E3|].
  destruct (send_taken_ok params sent0 max_ok _ _ He3 Hpos) as (out4&b4&E4&He4&_).
  apply wp_bind. eapply wp_eq; [exact E4|]. clear E3 E4.
  match goal with |- wp _ _ _ ?s => set (st4 := s) in * end.
  assert (quiet st4) as Hq4 by (by destruct Hq; split).
  apply wp_bind. eapply wp_eq; [apply local_stay; auto|]. apply wp_bind, wp_gets.
  match goal with |- wp _ (env (on_store (λ c, Checkpoint.store_record c ?cp)) ≫= _) _ _ =>
    destruct (Checkpoint.store_record_ok (e_checkpoints st4.1) cp (q_healthy _ Hq4)) as (c'&Ec&Hh');
    apply wp_bind; eapply wp_eq; [apply (env_store st4 _ _ Ec)|] end.
  apply wp_bind.
  eapply wp_mono with (λ st' _, ∃ u, st' = (mkEnv (e_link st4.1) (e_machine st4.1) c' (e_cancel st4.1) (e_progress st4.1),
    set_unacked u st4.2)).
  { apply wp_if; intros _; [apply wp_modify; eauto|]. apply wp_ret. exists (unacked st.2). done. }
  intros ? _ [u ->]. apply wp_bind, wp_modify. apply wp_bind, wp_gets.
  match goal with |- wp _ _ _ ?s => set (st5 := s) end.
  assert (∀ c, track (st5.1, set_compressor c st5.2) (fs1 ++ [Builder.syn (peer_id params) n])
    (its ++ map Wire ps ++ [Point n]) []) as Ht5.
  { intros c. destruct Ht1 as [_ Hf1 Hp1 Hr1 Hb1 Ha1 Hs1 Hpt1]. destruct He4. rewrite app_assoc. split; try done.
    - apply flow_app; [done|]. apply flow_point. lia.
    - cbn. rewrite app_nil_r in Hb1. rewrite app_nil_r, total_bytes_app. cbn in Hb1. rewrite <-Hb1.
      unfold total_bytes. simpl. lia.
    - cbn. rewrite app_nil_r in Ha1. rewrite app_nil_r, total_articles_app. cbn in Ha1. rewrite <-Ha1.
      unfold total_articles. simpl. lia.
    - cbn. by rewrite last_point_app.
    - pose proof (consecutive_snoc _ _ Hpt1) as Hpt2.
      rewrite last_point_app, last_point_wires, <-(t_sync _ _ _ _ Ht) in Hpt2. exact Hpt2. }
  assert (∀ c, quiet (st5.1, set_compressor c st5.2)) as Hq5 by (intros c; by destruct Hq; split).
  cbn [st5 st4 st2 with_output set_unacked set_counters set_entity set_packer fst snd compressor].
  unfold compress_again in Hc. destruct (compressor st.2) as [c|] eqn:Ecomp.
  - apply wp_bind, wp_modify. unfold wp, compress. cbn [snd set_compressor compressor].
    destruct (Compress.compress_article _ a) as [c1 r]. injection Hc as <- ->. cbn [infallible map_err].
    split; [done|]. eexists. split; [exact (Ht5 (Some c1))|]. split; [exact (Hq5 (Some c1))|]. done.
  - injection Hc as <- ->. apply wp_ret. split; [done|]. eexists.
    split; [exact (Ht5 (compressor st.2))|]. split; [exact (Hq5 (compressor st.2))|]. done.
Qed.

(** ** One article *)

(** An article that the transfer can carry: within the limit of the receiver
    and, when it is compressed, such that what is sent for it, at most twice
    its length, fits in a single FPDU or is within this limit too: the receiver
    compares a segmented article with the limit before it decompresses it. *)
Definition article_ok (a : bytes) : Prop :=
  bytes_ok a ∧
  if decide (dp_compression params = Compression.None_) then within m a
  else (length a ≤ Nat.max m 1)%nat ∧ (2 * length a ≤ Nat.max (room params - HEADER_LEN) m)%nat.

(** The compressor of the sender and the decompressor of the receiver. *)
Definition stepping (c : option Compress.Compressor) (d : option Compress.Decompressor) : Prop :=
  match c, d with
  | None, None => dp_compression params = Compression.None_
  | Some c, Some d =>
      dp_compression params ≠ Compression.None_ ∧ in_step c d ∧ Compress.d_max_article d = Nat.max m 1
  | _, _ => False
  end.

Definition compress_first (c : option Compress.Compressor) (a : bytes)
    : option Compress.Compressor * outcome Empty_set bytes :=
  match c with
  | None => (None, Ok a)
  | Some c => let '(c, r) := Compress.compress_article c a in (Some c, r)
  end.

Definition wire_fits (w : bytes) : Prop :=
  bytes_ok w ∧ ((room params - HEADER_LEN < length w)%nat → within m w).

Lemma article_wires c d a :
  stepping c d → article_ok a →
  ∃ c1 w, compress_first c a = (c1, Ok w) ∧ wire_fits w
    ∧ (∃ d1, unwire d w = (d1, Ok a) ∧ stepping c1 d1)
    ∧ ∃ c2 w2, compress_again c1 a w = (c2, Ok w2) ∧ wire_fits w2
        ∧ ∃ d2, unwire d w2 = (d2, Ok a) ∧ stepping c2 d2.
Proof.
  intros Hs [Hb Ha]. unfold stepping in Hs. destruct c as [c|], d as [d|]; try done.
  - destruct Hs as (Hne&Hstep&Hmax). rewrite decide_False in Ha by done. destruct Ha as [Ha1 Ha2].
    destruct (compress_in_step c d a Hstep ltac:(lia) Hb) as (c1&w&E1&Hl1&Hb1&(d1&Ed1&Hs1&Hm1)&c2&w2&E2&Hl2&Hb2&d2&Ed2&Hs2&Hm2).
    assert (∀ w, (length w ≤ 2 * length a)%nat → bytes_ok w → wire_fits w) as Hfits by (intros v ??; split; [done|intros ?; right; lia]).
    exists (Some c1), w. simpl. rewrite E1, E2, Ed1. split_and!; [done|by apply Hfits| |].
    + exists (Some d1). simpl. by rewrite Hm1.
    + exists (Some c2), w2. rewrite Ed2. split_and!; [done|by apply Hfits|].
      exists (Some d2). simpl. by rewrite Hm2.
  - rewrite decide_True in Ha by done. assert (wire_fits a) as Hw by (split; auto).
    exists None, a. simpl. split_and!; [done|done|by exists None|].
    exists None, a. split_and!; [done|done|by exists None].
Qed.

(** The articles sent so far are those that the receiver restores from the
    items, and both ends are in step after them. *)
Record carried (d0 : option Compress.Decompressor) (st : state) (arts : list bytes)
    (fs : list Fpdu) (its : list Item) (ps : list bytes) : Prop := {
  c_track : track st fs its ps;
  c_restores : ∃ d, Restores d0 (its ++ map Wire ps) arts d ∧ stepping (compressor st.2) d;
}.

Lemma send_wire_ok st fs its ps w :
  track st fs its ps → quiet st → wire_fits w →
  wp never (send_wire w) (λ st' _, ∃ fs' its' ps',
    track st' fs' its' ps' ∧ its' ++ map Wire ps' = its ++ map Wire ps ++ [Wire w] ∧ quiet st'
    ∧ untouched st st' ∧ compressor st'.2 = compressor st.2 ∧ sync_no st'.2 = sync_no st.2) st.
Proof.
  intros [He Hf Hp Hr Hb Ha Hs Hpt] Hq [Hwb Hwm]. unfold send_wire.
  destruct (packer_push_ok _ ps w m Hp Hwb) as (p'&gs&out&ps'&Ep&Hp'&Hr'&Hok&Hfeed&Hps).
  { unfold Article.max_single. by rewrite Hr. }
  rewrite Hr in Hok. destruct (data_ok_valid _ Hok) as (Hv&Hd&Hl).
  apply wp_bind. eapply wp_eq; [unfold packer_push; rewrite Ep; reflexivity|].
  assert (emitted params sent0 (st.1, set_packer p' st.2) fs) as He1 by (by destruct He; split).
  destruct (push_fpdus_ok params sent0 max_ok _ fs gs He1 Hv Hl) as (o2&b2&E2&He2).
  apply wp_bind. eapply wp_eq; [exact E2|]. clear E2. apply wp_bind, wp_gets. apply wp_bind.
  set (st2 := with_output o2 b2 _) in *.
  eapply wp_mono with (λ st' _, ∃ out b, st' = with_output out b st2 ∧ emitted params sent0 st' (fs ++ gs)).
  { apply wp_if; intros Hrem.
    - destruct (send_taken_ok params sent0 max_ok _ _ He2) as (o&b&Et&Het&_); [|by eapply wp_eq; eauto].
      destruct (Nat.eq_dec (Frame.count (entity st2.2)) 0) as [H0'|]; [|lia]. apply Nat.ltb_lt in Hrem.
      unfold Frame.remaining in Hrem. rewrite H0', (emitted_empty _ _ _ _ He2 H0'), andb_false_r,
        (em_crc _ _ _ _ He2), (em_max _ _ _ _ He2) in Hrem.
      unfold entity_size_ok, HEADER_LEN, Crc.CRC_LEN in *. destruct (dp_crc params); simpl in Hrem; lia.
    - apply wp_ret. exists (sent (e_link st2.1)), (entity st2.2). split; [|done].
      unfold st2. destruct st as [[[] ? ? ? ?] []]. done. }
  intros ? _ (o3&b3&->&He3). apply wp_bind.
  assert (quiet (with_output o3 b3 st2)) as Hq3 by (by destruct Hq; split).
  eapply wp_eq; [apply local_stay; auto|]. apply wp_bind, wp_modify. apply wp_bind, wp_modify.
  apply wp_bind, wp_gets. unfold wp, env, zoom, report, modify.
  assert (its ++ map Wire ps ++ [Wire w] = (its ++ map Wire out) ++ map Wire ps') as Eits.
  { change [Wire w] with (map Wire [w]). by rewrite <-app_assoc, <-!map_app, Hps. }
  exists (fs ++ gs), (its ++ map Wire out), ps'. split; [|split_and!; try done; by destruct Hq3; split].
  split.
  - by destruct He3; split.
  - apply flow_app; [done|]. by apply flow_data.
  - done.
  - by rewrite <-Hr.
  - rewrite <-Eits, app_assoc, total_bytes_app, <-Hb. unfold total_bytes. simpl. lia.
  - rewrite <-Eits, app_assoc, total_articles_app, <-Ha. unfold total_articles. simpl. lia.
  - simpl. by rewrite last_point_app, last_point_wires.
  - by apply consecutive_wires.
Qed.

Lemma compress_run st c1 a w :
  compress_first (compressor st.2) a = (c1, Ok w) → compress (C:=C) (Src:=Src) a st = ((st.1, set_compressor c1 st.2), Ok w).
Proof.
  intros E. unfold compress. unfold compress_first in E. destruct st as [e v]. cbn [fst snd] in *.
  destruct (compressor v) as [c|] eqn:Ec.
  - destruct (Compress.compress_article c a) as [c' r]. by injection E as <- ->.
  - injection E as <- <-. destruct v; simpl in *. by subst.
Qed.

Lemma send_article_ok d0 st arts fs its ps a :
  carried d0 st arts fs its ps → quiet st → article_ok a → 0 ≤ sync_no st.2 → sync_no st.2 + 1 < 2 ^ 24 →
  wp never (send_article params a) (λ st' _, ∃ fs' its' ps',
    carried d0 st' (arts ++ [a]) fs' its' ps' ∧ quiet st' ∧ untouched st st'
    ∧ sync_no st.2 ≤ sync_no st'.2 ≤ sync_no st.2 + 1) st.
Proof.
  intros [Ht (d&Hr&Hs)] Hq Ha H0' Hn. unfold send_article.
  destruct (article_wires _ _ _ Hs Ha) as (c1&w1&Ec1&Hw1&(d1&Ed1&Hs1)&c2&w2&Ec2&Hw2&d2&Ed2&Hs2).
  apply wp_bind. eapply wp_eq; [apply compress_run, Ec1|]. set (st1 := (st.1, set_compressor c1 st.2)).
  assert (track st1 fs its ps) as Ht1 by same_track Ht.
  assert (quiet st1) as Hq1 by (by destruct Hq; split).
  apply wp_bind, wp_gets. apply wp_bind.
  eapply wp_mono with (λ st' w, ∃ fs' its' ps' d', track st' fs' its' ps' ∧ quiet st' ∧ untouched st st'
    ∧ wire_fits w ∧ Restores d0 (its' ++ map Wire ps') arts d
    ∧ unwire d w = (d', Ok a) ∧ stepping (compressor st'.2) d'
    ∧ sync_no st.2 ≤ sync_no st'.2 ≤ sync_no st.2 + 1).
  - assert (wp never (mret w1) (λ st' w, ∃ fs' its' ps' d', track st' fs' its' ps' ∧ quiet st'
      ∧ untouched st st' ∧ wire_fits w ∧ Restores d0 (its' ++ map Wire ps') arts d
      ∧ unwire d w = (d', Ok a) ∧ stepping (compressor st'.2) d'
      ∧ sync_no st.2 ≤ sync_no st'.2 ≤ sync_no st.2 + 1) st1) as Hkeep.
    { apply wp_ret. exists fs, its, ps, d1. cbn. split_and!; try done; lia. }
    destruct (interval params) as [iv|]; [|exact Hkeep]. apply wp_if; intros _; [|exact Hkeep].
    eapply wp_mono; [apply (sync_before_ok st1 _ _ _ a w1 c2 w2 Ht1 Hq1 H0' Hn Ec2)|].
    intros st' w (->&fs'&Ht'&Hq'&Hu'&Ecs). exists fs', (its ++ map Wire ps ++ [Point (sync_no st.2 + 1)]), [], d2.
    split_and!; try done.
    + rewrite app_nil_r, app_assoc, <-(app_nil_r arts). eapply restores_app; [exact Hr|]. repeat constructor.
    + by rewrite Ecs.
    + rewrite (t_sync _ _ _ _ Ht'), app_assoc, last_point_app. cbn. lia.
    + rewrite (t_sync _ _ _ _ Ht'), app_assoc, last_point_app. cbn. lia.
  - intros st' w (fs'&its'&ps'&d'&Ht'&Hq'&Hu'&Hw'&Hr'&Eu&Hs'&Hsn).
    eapply wp_mono; [apply (send_wire_ok st' fs' its' ps' w Ht' Hq' Hw')|].
    intros st2 _ (fs2&its2&ps2&Ht2&Ei&Hq2&Hu2&Ec&Esn). exists fs2, its2, ps2. split_and!; [split; [done|]|done|..].
    + exists d'. rewrite Ei, Ec, app_assoc. split; [|done]. eapply restores_app; [exact Hr'|].
      econstructor; [exact Eu|constructor].
    + destruct Hu', Hu2. split; congruence.
    + lia.
    + lia.
Qed.

(** ** The whole transfer *)

(** What the source still gives. *)
Fixpoint yields (s : Src) (arts : list bytes) : Prop :=
  match arts with
  | [] => ∃ s', ArticleIo.source_next s = (s', Ok None)
  | a :: arts => ∃ s', ArticleIo.source_next s = (s', Ok (Some a)) ∧ yields s' arts
  end.

(** The only error: a synchronisation point was not acknowledged in time. *)
Definition unacknowledged {S} (_ : S) (e : SessionError) : Prop :=
  e = Timeout ∧ 0 < SyncOption.window (dp_sync params).

Lemma carried_peer d0 r c can u st arts fs its ps :
  carried d0 st arts fs its ps → carried d0 (with_peer r c can u st) arts fs its ps.
Proof. intros Hc. same_carried Hc. Qed.

Lemma wp_never {S A} (E : S → SessionError → Prop) (m : M S A) Q s : wp never m Q s → wp E m Q s.
Proof. unfold wp. by destruct (m s) as [? [| |]]. Qed.

Lemma send_loop_ok d0 arts fuel st sofar fs its ps :
  carried d0 st sofar fs its ps → quiet st → yields (source st.2) arts → Forall article_ok arts →
  0 ≤ sync_no st.2 → sync_no st.2 + Z.of_nat (length arts) < 2 ^ 24 →
  (length arts + length (rx (e_link st.1)) + 2 ≤ fuel)%nat →
  wp unacknowledged (send_loop fuel params) (λ st' r, r = None ∧ ∃ fs its ps,
    carried d0 st' (sofar ++ arts) fs its ps ∧ quiet st') st.
Proof.
  revert arts st sofar fs its ps. induction fuel as [|fuel IH]; intros arts st sofar fs its ps Hc Hq Hy Ha H0' Hn Hf; [lia|].
  cbn [send_loop].
  destruct (drain_ok params fuel st Hq ltac:(lia)) as (rx1&c1&u1&E1&Hq1&Hl1).
  apply wp_bind. eapply wp_eq; [exact E1|]. clear E1. cbv iota.
  destruct (cancel_head _ (q_cancel _ Hq)) as [Hhd Htl].
  set (st1 := with_peer rx1 c1 (e_cancel st.1) u1 st) in *.
  set (st2 := with_peer rx1 c1 (tail (e_cancel st.1)) u1 st).
  assert (env (Src:=Src) cancelled st1 = (st2, Ok false)) as E2.
  { unfold env, zoom, cancelled. cbn [st1 with_peer fst snd e_cancel]. by rewrite Hhd. }
  apply wp_bind. eapply wp_eq; [exact E2|]. clear E2. cbv iota.
  assert (quiet st2) as Hq2 by (by destruct Hq1; split).
  pose proof (carried_peer d0 rx1 c1 (tail (e_cancel st.1)) u1 _ _ _ _ _ Hc) as Hc2. fold st2 in Hc2.
  apply wp_bind, wp_gets. apply wp_if; intros Hwin.
  - apply andb_true_iff in Hwin as [Hwin%Z.ltb_lt _].
    assert (∀ rx' r, recv (e_link st2.1) = (with_rx rx' [] (e_link st2.1), r) →
      env (Src:=Src) (on_link recv) st2
        = (with_peer rx' (e_checkpoints st2.1) (e_cancel st2.1) (unacked st2.2) st2, r)) as Hrecv.
    { intros rx' r E. unfold env, on_link, zoom. by rewrite E. }
    destruct Hq2 as [Hst Hp Ho Hr Hcan Hh]. destruct rx1 as [|x rx'].
    { destruct (recv_nothing (e_link st2.1) Ho Hp) as [E _]; [by left|]. apply wp_bind.
      unfold wp at 1. rewrite (Hrecv [] _ E). done. }
    inversion Hr as [|?? Hx Hr']; subst. destruct Hx as [|id n Hid Hn'].
    + destruct (recv_nothing (e_link st2.1) Ho Hp) as [E _]; [by right; eexists|]. apply wp_bind.
      unfold wp at 1. rewrite (Hrecv rx' _ E). done.
    + destruct (ack_syn_valid id n Hid Hn') as [Hv _].
      destruct (recv_one (e_link st2.1) (Builder.ack_syn id n) rx' Ho Hp Hv eq_refl) as [E _].
      apply wp_bind. eapply wp_eq; [apply (Hrecv _ _ E)|]. set (st3 := with_peer rx' _ _ _ st2).
      assert (quiet st3) as Hq3 by (by split).
      destruct (handle_ack_ok params st3 id n Hq3 Hn') as (c4&u4&E4&Hq4).
      apply wp_bind. eapply wp_eq; [exact E4|]. cbv iota.
      eapply (IH arts); [by do 2 apply carried_peer|exact Hq4|done..|]. simpl in *. lia.
  - destruct arts as [|a arts].
    + destruct Hy as [s' Es]. apply wp_bind. eapply wp_eq; [unfold next_article; cbn; rewrite Es; reflexivity|].
      apply wp_ret. split; [done|]. exists fs, its, ps. rewrite app_nil_r.
      split; [|by destruct Hq2; split]. same_carried Hc2.
    + destruct Hy as (s'&Es&Hy). apply wp_bind. eapply wp_eq; [unfold next_article; cbn; rewrite Es; reflexivity|].
      inversion_clear Ha as [|?? Ha1 Ha2]. cbn [length] in *.
      set (st3 := (st2.1, set_source s' st2.2)).
      assert (quiet st3) as Hq3 by (by destruct Hq2; split).
      assert (carried d0 st3 sofar fs its ps) as Hc3 by same_carried Hc2.
      apply wp_bind. eapply wp_mono; [apply wp_never, (send_article_ok d0 st3 sofar fs its ps a Hc3 Hq3 Ha1 H0'); cbn; lia|].
      intros st4 _ (fs4&its4&ps4&Hc4&Hq4&[Hsrc Hrx]&Hsn). cbn in Hsn, Hsrc, Hrx.
      change (a :: arts) with ([a] ++ arts). rewrite app_assoc.
      eapply (IH arts); [exact Hc4|exact Hq4|by rewrite Hsrc|done|lia|lia|]. rewrite Hrx. lia.
Qed.

(** What was sent when the transfer completed: entities within the negotiated
    size whose FPDUs carry the articles, then the end of data; and the result. *)
Definition sent_all (d0 : option Compress.Decompressor) (arts : list bytes) (out : list bytes) (r : DataResult) : Prop :=
  ∃ batches fs its d, out = sent0 ++ map (entity_of (dp_crc params)) batches
    ∧ Forall (batch_ok params) batches ∧ Forall valid (concat batches)
    ∧ concat batches = fs ++ [Builder.dtf_end (peer_id params) Diagnostic.OK]
    ∧ Flow (peer_id params) m fs its ∧ consecutive (Checkpoint.sync start) its ∧ Restores d0 its arts d
    ∧ r = mkDataResult Completed (total_bytes (Checkpoint.data_bytes start) its)
            (total_articles (Checkpoint.articles start) its) (last_point (Checkpoint.sync start) its).

Lemma send_end_ok d0 st arts fs its ps :
  carried d0 st arts fs its ps → quiet st →
  wp never (send_end params) (λ st' r, sent_all d0 arts (sent (e_link st'.1)) r) st.
Proof.
  intros [Ht (d&Hr&_)] Hq. unfold send_end.
  destruct (flush_packer_ok _ _ _ _ Ht) as (o1&b1&p1&fs1&E1&Ht1).
  apply wp_bind. eapply wp_eq; [exact E1|]. clear E1.
  destruct (dtf_end_valid (peer_id params) Diagnostic.OK Hpeer ltac:(by vm_compute)) as [Hv Hl].
  destruct Ht1 as [He1 Hf1 _ _ Hb1 Ha1 Hs1 Hpt1].
  destruct (push_fpdu_ok params sent0 max_ok _ _ _ He1 Hv (small_fits _ Hl)) as (o2&b2&E2&He2&Hpos).
  apply wp_bind. eapply wp_eq; [exact E2|].
  destruct (send_taken_ok params sent0 max_ok _ _ He2 Hpos) as (o3&b3&E3&He3&Eb3).
  apply wp_bind. eapply wp_eq; [exact E3|]. clear E2 E3.
  match goal with |- wp _ _ _ ?s => set (st3 := s) in * end.
  assert (∃ mach, env (Src:=Src) (apply_local L_DataEnd) st3
    = ((mkEnv (e_link st3.1) mach (e_checkpoints st3.1) (e_cancel st3.1) (e_progress st3.1), st3.2), Ok tt)) as [mach E].
  { pose proof (q_state _ Hq) as Hst. unfold env, zoom, apply_local. cbn [st3 with_output fst snd e_machine].
    unfold Machine.apply, Event.local. destruct (Machine.state (e_machine st.1)); try done; eexists; reflexivity. }
  apply wp_bind. eapply wp_eq; [exact E|].
  apply wp_bind, wp_bind, wp_gets. apply wp_zoom, wp_modify. apply wp_gets.
  destruct He3 as [Hv3 _ _ _ _ (bs&g&Hfs&Hbs&Hsent&Hbuf&Hcount)].
  cbn in Hcount. rewrite Eb3 in Hcount. cbn in Hcount. destruct g; [|done]. rewrite app_nil_r in Hfs.
  exists bs, fs1, (its ++ map Wire ps), d. rewrite <-Hfs.
  split_and!; try done. rewrite !app_nil_r in *. cbn in Hb1, Ha1, Hs1 |- *. by rewrite <-Hb1, <-Ha1, <-Hs1.
Qed.

(** The decompressor that the receiver starts with. *)
Definition start_decompressor : option Compress.Decompressor :=
  if decide (dp_compression params = Compression.None_) then None
  else Some (Compress.decompressor_new (Nat.max m 1)).

Lemma send_data_ok fuel (st : state) s1 arts :
  quiet st → writes (e_link st.1) = [] → sent (e_link st.1) = sent0 →
  ArticleIo.source_rewind (source st.2) (position_of start) = (s1, Ok tt) →
  yields s1 arts → Forall article_ok arts →
  0 ≤ Checkpoint.sync start → Checkpoint.sync start + Z.of_nat (length arts) < 2 ^ 24 →
  (length arts + length (rx (e_link st.1)) + 2 ≤ fuel)%nat →
  wp unacknowledged (send_data fuel params start)
    (λ st' r, sent_all start_decompressor arts (sent (e_link st'.1)) r) st.
Proof.
  intros Hq Hw Hsent Hrew Hy Ha H0' Hn Hf. unfold send_data. apply wp_bind, wp_modify. apply wp_bind.
  eapply wp_eq; [unfold rewind; cbn [snd source send_start]; rewrite Hrew; reflexivity|].
  apply wp_bind, wp_modify. cbn [fst snd map_err].
  match goal with |- wp _ _ _ ?s => set (st2 := s) end.
  assert (Nat.max (dp_max_entity params - (if dp_crc params then Crc.CRC_LEN else 0)) (HEADER_LEN + 1) = room params) as Hroom.
  { unfold room, entity_size_ok, HEADER_LEN, Crc.CRC_LEN in *. destruct (dp_crc params); lia. }
  assert (room params ≤ MAX_FPDU_LEN)%nat as Hroom' by (unfold room; pose proof max_ok; lia).
  assert (carried start_decompressor st2 [] [] [] []) as Hc2.
  { split.
    - split; cbn [st2 fst snd].
      + split; try done; [cbn; lia|]. exists [], []. cbn. by rewrite app_nil_r, Hsent.
      + constructor.
      + apply packer_new_inv; [done|]. unfold room in *. lia.
      + exact Hroom.
      + cbn. unfold total_bytes. simpl. lia.
      + cbn. unfold total_articles. simpl. lia.
      + done.
      + done.
    - exists start_decompressor. split; [constructor|]. unfold start_decompressor, stepping. cbn.
      destruct (decide (dp_compression params = Compression.None_)); [done|]. split_and!; [done| |].
      + apply in_step_new.
      + cbn. lia. }
  assert (quiet st2) as Hq2 by (by destruct Hq; split).
  apply wp_bind. eapply wp_mono; [eapply (send_loop_ok _ arts fuel st2); eauto|].
  intros st3 r (->&fs&its&ps&Hc3&Hq3). apply wp_never. by eapply send_end_ok.
Qed.

End Track.
