(* ===== verification/ReceiveProps.v ===== *)
(** * Receiving data: properties

    What [receive_data] does with the FPDUs of a transfer: the articles go to
    the sink, every synchronisation point becomes a checkpoint to which the sink
    can be cut back, and the points are acknowledged. *)

From S2P Require Import Prelude Diag Pi Kinds Crc Fpdu FpduNum FpduCodec Params Frame State StateProps Compress CompressProps Article.
From S2P Require Import PackerProps Setters Builder BuilderProps Checkpoint ArticleIo Link LinkProps Datapath DataFlow SendProps.
Open Scope Z_scope.
Import Fpdu.

Section Receiver.
Context {C K : Type} `{!Checkpoint.CheckpointStore C} `{!Checkpoint.CheckpointLaws C}
  `{!ArticleIo.ArticleSink K} `{!ArticleIo.ArticleSinkLaws K}.
Context (params : DataParams) (crc0 : bool) (sent0 : list bytes) (start : Checkpoint) (d0 : option Compress.Decompressor) (l0 : list bytes).
Context (Hpeer : byte_ok (peer_id params)) (Hl0 : Checkpoint.articles start = Z.of_nat (length l0)).
Abbreviation state := (Env C * Receiving K)%type.
Abbreviation m := (dp_max_article params).

(** The points that the receiver acknowledges. *)
Definition acknowledges : bool :=
  negb (SyncOption.window (dp_sync params) =? 0) || negb (SyncOption.enabled (dp_sync params)).

Definition acks (its : list Item) : list bytes :=
  if acknowledges then map (λ n, entity_of crc0 [Builder.ack_syn (peer_id params) n]) (points its) else [].

Lemma acks_app its js : acks (its ++ js) = acks its ++ acks js.
Proof. unfold acks. destruct acknowledges; [|done]. by rewrite points_app, map_app. Qed.

(** A checkpoint from which the transfer can be resumed: the counters as they
    were, and a position of the sink that marks the articles before it. *)
Definition restart_point (c : C) (k : K) (its : list Item) (n : Z) : Prop :=
  ∃ its1 its2 cp arts1 d1, its = its1 ++ Point n :: its2
    ∧ Checkpoint.store_get c n = Some cp ∧ Checkpoint.sync cp = n
    ∧ Checkpoint.data_bytes cp = total_bytes (Checkpoint.data_bytes start) its1
    ∧ Checkpoint.articles cp = total_articles (Checkpoint.articles start) its1
    ∧ Restores d0 its1 arts1 d1 ∧ ArticleIo.marks k (l0 ++ arts1) (position_of cp).

(** The FPDUs [fs] are still to come, the items [its] have been received and
    have restored [arts]. *)
Record received (st : state) (fs : list Fpdu) (r : Article.Reassembler) (its : list Item) (arts : list bytes) : Prop := {
  rc_incoming : ∃ batches, incoming (e_link st.1) batches fs;
  rc_writes : writes (e_link st.1) = [];
  rc_sent : sent (e_link st.1) = sent0 ++ acks its;
  rc_crc : link_crc (e_link st.1) = crc0;
  rc_state : State.is_receiving (Machine.state (e_machine st.1)) = true;
  rc_cancel : Forall (.= false) (e_cancel st.1);
  rc_healthy : Checkpoint.healthy (e_checkpoints st.1);
  rc_reassembler : reassembler st.2 = r;
  rc_restores : Restores d0 its arts (decompressor st.2);
  rc_sink : ArticleIo.holds (sink st.2) (l0 ++ arts);
  rc_bytes : r_data_bytes st.2 = total_bytes (Checkpoint.data_bytes start) its;
  rc_articles : r_articles st.2 = total_articles (Checkpoint.articles start) its;
  rc_sync : last_sync st.2 = last_point (Checkpoint.sync start) its;
  rc_points : ∀ n, n ∈ points its → restart_point (e_checkpoints st.1) (sink st.2) its n;
}.

(** The next FPDU goes to [handle]. *)
Lemma receive_next st f fs r its arts :
  received st (f :: fs) r its arts →
  ∃ st1, received st1 fs r its arts ∧ ∀ fuel,
    receive_loop (S fuel) params st
      = (x ← handle params f; match x with Some x => mret x | None => receive_loop fuel params end) st1.
Proof.
  intros [[bs Hin] Hw Hs Hcrc Hst Hc Hh Hr Hre Hk Hb Ha Hsy Hp].
  destruct (recv_incoming _ _ _ _ Hin) as (rx'&p'&bs'&E&Hin').
  destruct (cancel_head _ Hc) as [Hhd Htl].
  exists (mkEnv (with_rx rx' p' (e_link st.1)) (e_machine st.1) (e_checkpoints st.1) (tail (e_cancel st.1)) (e_progress st.1), st.2).
  split; [by split; [exists bs'|..]|]. intros fuel. cbn [receive_loop].
  unfold mbind at 1, M_bind at 1, renv at 1, zoom at 1, cancelled at 1. rewrite Hhd. cbv iota.
  unfold mbind at 1, M_bind at 1, recv_or_crc at 1, renv at 1, on_link at 1, zoom.
  cbn [fst snd e_link e_machine e_checkpoints e_cancel e_progress]. by rewrite E.
Qed.

Lemma receiving_stay s e :
  State.is_receiving s = true →
  State.is_data_event e = true ∨ e ∈ [Received FpduKind.Syn false; Local L_Accept] →
  State.apply s e = State.Next s.
Proof.
  intros Hs He. rewrite !elem_of_cons, elem_of_nil in He.
  destruct He as [He|He].
  - pose proof (data_table_all s e) as Ht. unfold data_table in Ht. rewrite He, Hs in Ht. by apply bool_decide_eq_true in Ht.
  - destruct s; try done; by destruct He as [->|[->|[]]].
Qed.

Lemma receiver_stay m e :
  State.is_receiving (Machine.state m) = true →
  State.is_data_event e = true ∨ e ∈ [Received FpduKind.Syn false; Local L_Accept] →
  Machine.apply m e = (m, inl false).
Proof. intros Hs He. unfold Machine.apply. rewrite (receiving_stay _ _ Hs He). by destruct m. Qed.

(** *** Data *)

Lemma store_articles_ok ws st arts d' l :
  Restores (decompressor st.2) (map Wire ws) arts d' → ArticleIo.holds (sink st.2) l →
  ∃ k', store_articles (C:=C) ws st
      = ((st.1, mkReceiving k' (reassembler st.2) d'
            (r_data_bytes st.2 + Z.of_nat (sum_list_with length ws)) (r_articles st.2 + Z.of_nat (length ws))
            (last_sync st.2)), Ok tt)
    ∧ ArticleIo.holds k' (l ++ arts) ∧ ∀ l' p, ArticleIo.marks (sink st.2) l' p → ArticleIo.marks k' l' p.
Proof.
  revert st arts l. induction ws as [|w ws IH]; intros st arts l Hr Hk; cbn [store_articles map] in *.
  - inversion Hr; subst. exists (sink st.2). rewrite app_nil_r. split; [|done].
    destruct st as [e []]. cbn. by rewrite !Z.add_0_r.
  - inversion Hr as [|? ? d1 a ? arts' ? Hu Hr'|]; subst.
    assert (decompress (C:=C) (K:=K) w st = ((st.1, set_decompressor d1 st.2), Ok a)) as E.
    { unfold decompress. unfold unwire in Hu. destruct st as [e v]. cbn [fst snd] in *.
      destruct (decompressor v) as [d|] eqn:Ed.
      - destruct (Compress.decompress_article d w) as [dd x]. injection Hu as <- ->. done.
      - injection Hu as <- <-. destruct v; simpl in *; by subst. }
    rewrite (bind_eq _ _ _ _ _ E).
    destruct (ArticleIo.sink_write_ok (sink st.2) l a Hk) as (k1&Ek&Hk1&Hm1).
    assert (∀ v : Receiving K, sink v = sink st.2 →
      on_sink (C:=C) (λ k, ArticleIo.sink_write k a) (st.1, v) = ((st.1, set_sink k1 v), Ok tt)) as Es.
    { intros v Ev. unfold on_sink. cbn [snd]. by rewrite Ev, Ek. }
    rewrite (bind_eq _ _ _ _ _ (Es (set_decompressor d1 st.2) eq_refl)). erewrite bind_eq by reflexivity.
    match goal with |- context [store_articles ws ?s] => set (st1 := s) end.
    destruct (IH st1 arts' (l ++ [a])) as (k2&E2&Hk2&Hm2); [done|done|].
    exists k2. split; [|split].
    + rewrite E2. cbn. do 3 f_equal; lia.
    + by rewrite <-app_assoc in Hk2.
    + intros l' p Hm. by apply Hm2, Hm1.
Qed.

Lemma restart_point_app c k k' its js n :
  restart_point c k its n → (∀ l p, ArticleIo.marks k l p → ArticleIo.marks k' l p) →
  restart_point c k' (its ++ js) n.
Proof.
  intros (its1&its2&cp&arts1&d1&->&Hg&Hs&Hb&Ha&Hr&Hm) Hk.
  exists its1, (its2 ++ js), cp, arts1, d1. split_and!; try done; [by rewrite <-app_assoc|by apply Hk].
Qed.

Lemma receive_event (st : state) fs r its arts f :
  received st fs r its arts →
  FpduKind.is_data (kind f) = true ∨ (kind f = FpduKind.Syn ∧ is_negative f = false) →
  renv (K:=K) (apply_received f) st = (st, Ok false).
Proof.
  intros Hrc Hk. unfold renv, zoom, apply_received. destruct st as [e v]. cbn [fst snd] in *.
  rewrite decide_False by (destruct Hk as [Hk|[Hk _]]; intros E; by rewrite E in Hk).
  rewrite receiver_stay; [by destruct e|apply Hrc|]. unfold Event.received.
  destruct Hk as [Hk|[-> ->]]; [left; by destruct (kind f)|right; rewrite elem_of_cons; auto].
Qed.

Lemma receive_data_fpdu st fs r its arts f r' ws arts' d' :
  received st fs r its arts → FpduKind.is_data (kind f) = true →
  Article.reassembler_feed r f = (r', Ok ws) → Restores (decompressor st.2) (map Wire ws) arts' d' →
  ∃ st', handle params f st = (st', Ok None) ∧ received st' fs r' (its ++ map Wire ws) (arts ++ arts')
    ∧ decompressor st'.2 = d'.
Proof.
  intros Hrc Hk Hf Hr. unfold handle. rewrite Hk.
  rewrite (bind_eq _ _ _ _ _ (receive_event _ _ _ _ _ _ Hrc (or_introl Hk))).
  destruct Hrc as [Hin Hw Hs Hcrc Hst Hc Hh Hre Hres Hsk Hb Ha Hsy Hp].
  assert (feed f st = ((st.1, set_reassembler r' st.2), Ok ws)) as E by (unfold feed; rewrite Hre, Hf; done).
  rewrite (bind_eq _ _ _ _ _ E).
  destruct (store_articles_ok ws (st.1, set_reassembler r' st.2) arts' d' (l0 ++ arts) Hr Hsk) as (k'&E2&Hk'&Hm).
  rewrite (bind_eq _ _ _ _ _ E2). eexists. split; [reflexivity|]. split; [|done].
  split; cbn; try done.
  - rewrite Hs. unfold acks. rewrite points_app, points_wires, app_nil_r. done.
  - by eapply restores_app.
  - by rewrite app_assoc.
  - rewrite total_bytes_app, <-Hb. unfold total_bytes. by rewrite wires_wires.
  - rewrite total_articles_app, <-Ha. unfold total_articles. by rewrite wires_wires.
  - by rewrite last_point_app, last_point_wires.
  - intros n Hn. rewrite points_app, points_wires, app_nil_r in Hn. eapply restart_point_app; [by apply Hp|done].
Qed.

(** The data FPDUs between two points. *)
Lemma receive_data_run gs st fs r its arts r' ws arts' d' :
  received st (gs ++ fs) r its arts → Forall (λ f, FpduKind.is_data (kind f) = true) gs →
  feed_all r gs = (r', Ok ws) → Restores (decompressor st.2) (map Wire ws) arts' d' →
  ∃ st', received st' fs r' (its ++ map Wire ws) (arts ++ arts') ∧ decompressor st'.2 = d' ∧ ∀ fuel,
    receive_loop (length gs + fuel) params st = receive_loop fuel params st'.
Proof.
  revert st r its arts ws arts'. induction gs as [|g gs IH]; intros st r its arts ws arts' Hrc Hg Hf Hr; cbn [feed_all] in Hf.
  - injection Hf as <- <-. inversion Hr; subst. exists st. rewrite !app_nil_r. done.
  - inversion_clear Hg as [|?? Hg1 Hg2]. destruct (Article.reassembler_feed r g) as [r1 [w1| |]] eqn:E1; [|done..].
    destruct (feed_all r1 gs) as [r2 [w2| |]] eqn:E2; [|done..]. cbn [mbind outcome_bind] in Hf.
    injection Hf as -> <-. rewrite map_app in Hr |- *.
    destruct (restores_app_inv _ _ _ _ _ Hr) as (a1&a2&d1&->&Hr1&Hr2).
    destruct (receive_next _ _ _ _ _ _ Hrc) as (st1&Hrc1&Hnext).
    assert (decompressor st1.2 = decompressor st.2) as Ed1.
    { pose proof (restores_det _ _ _ _ (rc_restores _ _ _ _ _ Hrc1) _ _ (rc_restores _ _ _ _ _ Hrc)). tauto. }
    rewrite <-Ed1 in Hr1.
    destruct (receive_data_fpdu _ _ _ _ _ g r1 w1 a1 d1 Hrc1 Hg1 E1 Hr1) as (st2&Eh&Hrc2&Ed2).
    rewrite <-Ed2 in Hr2. destruct (IH st2 r1 _ _ w2 a2 Hrc2 Hg2 E2 Hr2) as (st3&Hrc3&Ed3&Hloop).
    exists st3. rewrite !app_assoc. split; [done|]. split; [done|]. intros fuel. cbn [length Nat.add].
    by rewrite Hnext, (bind_eq _ _ _ _ _ Eh).
Qed.

(** *** Synchronisation points *)

Lemma renv_store (st : state) op c :
  op (e_checkpoints st.1) = (c, true) →
  renv (on_store op) st
    = ((mkEnv (e_link st.1) (e_machine st.1) c (e_cancel st.1) (e_progress st.1), st.2), Ok tt).
Proof. intros E. unfold renv, zoom, on_store. by rewrite E. Qed.

Lemma syn_number dst n : 0 ≤ n < 2 ^ 24 → FpduExt.sync_number (Builder.syn dst n) = Some n.
Proof. exact (ack_syn_number dst n). Qed.

(** The acknowledgement, when there is one. *)
Lemma acknowledge_ok (st : state) n :
  writes (e_link st.1) = [] → link_crc (e_link st.1) = crc0 → State.is_receiving (Machine.state (e_machine st.1)) = true → 0 ≤ n < 2 ^ 24 →
  (if acknowledges then
     renv (K:=K) (on_link (send (Builder.ack_syn (peer_id params) n))) ;; renv (apply_local L_Accept)
   else mret tt) st
  = ((mkEnv (with_sent (sent (e_link st.1) ++ acks [Point n]) (e_link st.1))
       (e_machine st.1) (e_checkpoints st.1) (e_cancel st.1) (e_progress st.1), st.2), Ok tt).
Proof.
  intros Hw Hcrc Hs Hn. unfold acks. rewrite <-Hcrc. destruct acknowledges; cbn [points omap list_omap point_of map].
  - destruct (ack_syn_valid (peer_id params) n Hpeer Hn) as [[Hwf _] Hl].
    assert (framed_len (link_crc (e_link st.1)) (Builder.ack_syn (peer_id params) n) ≤ MAX_FPDU_LEN)%nat as Hlen
      by (unfold framed_len, MAX_FPDU_LEN, Crc.CRC_LEN; destruct (link_crc _); lia).
    unfold mbind, M_bind, renv, on_link, zoom. rewrite (send_ok _ _ Hw Hwf Hlen). cbn [fst snd].
    unfold apply_local. cbn [e_machine]. rewrite receiver_stay; [done|done|].
    right. rewrite !elem_of_cons. unfold Event.local. auto.
  - rewrite app_nil_r. by destruct st as [[[] ? ? ? ?] ?].
Qed.

Lemma receive_syn st fs its arts n dst :
  received st fs (Article.reassembler_new m) its arts → 0 ≤ n < 2 ^ 24 → n ≠ 0 →
  ∃ st', handle params (Builder.syn dst n) st = (st', Ok None)
    ∧ received st' fs (Article.reassembler_new m) (its ++ [Point n]) arts.
Proof.
  intros Hrc Hn Hn0. unfold handle. change (kind (Builder.syn dst n)) with FpduKind.Syn. cbn [FpduKind.is_data].
  assert (renv (K:=K) (apply_received (Builder.syn dst n)) st = (st, Ok false)) as E
    by (eapply receive_event; [exact Hrc|by right]).
  rewrite (bind_eq _ _ _ _ _ E). clear E. erewrite bind_eq by reflexivity.
  destruct Hrc as [[bs Hin] Hw Hs Hcrc Hst Hc Hh Hre Hres Hsk Hb Ha Hsy Hp].
  rewrite syn_number by done. cbn [default from_option]. change (id n) with n. cbv zeta.
  destruct (ArticleIo.sink_checkpoint_ok _ _ Hsk) as (k'&pos&Ek&Hk'&Hmono&Hmark).
  assert (on_sink ArticleIo.sink_checkpoint st = ((st.1, set_sink k' st.2), Ok pos)) as E
    by (unfold on_sink; rewrite Ek; done).
  rewrite (bind_eq _ _ _ _ _ E). clear E. erewrite bind_eq by reflexivity.
  match goal with |- context [Checkpoint.store_record _ ?c] => set (cp := c) end.
  destruct (Checkpoint.store_record_ok (e_checkpoints st.1) cp Hh) as (c'&Ec&Hh').
  rewrite (bind_eq _ _ _ _ _ (renv_store (st.1, set_sink k' st.2) (λ c, Checkpoint.store_record c cp) c' Ec)).
  erewrite bind_eq by reflexivity.
  match goal with |- context [if ?b then _ else _] => change b with acknowledges end.
  match goal with |- ∃ st', _ ?s = _ ∧ _ =>
    pose proof (acknowledge_ok s n Hw Hcrc Hst Hn) as E; rewrite (bind_eq _ _ _ _ _ E) end.
  eexists. split; [reflexivity|]. cbn in Hb, Ha. clear E.
  pose proof (restores_length _ _ _ _ Hres) as Hlen.
  split; cbn; try done.
  - exists bs. by destruct Hin; split.
  - by rewrite Hs, <-app_assoc, acks_app.
  - rewrite <-(app_nil_r arts). eapply restores_app; [exact Hres|]. repeat constructor.
  - rewrite total_bytes_app, <-Hb. unfold total_bytes. simpl. lia.
  - rewrite total_articles_app, <-Ha. unfold total_articles. simpl. lia.
  - by rewrite last_point_app.
  - intros n' Hn'. pose proof (Checkpoint.store_get_record (e_checkpoints st.1) cp n' Hn0) as Hget.
    rewrite Ec in Hget. cbn [fst Checkpoint.sync cp] in Hget.
    destruct (decide (n' = n)) as [->|Hne].
    + exists its, [], cp, arts, (decompressor st.2). split_and!; try done.
      unfold position_of, cp. cbn. rewrite Ha. unfold total_articles. rewrite Hl0, <-Hlen.
      replace (Z.of_nat (length l0) + Z.of_nat (length arts)) with (Z.of_nat (length (l0 ++ arts)))
        by (rewrite length_app; lia). apply Hmark.
    + rewrite points_app in Hn'. apply elem_of_app in Hn' as [Hn'|Hn']; [|by apply list_elem_of_singleton in Hn'].
      destruct (restart_point_app _ _ k' _ [Point n] _ (Hp n' Hn') Hmono) as (i1&i2&c1&a1&d1&?&?&?&?&?&?&?).
      exists i1, i2, c1, a1, d1. split_and!; try done. by rewrite Hget.
Qed.

(** *** The flow *)

Lemma receive_flow dst fs its st rest its0 arts0 arts d' :
  Flow dst m fs its → Forall (λ n, n ≠ 0) (points its) →
  received st (fs ++ rest) (Article.reassembler_new m) its0 arts0 → Restores (decompressor st.2) its arts d' →
  ∃ st', received st' rest (Article.reassembler_new m) (its0 ++ its) (arts0 ++ arts) ∧ ∀ fuel,
    receive_loop (length fs + fuel) params st = receive_loop fuel params st'.
Proof.
  intros Hf. revert st its0 arts0 arts. induction Hf as [|gs ws fs its Hd Hfeed Hf IH|n fs its Hn Hf IH];
    intros st its0 arts0 arts H0' Hrc Hr.
  - inversion Hr; subst. exists st. by rewrite !app_nil_r.
  - rewrite <-app_assoc in Hrc. destruct (restores_app_inv _ _ _ _ _ Hr) as (a1&a2&d1&->&Hr1&Hr2).
    destruct (receive_data_run gs st _ _ _ _ _ ws a1 d1 Hrc Hd Hfeed Hr1) as (st1&Hrc1&<-&Hloop1).
    rewrite points_app, points_wires in H0'.
    destruct (IH st1 _ _ a2 H0' Hrc1 Hr2) as (st2&Hrc2&Hloop2). exists st2. rewrite !app_assoc.
    split; [done|]. intros fuel. rewrite length_app, <-Nat.add_assoc. by rewrite Hloop1.
  - inversion H0' as [|?? Hn0 H0'']; subst. inversion Hr as [| |????? Hr']; subst. cbn [app] in Hrc.
    destruct (receive_next _ _ _ _ _ _ Hrc) as (st1&Hrc1&Hnext).
    destruct (receive_syn st1 _ _ _ n dst Hrc1 Hn Hn0) as (st2&Eh&Hrc2).
    assert (decompressor st2.2 = decompressor st.2) as Ed.
    { pose proof (rc_restores _ _ _ _ _ Hrc2) as R2.
      assert (Restores d0 (its0 ++ [Point n]) (arts0 ++ []) (decompressor st.2)) as R
        by (eapply restores_app; [apply Hrc|repeat constructor]).
      rewrite app_nil_r in R. by destruct (restores_det _ _ _ _ R2 _ _ R). }
    rewrite <-Ed in Hr'. destruct (IH st2 _ _ arts H0'' Hrc2 Hr') as (st3&Hrc3&Hloop).
    exists st3. rewrite <-app_assoc in Hrc3. split; [exact Hrc3|]. intros fuel. cbn [length Nat.add].
    by rewrite Hnext, (bind_eq _ _ _ _ _ Eh).
Qed.

End Receiver.
