(* ===== verification/TransferProps.v ===== *)
(** * A whole transfer

    The sender and the receiver of the data phase put together: the entities
    that the one sends are what the other receives. *)

From S2P Require Import Prelude Diag Pi Kinds Crc Fpdu FpduNum FpduCodec Params Frame State Compress CompressProps Article.
From S2P Require Import PackerProps Builder Checkpoint ArticleIo ArticleIoProps Link LinkProps Datapath DataFlow SendProps ReceiveProps.
Open Scope Z_scope.
Import Fpdu.

(** What both sides have negotiated. *)
Record agree (ps pr : DataParams) : Prop := {
  ag_compression : dp_compression pr = dp_compression ps;
  ag_max_article : dp_max_article pr = dp_max_article ps;
}.

(** The checkpoints that both sides start from have the same counters. *)
Record same_counters (a b : Checkpoint) : Prop := {
  sc_sync : Checkpoint.sync a = Checkpoint.sync b;
  sc_bytes : Checkpoint.data_bytes a = Checkpoint.data_bytes b;
  sc_articles : Checkpoint.articles a = Checkpoint.articles b;
}.

Lemma dtf_end_completed dst : FpduExt.diag_or_ok (Builder.dtf_end dst Diagnostic.OK) = Diagnostic.OK.
Proof. by vm_compute. Qed.

Section Receive.
Context {C K : Type} `{!Checkpoint.CheckpointStore C} `{!Checkpoint.CheckpointLaws C}
  `{!ArticleIo.ArticleSink K} `{!ArticleIo.ArticleSinkLaws K}.
Context (pr : DataParams) (start : Checkpoint).
Abbreviation state := (Env C * Receiving K)%type.

(** A receiver in its data phase that nobody cancels. *)
Record ready (e : Env C) : Prop := {
  rd_state : State.is_receiving (Machine.state (e_machine e)) = true;
  rd_pending : pending (e_link e) = [];
  rd_open : closed (e_link e) = false;
  rd_writes : writes (e_link e) = [];
  rd_cancel : Forall (.= false) (e_cancel e);
  rd_healthy : Checkpoint.healthy (e_checkpoints e);
}.

(** The end of data. *)
Lemma receive_end crc sent0 d0 l0 st dst r its arts fuel :
  received pr crc sent0 start d0 l0 st [Builder.dtf_end dst Diagnostic.OK] r its arts →
  ∃ st', receive_loop (S fuel) pr st
      = (st', Ok (mkDataResult Completed (r_data_bytes st'.2) (r_articles st'.2) (last_sync st'.2)))
    ∧ r_data_bytes st'.2 = total_bytes (Checkpoint.data_bytes start) its
    ∧ r_articles st'.2 = total_articles (Checkpoint.articles start) its
    ∧ last_sync st'.2 = last_point (Checkpoint.sync start) its
    ∧ ArticleIo.holds (sink st'.2) (l0 ++ arts)
    ∧ sent (e_link st'.1) = sent0 ++ acks pr crc its
    ∧ ∀ n, n ∈ points its → restart_point start d0 l0 (e_checkpoints st'.1) (sink st'.2) its n.
Proof.
  intros Hrc. edestruct receive_next as (st1&Hrc1&Hnext); [exact Hrc|]. rewrite Hnext.
  unfold handle. change (kind (Builder.dtf_end dst Diagnostic.OK)) with FpduKind.DtfEnd. cbn [FpduKind.is_data].
  assert (∃ mach, renv (K:=K) (apply_received (Builder.dtf_end dst Diagnostic.OK)) st1
    = ((mkEnv (e_link st1.1) mach (e_checkpoints st1.1) (e_cancel st1.1) (e_progress st1.1), st1.2), Ok false)) as [mach E].
  { assert (State.is_receiving (Machine.state (e_machine st1.1)) = true) as Hs by apply Hrc1. unfold renv, zoom, apply_received.
    change (kind (Builder.dtf_end dst Diagnostic.OK)) with FpduKind.DtfEnd. rewrite decide_False by done.
    change (is_negative (Builder.dtf_end dst Diagnostic.OK)) with false.
    unfold Machine.apply, Event.received. destruct (Machine.state (e_machine st1.1)); try done; eexists; reflexivity. }
  unfold mbind at 1 2, M_bind at 1 2. rewrite E. cbv zeta. rewrite dtf_end_completed.
  destruct Hrc1. eexists. split; [reflexivity|]. by split_and!.
Qed.

Lemma receive_all dst batches fs its arts d' e v l0 fuel :
  ready e → ArticleIo.holds (sink v) l0 → Checkpoint.articles start = Z.of_nat (length l0) →
  0 ≤ Checkpoint.sync start → byte_ok (peer_id pr) →
  rx (e_link e) = map (λ g, Entity (entity_of (link_crc (e_link e)) g)) batches →
  Forall (λ g, g ≠ []) batches → Forall valid (concat batches) →
  concat batches = fs ++ [Builder.dtf_end dst Diagnostic.OK] →
  Flow dst (dp_max_article pr) fs its → consecutive (Checkpoint.sync start) its →
  Restores (start_decompressor pr) its arts d' → (length (concat batches) ≤ fuel)%nat →
  ∃ st', receive_data fuel pr start (e, v)
      = (st', Ok (mkDataResult Completed (total_bytes (Checkpoint.data_bytes start) its)
                    (total_articles (Checkpoint.articles start) its) (last_point (Checkpoint.sync start) its)))
    ∧ ArticleIo.holds (sink st'.2) (l0 ++ arts)
    ∧ sent (e_link st'.1) = sent (e_link e) ++ acks pr (link_crc (e_link e)) its
    ∧ ∀ n, n ∈ points its →
        restart_point start (start_decompressor pr) l0 (e_checkpoints st'.1) (sink st'.2) its n.
Proof.
  intros [Hst Hp Ho Hw Hc Hh] Hk Hl0 Hs0 Hid Hrx Hne Hv Hcat Hflow Hcons Hres Hfuel.
  unfold receive_data. erewrite bind_eq by reflexivity. cbn [fst snd].
  set (st0 := (e, receive_start pr (sink v) start)).
  assert (received pr (link_crc (e_link e)) (sent (e_link e)) start (start_decompressor pr) l0 st0 (fs ++ [Builder.dtf_end dst Diagnostic.OK])
    (Article.reassembler_new (dp_max_article pr)) [] []) as Hrc.
  { split; cbn; try done.
    - exists batches. split; [done|done| |by rewrite Hp, <-Hcat].
      apply Forall_and; split; [done|]. by apply Forall_concat_inv.
    - unfold acks. destruct (acknowledges pr); by rewrite app_nil_r.
    - constructor.
    - by rewrite app_nil_r.
    - unfold total_bytes. simpl. lia.
    - unfold total_articles. simpl. lia.
    - intros n Hn. by apply elem_of_nil in Hn. }
  assert (Forall (λ n, n ≠ 0) (points its)) as Hnz.
  { apply Forall_forall. intros n Hn. pose proof (consecutive_bound _ _ _ Hcons Hn). lia. }
  edestruct receive_flow as (st1&Hrc1&Hloop);
    [exact Hid|exact Hl0|exact Hflow|exact Hnz|exact Hrc|exact Hres|].
  rewrite Hcat, length_app in Hfuel. cbn in Hfuel.
  replace fuel with (length fs + S (fuel - length fs - 1))%nat by lia. rewrite Hloop.
  edestruct receive_end as (st2&E&Eb&Ea&Es&Hk2&Hsent&Hpts); [exact Hrc1|]. rewrite E.
  exists st2. cbn in *. split; [by rewrite Eb, Ea, Es|]. by split_and!.
Qed.

End Receive.

(** The link of a receiver on which [out] will arrive. *)
Definition arriving {C} (out : list bytes) (e : Env C) : Env C :=
  mkEnv (with_rx (map Entity out) [] (e_link e)) (e_machine e) (e_checkpoints e) (e_cancel e) (e_progress e).

(** A checkpoint [cp] from which the receiver can resume: cut back to it, the
    sink holds the articles that precede it. *)
Definition resumable {K} `{ArticleIo.ArticleSinkLaws K} (k : K) (l0 arts : list bytes) (cp : Checkpoint) : Prop :=
  ∃ k' arts1 arts2, arts = arts1 ++ arts2
    ∧ Checkpoint.articles cp = Z.of_nat (length (l0 ++ arts1))
    ∧ ArticleIo.sink_truncate k (position_of cp) = (k', Ok tt) ∧ ArticleIo.holds k' (l0 ++ arts1).

Lemma length_batches crc bs : (length (concat bs) ≤ length (concat (map (entity_of crc) bs)))%nat.
Proof.
  induction bs as [|g bs IH]; [done|]. cbn [map concat]. rewrite !length_app.
  enough (length g ≤ length (entity_of crc g))%nat by lia. clear. induction g as [|f g IH]; [done|].
  unfold entity_of in *. cbn [map concat length]. rewrite length_app, Frame.length_framed, length_fpdu_bytes.
  pose proof (encoded_len_ge f). unfold HEADER_LEN in *. lia.
Qed.

Lemma restart_resumable {C K} `{!Checkpoint.CheckpointStore C} `{!ArticleIo.ArticleSink K} `{!ArticleIo.ArticleSinkLaws K}
    start d0 l0 (c : C) (k : K) its arts d n :
  restart_point start d0 l0 c k its n → Restores d0 its arts d → ArticleIo.holds k (l0 ++ arts) →
  Checkpoint.articles start = Z.of_nat (length l0) →
  ∃ cp, Checkpoint.store_get c n = Some cp ∧ Checkpoint.sync cp = n ∧ resumable k l0 arts cp.
Proof.
  intros (its1&its2&cp&arts1&d1&->&Hg&Hs&_&Ha&Hr1&Hm) Hr Hk Hl0. exists cp. split; [done|]. split; [done|].
  destruct (restores_app_inv _ _ _ _ _ Hr) as (b1&b2&d2&->&Hb1&_).
  destruct (restores_det _ _ _ _ Hr1 _ _ Hb1) as [<- _]. rewrite app_assoc in Hk.
  destruct (ArticleIo.sink_truncate_ok k _ b2 _ Hk Hm) as (k'&E&Hk'). exists k', arts1, b2.
  split_and!; try done. rewrite Ha. unfold total_articles.
  rewrite length_app, <-(restores_length _ _ _ _ Hr1), Hl0. lia.
Qed.

Lemma restores_none its arts d : Restores None its arts d → wires its = arts.
Proof.
  remember None as d0 eqn:E. induction 1 as [|? w d1 a its arts d2 Hu _ IH|? n its arts d2 _ IH]; subst; [done| |].
  - cbn in Hu. simplify_eq. unfold wires in *. cbn. f_equal. by apply IH.
  - by apply IH.
Qed.

(** C2: a transfer delivers the file. Sender and receiver agree on compression and
    article length, start from checkpoints with the same counters, nobody
    cancels, no write fails, the points stay below 2^24, and the peer of the
    sender only acknowledges, at any time. Then sending the articles of a source
    either times out at a full window, or completes; its entities are within the
    negotiated size, and a receiver to which they arrive completes as well with
    the same counters, its sink holds exactly these articles after those it held,
    it acknowledges the points as negotiated, and every point of the transfer is
    a checkpoint to which its sink can be cut back. With or without check bytes,
    packing and segmentation: without compression for articles within the article
    length; with it for articles of at most this length whose double fits in one
    FPDU or in the article length (then the compressed form may be segmented):
    beyond, the receiver can refuse it. *)
Theorem transfer_delivers {C1 C2 Src K} `{!Checkpoint.CheckpointStore C1} `{!Checkpoint.CheckpointLaws C1}
    `{!Checkpoint.CheckpointStore C2} `{!Checkpoint.CheckpointLaws C2} `{!ArticleIo.ArticleSource Src}
    `{!ArticleIo.ArticleSink K} `{!ArticleIo.ArticleSinkLaws K}
    (ps pr : DataParams) (start_s start_r : Checkpoint) (e_s : Env C1) (v_s : Sending Src) (s1 : Src)
    (e_r : Env C2) (v_r : Receiving K) arts l0 fuel :
  agree ps pr → entity_size_ok ps → byte_ok (peer_id ps) → byte_ok (peer_id pr) →
  same_counters start_s start_r → 0 ≤ Checkpoint.sync start_s →
  Checkpoint.sync start_s + Z.of_nat (length arts) < 2 ^ 24 → Forall (article_ok ps) arts →
  quiet (e_s, v_s) → writes (e_link e_s) = [] →
  ArticleIo.source_rewind (source v_s) (position_of start_s) = (s1, Ok tt) → yields s1 arts →
  (length arts + length (rx (e_link e_s)) + 2 ≤ fuel)%nat →
  ready e_r → link_crc (e_link e_r) = dp_crc ps → ArticleIo.holds (sink v_r) l0 →
  Checkpoint.articles start_r = Z.of_nat (length l0) →
  let '((e_s', _), r) := send_data fuel ps start_s (e_s, v_s) in
  (r = Err Timeout ∧ 0 < SyncOption.window (dp_sync ps))
  ∨ ∃ out bytes_ last, sent (e_link e_s') = sent (e_link e_s) ++ out
      ∧ Forall (λ e, length e ≤ dp_max_entity ps)%nat out
      ∧ r = Ok (mkDataResult Completed bytes_ (Checkpoint.articles start_s + Z.of_nat (length arts)) last)
      ∧ (dp_compression ps = Compression.None_ →
           bytes_ = Checkpoint.data_bytes start_s + Z.of_nat (sum_list_with length arts))
      ∧ ∀ fuel', (length (concat out) ≤ fuel')%nat → ∃ e_r' v_r',
          receive_data fuel' pr start_r (arriving out e_r, v_r) = ((e_r', v_r'), r)
          ∧ ArticleIo.holds (sink v_r') (l0 ++ arts)
          ∧ sent (e_link e_r') = sent (e_link e_r) ++
              (if acknowledges pr
               then map (λ n, entity_of (dp_crc ps) [Builder.ack_syn (peer_id pr) n])
                      (seqZ (Checkpoint.sync start_s + 1) (last - Checkpoint.sync start_s))
               else [])
          ∧ ∀ n, Checkpoint.sync start_s < n ≤ last → ∃ cp,
              Checkpoint.store_get (e_checkpoints e_r') n = Some cp ∧ Checkpoint.sync cp = n
              ∧ resumable (sink v_r') l0 arts cp.
Proof.
  intros [Hcomp Hmax] Hsize Hps Hpr [Hsy Hby Har] Hs0 Hn Harts Hq Hw Hrew Hy Hfuel Hr Hcrc Hk Hl0.
  pose proof (send_data_ok ps (sent (e_link e_s)) start_s Hsize Hps fuel (e_s, v_s) s1 arts Hq Hw eq_refl Hrew Hy Harts Hs0 Hn Hfuel) as Hsend.
  destruct (wp_run _ _ _ _ Hsend) as [([e_s' v_s']&r&->&Hall)|([e_s' v_s']&e&->&[-> Hwin])]; [right|by left].
  destruct Hall as (bs&fs&its&d&Hout&Hbs&Hv&Hcat&Hflow&Hcons&Hres&->).
  assert (start_decompressor pr = start_decompressor ps) as Ed by (unfold start_decompressor; by rewrite Hcomp, Hmax).
  exists (map (entity_of (dp_crc ps)) bs). eexists _, _. split; [exact Hout|]. split.
  { apply Forall_fmap. apply (Forall_impl _ _ _ Hbs). by intros g [_ ?]. }
  split; [unfold total_articles; by rewrite <-(restores_length _ _ _ _ Hres)|]. split.
  { intros Hnone. unfold total_bytes. unfold start_decompressor in Hres. rewrite decide_True in Hres by done.
    by rewrite (restores_none _ _ _ Hres). }
  intros fuel' Hf'. pose proof (length_batches (dp_crc ps) bs) as Hlen.
  destruct Hr as [Hst Hp Ho Hwr Hc Hh].
  destruct (receive_all pr start_r (peer_id ps) bs fs its arts d (arriving (map (entity_of (dp_crc ps)) bs) e_r) v_r l0 fuel')
    as ([e_r' v_r']&E&Hk'&Hsent&Hpts); rewrite <-?Hsy, ?Hmax, ?Ed; try done; try lia.
  { cbn. by rewrite Hcrc, map_map. }
  { apply (Forall_impl _ _ _ Hbs). by intros g [? _]. }
  exists e_r', v_r'. rewrite E, <-Hby, <-Har, <-Hsy. split; [done|]. split; [exact Hk'|]. split.
  - cbn in Hsent. rewrite Hsent, Hcrc. f_equal. unfold acks. destruct (acknowledges pr); [|done].
    rewrite Hcons, (consecutive_last _ _ Hcons). do 2 f_equal. lia.
  - intros n Hrange. assert (n ∈ points its) as Hin.
    { rewrite (consecutive_last _ _ Hcons) in Hrange. rewrite Hcons. apply elem_of_seqZ. lia. }
    eapply restart_resumable; [by apply Hpts|rewrite Ed; exact Hres|exact Hk'|exact Hl0].
Qed.

(** Articles of 700 and 1000 bytes, compressed, with a synchronisation point
    before the second, which does not compress and is sent in two segments, and
    before the third; the window of one point is reopened by each
    acknowledgement. *)
Module Sample.

Definition params (peer : Z) (role : Role) : DataParams :=
  mkDataParams peer (SyncOption.mkSyncOption 1 1) true Compression.Mixed true 800 true 2048 role.

Definition file : list bytes := [replicate 700 65; map (λ i, Z.of_nat i mod 256) (seq 0 1000); replicate 700 66].

Definition ack (n : Z) : Arrival := Entity (entity_of true [Builder.ack_syn 9 n]).

Definition sender : Env Checkpoint.MemoryCheckpoints * Sending ArticleIo.VecSource :=
  (mkEnv (set_crc true (link_new [] [Nothing; Nothing; Nothing; ack 1; Nothing; ack 2])) (Machine.mkMachine Requester State.Tde02A)
     Checkpoint.mem_default [] [],
   send_start (params 5 Requester) (ArticleIo.vec_source_new file) Checkpoint.checkpoint_default).

Definition receiver : Env Checkpoint.MemoryCheckpoints * Receiving ArticleIo.VecSink :=
  (mkEnv (set_crc true (link_new [] [])) (Machine.mkMachine Server State.Tde02B) Checkpoint.mem_default [] [],
   receive_start (params 9 Server) ArticleIo.vec_sink_new Checkpoint.checkpoint_default).

Definition run := send_data 20 (params 5 Requester) Checkpoint.checkpoint_default (sender.1, sender.2).

End Sample.

Lemma sample_yields :
  yields (ArticleIo.source_rewind (source Sample.sender.2) (position_of Checkpoint.checkpoint_default)).1 Sample.file.
Proof. vm_compute. eexists. split; [reflexivity|]. eexists. split; [reflexivity|]. eexists. split; [reflexivity|]. eexists. reflexivity. Qed.

Lemma sample_quiet : quiet Sample.sender.
Proof.
  split; [done..| |constructor|done].
  do 3 (constructor; [constructor|]). constructor; [by apply (an_ack true 9 1)|].
  constructor; [constructor|]. constructor; [by apply (an_ack true 9 2)|constructor].
Qed.

#[local] Instance article_ok_dec params a : Decision (article_ok params a).
Proof.
  unfold article_ok. apply and_dec; [apply _|].
  destruct (decide (dp_compression params = Compression.None_)); [apply or_dec; apply _|apply _].
Defined.

Lemma sample_articles_ok : Forall (article_ok (Sample.params 5 Requester)) Sample.file.
Proof. by_compute. Qed.

Lemma sample_ready : ready Sample.receiver.1.
Proof. by split. Qed.

Example transfer_delivers_witness :
  ∃ e_r v_r cp, receive_data 2600 (Sample.params 9 Server) Checkpoint.checkpoint_default
      (arriving (sent (e_link Sample.run.1.1)) Sample.receiver.1, Sample.receiver.2) = ((e_r, v_r), Sample.run.2)
    ∧ ArticleIo.holds (sink v_r) Sample.file
    ∧ Checkpoint.store_get (e_checkpoints e_r) 1 = Some cp ∧ resumable (sink v_r) [] Sample.file cp.
Proof.
  assert (entity_size_ok (Sample.params 5 Requester)) as Hsize by (apply (bool_decide_unpack _); vm_compute; exact I).
  pose proof (transfer_delivers (Sample.params 5 Requester) (Sample.params 9 Server)
    Checkpoint.checkpoint_default Checkpoint.checkpoint_default Sample.sender.1 Sample.sender.2 _
    Sample.receiver.1 Sample.receiver.2 Sample.file [] 20 (Build_agree (Sample.params 5 Requester) (Sample.params 9 Server) eq_refl eq_refl) Hsize
    ltac:(done) ltac:(done) (Build_same_counters _ _ eq_refl eq_refl eq_refl) ltac:(done) ltac:(by vm_compute)
    sample_articles_ok sample_quiet eq_refl eq_refl sample_yields ltac:(vm_compute; lia) sample_ready eq_refl eq_refl eq_refl) as H.
  assert (send_data 20 (Sample.params 5 Requester) Checkpoint.checkpoint_default (Sample.sender.1, Sample.sender.2)
    = Sample.run) as E0 by (unfold Sample.run; reflexivity).
  rewrite E0 in H. clear E0.
  assert (Sample.run.2 = Ok (mkDataResult Completed 2440 3 2)) as Er by (vm_compute; reflexivity).
  assert (length (concat (sent (e_link Sample.run.1.1))) ≤ 2600)%nat as Hlen by (apply Nat.leb_le; vm_compute; reflexivity).
  destruct Sample.run as [[e v] r]. cbn [fst snd] in *. subst r.
  destruct H as [[? _]|(out&b&last&Hout&_&Hr&_&H)]; [discriminate|]. injection Hr as <- <-.
  cbn [app e_link fst Sample.sender set_crc sent link_new] in Hout. rewrite Hout in Hlen |- *.
  destruct (H 2600%nat Hlen) as (e_r&v_r&E&Hk&_&Hp). destruct (Hp 1 ltac:(cbn; lia)) as (cp&Hg&_&Hres).
  exists e_r, v_r, cp. split; [exact E|]. split; [exact Hk|]. split; [exact Hg|exact Hres].
Defined.
