(* ===== verification/Requester.v ===== *)
(** * The requester ([crates/pesit-io/src/requester.rs])

    Connection, file transfers, messages and the end of a session, as
    computations over the link and the state machine. Time-outs are part of the
    script of the link. *)

From S2P Require Import Prelude Diag Pi Kinds Ebcdic Fpdu Params Frame State Builder.
From S2P Require Import Checkpoint ArticleIo Link Datapath.
Open Scope Z_scope.

Record Preconnect : Type := mkPreconnect { identifier : ustring; pc_password : ustring }.

Record RequesterConfig : Type := mkRequesterConfig {
  requester_id : ustring;
  server_id : ustring;
  password : option ustring;
  cfg_version : Version;
  cfg_sync : SyncOption;
  cfg_resync : bool;
  cfg_crc : bool;
  cfg_compression : Compression;
  cfg_max_entity : Z;
  cfg_multi_article : bool;
  preconnect : option Preconnect;
  cfg_free_message : option ustring;
  cfg_access : AccessType;
}.

Definition requester_config_default : RequesterConfig :=
  mkRequesterConfig [] [] None Version.E (SyncOption.mkSyncOption 32 4) true false Compression.None_
    0xFFFF true None None AccessType.Mixed.

Record Negotiated : Type := mkNegotiated {
  ng_version : Version;
  ng_sync : SyncOption;
  ng_resync : bool;
  ng_crc : bool;
}.

Record TransferSpec : Type := mkTransferSpec {
  file : Builder.FileSpec;
  restart : option Checkpoint;
}.

Record TransferOutcome : Type := mkTransferOutcome {
  to_transfer_id : Z;
  to_data : DataResult;
  to_remote : Builder.FileSpec;
  started_from : Checkpoint;
  to_diag : Diagnostic;
}.

Definition completed (e : DataEnd) : bool := match e with Completed => true | _ => false end.

Definition is_complete (o : TransferOutcome) : bool :=
  completed (dr_end (to_data o)) && Diagnostic.is_ok (to_diag o).

Record MessageOutcome : Type := mkMessageOutcome {
  mo_diag : Diagnostic;
  mo_reply : option bytes;
}.

(** ** The link and the machine

    The part of the state that both engines drive. *)
Record Conn : Type := mkConn { c_link : Link; c_machine : Machine }.

Definition c_on_link {A} (m : M Link A) : M Conn A := zoom c_link (λ l c, mkConn l (c_machine c)) m.
Definition c_set_machine (m : Machine) (c : Conn) : Conn := mkConn (c_link c) m.

(** [machine.apply(..).ok()]. *)
Definition c_force (ev : Event) : M Conn unit :=
  modify (λ c, c_set_machine (Machine.apply (c_machine c) ev).1 c).

(** [machine.apply(Event::local(..)).map_err(Negotiation)?]. *)
Definition c_apply_local (ev : LocalEvent) : M Conn unit := λ c,
  match Machine.apply (c_machine c) (Event.local ev) with
  | (m, inl _) => (c_set_machine m c, Ok tt)
  | (m, inr err) => (c_set_machine m c, Err (Negotiation (Transition err)))
  end.

Definition protocol_error {A} (k : FpduKind) : M Conn A := λ c,
  (c, Err (Protocol (Machine.state (c_machine c)) k)).

(** [machine.apply(Event::received(..)).map_err(Protocol)?]: whether the FPDU is
    ignored. *)
Definition c_apply_kind (k : FpduKind) (negative : bool) : M Conn bool := λ c,
  match Machine.apply (c_machine c) (Event.received k negative) with
  | (m, inl ignored) => (c_set_machine m c, Ok ignored)
  | (m, inr _) => (c_set_machine m c, Err (Protocol (Machine.state m) k))
  end.

Definition aborted {A} (f : Fpdu) : M Conn A :=
  raise (Aborted (FpduExt.diag_or_ok f) (Fpdu.get_text f Pi.FreeMessage)).

(** ** The session *)
Record Requester_ : Type := mkRequester {
  rq_conn : Conn;
  rq_cfg : RequesterConfig;
  rq_my_id : Z;
  rq_peer_id : Z;
  rq_negotiated : Negotiated;
  rq_max_entity : nat;
}.

Definition connect_params (cfg : RequesterConfig) : Builder.ConnectParams :=
  Builder.mkConnectParams (requester_id cfg) (server_id cfg) (password cfg) (cfg_version cfg)
    (cfg_sync cfg) (cfg_access cfg) (cfg_resync cfg) (cfg_crc cfg) None (cfg_free_message cfg).

(** The pre-connection message and its acknowledgement. *)
Definition pre_connect (pc : Preconnect) : M Link unit :=
  send_entity (Ebcdic.preconnect_message (identifier pc) (pc_password pc)) ;;
  reply ← recv_entity;
  if (length reply <? length Ebcdic.PRECONNECT_ACK)%nat
     || negb (bool_decide (take 4 reply = Ebcdic.PRECONNECT_ACK))
  then raise PreconnectRefused else mret tt.

(** What the reply to CONNECT makes of the session. *)
Definition connect_reply (reply : Fpdu) : M Conn unit :=
  match Fpdu.kind reply with
  | FpduKind.Aconnect => c_apply_kind FpduKind.Aconnect false ;; mret tt
  | FpduKind.Rconnect =>
      c_force (Event.received FpduKind.Rconnect false) ;;
      raise (Refused FpduKind.Connect (FpduExt.diag_or_ok reply) (Fpdu.get_text reply Pi.FreeMessage))
  | FpduKind.Abort => aborted reply
  | k => protocol_error k
  end.

Definition negotiated_of (cfg : RequesterConfig) (reply : Fpdu) : Negotiated :=
  mkNegotiated (default (cfg_version cfg) (FpduExt.version reply))
    (SyncOption.negotiate (cfg_sync cfg) (default SyncOption.NONE (FpduExt.sync_option reply)))
    (cfg_resync cfg && (default 0 (Fpdu.get_num reply Pi.Resync) =? 1))
    (cfg_crc cfg).

Definition connect (cfg : RequesterConfig) : M Conn Requester_ :=
  (match preconnect cfg with Some pc => c_on_link (pre_connect pc) | None => mret tt end) ;;
  c_on_link (modify (set_crc (cfg_crc cfg))) ;;
  let my_id := 1 in
  c_apply_local L_Connect ;;
  c_on_link (send (Builder.connect (connect_params cfg) my_id)) ;;
  reply ← c_on_link recv;
  connect_reply reply ;;
  gets (λ c, mkRequester c cfg my_id (Fpdu.id_src reply) (negotiated_of cfg reply)
               (Z.to_nat (cfg_max_entity cfg))).

(** The loop of [request]: FPDUs that the tables ignore are skipped. *)
Fixpoint await (fuel : nat) (request expect : FpduKind) : M Conn Fpdu :=
  match fuel with
  | O => lift Panic
  | S fuel =>
      reply ← c_on_link recv;
      if decide (Fpdu.kind reply = FpduKind.Abort) then
        c_force (Event.received FpduKind.Abort false) ;; aborted reply
      else
        let negative := Fpdu.is_negative reply in
        ignored ← c_apply_kind (Fpdu.kind reply) negative;
        if ignored : bool then await fuel request expect
        else if decide (Fpdu.kind reply ≠ expect) then protocol_error (Fpdu.kind reply)
        else if negative then raise (Refused request (FpduExt.diag_or_ok reply) (peer_message reply))
        else mret reply
  end.

Definition on_conn {A} (m : M Conn A) : M Requester_ A :=
  zoom rq_conn (λ c s, mkRequester c (rq_cfg s) (rq_my_id s) (rq_peer_id s) (rq_negotiated s)
                         (rq_max_entity s)) m.

Definition request (fuel : nat) (f : Fpdu) (event : LocalEvent) (expect : FpduKind) : M Requester_ Fpdu :=
  on_conn (c_apply_local event ;; c_on_link (send f) ;; await fuel (Fpdu.kind f) expect).

Definition set_rq_max_entity (n : nat) (s : Requester_) : Requester_ :=
  mkRequester (rq_conn s) (rq_cfg s) (rq_my_id s) (rq_peer_id s) (rq_negotiated s) n.

Definition data_params (s : Requester_) (compression : Compression) (max_entity max_article : nat)
    : DataParams :=
  mkDataParams (rq_peer_id s) (ng_sync (rq_negotiated s)) (ng_resync (rq_negotiated s)) compression
    (ng_crc (rq_negotiated s)) max_entity (cfg_multi_article (rq_cfg s)) max_article Requester.

(** ** Transfers

    The session with what the caller lends for one transfer: the store of
    checkpoints, the source or sink, and the controls. *)
Record Job (C X : Type) : Type := mkJob {
  j_session : Requester_;
  j_store : C;
  j_data : X;
  j_cancel : list bool;
  j_progress : list Progress;
}.
Arguments mkJob {C X} _ _ _ _ _.
Arguments j_session {C X} _. Arguments j_store {C X} _. Arguments j_data {C X} _.
Arguments j_cancel {C X} _. Arguments j_progress {C X} _.

(** The attributes that both directions send. *)
Definition file_of (s : Requester_) (spec : TransferSpec) : Builder.FileSpec :=
  let f := file spec in
  Builder.mkFileSpec (Builder.fs_requester f) (Builder.fs_server f) (Builder.file_type f)
    (Builder.file_name f) (Builder.fs_transfer_id f) (bool_decide (is_Some (restart spec)))
    (Builder.data_code f) (Builder.priority f)
    (if Builder.fs_max_entity_size f =? 0 then cfg_max_entity (rq_cfg s) else Builder.fs_max_entity_size f)
    (Builder.fs_article_format f) (Builder.article_length f) (Builder.organisation f)
    (Builder.label f) (Builder.reservation_unit f) (Builder.max_reservation f)
    (Builder.creation_date f) (Builder.extraction_date f) (Builder.client_id f) (Builder.bank_id f)
    (Builder.file_access_control f) (Builder.fs_free_message f).

Definition agreed_entity (f : Builder.FileSpec) (ack : Fpdu) : nat :=
  Z.to_nat (match FpduExt.max_entity_size ack with
            | Some m => Z.min m (Builder.fs_max_entity_size f)
            | None => Builder.fs_max_entity_size f
            end).

(** The request that opens a file, CREATE or SELECT: the acknowledgement and the
    agreed size of an entity. *)
Definition open_file (fuel : nat) (f : Builder.FileSpec) (req : Fpdu) (event : LocalEvent)
    (expect : FpduKind) : M Requester_ (Fpdu * nat) :=
  ack ← request fuel req event expect;
  let max := agreed_entity f ack in
  modify (set_rq_max_entity max) ;;
  mret (ack, max).

(** ORF, which negotiates the compression. *)
Definition open_data (fuel : nat) : M Requester_ Compression :=
  peer ← gets rq_peer_id;
  own ← gets (λ s, cfg_compression (rq_cfg s));
  ack ← request fuel (Builder.orf peer own) L_Open FpduKind.AckOrf;
  mret (Compression.negotiate own (default Compression.None_ (FpduExt.compression ack))).

(** [match self.request(..) { Ok(_) => {} , Err(Refused { diag: d, .. }) => diag = d, .. }]. *)
Definition unless_refused (m : M Requester_ Diagnostic) : M Requester_ Diagnostic := λ s,
  match m s with
  | (s, Err (Refused _ d _)) => (s, Ok d)
  | r => r
  end.

(** TRANS.END unless interrupted, CRF and DESELECT. *)
Definition close_transfer (fuel : nat) (data : DataResult) : M Requester_ Diagnostic :=
  peer ← gets rq_peer_id;
  diag ← match dr_end data with
         | Completed | EndedWithError _ =>
             unless_refused (
               ack ← request fuel (Builder.trans_end peer (Some (dr_data_bytes data)) (Some (dr_articles data)))
                       L_TransferEnd FpduKind.AckTransEnd;
               lift (check_counts ack (dr_data_bytes data) (dr_articles data)) ;;
               mret Diagnostic.OK)
         | Interrupted _ _ _ => mret Diagnostic.OK
         end;
  diag ← unless_refused (request fuel (Builder.crf peer Diagnostic.OK) L_Close FpduKind.AckCrf ;; mret diag);
  unless_refused (request fuel (Builder.deselect peer Diagnostic.OK) L_Deselect FpduKind.AckDeselect ;; mret diag).

Section Transfer.
Context {C X : Type} `{Checkpoint.CheckpointStore C}.

Definition session {A} (m : M Requester_ A) : M (Job C X) A :=
  zoom j_session (λ s j, mkJob s (j_store j) (j_data j) (j_cancel j) (j_progress j)) m.

(** An operation of the store, whose failure is an I/O error. *)
Definition job_store (op : C → C * bool) : M (Job C X) unit := λ j,
  let '(c, ok) := op (j_store j) in
  (mkJob (j_session j) c (j_data j) (j_cancel j) (j_progress j),
   if ok : bool then Ok tt else Err (Io ArticleIo.OsError)).

Definition job_data {A} (op : X → X * outcome ArticleIo.IoError A) : M (Job C X) A := λ j,
  let '(x, r) := op (j_data j) in
  (mkJob (j_session j) (j_store j) x (j_cancel j) (j_progress j), map_err Io r).

(** The environment of the data phase, and back. *)
Definition job_env (j : Job C X) : Env C :=
  mkEnv (c_link (rq_conn (j_session j))) (c_machine (rq_conn (j_session j))) (j_store j)
    (j_cancel j) (j_progress j).

Definition job_back (e : Env C) (x : X) (j : Job C X) : Job C X :=
  let s := j_session j in
  mkJob (mkRequester (mkConn (e_link e) (e_machine e)) (rq_cfg s) (rq_my_id s) (rq_peer_id s)
           (rq_negotiated s) (rq_max_entity s))
    (e_checkpoints e) x (e_cancel e) (e_progress e).

(** The end of both directions. *)
Definition finish_transfer (fuel : nat) (ack : Fpdu) (f : Builder.FileSpec) (start : Checkpoint)
    (data : DataResult) (on_complete : M (Job C X) unit) : M (Job C X) TransferOutcome :=
  diag ← session (close_transfer fuel data);
  (if completed (dr_end data) && Diagnostic.is_ok diag
   then on_complete ;; job_store Checkpoint.store_clear else mret tt) ;;
  mret (mkTransferOutcome (default (Builder.fs_transfer_id f) (FpduExt.transfer_id ack)) data
          (Builder.from_fpdu ack) start diag).

End Transfer.

Section SendFile.
Context {C Src : Type} `{Checkpoint.CheckpointStore C} `{ArticleIo.ArticleSource Src}.

(** CREATE, ORF and WRITE: the acknowledgement of the file, the parameters of
    the data phase and its starting point. *)
Definition open_write (fuel : nat) (f : Builder.FileSpec) : M (Job C Src) (Fpdu * DataParams * Checkpoint) :=
  peer ← session (gets rq_peer_id);
  opened ← session (open_file fuel f (Builder.create f peer) L_Create FpduKind.AckCreate);
  let '(created, max_entity) := opened in
  compression ← session (open_data fuel);
  ack ← session (request fuel (Builder.write peer) L_Write FpduKind.AckWrite);
  let point := default 0 (FpduExt.restart_point ack) in
  start ← (if Builder.restarted f && negb (point =? 0) then
             o ← gets (λ j, Checkpoint.store_get (j_store j) point);
             lift (ok_or o (Negotiation (UnknownRestartPoint point)))
           else mret Checkpoint.checkpoint_default);
  (if Checkpoint.sync start =? 0 then job_store Checkpoint.store_clear else mret tt) ;;
  params ← session (gets (λ s, data_params s compression max_entity (Z.to_nat (Builder.article_length f))));
  mret (created, params, start).

Definition send_data_of (fuel : nat) (params : DataParams) (start : Checkpoint) : M (Job C Src) DataResult :=
  zoom (λ j, (job_env j, send_start params (j_data j) start))
       (λ st j, job_back st.1 (source st.2) j)
       (send_data fuel params start).

Definition send_file (fuel : nat) (spec : TransferSpec) : M (Job C Src) TransferOutcome :=
  f ← session (gets (λ s, file_of s spec));
  opened ← open_write fuel f;
  let '(created, params, start) := opened in
  data ← send_data_of fuel params start;
  finish_transfer fuel created f start data (mret tt).

End SendFile.

Section ReceiveFile.
Context {C K : Type} `{Checkpoint.CheckpointStore C} `{ArticleIo.ArticleSink K}.

(** SELECT, ORF and READ; the sink is cut back to the starting point. *)
Definition open_read (fuel : nat) (spec : TransferSpec) (f : Builder.FileSpec)
    : M (Job C K) (Fpdu * DataParams * Checkpoint) :=
  peer ← session (gets rq_peer_id);
  opened ← session (open_file fuel f (Builder.select f peer RequestedAttributes.ALL) L_Select FpduKind.AckSelect);
  let '(selected, max_entity) := opened in
  let remote := Builder.from_fpdu selected in
  compression ← session (open_data fuel);
  let requested := match restart spec with Some c => Checkpoint.sync c | None => 0 end in
  start ← (if requested =? 0 then mret Checkpoint.checkpoint_default
           else
             o ← gets (λ j, Checkpoint.store_get (j_store j) requested);
             lift (ok_or o (Negotiation (UnknownRestartPoint requested))));
  session (request fuel (Builder.read peer (Checkpoint.sync start)) L_Read FpduKind.AckRead) ;;
  (if Checkpoint.sync start =? 0 then
     job_store Checkpoint.store_clear ;;
     job_data (λ k, ArticleIo.sink_truncate k (ArticleIo.mkPosition 0 0 0))
   else job_data (λ k, ArticleIo.sink_truncate k (position_of start))) ;;
  params ← session (gets (λ s, data_params s compression max_entity
                           (Z.to_nat (Z.max (Builder.article_length remote) (Builder.article_length f)))));
  mret (selected, params, start).

Definition receive_data_of (fuel : nat) (params : DataParams) (start : Checkpoint) : M (Job C K) DataResult :=
  zoom (λ j, (job_env j, receive_start params (j_data j) start))
       (λ st j, job_back st.1 (sink st.2) j)
       (receive_data fuel params start).

Definition receive_file (fuel : nat) (spec : TransferSpec) : M (Job C K) TransferOutcome :=
  f ← session (gets (λ s, file_of s spec));
  opened ← open_read fuel spec f;
  let '(selected, params, start) := opened in
  data ← receive_data_of fuel params start;
  finish_transfer fuel selected f start data (job_data ArticleIo.sink_finish).

End ReceiveFile.

(** ** Messages *)

Definition check_bytes_cost (crc : bool) : nat := if crc then 2 else 0.

Definition message_room (max_entity : nat) (peer : Z) (f : Builder.FileSpec) (expects_reply crc : bool) : nat :=
  let first := Builder.msg FpduKind.Msg peer f expects_reply None in
  Nat.max (max_entity - (Fpdu.encoded_len first + 3 + check_bytes_cost crc)) 1.

Definition segment_room (max_entity : nat) (crc : bool) : nat :=
  Nat.max (max_entity - (Fpdu.HEADER_LEN + 3 + 3 + check_bytes_cost crc)) 1.

(** The segments after the first: all but the last are MSGMM. *)
Fixpoint segment_fpdus (peer : Z) (chunks : list bytes) : list Fpdu :=
  match chunks with
  | [] => []
  | [c] => [Builder.msg_segment FpduKind.MsgFm peer c]
  | c :: chunks => Builder.msg_segment FpduKind.MsgMm peer c :: segment_fpdus peer chunks
  end.

Fixpoint send_all (fs : list Fpdu) : M Link unit :=
  match fs with [] => mret tt | f :: fs => send f ;; send_all fs end.

(** The reply to a segmented message. *)
Definition segmented_reply (reply : Fpdu) : M Conn Fpdu :=
  if decide (Fpdu.kind reply = FpduKind.Abort) then
    c_force (Event.received FpduKind.Abort false) ;; aborted reply
  else
    let negative := Fpdu.is_negative reply in
    c_apply_kind (Fpdu.kind reply) negative ;;
    if decide (Fpdu.kind reply ≠ FpduKind.AckMsg) then protocol_error (Fpdu.kind reply)
    else if negative then
      raise (Refused FpduKind.Msg (FpduExt.diag_or_ok reply) (Fpdu.get_text reply Pi.FreeMessage))
    else mret reply.

Definition send_message (fuel : nat) (f : Builder.FileSpec) (message : bytes) (expects_reply : bool)
    : M Requester_ MessageOutcome :=
  peer ← gets rq_peer_id;
  crc ← gets (λ s, ng_crc (rq_negotiated s));
  max_entity ← gets rq_max_entity;
  let room := message_room max_entity peer f expects_reply crc in
  ack ← (if (length message <=? room)%nat then
           request fuel (Builder.msg FpduKind.Msg peer f expects_reply (Some message)) L_Message FpduKind.AckMsg
         else
           on_conn (
             c_apply_local L_Message ;;
             c_on_link (send (Builder.msg FpduKind.MsgDm peer f expects_reply (Some (take room message)))) ;;
             c_on_link (send_all (segment_fpdus peer
               (chunks (segment_room max_entity crc) (drop room message)))) ;;
             c_apply_local L_DataEnd ;;
             reply ← c_on_link recv;
             segmented_reply reply));
  mret (mkMessageOutcome (FpduExt.diag_or_ok ack) (Fpdu.get ack Pi.Message)).

(** ** The end of a session

    Closing the link is left to its owner. *)
Definition release (fuel : nat) : M Requester_ unit :=
  peer ← gets rq_peer_id;
  own ← gets rq_my_id;
  request fuel (Builder.release peer own Diagnostic.OK) L_Release FpduKind.Relconf ;; mret tt.

(** A failed send is ignored. *)
Definition try_send (f : Fpdu) : M Conn unit := λ c,
  match c_on_link (send f) c with (c, Err _) => (c, Ok tt) | r => r end.

Definition abort (diag : Diagnostic) : M Requester_ unit :=
  peer ← gets rq_peer_id;
  own ← gets rq_my_id;
  on_conn (c_force (Event.local L_Abort) ;; try_send (Builder.abort peer own diag)).

Definition cancel_code_of_requester : EndCode := EndCode.CancelByRequester.
