(* ===== verification/Responder.v ===== *)
(** * The responder ([crates/pesit-io/src/responder.rs])

    The server side of a session: connection, the loop of the file selection
    phase, transfers, messages and the end. The application is the interface
    [ServerHandler], whose state is threaded through its calls. *)

From S2P Require Import Prelude Diag Pi Kinds Crc Ebcdic Fpdu Params Frame State Builder.
From S2P Require Import Checkpoint ArticleIo Link Datapath Requester.
Open Scope Z_scope.

Record Refusal : Type := mkRefusal { rf_diag : Diagnostic; rf_message : option ustring }.

Definition refusal_new (diag : Diagnostic) : Refusal := mkRefusal diag None.

Record ConnectRequest : Type := mkConnectRequest {
  cr_requester : ustring;
  cr_server : ustring;
  cr_password : option ustring;
  cr_version : Version;
  cr_sync : SyncOption;
  cr_access : AccessType;
  cr_resync : bool;
  cr_crc : bool;
  cr_free_message : option ustring;
  cr_preconnect : option (ustring * ustring);
  cr_remote_addr : ustring;
}.

Record ConnectAccept : Type := mkConnectAccept {
  ca_sync : SyncOption;
  ca_resync : bool;
  ca_compression : Compression;
  ca_multi_article : bool;
  ca_max_entity : Z;
  ca_free_message : option ustring;
}.

Definition connect_accept_default : ConnectAccept :=
  mkConnectAccept (SyncOption.mkSyncOption 32 4) true Compression.None_ true 0xFFFF None.

Record SessionInfo : Type := mkSessionInfo {
  si_id : ustring;
  si_requester : ustring;
  si_server : ustring;
  si_remote_addr : ustring;
  si_negotiated : Negotiated;
}.

Record CreateAccept (C K : Type) : Type := mkCreateAccept {
  cra_sink : K;
  cra_checkpoints : C;
  cra_transfer_id : option Z;
  cra_restart : option Checkpoint;
  cra_max_article : nat;
  cra_handle : Z;
  cra_free_message : option ustring;
}.
Arguments mkCreateAccept {C K} _ _ _ _ _ _ _.
Arguments cra_sink {C K} _. Arguments cra_checkpoints {C K} _. Arguments cra_transfer_id {C K} _.
Arguments cra_restart {C K} _. Arguments cra_max_article {C K} _. Arguments cra_handle {C K} _.
Arguments cra_free_message {C K} _.

Record SelectAccept (C Src : Type) : Type := mkSelectAccept {
  sa_source : Src;
  sa_checkpoints : C;
  sa_spec : Builder.FileSpec;
  sa_handle : Z;
}.
Arguments mkSelectAccept {C Src} _ _ _ _.
Arguments sa_source {C Src} _. Arguments sa_checkpoints {C Src} _. Arguments sa_spec {C Src} _.
Arguments sa_handle {C Src} _.

(** [Failed] carries the text of the error. *)
Inductive TransferEvent : Type :=
| Started (transfer_id : Z) (from : Checkpoint)
| Progressed (p : Progress)
| Ended (data : DataResult) (diag : Diagnostic)
| Failed (e : SessionError).

(** The callbacks of the application, on a state of type [HS]; [cancel_flag]
    gives what the successive looks at the flag will read. *)
Class ServerHandler (HS C K Src : Type) : Type := mkServerHandler {
  authenticate : HS → ConnectRequest → HS * (ConnectAccept + Refusal);
  on_create : HS → SessionInfo → Builder.FileSpec → HS * (CreateAccept C K + Refusal);
  on_select : HS → SessionInfo → Builder.FileSpec → RequestedAttributes → HS * (SelectAccept C Src + Refusal);
  on_message : HS → SessionInfo → Builder.FileSpec → bytes → bool → HS * (option bytes + Refusal);
  transfer_event : HS → SessionInfo → Z → TransferEvent → HS;
  session_closed : HS → SessionInfo → option SessionError → HS;
  cancel_flag : HS → SessionInfo → Z → list bool;
}.

Record ResponderConfig : Type := mkResponderConfig {
  session_id : ustring;
  conn_id : Z;
  remote_addr : ustring;
}.

(** The session. [rs_written] and [rs_read] collect what the transfers leave:
    the sinks, sources and stores that the handler has given and that write to
    storage outside. *)
Record Responder (HS C K Src : Type) : Type := mkResponder {
  rs_conn : Conn;
  rs_cfg : ResponderConfig;
  rs_handler : HS;
  rs_peer_id : Z;
  rs_info : option SessionInfo;
  rs_accept : ConnectAccept;
  rs_written : list (K * C);
  rs_read : list (Src * C);
}.
Arguments mkResponder {HS C K Src} _ _ _ _ _ _ _ _.
Arguments rs_conn {HS C K Src} _. Arguments rs_cfg {HS C K Src} _. Arguments rs_handler {HS C K Src} _.
Arguments rs_peer_id {HS C K Src} _. Arguments rs_info {HS C K Src} _. Arguments rs_accept {HS C K Src} _.
Arguments rs_written {HS C K Src} _. Arguments rs_read {HS C K Src} _.

(** The session with the store and the source or sink of one transfer. *)
Record Serving (HS C K Src X : Type) : Type := mkServing {
  sv_resp : Responder HS C K Src;
  sv_store : C;
  sv_data : X;
}.
Arguments mkServing {HS C K Src X} _ _ _.
Arguments sv_resp {HS C K Src X} _. Arguments sv_store {HS C K Src X} _. Arguments sv_data {HS C K Src X} _.

(** A transfer that the application accepts. *)
Record Admission (A : Type) : Type := mkAdmission {
  ad_info : SessionInfo;
  ad_accept : A;
  ad_max_entity : Z;
  ad_transfer_id : Z;
}.
Arguments mkAdmission {A} _ _ _ _.
Arguments ad_info {A} _. Arguments ad_accept {A} _. Arguments ad_max_entity {A} _. Arguments ad_transfer_id {A} _.

(** The outcome of a computation as a value; a panic stays one. *)
Definition attempt {S A} (m : M S A) : M S (outcome SessionError A) := λ s,
  match m s with (s, Panic) => (s, Panic) | (s, r) => (s, Ok r) end.

(** ** The connection *)

Definition c_apply_received (f : Fpdu) : M Conn bool :=
  if decide (Fpdu.kind f = FpduKind.Abort) then
    c_force (Event.received FpduKind.Abort false) ;; aborted f
  else c_apply_kind (Fpdu.kind f) (Fpdu.is_negative f).

(** [apply_local(..)?; link.send(..)]. *)
Definition respond (ev : LocalEvent) (f : Fpdu) : M Conn unit :=
  c_apply_local ev ;; c_on_link (send f).

(** [expect]. *)
Fixpoint expect (fuel : nat) (k : FpduKind) : M Conn Fpdu :=
  match fuel with
  | O => lift Panic
  | S fuel =>
      f ← c_on_link recv;
      ignored ← c_apply_received f;
      if ignored : bool then expect fuel k
      else if decide (Fpdu.kind f ≠ k) then protocol_error (Fpdu.kind f)
      else mret f
  end.

(** The check bytes are detected by the length of the entity of CONNECT. *)
Definition has_check_bytes (entity : bytes) : bool :=
  let fpdu_len := match entity with b0 :: b1 :: _ => Z.to_nat (b0 * 256 + b1) | _ => 0%nat end in
  (length entity =? fpdu_len + Crc.CRC_LEN)%nat.

(** The pre-connection, when there is one, and the entity of the connection. *)
Definition read_opening : M Link (option (ustring * ustring) * bytes) :=
  first ← recv_entity;
  if Ebcdic.is_preconnect first then
    send_entity Ebcdic.PRECONNECT_ACK ;;
    next ← recv_entity;
    mret (Ebcdic.parse_preconnect first, next)
  else mret (None, first).

(** The FPDU of that entity, and whether it has check bytes. *)
Definition read_connect (entity : bytes) : M Link (bool * Fpdu) :=
  let crc := has_check_bytes entity in
  modify (set_crc crc) ;;
  parts ← lift (map_err Decode (Frame.split_entity entity crc));
  b ← lift (ok_or (head parts) (Transport (Invalid (length entity))));
  connect ← lift (map_err Decode (Fpdu.decode b));
  mret (crc, connect).

Definition connect_request (connect : Fpdu) (pre : option (ustring * ustring)) (addr : ustring) : ConnectRequest :=
  mkConnectRequest (default [] (Fpdu.get_text connect Pi.Requester))
    (default [] (Fpdu.get_text connect Pi.Server)) (Fpdu.get_text connect Pi.AccessControl)
    (default Version.E (FpduExt.version connect)) (default SyncOption.NONE (FpduExt.sync_option connect))
    (default AccessType.Mixed (FpduExt.access_type connect))
    (default 0 (Fpdu.get_num connect Pi.Resync) =? 1) (default 0 (Fpdu.get_num connect Pi.Crc) =? 1)
    (Fpdu.get_text connect Pi.FreeMessage) pre addr.

Definition answer_version (v : Version) : Version :=
  match v with Version.D => Version.D | Version.E => Version.E end.

Definition negotiate_session (req : ConnectRequest) (accept : ConnectAccept) (crc : bool) : Negotiated :=
  mkNegotiated (answer_version (cr_version req)) (SyncOption.negotiate (cr_sync req) (ca_sync accept))
    (cr_resync req && ca_resync accept) crc.

(** The size of an entity offered for a file. *)
Definition offered_entity (spec : Builder.FileSpec) (accept : ConnectAccept) : Z :=
  Z.min (Z.max (Builder.fs_max_entity_size spec) (Z.of_nat Fpdu.HEADER_LEN + 1)) (ca_max_entity accept).

(** The end of a transfer: TRANS.END, CRF and DESELECT. *)
Definition end_diag (diag : Diagnostic) (f : Fpdu) : Diagnostic :=
  let d := FpduExt.diag_or_ok f in if Diagnostic.is_ok d then diag else d.

Definition answer_trans_end (peer : Z) (data : DataResult) (diag : Diagnostic) (f : Fpdu) : Diagnostic * Fpdu :=
  let ack d := Builder.ack_trans_end peer d (Some (dr_data_bytes data)) (Some (dr_articles data)) in
  match check_counts f (dr_data_bytes data) (dr_articles data) with
  | Err _ => (Diagnostic.INVALID_COUNTS, ack Diagnostic.INVALID_COUNTS)
  | _ => (end_diag diag f, ack Diagnostic.OK)
  end.

Fixpoint serve_close (fuel : nat) (peer : Z) (data : DataResult) (diag : Diagnostic) : M Conn Diagnostic :=
  match fuel with
  | O => lift Panic
  | S fuel =>
      f ← c_on_link recv;
      ignored ← c_apply_received f;
      if ignored : bool then serve_close fuel peer data diag
      else
        match Fpdu.kind f with
        | FpduKind.TransEnd =>
            let '(diag, ack) := answer_trans_end peer data diag f in
            respond L_Accept ack ;; serve_close fuel peer data diag
        | FpduKind.Crf =>
            respond L_Accept (Builder.ack_crf peer Diagnostic.OK) ;;
            serve_close fuel peer data (end_diag diag f)
        | FpduKind.Deselect =>
            respond L_Accept (Builder.ack_deselect peer Diagnostic.OK) ;; mret diag
        | k => protocol_error k
        end
  end.

(** The segments of a message after the first. *)
Fixpoint gather (fuel : nat) (message : bytes) : M Conn bytes :=
  match fuel with
  | O => lift Panic
  | S fuel =>
      seg ← c_on_link recv;
      ignored ← c_apply_received seg;
      if ignored : bool then gather fuel message
      else
        let message' := message ++ default [] (Fpdu.get seg Pi.Message) in
        match Fpdu.kind seg with
        | FpduKind.MsgMm => gather fuel message'
        | FpduKind.MsgFm => mret message'
        | k => protocol_error k
        end
  end.

Section Responder.
Context {HS C K Src : Type} `{ServerHandler HS C K Src}
  `{Checkpoint.CheckpointStore C} `{ArticleIo.ArticleSink K} `{ArticleIo.ArticleSource Src}.
Abbreviation Responder := (Responder HS C K Src).

Definition set_conn (c : Conn) (s : Responder) : Responder :=
  mkResponder c (rs_cfg s) (rs_handler s) (rs_peer_id s) (rs_info s) (rs_accept s) (rs_written s) (rs_read s).
Definition set_handler (h : HS) (s : Responder) : Responder :=
  mkResponder (rs_conn s) (rs_cfg s) h (rs_peer_id s) (rs_info s) (rs_accept s) (rs_written s) (rs_read s).
Definition set_peer_id (id : Z) (s : Responder) : Responder :=
  mkResponder (rs_conn s) (rs_cfg s) (rs_handler s) id (rs_info s) (rs_accept s) (rs_written s) (rs_read s).
Definition set_established (i : SessionInfo) (a : ConnectAccept) (s : Responder) : Responder :=
  mkResponder (rs_conn s) (rs_cfg s) (rs_handler s) (rs_peer_id s) (Some i) a (rs_written s) (rs_read s).
Definition keep_written (x : K * C) (s : Responder) : Responder :=
  mkResponder (rs_conn s) (rs_cfg s) (rs_handler s) (rs_peer_id s) (rs_info s) (rs_accept s)
    (rs_written s ++ [x]) (rs_read s).
Definition keep_read (x : Src * C) (s : Responder) : Responder :=
  mkResponder (rs_conn s) (rs_cfg s) (rs_handler s) (rs_peer_id s) (rs_info s) (rs_accept s)
    (rs_written s) (rs_read s ++ [x]).

Definition r_conn {A} (m : M Conn A) : M Responder A := zoom rs_conn set_conn m.

(** A call of the handler. *)
Definition ask {A} (call : HS → HS * A) : M Responder A := λ s,
  let '(h, a) := call (rs_handler s) in (set_handler h s, Ok a).

Definition info : M Responder SessionInfo := λ s,
  (s, ok_or (rs_info s) (Protocol State.Cn01 FpduKind.Connect)).

Definition notify (i : SessionInfo) (handle : Z) (ev : TransferEvent) : M Responder unit :=
  modify (λ s, set_handler (transfer_event (rs_handler s) i handle ev) s).

(** ** Transfers *)
Abbreviation Serving := (Serving HS C K Src).
Definition resp {X A} (m : M Responder A) : M (Serving X) A :=
  zoom sv_resp (λ s v, mkServing s (sv_store v) (sv_data v)) m.

Definition sv_on_store {X} (op : C → C * bool) : M (Serving X) unit := λ v,
  let '(c, ok) := op (sv_store v) in
  (mkServing (sv_resp v) c (sv_data v), if ok : bool then Ok tt else Err (Io ArticleIo.OsError)).

Definition sv_on_data {X A} (op : X → X * outcome ArticleIo.IoError A) : M (Serving X) A := λ v,
  let '(x, r) := op (sv_data v) in (mkServing (sv_resp v) (sv_store v) x, map_err Io r).

(** The resources of a transfer, for its duration. *)
Definition with_resources {X A} (x : X) (c : C) (keep : X * C → Responder → Responder)
    (m : M (Serving X) A) : M Responder A := λ s,
  let '(v, r) := m (mkServing s c x) in (keep (sv_data v, sv_store v) (sv_resp v), r).

(** The environment of the data phase, and back: the progress goes to the
    handler. *)
Definition sv_env {X} (i : SessionInfo) (handle : Z) (v : Serving X) : Env C :=
  mkEnv (c_link (rs_conn (sv_resp v))) (c_machine (rs_conn (sv_resp v))) (sv_store v)
    (cancel_flag (rs_handler (sv_resp v)) i handle) [].

Definition sv_back {X} (i : SessionInfo) (handle : Z) (e : Env C) (x : X) (v : Serving X) : Serving X :=
  let s := set_conn (mkConn (e_link e) (e_machine e)) (sv_resp v) in
  mkServing (set_handler (foldl (λ h p, transfer_event h i handle (Progressed p)) (rs_handler s) (e_progress e)) s)
    (e_checkpoints e) x.

(** ORF: the negotiated compression. *)
Definition serve_orf (fuel : nat) : M Responder Compression :=
  orf ← r_conn (expect fuel FpduKind.Orf);
  accept ← gets rs_accept;
  let compression := Compression.negotiate (default Compression.None_ (FpduExt.compression orf))
                       (ca_compression accept) in
  peer ← gets rs_peer_id;
  r_conn (respond L_Accept (Builder.ack_orf peer Diagnostic.OK compression)) ;;
  mret compression.

Definition server_params (peer : Z) (i : SessionInfo) (accept : ConnectAccept) (compression : Compression)
    (max_entity max_article : nat) : DataParams :=
  mkDataParams peer (ng_sync (si_negotiated i)) (ng_resync (si_negotiated i)) compression
    (ng_crc (si_negotiated i)) max_entity (ca_multi_article accept) max_article Server.

(** ORF and WRITE: the parameters of the data phase and its start. *)
Definition serve_open_write (fuel : nat) (i : SessionInfo) (spec : Builder.FileSpec)
    (restart : option Checkpoint) (max_article : nat) (max_entity : Z) (transfer_id handle : Z)
    : M (Serving K) (DataParams * Checkpoint) :=
  compression ← resp (serve_orf fuel);
  resp (r_conn (expect fuel FpduKind.Write)) ;;
  let start := if Builder.restarted spec then default Checkpoint.checkpoint_default restart
               else Checkpoint.checkpoint_default in
  peer ← resp (gets rs_peer_id);
  resp (r_conn (respond L_Accept (Builder.ack_write peer Diagnostic.OK (Checkpoint.sync start)))) ;;
  sv_on_data (λ k, ArticleIo.sink_truncate k (position_of start)) ;;
  (if Checkpoint.sync start =? 0 then sv_on_store Checkpoint.store_clear else mret tt) ;;
  resp (notify i handle (Started transfer_id start)) ;;
  accept ← resp (gets rs_accept);
  mret (server_params peer i accept compression (Z.to_nat max_entity)
          (if (max_article =? 0)%nat then Z.to_nat (Builder.article_length spec) else max_article), start).

Definition serve_receive (fuel : nat) (i : SessionInfo) (handle : Z) (params : DataParams) (start : Checkpoint)
    : M (Serving K) DataResult :=
  zoom (λ v, (sv_env i handle v, receive_start params (sv_data v) start))
       (λ st v, sv_back i handle st.1 (sink st.2) v)
       (receive_data fuel params start).

Definition run_write (fuel : nat) (i : SessionInfo) (spec : Builder.FileSpec) (restart : option Checkpoint)
    (max_article : nat) (max_entity : Z) (transfer_id handle : Z) : M (Serving K) (DataResult * Diagnostic) :=
  opened ← serve_open_write fuel i spec restart max_article max_entity transfer_id handle;
  let '(params, start) := opened in
  data ← serve_receive fuel i handle params start;
  peer ← resp (gets rs_peer_id);
  diag ← resp (r_conn (serve_close fuel peer data Diagnostic.OK));
  mret (data, diag).

(** What follows a transfer, for both directions. *)
Definition conclude {X} (i : SessionInfo) (handle : Z) (on_complete : M (Serving X) unit)
    (result : outcome SessionError (DataResult * Diagnostic)) : M (Serving X) unit :=
  match result with
  | Ok (data, diag) =>
      (if completed (dr_end data) && Diagnostic.is_ok diag then on_complete else mret tt) ;;
      resp (notify i handle (Ended data diag))
  | Err e => resp (notify i handle (Failed e)) ;; raise e
  | Panic => lift Panic
  end.

Definition refuse_create (r : Refusal) (transfer_id : Z) : M Responder unit :=
  peer ← gets rs_peer_id;
  r_conn (respond L_Reject (Builder.ack_create peer (rf_diag r) (Some transfer_id) 0 (rf_message r))).

Definition admit_create (f : Fpdu) : M Responder (option (Admission (CreateAccept C K))) :=
  let spec := Builder.from_fpdu f in
  i ← info;
  answer ← ask (λ h, on_create h i spec);
  match answer with
  | inr r => refuse_create r (Builder.fs_transfer_id spec) ;; mret None
  | inl a =>
      let transfer_id := default (Builder.fs_transfer_id spec) (cra_transfer_id a) in
      accept ← gets rs_accept;
      let max_entity := offered_entity spec accept in
      peer ← gets rs_peer_id;
      r_conn (respond L_Accept (Builder.ack_create peer Diagnostic.OK (Some transfer_id) max_entity
                                  (cra_free_message a))) ;;
      mret (Some (mkAdmission i a max_entity transfer_id))
  end.

Definition handle_create (fuel : nat) (f : Fpdu) : M Responder unit :=
  admitted ← admit_create f;
  match admitted with
  | None => mret tt
  | Some (mkAdmission i a max_entity transfer_id) =>
      with_resources (cra_sink a) (cra_checkpoints a) keep_written (
        result ← attempt (run_write fuel i (Builder.from_fpdu f) (cra_restart a) (cra_max_article a) max_entity
                            transfer_id (cra_handle a));
        conclude i (cra_handle a) (sv_on_data ArticleIo.sink_finish ;; sv_on_store Checkpoint.store_clear) result)
  end.

(** ORF and READ. *)
Definition serve_open_read (fuel : nat) (i : SessionInfo) (spec : Builder.FileSpec) (max_entity : Z)
    (transfer_id handle : Z) : M (Serving Src) (DataParams * Checkpoint) :=
  compression ← resp (serve_orf fuel);
  read ← resp (r_conn (expect fuel FpduKind.Read));
  let point := default 0 (FpduExt.restart_point read) in
  peer ← resp (gets rs_peer_id);
  start ← (if point =? 0 then mret Checkpoint.checkpoint_default
           else
             known ← gets (λ v, Checkpoint.store_get (sv_store v) point);
             match known with
             | Some cp => mret cp
             | None =>
                 resp (r_conn (respond L_Reject (Builder.ack_read peer Diagnostic.RESTART_UNKNOWN_SYNC))) ;;
                 raise (Negotiation (UnknownRestartPoint point))
             end);
  resp (r_conn (respond L_Accept (Builder.ack_read peer Diagnostic.OK))) ;;
  (if Checkpoint.sync start =? 0 then sv_on_store Checkpoint.store_clear else mret tt) ;;
  resp (notify i handle (Started transfer_id start)) ;;
  accept ← resp (gets rs_accept);
  mret (server_params peer i accept compression (Z.to_nat max_entity) (Z.to_nat (Builder.article_length spec)), start).

Definition serve_send (fuel : nat) (i : SessionInfo) (handle : Z) (params : DataParams) (start : Checkpoint)
    : M (Serving Src) DataResult :=
  zoom (λ v, (sv_env i handle v, send_start params (sv_data v) start))
       (λ st v, sv_back i handle st.1 (source st.2) v)
       (send_data fuel params start).

Definition run_read (fuel : nat) (i : SessionInfo) (spec : Builder.FileSpec) (max_entity : Z)
    (transfer_id handle : Z) : M (Serving Src) (DataResult * Diagnostic) :=
  opened ← serve_open_read fuel i spec max_entity transfer_id handle;
  let '(params, start) := opened in
  data ← serve_send fuel i handle params start;
  peer ← resp (gets rs_peer_id);
  diag ← resp (r_conn (serve_close fuel peer data Diagnostic.OK));
  mret (data, diag).

Definition requested_attributes (f : Fpdu) : RequestedAttributes :=
  match Fpdu.get_num f Pi.RequestedAttributes with
  | Some n => RequestedAttributes.from_code (u8 n)
  | None => RequestedAttributes.ALL
  end.

(** The attributes of ACK(SELECT): the handler's, the agreed entity and a
    transfer identifier. *)
Definition select_answer (answer spec : Builder.FileSpec) (max_entity : Z) : Builder.FileSpec :=
  Builder.mkFileSpec (Builder.fs_requester answer) (Builder.fs_server answer) (Builder.file_type answer)
    (Builder.file_name answer)
    (if Builder.fs_transfer_id answer =? 0 then Builder.fs_transfer_id spec else Builder.fs_transfer_id answer)
    (Builder.restarted answer) (Builder.data_code answer) (Builder.priority answer) max_entity
    (Builder.fs_article_format answer) (Builder.article_length answer) (Builder.organisation answer)
    (Builder.label answer) (Builder.reservation_unit answer) (Builder.max_reservation answer)
    (Builder.creation_date answer) (Builder.extraction_date answer) (Builder.client_id answer)
    (Builder.bank_id answer) (Builder.file_access_control answer) (Builder.fs_free_message answer).

Definition refuse_select (r : Refusal) : M Responder unit :=
  peer ← gets rs_peer_id;
  r_conn (respond L_Reject (Builder.nack_select peer (rf_diag r) (rf_message r))).

Definition admit_select (f : Fpdu) : M Responder (option (Admission (SelectAccept C Src))) :=
  let spec := Builder.from_fpdu f in
  let attrs := requested_attributes f in
  i ← info;
  answer ← ask (λ h, on_select h i spec attrs);
  match answer with
  | inr r => refuse_select r ;; mret None
  | inl a =>
      accept ← gets rs_accept;
      let max_entity := offered_entity spec accept in
      let answer := select_answer (sa_spec a) spec max_entity in
      peer ← gets rs_peer_id;
      r_conn (respond L_Accept (Builder.ack_select answer peer attrs)) ;;
      mret (Some (mkAdmission i (mkSelectAccept (sa_source a) (sa_checkpoints a) answer (sa_handle a)) max_entity
                    (Builder.fs_transfer_id answer)))
  end.

Definition handle_select (fuel : nat) (f : Fpdu) : M Responder unit :=
  admitted ← admit_select f;
  match admitted with
  | None => mret tt
  | Some (mkAdmission i a max_entity transfer_id) =>
      with_resources (sa_source a) (sa_checkpoints a) keep_read (
        result ← attempt (run_read fuel i (sa_spec a) max_entity transfer_id (sa_handle a));
        conclude i (sa_handle a) (sv_on_store Checkpoint.store_clear) result)
  end.

(** ** Messages *)
Definition expects_reply_of (f : Fpdu) : bool :=
  match Fpdu.get_num f Pi.RequestedAttributes with Some a => Z.land a 1 =? 1 | None => false end.

Definition handle_message (fuel : nat) (first : Fpdu) : M Responder unit :=
  let spec := Builder.from_fpdu first in
  let head := default [] (Fpdu.get first Pi.Message) in
  message ← (if decide (Fpdu.kind first = FpduKind.MsgDm) then r_conn (gather fuel head) else mret head);
  i ← info;
  answer ← ask (λ h, on_message h i spec message (expects_reply_of first));
  peer ← gets rs_peer_id;
  let ack := match answer with
             | inl reply => Builder.ack_msg peer Diagnostic.OK (Some (Builder.fs_transfer_id spec)) reply
             | inr r => Builder.ack_msg peer (rf_diag r) (Some (Builder.fs_transfer_id spec))
                          (Ebcdic.utf8 <$> rf_message r)
             end in
  r_conn (respond L_Accept ack).

(** ** The session *)

(** Up to ACONNECT; the request, whose access type the loop looks at. *)
Definition establish : M Responder ConnectRequest :=
  cfg ← gets rs_cfg;
  opening ← r_conn (c_on_link read_opening);
  let '(pre, entity) := opening in
  first ← r_conn (c_on_link (read_connect entity));
  let '(crc, connect) := first in
  (if decide (Fpdu.kind connect ≠ FpduKind.Connect) then r_conn (protocol_error (Fpdu.kind connect))
   else mret tt) ;;
  r_conn (c_apply_received connect) ;;
  modify (set_peer_id (Fpdu.id_src connect)) ;;
  let req := connect_request connect pre (remote_addr cfg) in
  (if Bool.eqb (cr_crc req) crc then mret tt
   else raise (Decode (Fpdu.mkDecodeError Diagnostic.INVALID_PARAMETER Fpdu.CrcFlagMismatch))) ;;
  answer ← ask (λ h, authenticate h req);
  peer ← gets rs_peer_id;
  match answer with
  | inr r =>
      r_conn (respond L_Reject (Builder.rconnect peer (rf_diag r) (rf_message r))) ;;
      raise (Refused FpduKind.Connect (rf_diag r) (rf_message r))
  | inl accept =>
      let ng := negotiate_session req accept crc in
      modify (set_established (mkSessionInfo (session_id cfg) (cr_requester req) (cr_server req)
                                 (cr_remote_addr req) ng) accept) ;;
      r_conn (respond L_Accept (Builder.aconnect peer (conn_id cfg) (ng_version ng) (ng_sync ng) (ng_resync ng)
                                  (ca_free_message accept))) ;;
      mret req
  end.

(** One request of the file selection phase; [true] at the end of the session. *)
Definition serve_request (fuel : nat) (access : AccessType) (f : Fpdu) : M Responder bool :=
  match Fpdu.kind f with
  | FpduKind.Create =>
      r_conn (c_apply_received f) ;;
      (if AccessType.allows_write access then handle_create fuel f
       else refuse_create (refusal_new Diagnostic.SELECT_NEGOTIATION) (default 0 (FpduExt.transfer_id f))) ;;
      mret false
  | FpduKind.Select =>
      r_conn (c_apply_received f) ;;
      (if AccessType.allows_read access then handle_select fuel f
       else refuse_select (refusal_new Diagnostic.SELECT_NEGOTIATION)) ;;
      mret false
  | FpduKind.Msg | FpduKind.MsgDm =>
      r_conn (c_apply_received f) ;; handle_message fuel f ;; mret false
  | FpduKind.Release =>
      r_conn (c_apply_received f) ;;
      peer ← gets rs_peer_id;
      own ← gets (λ s, conn_id (rs_cfg s));
      r_conn (respond L_Accept (Builder.relconf peer own)) ;;
      mret true
  | k =>
      ignored ← r_conn (c_apply_received f);
      if ignored : bool then mret false else r_conn (protocol_error k)
  end.

Fixpoint serve_loop (fuel : nat) (access : AccessType) : M Responder unit :=
  match fuel with
  | O => lift Panic
  | S fuel =>
      f ← r_conn (c_on_link recv);
      ended ← serve_request fuel access f;
      if ended : bool then mret tt else serve_loop fuel access
  end.

Definition run (fuel : nat) : M Responder unit :=
  req ← establish;
  serve_loop fuel (cr_access req).

(** The errors after which no ABORT is sent. *)
Definition silent (e : SessionError) : bool :=
  match e with Aborted _ _ | Transport _ => true | _ => false end.

Definition is_idle (s : State) : bool := match s with State.Cn01 => true | _ => false end.

Definition responder_new (cfg : ResponderConfig) (l : Link) (h : HS) : Responder :=
  mkResponder (mkConn l (Machine.new Server)) cfg h 0 None connect_accept_default [] [].

Definition error_of {A} (r : outcome SessionError A) : option SessionError :=
  match r with Err e => Some e | _ => None end.

Definition serve (fuel : nat) : M Responder unit :=
  result ← attempt (run fuel);
  modify (λ s, match rs_info s with
               | Some i => set_handler (session_closed (rs_handler s) i (error_of result)) s
               | None => s
               end) ;;
  (match result with
   | Err e =>
       state ← r_conn (gets (λ c, Machine.state (c_machine c)));
       peer ← gets rs_peer_id;
       own ← gets (λ s, conn_id (rs_cfg s));
       if negb (is_idle state) && negb (silent e)
       then r_conn (try_send (Builder.abort peer own (abort_diag e))) else mret tt
   | _ => mret tt
   end) ;;
  lift result.

End Responder.
