(* ===== verification/ExchangeProps.v ===== *)
(** * Exchanges over a session: properties

    The link and the machine of one side of a conversation in which the FPDUs
    travel one by one: what a request and a response do to them. *)

From S2P Require Import Prelude Diag Pi Kinds Crc Fpdu FpduNum FpduCodec Params Frame State Setters Builder BuilderProps.
From S2P Require Import Checkpoint ArticleIo Link LinkProps Datapath Requester Responder.
Open Scope Z_scope.
Import Fpdu.

(** ** FPDUs that can be sent *)

Definition sendable (f : Fpdu) : Prop := valid f ∧ (encoded_len f ≤ HEADER_LEN + 5000)%nat.

Lemma B_sendable k cs n f :
  B k cs n f → FpduKind.is_data k = false → (n ≤ 5000)%nat → covers k cs = true → sendable f.
Proof.
  intros HB Hk Hn Hc. split; [by apply (B_valid k cs n)|]. destruct HB.
  rewrite encoded_len_params by (by rewrite B_kind). lia.
Qed.

(** Like [accept], for [sendable]; the texts are in the context. *)
Ltac sendable :=
  eapply B_sendable;
    [ repeat build_step; build_side
    | vm_compute; reflexivity | apply Nat.leb_le; vm_compute; reflexivity | vm_compute; reflexivity ].

Lemma sendable_framed crc f : sendable f → (framed_len crc f ≤ MAX_FPDU_LEN)%nat.
Proof.
  intros [_ Hl]. unfold framed_len. apply Nat.le_trans with (HEADER_LEN + 5000 + 2)%nat.
  - destruct crc; unfold Crc.CRC_LEN; lia.
  - apply Nat.leb_le. by vm_compute.
Qed.

(** ** One side of a conversation

    [talk crc role out rx s]: the link has sent [out], will receive [rx] and has
    nothing queued; the machine is in state [s]. *)
Definition talk (crc : bool) (role : Role) (out : list bytes) (rx : list Arrival) (s : State) : Conn :=
  mkConn (mkLink out [] rx [] crc (Z.to_nat 0xFFFF) false) (Machine.mkMachine role s).

(** The entity of one FPDU, and its arrival. *)
Definition wire (crc : bool) (f : Fpdu) : bytes := entity_of crc [f].
Definition arrives (crc : bool) (f : Fpdu) : Arrival := Entity (wire crc f).

Section Talk.
Context (crc : bool) (role : Role).
Abbreviation talk := (talk crc role).

Lemma talk_send f out rx s :
  sendable f → c_on_link (send f) (talk out rx s) = (talk (out ++ [wire crc f]) rx s, Ok tt).
Proof.
  intros Hf. unfold c_on_link, zoom. cbn [c_link].
  rewrite send_ok; [done|done|apply Hf|by apply sendable_framed].
Qed.

Lemma talk_recv f out rx s :
  valid f → c_on_link recv (talk out (arrives crc f :: rx) s) = (talk out rx s, Ok f).
Proof.
  intros Hf. unfold c_on_link, zoom. cbn [c_link].
  by rewrite (proj1 (recv_one (c_link (talk out (arrives crc f :: rx) s)) f rx eq_refl eq_refl Hf eq_refl)).
Qed.

Lemma talk_apply_local ev out rx s s' :
  State.apply s (Local ev) = State.Next s' → c_apply_local ev (talk out rx s) = (talk out rx s', Ok tt).
Proof. intros E. unfold c_apply_local, Machine.apply, Event.local. change (Machine.state (c_machine (talk out rx s))) with s. by rewrite E. Qed.

Lemma talk_apply_kind k neg out rx s s' :
  State.apply s (Received k neg) = State.Next s' → c_apply_kind k neg (talk out rx s) = (talk out rx s', Ok false).
Proof. intros E. unfold c_apply_kind, Machine.apply, Event.received. change (Machine.state (c_machine (talk out rx s))) with s. by rewrite E. Qed.

(** *** A request and its reply *)

(** The state between, and after. *)
Definition asks (s : State) (ev : LocalEvent) (s1 : State) : Prop := State.apply s (Local ev) = State.Next s1.
Definition hears (s1 : State) (f : Fpdu) (s2 : State) : Prop :=
  State.apply s1 (Received (kind f) (is_negative f)) = State.Next s2.

Lemma hears_request s f k s' :
  kind f = k → FpduKind.is_ack k = false → State.apply s (Received k false) = State.Next s' → hears s f s'.
Proof. intros Hk Ha E. unfold hears, is_negative. by rewrite Hk, Ha. Qed.

Lemma not_negative f : FpduExt.diag_or_ok f = Diagnostic.OK → is_negative f = false.
Proof.
  unfold FpduExt.diag_or_ok, is_negative. intros E. apply andb_false_iff. right.
  destruct (fpdu_diag f); [|done]. simpl in E. by subst.
Qed.

Lemma hears_positive s f k s' :
  kind f = k → FpduExt.diag_or_ok f = Diagnostic.OK → State.apply s (Received k false) = State.Next s' → hears s f s'.
Proof. intros Hk Ho E. unfold hears. by rewrite Hk, (not_negative f Ho). Qed.

Lemma talk_await fuel req k f out rx s s' :
  valid f → hears s f s' → kind f = k → k ≠ FpduKind.Abort →
  await (S fuel) req k (talk out (arrives crc f :: rx) s) = (talk out rx s',
    if is_negative f then Err (Refused req (FpduExt.diag_or_ok f) (peer_message f)) else Ok f).
Proof.
  intros Hv Hs Hk Ha. cbn [await]. rewrite (bind_eq _ _ _ _ _ (talk_recv f out rx s Hv)), decide_False by congruence.
  rewrite (bind_eq _ _ _ _ _ (talk_apply_kind _ _ _ _ _ _ Hs)), decide_False by (intros Hn; by apply Hn).
  by destruct (is_negative f).
Qed.

Lemma talk_exchange fuel f ev k reply out rx s s1 s2 :
  sendable f → asks s ev s1 → valid reply → hears s1 reply s2 → kind reply = k → k ≠ FpduKind.Abort →
  (c_apply_local ev ;; c_on_link (send f) ;; await (S fuel) (kind f) k)
    (talk out (arrives crc reply :: rx) s)
  = (talk (out ++ [wire crc f]) rx s2,
     if is_negative reply then Err (Refused (kind f) (FpduExt.diag_or_ok reply) (peer_message reply)) else Ok reply).
Proof.
  intros Hf H1 Hr H2 Hk Ha. rewrite (bind_eq _ _ _ _ _ (talk_apply_local _ _ _ _ _ H1)).
  rewrite (bind_eq _ _ _ _ _ (talk_send _ _ _ _ Hf)). by apply talk_await.
Qed.

(** *** An indication and its response *)

Lemma talk_apply_received f out rx s s' :
  hears s f s' → kind f ≠ FpduKind.Abort → c_apply_received f (talk out rx s) = (talk out rx s', Ok false).
Proof. intros Hs Ha. unfold c_apply_received. rewrite decide_False by done. by apply talk_apply_kind. Qed.

Lemma talk_expect fuel f k out rx s s' :
  valid f → hears s f s' → kind f = k → k ≠ FpduKind.Abort →
  expect (S fuel) k (talk out (arrives crc f :: rx) s) = (talk out rx s', Ok f).
Proof.
  intros Hv Hs Hk Ha. cbn [expect]. rewrite (bind_eq _ _ _ _ _ (talk_recv f out rx s Hv)).
  rewrite (bind_eq _ _ _ _ _ (talk_apply_received _ _ _ _ _ Hs ltac:(congruence))).
  by rewrite decide_False by (intros Hn; by apply Hn).
Qed.

Lemma talk_respond ev f out rx s s' :
  asks s ev s' → sendable f → respond ev f (talk out rx s) = (talk (out ++ [wire crc f]) rx s', Ok tt).
Proof.
  intros Hs Hf. unfold respond. rewrite (bind_eq _ _ _ _ _ (talk_apply_local _ _ _ _ _ Hs)). by apply talk_send.
Qed.

End Talk.

(** A computation on a part of the state that succeeds. *)
Lemma zoom_eq {S T A} (get : S → T) put (m : M T A) s t r :
  m (get s) = (t, r) → zoom get put m s = (put t s, r).
Proof. unfold zoom. by intros ->. Qed.
