(* ===== verification/ConnectProps.v ===== *)
(** * The connection: properties

    The two ends of a connection agree: what the requester and the responder
    negotiate, the identifiers they use and the check bytes. *)

From S2P Require Import Prelude Diag Pi Kinds Crc Ebcdic Fpdu FpduNum FpduCodec Params Frame State Setters Builder BuilderProps FileSpecProps.
From S2P Require Import Checkpoint ArticleIo Link LinkProps Datapath Requester Responder ExchangeProps.
Open Scope Z_scope.
Import Fpdu.

(** ** CONNECT and ACONNECT *)

(** What the accessors read in a CONNECT. *)
Lemma connect_reads (p : Builder.ConnectParams) src :
  let f := Builder.connect p src in
  get f Pi.Requester = Some (encode_text (Builder.cp_requester p))
  ∧ get f Pi.Server = Some (encode_text (Builder.cp_server p))
  ∧ get f Pi.AccessControl = encode_text <$> Builder.non_empty (Builder.cp_password p)
  ∧ get f Pi.Version = Some (encode_num (Version.code (Builder.cp_version p)))
  ∧ get f Pi.SyncOption = (if SyncOption.enabled (Builder.cp_sync p)
                           then Some (SyncOption.to_bytes (Builder.cp_sync p)) else None)
  ∧ get f Pi.AccessType = Some (encode_num (AccessType.code (Builder.cp_access p)))
  ∧ get f Pi.Resync = (if Builder.cp_resync p then Some (encode_num 1) else None)
  ∧ get f Pi.Crc = (if Builder.cp_crc p then Some (encode_num 1) else None)
  ∧ get f Pi.FreeMessage = encode_text <$> Builder.non_empty (Builder.cp_free_message p).
Proof.
  intros f. unfold f, Builder.connect, Builder.when, Builder.when_some, Builder.set_message.
  destruct (Builder.cp_crc p), (Builder.non_empty (Builder.cp_password p)), (SyncOption.enabled (Builder.cp_sync p)),
    (Builder.cp_resync p), (Builder.cp_timeout p), (Builder.non_empty (Builder.cp_free_message p));
    split_and!; reflexivity.
Qed.

Lemma connect_header p src : kind (Builder.connect p src) = FpduKind.Connect ∧ id_src (Builder.connect p src) = src.
Proof.
  unfold Builder.connect, Builder.when, Builder.when_some, Builder.set_message.
  destruct (Builder.cp_crc p), (Builder.non_empty (Builder.cp_password p)), (SyncOption.enabled (Builder.cp_sync p)),
    (Builder.cp_resync p), (Builder.cp_timeout p), (Builder.non_empty (Builder.cp_free_message p)); done.
Qed.

Lemma aconnect_header dst src v s r m :
  kind (Builder.aconnect dst src v s r m) = FpduKind.Aconnect ∧ id_src (Builder.aconnect dst src v s r m) = src.
Proof.
  unfold Builder.aconnect, Builder.when, Builder.set_message, Builder.when_some.
  by destruct (SyncOption.enabled s), r, (Builder.non_empty m).
Qed.

Lemma aconnect_reads dst src v s r m :
  let f := Builder.aconnect dst src v s r m in
  get f Pi.Version = Some (encode_num (Version.code v))
  ∧ get f Pi.SyncOption = (if SyncOption.enabled s then Some (SyncOption.to_bytes s) else None)
  ∧ get f Pi.Resync = (if r then Some (encode_num 1) else None).
Proof.
  intros f. unfold f, Builder.aconnect, Builder.when, Builder.set_message, Builder.when_some.
  destruct (SyncOption.enabled s), r, (Builder.non_empty m); split_and!; reflexivity.
Qed.

Lemma version_read v : Version.from_code (decode_num (encode_num (Version.code v))) = Some v.
Proof. by destruct v. Qed.
Lemma access_read a : AccessType.from_code (decode_num (encode_num (AccessType.code a))) = Some a.
Proof. by destruct a. Qed.
Lemma sync_read s : SyncOption.wf s → SyncOption.from_bytes (SyncOption.to_bytes s) = Some s.
Proof.
  intros [Hi _]. unfold SyncOption.from_bytes, SyncOption.to_bytes. simpl.
  rewrite of_be16_be16 by done. by destruct s.
Qed.

(** A text option that the format represents, or nothing. *)
Lemma text_option_read m o : opt_ok (canonical m) o → decode_text <$> (encode_text <$> Builder.non_empty o) = o.
Proof.
  intros Ho. destruct o as [s|]; [|done]. pose proof (Ho s eq_refl) as Hs.
  destruct s as [|c s]; [by destruct Hs|].
  change (Some (decode_text (encode_text (c :: s))) = Some (c :: s)). by rewrite (canonical_decode m).
Qed.

Lemma flag_read (b : bool) : (default 0 (decode_num <$> (if b then Some (encode_num 1) else None)) =? 1) = b.
Proof. by destruct b. Qed.

(** ** The entity of the connection *)

Lemma wire_sized crc f :
  wf f → ∃ b0 b1 r, wire crc f = b0 :: b1 :: r ∧ b0 * 256 + b1 = Z.of_nat (encoded_len f)
    ∧ length (wire crc f) = (encoded_len f + if crc then Crc.CRC_LEN else 0)%nat.
Proof.
  intros Hf. destruct (Frame.sized_fpdu f Hf) as (b0&b1&r&E&Hs&Hl).
  assert (length (wire crc f) = (encoded_len f + if crc then Crc.CRC_LEN else 0)%nat) as Hw.
  { unfold wire, entity_of. simpl. by rewrite app_nil_r, Frame.length_framed, length_fpdu_bytes. }
  exists b0, b1. rewrite length_fpdu_bytes in *. unfold of_be16 in Hs.
  assert (0 ≤ b0 * 256 + b1) as Hpos.
  { unfold fpdu_bytes, be16 in E. cbn [app] in E. injection E as <- <- _. lia_dm. }
  unfold wire, entity_of, Frame.framed in *. cbn [map concat] in *. rewrite app_nil_r in *.
  destruct crc; [unfold Crc.append in *|]; rewrite E in *; eexists; (split; [reflexivity|]; split; [lia|done]).
Qed.

(** The responder recognises the check bytes by the length. *)
Lemma has_check_bytes_wire crc f : wf f → has_check_bytes (wire crc f) = crc.
Proof.
  intros Hf. destruct (wire_sized crc f Hf) as (b0&b1&r&E&Hn&Hl). unfold has_check_bytes.
  rewrite Hl, E, Hn, Nat2Z.id. destruct crc; [by rewrite Nat.eqb_refl|].
  apply Nat.eqb_neq. unfold Crc.CRC_LEN. lia.
Qed.

(** The length of a CONNECT is not the beginning of a pre-connection. *)
Lemma wire_not_preconnect crc f : wf f → (encoded_len f ≤ HEADER_LEN + 5000)%nat → Ebcdic.is_preconnect (wire crc f) = false.
Proof.
  intros Hf Hle. destruct (wire_sized crc f Hf) as (b0&b1&r&E&Hn&_). unfold Ebcdic.is_preconnect.
  apply andb_false_iff. right. apply bool_decide_eq_false. rewrite E. intros Heq.
  assert (b0 = 0xD7 ∧ b1 = 0xC5) as [-> ->] by (by injection Heq). unfold HEADER_LEN in Hle. lia.
Qed.

(** ** Both sides *)

Record config_ok (cfg : RequesterConfig) : Prop := {
  co_requester : canonical 24 (requester_id cfg);
  co_server : canonical 24 (server_id cfg);
  co_password : opt_ok (canonical 16) (password cfg);
  co_message : opt_ok (canonical 254) (cfg_free_message cfg);
  co_sync : SyncOption.wf (cfg_sync cfg);
  co_preconnect : opt_ok (λ pc, Ebcdic.ascii (identifier pc) ∧ Ebcdic.ascii (pc_password pc)) (preconnect cfg);
}.

Record accept_ok (a : ConnectAccept) : Prop := {
  ao_sync : SyncOption.wf (ca_sync a);
  ao_message : opt_ok (canonical 254) (ca_free_message a);
}.

(** The request that the application of the responder is asked about. *)
Definition request_of (cfg : RequesterConfig) (addr : ustring) : ConnectRequest :=
  mkConnectRequest (requester_id cfg) (server_id cfg) (password cfg) (cfg_version cfg)
    (if SyncOption.enabled (cfg_sync cfg) then cfg_sync cfg else SyncOption.NONE) (cfg_access cfg)
    (cfg_resync cfg) (cfg_crc cfg) (cfg_free_message cfg)
    ((λ pc, (trim_end (take 8 (identifier pc)), trim_end (take 8 (pc_password pc)))) <$> preconnect cfg) addr.

Section Connect.
Context (cfg : RequesterConfig) (Hcfg : config_ok cfg).
Abbreviation f := (Builder.connect (connect_params cfg) 1).

Lemma connect_sendable : sendable f.
Proof.
  assert (byte_ok 0 ∧ byte_ok 1) as [] by done. destruct Hcfg.
  pose proof (canonical_text_ok _ _ co_requester0). pose proof (canonical_text_ok _ _ co_server0).
  pose proof (message_canonical _ co_message0).
  assert (∀ s, Builder.non_empty (password cfg) = Some s → text_ok 16 s) as Hpw.
  { intros s Hs. apply canonical_text_ok, co_password0. by destruct (password cfg) as [[]|]. }
  unfold Builder.connect, connect_params.
  cbn [Builder.cp_requester Builder.cp_server Builder.cp_password Builder.cp_version Builder.cp_sync Builder.cp_access
       Builder.cp_resync Builder.cp_crc Builder.cp_timeout Builder.cp_free_message Builder.when_some].
  sendable.
Qed.

Lemma connect_request_read addr :
  connect_request f ((λ pc, (trim_end (take 8 (identifier pc)), trim_end (take 8 (pc_password pc)))) <$> preconnect cfg) addr
  = request_of cfg addr.
Proof.
  destruct (connect_reads (connect_params cfg) 1) as (E3&E4&E5&E6&E7&E22&E23&E1&E99). destruct Hcfg.
  unfold connect_request, request_of, get_text, get_num, FpduExt.version, FpduExt.sync_option, FpduExt.access_type.
  unfold get_num. rewrite E3, E4, E5, E6, E7, E22, E23, E1, E99.
  cbn [connect_params Builder.cp_requester Builder.cp_server Builder.cp_password Builder.cp_version Builder.cp_sync Builder.cp_access
       Builder.cp_resync Builder.cp_crc Builder.cp_timeout Builder.cp_free_message].
  rewrite !flag_read, (text_option_read 16), (text_option_read 254) by done. cbn [fmap option_fmap option_map default mbind option_bind].
  rewrite !(canonical_decode 24) by done. rewrite version_read, access_read. cbn [default mbind option_bind].
  f_equal. destruct (SyncOption.enabled (cfg_sync cfg)); [|done]. cbn [mbind option_bind]. by rewrite sync_read.
Qed.

(** The entities before CONNECT and ACONNECT. *)
Definition pre_request : list bytes :=
  match preconnect cfg with
  | Some pc => [Ebcdic.preconnect_message (identifier pc) (pc_password pc)]
  | None => []
  end.
Definition pre_reply : list bytes := match preconnect cfg with Some _ => [Ebcdic.PRECONNECT_ACK] | None => [] end.
Definition pre_fields : option (ustring * ustring) :=
  (λ pc, (trim_end (take 8 (identifier pc)), trim_end (take 8 (pc_password pc)))) <$> preconnect cfg.

(** The link of a session on which [rx] will arrive. *)
Definition fresh (rx : list Arrival) : Link := link_new [] rx.

Lemma read_opening_ok rest :
  read_opening (fresh (map Entity (pre_request ++ [wire (cfg_crc cfg) f]) ++ rest))
  = (c_link (talk false Server pre_reply rest State.Cn01), Ok (pre_fields, wire (cfg_crc cfg) f)).
Proof.
  unfold read_opening, pre_request, pre_reply, pre_fields. destruct (preconnect cfg) as [pc|] eqn:Epc.
  - erewrite bind_eq by reflexivity. rewrite Ebcdic.is_preconnect_message.
    erewrite bind_eq by reflexivity. erewrite bind_eq by reflexivity.
    destruct (co_preconnect _ Hcfg pc Epc) as [Hid Hpw].
    by destruct (Ebcdic.preconnect_roundtrip _ _ Hid Hpw) as (_&_&->).
  - erewrite bind_eq by reflexivity. destruct connect_sendable as [[Hwf _] Hlen].
    by rewrite wire_not_preconnect.
Qed.

Lemma read_connect_ok l : read_connect (wire (cfg_crc cfg) f) l = (set_crc (cfg_crc cfg) l, Ok (cfg_crc cfg, f)).
Proof.
  destruct connect_sendable as [Hv _]. pose proof Hv as [Hwf _]. unfold read_connect.
  rewrite has_check_bytes_wire by done. erewrite bind_eq by reflexivity.
  unfold wire. rewrite split_entity_of by (by apply Forall_singleton). cbn [map map_err].
  unfold mbind, M_bind, lift. cbn [head ok_or]. by rewrite decode_valid.
Qed.

(** *** The requester *)
Lemma connect_ok reply rest :
  valid reply → kind reply = FpduKind.Aconnect →
  connect cfg (mkConn (fresh (map Entity (pre_reply ++ [wire (cfg_crc cfg) reply]) ++ rest)) (Machine.new Requester))
  = (talk (cfg_crc cfg) Requester (pre_request ++ [wire (cfg_crc cfg) f]) rest State.Cn03,
     Ok (mkRequester (talk (cfg_crc cfg) Requester (pre_request ++ [wire (cfg_crc cfg) f]) rest State.Cn03)
           cfg 1 (id_src reply) (negotiated_of cfg reply) (Z.to_nat (cfg_max_entity cfg)))).
Proof.
  intros Hr Hk. set (crc := cfg_crc cfg). unfold connect. cbv zeta.
  assert (∃ m, (match preconnect cfg with Some pc => c_on_link (pre_connect pc) | None => mret tt end)
    (mkConn (fresh (map Entity (pre_reply ++ [wire crc reply]) ++ rest)) (Machine.new Requester))
    = (talk false Requester pre_request (arrives crc reply :: rest) State.Cn01, m) ∧ m = Ok tt) as (m&E&->).
  { unfold pre_reply, pre_request. destruct (preconnect cfg) as [pc|]; [|eexists; split; reflexivity].
    unfold c_on_link, zoom, pre_connect. cbn [c_link c_machine]. unfold mbind, M_bind.
    rewrite send_entity_ok; [|done|rewrite Ebcdic.preconnect_message_length; apply Nat.leb_le; by vm_compute].
    eexists. split; reflexivity. }
  rewrite (bind_eq _ _ _ _ _ E). clear E.
  erewrite (bind_eq _ _ _ (talk crc Requester pre_request (arrives crc reply :: rest) State.Cn01) tt) by reflexivity.
  rewrite (bind_eq _ _ _ _ _ (talk_apply_local crc Requester L_Connect _ _ State.Cn01 State.Cn02A eq_refl)).
  rewrite (bind_eq _ _ _ _ _ (talk_send crc Requester f _ _ _ connect_sendable)).
  rewrite (bind_eq _ _ _ _ _ (talk_recv crc Requester reply _ _ _ Hr)).
  erewrite bind_eq; [reflexivity|]. unfold connect_reply. rewrite Hk.
  by rewrite (bind_eq _ _ _ _ _ (talk_apply_kind crc Requester FpduKind.Aconnect false _ _ State.Cn02A State.Cn03 eq_refl)).
Qed.

End Connect.

(** *** Both read the same negotiation *)

Lemma sync_agrees a b :
  SyncOption.wf a → SyncOption.wf b →
  let s := SyncOption.negotiate (if SyncOption.enabled a then a else SyncOption.NONE) b in
  SyncOption.wf s ∧ SyncOption.negotiate a (if SyncOption.enabled s then s else SyncOption.NONE) = s.
Proof.
  intros Ha Hb. destruct (SyncOption.enabled a && SyncOption.enabled b) eqn:E.
  - apply andb_true_iff in E as [Ea Eb]. rewrite Ea, SyncOption.negotiate_min by done.
    pose proof Ea as Ea'. pose proof Eb as Eb'. unfold SyncOption.enabled in Ea', Eb'.
    apply negb_true_iff, Z.eqb_neq in Ea', Eb'. destruct Ha as [Hai Haw], Hb as [Hbi Hbw].
    unfold u16_ok, byte_ok in *. cbv zeta. set (s := SyncOption.mkSyncOption _ _).
    assert (SyncOption.wf s) as Hs by (split; unfold u16_ok, byte_ok; simpl; lia).
    assert (SyncOption.enabled s = true) as Hes by (apply negb_true_iff, Z.eqb_neq; simpl; lia).
    split; [done|]. rewrite Hes, SyncOption.negotiate_min by done. unfold s. simpl. f_equal; lia.
  - assert (SyncOption.negotiate (if SyncOption.enabled a then a else SyncOption.NONE) b = SyncOption.NONE) as ->.
    { apply SyncOption.negotiate_disabled. destruct (SyncOption.enabled a) eqn:Ea; [by rewrite Ea|done]. }
    split; [done|]. apply SyncOption.negotiate_disabled. by rewrite andb_comm.
Qed.

Lemma sync_option_read s :
  SyncOption.wf s →
  default SyncOption.NONE ((if SyncOption.enabled s then Some (SyncOption.to_bytes s) else None) ≫= SyncOption.from_bytes)
  = if SyncOption.enabled s then s else SyncOption.NONE.
Proof.
  intros Hs. destruct (SyncOption.enabled s); [|done].
  change (default SyncOption.NONE (SyncOption.from_bytes (SyncOption.to_bytes s)) = s). by rewrite sync_read.
Qed.

Lemma negotiation_agrees cfg addr accept dst src :
  SyncOption.wf (cfg_sync cfg) → SyncOption.wf (ca_sync accept) →
  let ng := negotiate_session (request_of cfg addr) accept (cfg_crc cfg) in
  SyncOption.wf (ng_sync ng)
  ∧ negotiated_of cfg (Builder.aconnect dst src (ng_version ng) (ng_sync ng) (ng_resync ng) (ca_free_message accept)) = ng.
Proof.
  intros Hs Ha ng. destruct (sync_agrees _ _ Hs Ha) as [Hw E]. split; [exact Hw|]. unfold negotiated_of.
  destruct (aconnect_reads dst src (ng_version ng) (ng_sync ng) (ng_resync ng) (ca_free_message accept)) as (E6&E7&E23).
  unfold FpduExt.version, FpduExt.sync_option, get_num. rewrite E6, E7, E23, flag_read.
  cbn [fmap option_fmap option_map mbind option_bind]. rewrite version_read. cbn [default].
  rewrite sync_option_read by done.
  transitivity (mkNegotiated (ng_version ng) (ng_sync ng) (ng_resync ng) (cfg_crc cfg)); [|done].
  f_equal; [exact E|]. cbn. by rewrite andb_assoc, andb_diag.
Qed.

Lemma aconnect_sendable dst src v s r m :
  byte_ok dst → byte_ok src → SyncOption.wf s → opt_ok (canonical 254) m → sendable (Builder.aconnect dst src v s r m).
Proof. intros Hd Hs Hw Hm%message_canonical. sendable. Qed.

(** ** The responder *)
Section Responder.
Context {HS C K Src : Type} `{ServerHandler HS C K Src}
  `{Checkpoint.CheckpointStore C} `{ArticleIo.ArticleSink K} `{ArticleIo.ArticleSource Src}.

Lemma r_conn_eq {A} (m : M Conn A) (s : Responder HS C K Src) c r :
  m (rs_conn s) = (c, r) → r_conn m s = (set_conn c s, r).
Proof. apply zoom_eq. Qed.

Lemma establish_ok cfg rcfg (h h1 : HS) accept rest :
  config_ok cfg → accept_ok accept → byte_ok (conn_id rcfg) →
  authenticate h (request_of cfg (remote_addr rcfg)) = (h1, inl accept) →
  let ng := negotiate_session (request_of cfg (remote_addr rcfg)) accept (cfg_crc cfg) in
  let ack := Builder.aconnect 1 (conn_id rcfg) (ng_version ng) (ng_sync ng) (ng_resync ng) (ca_free_message accept) in
  establish (responder_new rcfg
    (fresh (map Entity (pre_request cfg ++ [wire (cfg_crc cfg) (Builder.connect (connect_params cfg) 1)]) ++ rest)) h)
  = (mkResponder (talk (cfg_crc cfg) Server (pre_reply cfg ++ [wire (cfg_crc cfg) ack]) rest State.Cn03) rcfg h1 1
       (Some (mkSessionInfo (session_id rcfg) (requester_id cfg) (server_id cfg) (remote_addr rcfg) ng)) accept [] [],
     Ok (request_of cfg (remote_addr rcfg))).
Proof.
  intros Hcfg [Hsync Hmsg] Hid Hauth ng ack. set (crc := cfg_crc cfg).
  destruct (negotiation_agrees cfg (remote_addr rcfg) accept 1 (conn_id rcfg) (co_sync _ Hcfg) Hsync) as [Hw _].
  unfold establish. erewrite bind_eq by reflexivity.
  erewrite bind_eq.
  2:{ apply r_conn_eq. apply zoom_eq. apply (read_opening_ok cfg Hcfg). }
  cbv beta iota zeta. erewrite bind_eq.
  2:{ apply r_conn_eq. apply zoom_eq. apply (read_connect_ok cfg Hcfg). }
  destruct (connect_header (connect_params cfg) 1) as [Ek Es].
  cbv beta iota zeta. rewrite decide_False by (intros Hn; by apply Hn). erewrite bind_eq by reflexivity.
  set (at_ out s h p i a := mkResponder (HS:=HS) (C:=C) (K:=K) (Src:=Src) (talk crc Server out rest s) rcfg h p i a [] []).
  erewrite (bind_eq _ _ _ (at_ (pre_reply cfg) State.Cn02B h 0 None connect_accept_default)).
  2:{ apply r_conn_eq. apply (talk_apply_received crc Server _ _ _ State.Cn01 State.Cn02B); [|by rewrite Ek].
      by apply (hears_request _ _ FpduKind.Connect). }
  rewrite Es. erewrite (bind_eq _ _ _ (at_ (pre_reply cfg) State.Cn02B h 1 None connect_accept_default)) by reflexivity.
  cbn [rs_cfg responder_new]. rewrite (connect_request_read cfg Hcfg). cbn [request_of cr_crc]. rewrite eqb_reflx.
  erewrite bind_eq by reflexivity.
  erewrite (bind_eq _ _ _ (at_ (pre_reply cfg) State.Cn02B h1 1 None connect_accept_default)).
  2:{ unfold ask, at_. cbn [rs_handler]. by rewrite Hauth. }
  erewrite bind_eq by reflexivity. cbv beta iota zeta. erewrite bind_eq by reflexivity.
  erewrite bind_eq.
  2:{ apply r_conn_eq. refine (talk_respond crc Server L_Accept ack _ _ State.Cn02B State.Cn03 eq_refl _).
      by apply aconnect_sendable. }
  reflexivity.
Qed.
End Responder.

(** C3: both ends of a connection agree. The requester and the responder are run
    each on what the other sends (with the pre-connection when it is
    configured). If the application accepts, then both end connected, with the
    same version, synchronisation option, resynchronisation and check bytes,
    each with the identifier that the other has given; the application was
    asked about exactly what the requester was configured with; nothing is left
    unread and the check bytes of the link are those of the configuration. *)
Theorem connect_agrees {HS C K Src} `{ServerHandler HS C K Src} cfg rcfg (h h1 : HS) accept rest_r rest_s :
  config_ok cfg → accept_ok accept → byte_ok (conn_id rcfg) →
  authenticate h (request_of cfg (remote_addr rcfg)) = (h1, inl accept) →
  ∃ to_server to_client rq rs,
    connect cfg (mkConn (fresh (map Entity to_client ++ rest_r)) (Machine.new Requester)) = (rq_conn rq, Ok rq)
    ∧ establish (responder_new rcfg (fresh (map Entity to_server ++ rest_s)) h)
      = (rs, Ok (request_of cfg (remote_addr rcfg)))
    ∧ rq_conn rq = talk (cfg_crc cfg) Requester to_server rest_r State.Cn03
    ∧ rs_conn rs = talk (cfg_crc cfg) Server to_client rest_s State.Cn03
    ∧ rq_peer_id rq = conn_id rcfg ∧ rs_peer_id rs = rq_my_id rq
    ∧ rs_handler rs = h1 ∧ rs_accept rs = accept
    ∧ rs_info rs = Some (mkSessionInfo (session_id rcfg) (requester_id cfg) (server_id cfg) (remote_addr rcfg)
                           (rq_negotiated rq)).
Proof.
  intros Hcfg Ha Hid Hauth. pose proof (establish_ok cfg rcfg h h1 accept rest_s Hcfg Ha Hid Hauth) as Es.
  destruct (negotiation_agrees cfg (remote_addr rcfg) accept 1 (conn_id rcfg) (co_sync _ Hcfg) (ao_sync _ Ha)) as [Hw En].
  cbv zeta in *. set (ng := negotiate_session _ _ _) in *. set (ack := Builder.aconnect _ _ _ _ _ _) in *.
  destruct (aconnect_header 1 (conn_id rcfg) (ng_version ng) (ng_sync ng) (ng_resync ng) (ca_free_message accept)) as [Ek Ei].
  assert (sendable ack) as [Hv _] by (apply aconnect_sendable; [done|done|done|apply Ha]).
  pose proof (connect_ok cfg Hcfg ack rest_r Hv Ek) as Er.
  eexists _, _, (mkRequester _ _ _ _ _ _), _. split; [exact Er|]. split; [exact Es|].
  cbn [rq_conn rs_conn rq_peer_id rs_peer_id rq_my_id rs_handler rs_accept rs_info rq_negotiated].
  split_and!; try done. by rewrite En.
Qed.

(** A configuration with every option, and an application that accepts. *)
Module Sample.

Definition cfg : RequesterConfig :=
  mkRequesterConfig [80; 67] [67; 69] (Some [115; 49]) Version.E (SyncOption.mkSyncOption 64 2) true true
    Compression.Mixed 4096 true (Some (mkPreconnect [80; 67] [112; 119])) (Some [104; 105]) AccessType.Mixed.

Definition rcfg : ResponderConfig := mkResponderConfig [115] 9 [49].

Definition accept : ConnectAccept :=
  mkConnectAccept (SyncOption.mkSyncOption 0xFFFF 4) true Compression.Horizontal true 2048 None.

(** The application keeps the events of the transfers. *)
Definition handler : ServerHandler (list TransferEvent) Checkpoint.MemoryCheckpoints ArticleIo.VecSink ArticleIo.VecSource := {|
  authenticate h _ := (h, inl accept);
  on_create h _ _ := (h, inl (mkCreateAccept ArticleIo.vec_sink_new Checkpoint.mem_default (Some 77) None 0%nat 5 None));
  on_select h _ _ _ := (h, inr (refusal_new Diagnostic.IO_ERROR));
  on_message h _ _ m reply := (h, inl (if reply then Some (rev m) else None));
  transfer_event h _ _ e := h ++ [e];
  session_closed h _ _ := h;
  cancel_flag _ _ _ := [];
|}.

End Sample.

Example connect_agrees_witness :
  ∃ to_client rq, connect Sample.cfg (mkConn (fresh (map Entity to_client)) (Machine.new Requester)) = (rq_conn rq, Ok rq)
    ∧ rq_peer_id rq = 9.
Proof.
  assert (config_ok Sample.cfg) as Hc by (split; first [by_compute | by intros ? [= <-]; by_compute | intros ? [= <-]; split; unfold Ebcdic.ascii; by_compute]).
  assert (accept_ok Sample.accept) as Ha by (split; [split; by_compute|intros ? [=]]).
  destruct (connect_agrees (H := Sample.handler) Sample.cfg Sample.rcfg [] [] Sample.accept [] []
    Hc Ha ltac:(by_compute) eq_refl) as (ts&tc&rq&rs&E&_&_&_&Hp&_).
  exists tc, rq. rewrite app_nil_r in E. split; [exact E|exact Hp].
Defined.
