(* ===== verification/TransportProps.v ===== *)
(** * The transport: properties

    What is written on a stream is read from it entity by entity, and the FPDUs
    that reach the link are those that were sent, with either framing. *)

From S2P Require Import Prelude Pi Kinds Crc Ebcdic Fpdu FpduCodec Params Frame Builder Link LinkProps Transport.
From S2P Require Import BuilderProps Datapath Requester ExchangeProps ConnectProps.
Open Scope Z_scope.
Import Fpdu.

Lemma reads_eq {A B} (m : R A) (f : A → R B) r r' a : m r = (r', Ok a) → (m ≫= f) r = f a r'.
Proof. intros H. unfold mbind, R_bind. by rewrite H. Qed.

(** ** One entity *)

Lemma read_exact_ok n b rest r :
  inner r = b ++ rest → length b = n → read_exact_or_closed n r = (with_inner rest r, Ok b).
Proof.
  intros Hr <-. unfold read_exact_or_closed. rewrite Hr, length_app.
  rewrite (proj2 (Nat.leb_le _ _)) by lia. by rewrite drop_app_length, take_app_length.
Qed.

(** The head of an entity of the length [n]. *)
Lemma be16_not_special n :
  (n < Z.to_nat 0xC1C3)%nat →
  starts_preconnect (be16 (Z.of_nat n)) = false ∧ starts_answer (be16 (Z.of_nat n)) = false.
Proof.
  intros Hn. unfold starts_preconnect, starts_answer, be16.
  assert (∀ a b, (0xC1C3 ≤ a * 256 + b) → [(Z.of_nat n / 256) mod 256; Z.of_nat n mod 256] ≠ [a; b]) as Hne.
  { intros a b Hab [= Ea Eb]. lia_dm. }
  split; [by rewrite bool_decide_false by (apply Hne; lia)|].
  by rewrite !bool_decide_false by (apply Hne; lia).
Qed.

(** The reader after an entity. *)
Definition rest_of (rest : bytes) (crc probe : bool) (r : FrameReader) : FrameReader :=
  mkFrameReader rest (ending r) (r_framing r) crc (r_max_len r) false probe.

(** The first entity of a stream is too short to be taken for a pre-connection. *)
Definition plain_start (r : FrameReader) (n : nat) : Prop := first r = true → (n < Z.to_nat 0xC1C3)%nat.

Lemma read_head {n tl r} (k : R bytes) :
  inner r = be16 (Z.of_nat n) ++ tl → (n ≤ Z.to_nat 0xFFFF)%nat → plain_start r n →
  (match r_framing r with
   | LengthPrefixed => read_prefixed n
   | Raw => read_raw (be16 (Z.of_nat n)) n
   end) (rest_of tl (r_crc r) (probe_crc r) r) = k r →
  read_entity r = k r.
Proof.
  intros Hi Hn Hp Hk. unfold read_entity.
  rewrite (reads_eq _ _ _ _ _ (read_exact_ok 2 _ _ _ Hi eq_refl)).
  erewrite reads_eq by reflexivity. cbn [first with_inner].
  assert ((first r && starts_preconnect (be16 (Z.of_nat n))) = false ∧ (first r && starts_answer (be16 (Z.of_nat n))) = false)
    as [-> ->].
  { destruct (first r) eqn:E; [|done]. by apply be16_not_special, Hp. }
  cbv beta iota zeta. erewrite reads_eq by reflexivity. cbn [be16 r_framing with_inner].
  rewrite of_be16_be16 by (unfold u16_ok; lia). rewrite Nat2Z.id. exact Hk.
Qed.

Lemma read_entity_prefixed e rest r :
  r_framing r = LengthPrefixed → inner r = be16 (Z.of_nat (length e)) ++ e ++ rest →
  (0 < length e ≤ Z.to_nat 0xFFFF)%nat → (length e ≤ r_max_len r)%nat → plain_start r (length e) →
  read_entity r = (rest_of rest (r_crc r) (probe_crc r) r, Ok e).
Proof.
  intros Hf Hi Hl Hm Hp. apply (read_head (λ r, (rest_of rest (r_crc r) (probe_crc r) r, Ok e)) Hi); [lia|done|].
  rewrite Hf. unfold read_prefixed. erewrite reads_eq by reflexivity. cbn [r_max_len rest_of].
  rewrite (proj2 (Nat.ltb_ge _ _) Hm), (proj2 (Nat.eqb_neq (length e) 0)) by lia.
  by rewrite (read_exact_ok _ e rest).
Qed.

(** The kind of an FPDU as it travels. *)
Lemma is_connect_kind f x : is_connect (fpdu_bytes f ++ x) = bool_decide (kind f = FpduKind.Connect).
Proof.
  unfold is_connect. assert (get_range (fpdu_bytes f ++ x) 2 4 = Some [FpduKind.phase (kind f); FpduKind.type_code (kind f)]) as ->.
  { apply get_range_Some. split; [lia|]. split; [|by unfold fpdu_bytes, be16].
    rewrite length_app, length_fpdu_bytes. pose proof (encoded_len_ge f). unfold HEADER_LEN in *. lia. }
  apply bool_decide_ext. split; [|by intros ->]. intros [= Hp Ht].
  pose proof (FpduKind.from_codes_codes (kind f)) as E. rewrite Hp, Ht in E. by injection E.
Qed.

(** The flag of the check bytes after an FPDU: a CONNECT may set it. *)
Definition detected (flag probe : bool) (f : Fpdu) : bool :=
  flag || probe && bool_decide (kind f = FpduKind.Connect) && bool_decide (get_num f Pi.Crc = Some 1).

Lemma read_entity_raw crc f rest r :
  r_framing r = Raw → valid f → inner r = entity_of crc [f] ++ rest →
  (framed_len crc f ≤ r_max_len r)%nat → plain_start r (encoded_len f) →
  detected (r_crc r) (probe_crc r) f = crc →
  read_entity r = (rest_of rest crc false r, Ok (entity_of crc [f])).
Proof.
  intros Hf Hv Hi Hm Hp Hd. pose proof Hv as [Hw Hc]. pose proof (encoded_len_ge f) as Hge.
  pose proof (wf_len f Hw) as Hle. change MAX_FPDU_LEN with (Z.to_nat 0xFFFF) in Hle.
  set (check := if crc then Crc.compute (fpdu_bytes f) else []).
  assert (length check = if crc then Crc.CRC_LEN else 0%nat) as Hlc.
  { unfold check. destruct crc; [|done]. pose proof (Crc.length_append (fpdu_bytes f)) as E.
    unfold Crc.append in E. rewrite length_app in E. lia. }
  set (tl := FpduKind.phase (kind f) :: FpduKind.type_code (kind f) :: id_dst f :: id_src f :: body_bytes f).
  assert (fpdu_bytes f = be16 (Z.of_nat (encoded_len f)) ++ tl) as Eb by done.
  assert (length tl = (encoded_len f - 2)%nat) as Htl.
  { pose proof (length_fpdu_bytes f) as E. rewrite Eb, length_app in E. simpl in E. simpl. lia. }
  assert (entity_of crc [f] = fpdu_bytes f ++ check) as Ee.
  { unfold entity_of, Frame.framed, check. simpl map. simpl concat. rewrite app_nil_r.
    destruct crc; [done|by rewrite app_nil_r]. }
  unfold HEADER_LEN in Hge. unfold framed_len in Hm.
  rewrite Ee, Eb, <-!app_assoc in Hi.
  apply (read_head (λ r, (rest_of rest crc false r, Ok (entity_of crc [f]))) Hi); [lia|done|].
  rewrite Hf. unfold read_raw. rewrite (proj2 (Nat.ltb_ge _ HEADER_LEN)) by (unfold HEADER_LEN; lia).
  erewrite reads_eq by reflexivity.
  cbn [r_crc rest_of]. cbv zeta. erewrite reads_eq by reflexivity. cbn [r_max_len rest_of].
  unfold detected in Hd. destruct (r_crc r) eqn:Ecrc.
  - subst crc. cbn [orb] in *. rewrite (proj2 (Nat.ltb_ge _ _) Hm).
    erewrite reads_eq.
    2:{ apply (read_exact_ok _ (tl ++ check) rest); [by rewrite <-app_assoc|]. rewrite length_app, Hlc. lia. }
    erewrite reads_eq by reflexivity. rewrite andb_false_r. cbn [andb]. by rewrite Ee, Eb, <-app_assoc.
  - rewrite (proj2 (Nat.ltb_ge _ _)) by lia. rewrite Nat.add_0_r.
    erewrite reads_eq by (apply (read_exact_ok _ tl (check ++ rest)); [done|lia]).
    erewrite reads_eq by reflexivity. rewrite <-Eb. cbn [probe_crc rest_of with_inner]. rewrite Nat.eqb_refl, andb_true_r.
    assert (is_connect (fpdu_bytes f) = bool_decide (kind f = FpduKind.Connect)) as ->
      by (rewrite <-(is_connect_kind f []); by rewrite app_nil_r).
    assert (connect_requests_crc (fpdu_bytes f) = bool_decide (get_num f Pi.Crc = Some 1)) as ->.
    { unfold connect_requests_crc. by rewrite (proj2 (decode_encode_wf f Hw Hc)). }
    cbn [orb] in Hd. rewrite Hd. rewrite Ee. destruct crc.
    + erewrite reads_eq by (apply (read_exact_ok _ check rest); [done|by rewrite Hlc]). done.
    + unfold check. by rewrite app_nil_r.
Qed.

(** ** A whole stream *)

Lemma reader_at_end fuel r : inner r = [] → reader_task (S fuel) r = [Failure (ending r)].
Proof. intros Hi. cbn [reader_task]. unfold read_entity, mbind, R_bind, read_exact_or_closed. by rewrite Hi. Qed.

Lemma reader_next fuel r r' e :
  read_entity r = (r', Ok e) → reader_task (S fuel) r = Entity e :: reader_task fuel r'.
Proof. intros E. cbn [reader_task]. by rewrite E. Qed.

Lemma reader_prefixed es r :
  r_framing r = LengthPrefixed → inner r = concat (map (λ e, be16 (Z.of_nat (length e)) ++ e) es) →
  Forall (λ e, 0 < length e ≤ Z.to_nat 0xFFFF)%nat es → (Z.to_nat 0xFFFF ≤ r_max_len r)%nat →
  (∀ e, head es = Some e → plain_start r (length e)) →
  reader_task (S (length es)) r = map Entity es ++ [Failure (ending r)].
Proof.
  intros Hf Hi Hes. revert r Hf Hi. induction Hes as [|e es He Hes IH]; intros r Hf Hi Hm Hp; [by apply reader_at_end|].
  cbn [length map concat app] in *. rewrite <-app_assoc in Hi.
  rewrite (reader_next _ _ _ _ (read_entity_prefixed e _ r Hf Hi He ltac:(lia) (Hp e eq_refl))).
  exact (f_equal (cons (Entity e)) (IH (rest_of _ _ _ r) Hf eq_refl Hm ltac:(by intros ? _ ?))).
Qed.

Lemma reader_raw crc fs r :
  r_framing r = Raw → inner r = concat (map (λ f, entity_of crc [f]) fs) → Forall valid fs →
  Forall (λ f, framed_len crc f ≤ r_max_len r)%nat fs →
  (∀ f, head fs = Some f → plain_start r (encoded_len f) ∧ detected (r_crc r) (probe_crc r) f = crc) →
  reader_task (S (length fs)) r = map (λ f, Entity (entity_of crc [f])) fs ++ [Failure (ending r)].
Proof.
  intros Hf Hi Hv. revert r Hf Hi. induction Hv as [|f fs Hv Hvs IH]; intros r Hf Hi Hm Hp; [by apply reader_at_end|].
  inversion_clear Hm as [|?? Hmf Hms]. cbn [length map concat app] in *.
  destruct (Hp f eq_refl) as [Hps Hd]. rewrite (reader_next _ _ _ _ (read_entity_raw crc f _ r Hf Hv Hi Hmf Hps Hd)).
  refine (f_equal (cons (Entity (entity_of crc [f]))) (IH (rest_of _ crc false r) Hf eq_refl Hms _)).
  intros g _. split; [by intros ?|]. unfold detected. cbn [r_crc probe_crc rest_of]. apply orb_false_r.
Qed.

(** The entities as the reader finds them: each one as it was written, or each
    FPDU on its own. *)
Definition batches (framing : Framing) (ess : list (list Fpdu)) : list (list Fpdu) :=
  match framing with LengthPrefixed => ess | Raw => map (λ f, [f]) (concat ess) end.

Lemma concat_batches framing ess : concat (batches framing ess) = concat ess.
Proof. destruct framing; [done|]. simpl. induction (concat ess) as [|f fs IH]; [done|]. simpl. by rewrite IH. Qed.

(** The bytes of an entity on the stream. *)
Definition on_stream (framing : Framing) (e : bytes) : bytes :=
  match framing with LengthPrefixed => be16 (Z.of_nat (length e)) ++ e | Raw => e end.

Fixpoint write_entities (es : list bytes) (w : FrameWriter) : FrameWriter * outcome TransportError unit :=
  match es with
  | [] => (w, Ok tt)
  | e :: es => match write_entity e w with (w, Ok _) => write_entities es w | r => r end
  end.

Lemma write_entities_ok es w :
  faults w = [] → Forall (λ e, length e ≤ Z.to_nat 0xFFFF)%nat es →
  write_entities es w = (mkFrameWriter (written w ++ concat (map (on_stream (w_framing w)) es)) (w_framing w) [], Ok tt).
Proof.
  intros Hw Hes. revert w Hw. induction Hes as [|e es He Hes IH]; intros w Hw; cbn [write_entities map concat].
  - rewrite app_nil_r. destruct w. cbn in Hw. by subst.
  - unfold write_entity. rewrite (proj2 (Nat.ltb_ge _ _) He). unfold write_all. rewrite Hw.
    destruct (w_framing w) eqn:Ef; cbn [tail]; rewrite IH by done; cbn [written w_framing on_stream]; by rewrite <-?app_assoc.
Qed.

Lemma entity_of_concat crc ess :
  concat (map (λ fs, entity_of crc fs) ess) = concat (map (λ f, entity_of crc [f]) (concat ess)).
Proof.
  assert (∀ fs, entity_of crc fs = concat (map (λ f, entity_of crc [f]) fs)) as E.
  { intros fs. unfold entity_of. rewrite map_map. f_equal. apply map_ext. intros f. simpl. by rewrite app_nil_r. }
  induction ess as [|fs ess IH]; [done|]. cbn [map concat]. by rewrite IH, E, map_app, concat_app.
Qed.

(** C7: what is written on a stream is read from it. Entities of FPDUs are
    written by one end; the reader task of the other finds each entity as it was
    ([LengthPrefixed]) or each FPDU on its own ([Raw]), so that the FPDUs that
    reach the link are those that were sent, in order, and then the end of the
    stream. For [Raw] the reader has to know whether check bytes follow: by the
    flag that the link has set, or, on a new connection, from PI 1 of the CONNECT
    that comes first. The first entity must be shorter than the first bytes of a
    pre-connection read as a length. *)
Theorem stream_delivers framing crc flag ess e max :
  Forall (λ fs, fs ≠ [] ∧ Forall valid fs ∧ (length (entity_of crc fs) ≤ Z.to_nat 0xFFFF)%nat) ess →
  (∀ fs, head ess = Some fs → length (entity_of crc fs) < Z.to_nat 0xC1C3)%nat →
  (framing = Raw → ∀ f, head (concat ess) = Some f → detected flag true f = crc) →
  (MAX_ENTITY ≤ max)%nat →
  let '(w, r) := write_entities (map (entity_of crc) ess) (split [] e framing max []).2 in
  r = Ok tt
  ∧ reader_task (S (length (batches framing ess))) (store_crc flag (split (written w) e framing max []).1)
    = map (λ fs, Entity (entity_of crc fs)) (batches framing ess) ++ [Failure e]
  ∧ concat (batches framing ess) = concat ess.
Proof.
  intros Hess Hstart Hd Hmax.
  rewrite write_entities_ok by (done || (apply Forall_fmap; apply (Forall_impl _ _ _ Hess); tauto)).
  split; [done|]. split; [|apply concat_batches].
  assert (∀ fs, head ess = Some fs → fs ≠ []) as Hne.
  { intros fs E. destruct Hess as [|fs' ess' (Hn&_)]; [done|]. by injection E as <-. }
  assert (Nat.min max MAX_ENTITY = MAX_ENTITY) as Em by lia.
  cbn [written split snd app w_framing]. unfold store_crc, split. cbn [fst inner ending r_framing r_max_len first probe_crc].
  rewrite Em. destruct framing; cbn [batches on_stream].
  - rewrite <-(length_map (entity_of crc) ess), <-(map_map (entity_of crc) Entity). apply (reader_prefixed (map (entity_of crc) ess)); try done.
    + apply Forall_fmap. apply (Forall_impl _ _ _ Hess). intros fs (Hn&_&Hl). split; [|done].
      destruct fs; [done|apply entity_of_cons_length].
    + cbn [r_max_len]. unfold MAX_ENTITY. lia.
    + intros b Hb _. destruct ess as [|fs ess]; [done|]. injection Hb as <-. by apply Hstart.
  - set (fs := concat ess). rewrite length_map, map_map.
    assert (Forall valid fs) as Hv.
    { apply Forall_concat. apply (Forall_impl _ _ _ Hess). tauto. }
    assert (∀ f, head fs = Some f → encoded_len f ≤ length (entity_of crc (default [] (head ess))) )%nat as Hfirst.
    { intros f E. unfold fs in E. destruct ess as [|gs ess]; [done|]. simpl in *. destruct gs as [|g gs]; [by destruct (Hne [])|].
      injection E as ->. unfold entity_of. simpl. rewrite length_app, Frame.length_framed, length_fpdu_bytes. lia. }
    rewrite (map_map (λ f, [f])). apply (reader_raw crc fs (mkFrameReader _ e Raw flag MAX_ENTITY true true)); try done.
    + apply entity_of_concat.
    + apply (Forall_impl _ _ _ Hv). intros f [Hw _]. pose proof (wf_len f Hw) as Hl.
      change MAX_FPDU_LEN with (Z.to_nat 0xFFFF) in Hl. cbn [r_max_len]. unfold framed_len, MAX_ENTITY.
      destruct crc; lia.
    + intros f E. split; [|by apply Hd]. intros _. pose proof (Hfirst f E) as Hf. destruct ess as [|gs ess]; [done|].
      pose proof (Hstart gs eq_refl). simpl in Hf. lia.
Qed.

(** A new connection without length prefixes: the CONNECT asks for check bytes,
    and an entity of two FPDUs follows. *)
Definition sample_stream : list (list Fpdu) :=
  [[Builder.connect (connect_params ConnectProps.Sample.cfg) 1]; [Builder.syn 9 1; Builder.ack_syn 9 1]].

Example stream_delivers_witness :
  let '(w, r) := write_entities (map (entity_of true) sample_stream) (split [] Closed Raw MAX_ENTITY []).2 in
  r = Ok tt
  ∧ reader_task 4 (split (written w) Closed Raw MAX_ENTITY []).1
    = map (λ f, Entity (entity_of true [f])) (concat sample_stream) ++ [Failure Closed].
Proof.
  assert (byte_ok 0 ∧ byte_ok 9) as [] by done.
  assert (config_ok ConnectProps.Sample.cfg) as Hcfg
    by (split; first [by_compute | by intros ? [= <-]; by_compute | intros ? [= <-]; split; unfold Ebcdic.ascii; by_compute]).
  assert (sendable (Builder.connect (connect_params ConnectProps.Sample.cfg) 1)) as [Hc _] by by apply connect_sendable.
  assert (sendable (Builder.syn 9 1)) as [Hs _] by sendable.
  assert (sendable (Builder.ack_syn 9 1)) as [Ha _] by sendable.
  assert (Forall (λ fs, fs ≠ [] ∧ Forall valid fs ∧ (length (entity_of true fs) ≤ Z.to_nat 0xFFFF)%nat) sample_stream) as Hv.
  { unfold sample_stream. rewrite !Forall_cons, !Forall_nil.
    split_and!; try done; apply Nat.leb_le; vm_compute; reflexivity. }
  pose proof (stream_delivers Raw true false sample_stream Closed MAX_ENTITY Hv
    ltac:(intros ? [= <-]; apply Nat.ltb_lt; vm_compute; reflexivity)
    ltac:(intros _ ? [= <-]; vm_compute; reflexivity) ltac:(lia)) as Hall.
  destruct (write_entities _ _) as [w r]. destruct Hall as (Hr&E&_). split; [exact Hr|].
  exact E.
Defined.
