(* ===== verification/OpenProps.v ===== *)
(** * The opening of a transfer: properties

    After CREATE, ORF and WRITE the requester and the responder are in the data
    phase with the same parameters. *)

From S2P Require Import Prelude Diag Pi Kinds Crc Fpdu FpduNum FpduCodec Params Frame State Setters Builder BuilderProps FileSpecProps.
From S2P Require Import Checkpoint ArticleIo Link LinkProps Datapath DataFlow SendProps TransferProps.
From S2P Require Import Requester Responder ExchangeProps ConnectProps.
Open Scope Z_scope.
Import Fpdu.

(** ** The FPDUs of the opening *)

(** An acknowledgement without a diagnostic of refusal. *)
Record positive (k : FpduKind) (f : Fpdu) : Prop := {
  po_sendable : sendable f;
  po_kind : kind f = k;
  po_diag : FpduExt.diag_or_ok f = Diagnostic.OK;
}.

Lemma num_read pi v : fits_pi pi v → (Pi.max_len pi <=? 3)%nat = true → decode_num (encode_num v) = v ∧ u32 v = v.
Proof.
  intros Hv Hm%Nat.leb_le. assert (v < 256 ^ 3) as Hlt.
  { unfold fits_pi in Hv. eapply Z.lt_le_trans; [apply Hv|]. apply Z.pow_le_mono_r; lia. }
  split; [|unfold u32; apply Z.mod_small; unfold fits_pi in Hv; lia].
  apply decode_encode_num. unfold fits_pi in Hv. unfold u64_ok. lia.
Qed.

Lemma message_cases m :
  ∀ f, Builder.set_message m f = f ∨ ∃ s, Builder.non_empty m = Some s ∧ Builder.set_message m f = set_text f Pi.FreeMessage s.
Proof. intros f. unfold Builder.set_message. destruct (Builder.non_empty m) as [s|]; [right; eauto|by left]. Qed.

Lemma ack_create_read dst tid mes m :
  byte_ok dst → fits_pi Pi.TransferId tid → fits_pi Pi.MaxEntitySize mes → opt_ok (canonical 254) m →
  let f := Builder.ack_create dst Diagnostic.OK (Some tid) mes m in
  positive FpduKind.AckCreate f ∧ FpduExt.max_entity_size f = Some mes ∧ FpduExt.transfer_id f = Some tid.
Proof.
  intros Hd Ht Hm Hmsg%message_canonical f. assert (byte_ok 0) by done. assert (Diagnostic.wf Diagnostic.OK) by by_compute.
  destruct (num_read _ _ Hm eq_refl) as [Em _]. destruct (num_read _ _ Ht eq_refl) as [Et Eu].
  assert (kind f = FpduKind.AckCreate ∧ get f Pi.Diag = Some (Diagnostic.to_bytes Diagnostic.OK)
    ∧ get f Pi.MaxEntitySize = Some (encode_num mes) ∧ get f Pi.TransferId = Some (encode_num tid)) as (Hk&Hg&Hs&Hi).
  { unfold f, Builder.ack_create. destruct (message_cases m (set_num (Builder.when_some (Some tid)
      (λ f t, set_num f Pi.TransferId t) (Builder.with_diag (with_ids (new FpduKind.AckCreate) dst 0) Diagnostic.OK))
      Pi.MaxEntitySize mes)) as [->|(s&_&->)]; split_and!; reflexivity. }
  split; [split|]; [|done|by unfold FpduExt.diag_or_ok, fpdu_diag; rewrite Hg|].
  - assert (opt_ok (fits_pi Pi.TransferId) (Some tid)) as Ho by (by intros ? [= <-]). unfold f. sendable.
  - unfold FpduExt.max_entity_size, FpduExt.transfer_id, get_num. rewrite Hs, Hi. cbn [fmap option_fmap option_map]. rewrite Em, Et, Eu.
    split; [|done]. assert (0 ≤ mes < 65536) as Hr by exact Hm. rewrite Z.min_l by lia. f_equal. by apply Z.mod_small.
Qed.

Lemma orf_read dst c :
  byte_ok dst → let f := Builder.orf dst c in
  sendable f ∧ kind f = FpduKind.Orf ∧ default Compression.None_ (FpduExt.compression f) = c.
Proof.
  intros Hd f. assert (byte_ok 0) by done. split; [unfold f; sendable|]. destruct c; by split.
Qed.

Lemma ack_orf_read dst c :
  byte_ok dst → let f := Builder.ack_orf dst Diagnostic.OK c in
  positive FpduKind.AckOrf f ∧ default Compression.None_ (FpduExt.compression f) = c.
Proof.
  intros Hd f. assert (byte_ok 0) by done. assert (Diagnostic.wf Diagnostic.OK) by by_compute.
  split; [split; [unfold f; sendable|..]|]; by destruct c.
Qed.

Lemma write_read dst : byte_ok dst → sendable (Builder.write dst) ∧ kind (Builder.write dst) = FpduKind.Write.
Proof. intros Hd. assert (byte_ok 0) by done. split; [sendable|done]. Qed.

Lemma ack_write_read dst n :
  byte_ok dst → fits_pi Pi.RestartPoint n → let f := Builder.ack_write dst Diagnostic.OK n in
  positive FpduKind.AckWrite f ∧ FpduExt.restart_point f = Some n.
Proof.
  intros Hd Hn f. assert (byte_ok 0) by done. assert (Diagnostic.wf Diagnostic.OK) by by_compute.
  destruct (num_read _ _ Hn eq_refl) as [E Eu].
  split; [split; [unfold f; sendable|done..]|]. unfold FpduExt.restart_point.
  change (get f Pi.RestartPoint) with (Some (encode_num n)). cbn [fmap option_fmap option_map]. by rewrite E, Eu.
Qed.

(** Negotiating again with what was negotiated changes nothing. *)
Lemma compression_agrees a b : Compression.negotiate a (Compression.negotiate a b) = Compression.negotiate a b.
Proof. by destruct a, b. Qed.

(** ** CREATE *)

Lemma create_sendable f dst :
  spec_ok f → byte_ok dst → sendable (Builder.create f dst) ∧ kind (Builder.create f dst) = FpduKind.Create.
Proof.
  intros Hf Hd. destruct (create_built f dst Hf Hd) as (cs&n&Hn&Hc&Hb).
  split; [|by apply Hb]. apply (B_sendable _ _ _ _ Hb); [done|lia|done].
Qed.

(** The size of an entity that both sides compute. *)
Lemma entity_agrees spec accept ack :
  7 ≤ Builder.fs_max_entity_size spec → FpduExt.max_entity_size ack = Some (offered_entity spec accept) →
  agreed_entity spec ack = Z.to_nat (offered_entity spec accept).
Proof.
  intros Hm Hack. unfold agreed_entity. rewrite Hack. f_equal. unfold offered_entity, HEADER_LEN. simpl. lia.
Qed.

(** ** A request of the requester *)

Definition with_conn (c : Conn) (s : Requester_) : Requester_ :=
  mkRequester c (rq_cfg s) (rq_my_id s) (rq_peer_id s) (rq_negotiated s) (rq_max_entity s).

Lemma request_ok fuel crc f ev k reply out rx st0 st1 st2 s :
  rq_conn s = talk crc Requester out (arrives crc reply :: rx) st0 →
  sendable f → asks st0 ev st1 → positive k reply → State.apply st1 (Received k false) = State.Next st2 →
  k ≠ FpduKind.Abort →
  request (S fuel) f ev k s = (with_conn (talk crc Requester (out ++ [wire crc f]) rx st2) s, Ok reply).
Proof.
  intros Hc Hf H1 [[Hv _] Hk Hd] H2 Ha. unfold request, on_conn. apply zoom_eq. rewrite Hc.
  rewrite (talk_exchange crc Requester fuel f ev k reply out rx st0 st1 st2) by (done || by apply (hears_positive _ _ k)).
  by rewrite (not_negative reply Hd).
Qed.

(** The link and the machine of a job. *)
Definition job_conn {C X} (j : Job C X) : Conn := rq_conn (j_session j).
Definition with_session {C X} (s : Requester_) (j : Job C X) : Job C X :=
  mkJob s (j_store j) (j_data j) (j_cancel j) (j_progress j).
Definition with_store {C X} (c : C) (j : Job C X) : Job C X :=
  mkJob (j_session j) c (j_data j) (j_cancel j) (j_progress j).

Section OpenWrite.
Context {C Src : Type} `{!Checkpoint.CheckpointStore C} `{!Checkpoint.CheckpointLaws C} `{!ArticleIo.ArticleSource Src}.

(** The point from which the requester restarts, on the answer of the server. *)
Definition restart_at (f : Builder.FileSpec) (c : C) (point : Z) : option Checkpoint :=
  if Builder.restarted f && negb (point =? 0) then Checkpoint.store_get c point else Some Checkpoint.checkpoint_default.

Lemma open_write_ok fuel crc (f : Builder.FileSpec) (j : Job C Src) out rx created c point start :
  let s := j_session j in
  let peer := rq_peer_id s in let own := cfg_compression (rq_cfg s) in
  job_conn j = talk crc Requester out (map (arrives crc)
    [created; Builder.ack_orf (rq_my_id s) Diagnostic.OK c; Builder.ack_write (rq_my_id s) Diagnostic.OK point] ++ rx) State.Cn03 →
  spec_ok f → byte_ok peer → byte_ok (rq_my_id s) → positive FpduKind.AckCreate created →
  fits_pi Pi.RestartPoint point →
  restart_at f (j_store j) point = Some start → Checkpoint.healthy (j_store j) →
  ∃ store', (store' = j_store j ∨ Checkpoint.store_clear (j_store j) = (store', true)) ∧ Checkpoint.healthy store'
    ∧ open_write (S fuel) f j
      = (with_store store' (with_session (mkRequester (talk crc Requester
           (out ++ map (wire crc) [Builder.create f peer; Builder.orf peer own; Builder.write peer]) rx State.Tde02A)
           (rq_cfg s) (rq_my_id s) peer (rq_negotiated s) (agreed_entity f created)) j),
         Ok (created, data_params s (Compression.negotiate own c) (agreed_entity f created)
                        (Z.to_nat (Builder.article_length f)), start)).
Proof.
  intros s peer own Hconn Hf Hpeer Hmy Hcreated Hpoint Hstart Hh. unfold job_conn in Hconn. fold s in Hconn.
  destruct (create_sendable f peer Hf Hpeer) as [Hc _]. destruct (orf_read peer own Hpeer) as (Ho&_&_).
  destruct (write_read peer Hpeer) as [Hw _]. destruct (ack_orf_read (rq_my_id s) c Hmy) as [Hao Ec].
  destruct (ack_write_read (rq_my_id s) point Hmy Hpoint) as [Haw Ep].
  unfold open_write. erewrite bind_eq by reflexivity. fold s.
  erewrite bind_eq.
  2:{ apply zoom_eq. unfold open_file. erewrite bind_eq.
      2:{ eapply (request_ok fuel crc _ L_Create FpduKind.AckCreate); [exact Hconn|exact Hc|reflexivity|exact Hcreated|reflexivity|done]. }
      erewrite bind_eq by reflexivity. reflexivity. }
  cbv beta iota zeta. erewrite bind_eq.
  2:{ apply zoom_eq. unfold open_data. erewrite bind_eq by reflexivity. erewrite bind_eq by reflexivity.
      erewrite bind_eq; [reflexivity|].
      eapply (request_ok fuel crc _ L_Open FpduKind.AckOrf); [reflexivity|exact Ho|reflexivity|exact Hao|reflexivity|done]. }
  erewrite bind_eq.
  2:{ apply zoom_eq.
      eapply (request_ok fuel crc _ L_Write FpduKind.AckWrite); [reflexivity|exact Hw|reflexivity|exact Haw|reflexivity|done]. }
  rewrite Ep, Ec. change (default 0 (Some point)) with point.
  erewrite (bind_eq _ _ _ _ start).
  2:{ unfold restart_at in Hstart. destruct (Builder.restarted f && negb (point =? 0)).
      - erewrite bind_eq by reflexivity. cbn. rewrite Hstart. reflexivity.
      - injection Hstart as <-. reflexivity. }
  destruct (Checkpoint.store_clear_ok (j_store j) Hh) as (c'&Eclear&Hc').
  destruct (Checkpoint.sync start =? 0).
  - exists c'. split; [by right|]. split; [done|]. erewrite bind_eq.
    2:{ unfold job_store. cbn [j_store]. rewrite Eclear. reflexivity. }
    erewrite bind_eq by reflexivity. cbn. rewrite <-!app_assoc. reflexivity.
  - exists (j_store j). split; [by left|]. split; [done|]. erewrite bind_eq by reflexivity.
    erewrite bind_eq by reflexivity. cbn. rewrite <-!app_assoc. reflexivity.
Qed.
End OpenWrite.

(** ** The responder *)

(** What the application accepts a file with. *)
Record create_ok {C K} (f : Builder.FileSpec) (a : CreateAccept C K) : Prop := {
  cr_tid : opt_ok (fits_pi Pi.TransferId) (cra_transfer_id a);
  cr_msg : opt_ok (canonical 254) (cra_free_message a);
}.

Section ServeWrite.
Context {HS C K Src : Type} `{!ServerHandler HS C K Src} `{!Checkpoint.CheckpointStore C} `{!Checkpoint.CheckpointLaws C}
  `{!ArticleIo.ArticleSink K} `{!ArticleIo.ArticleSource Src}.
Abbreviation responder := (Responder HS C K Src).

Definition assigned_id (f : Builder.FileSpec) (a : CreateAccept C K) : Z :=
  default (Builder.fs_transfer_id f) (cra_transfer_id a).

(** The acknowledgement of CREATE. *)
Definition created_reply (s : responder) (f : Builder.FileSpec) (a : CreateAccept C K) : Fpdu :=
  Builder.ack_create (rs_peer_id s) Diagnostic.OK (Some (assigned_id f a)) (offered_entity f (rs_accept s))
    (cra_free_message a).

Lemma created_reply_read (s : responder) f a :
  byte_ok (rs_peer_id s) → spec_ok f → create_ok f a → fits_pi Pi.MaxEntitySize (ca_max_entity (rs_accept s)) →
  positive FpduKind.AckCreate (created_reply s f a)
  ∧ FpduExt.max_entity_size (created_reply s f a) = Some (offered_entity f (rs_accept s))
  ∧ FpduExt.transfer_id (created_reply s f a) = Some (assigned_id f a).
Proof.
  intros Hd Hf [Ht Hm] Hmax. apply ack_create_read; [done| | |done].
  - unfold assigned_id. destruct (cra_transfer_id a) as [t|] eqn:E; [by apply Ht|]. apply Hf.
  - destruct Hf. assert (0 ≤ Builder.fs_max_entity_size f < 65536) by done.
    assert (0 ≤ ca_max_entity (rs_accept s) < 65536) by done.
    change (0 ≤ offered_entity f (rs_accept s) < 65536). unfold offered_entity, HEADER_LEN. lia.
Qed.

(** CREATE arrives and the application accepts it. *)
Lemma admit_create_ok crc f a i h dst (s : responder) out rx :
  rs_conn s = talk crc Server out (arrives crc (Builder.create f dst) :: rx) State.Cn03 →
  spec_ok f → byte_ok dst → byte_ok (rs_peer_id s) → create_ok f a →
  fits_pi Pi.MaxEntitySize (ca_max_entity (rs_accept s)) →
  rs_info s = Some i → on_create (rs_handler s) i f = (h, inl a) →
  (req ← r_conn (c_on_link recv); r_conn (c_apply_received req) ;; admit_create req) s
  = (set_handler h (set_conn (talk crc Server (out ++ [wire crc (created_reply s f a)]) rx State.Sf03) s),
     Ok (Some (mkAdmission i a (offered_entity f (rs_accept s)) (assigned_id f a)))).
Proof.
  intros Hconn Hf Hd Hp Ha Hmax Hi Hh. destruct (create_sendable f dst Hf Hd) as [[Hv _] Hk].
  destruct (created_reply_read s f a Hp Hf Ha Hmax) as ([Hs _ _]&_&_).
  erewrite bind_eq.
  2:{ apply r_conn_eq. rewrite Hconn. by apply talk_recv. }
  erewrite bind_eq.
  2:{ apply r_conn_eq. apply (talk_apply_received crc Server _ _ _ State.Cn03 State.Sf01B); [|by rewrite Hk].
      by apply (hears_request _ _ FpduKind.Create). }
  unfold admit_create. rewrite (from_fpdu_create_eq f dst Hf Hd).
  erewrite bind_eq.
  2:{ unfold info. cbn [set_conn rs_info]. rewrite Hi. reflexivity. }
  erewrite bind_eq.
  2:{ unfold ask. cbn [set_conn rs_handler]. rewrite Hh. reflexivity. }
  cbv beta iota. erewrite bind_eq by reflexivity. erewrite bind_eq by reflexivity.
  erewrite bind_eq.
  2:{ apply r_conn_eq. refine (talk_respond crc Server L_Accept (created_reply s f a) _ _ State.Sf01B State.Sf03 eq_refl Hs). }
  reflexivity.
Qed.

(** The point from which the responder starts. *)
Definition serve_from (f : Builder.FileSpec) (a : CreateAccept C K) : Checkpoint :=
  if Builder.restarted f then default Checkpoint.checkpoint_default (cra_restart a) else Checkpoint.checkpoint_default.

(** The session after an event. *)
Definition after_event (i : SessionInfo) (handle : Z) (ev : TransferEvent) (s : responder) : responder :=
  set_handler (transfer_event (rs_handler s) i handle ev) s.

(** ORF and WRITE arrive. *)
Lemma serve_open_write_ok fuel crc f a i dst own mes tid (s : responder) out rx k :
  let c := Compression.negotiate own (ca_compression (rs_accept s)) in
  let start := serve_from f a in
  rs_conn s = talk crc Server out (map (arrives crc) [Builder.orf dst own; Builder.write dst] ++ rx) State.Sf03 →
  byte_ok dst → byte_ok (rs_peer_id s) → fits_pi Pi.RestartPoint (Checkpoint.sync start) →
  Checkpoint.healthy (cra_checkpoints a) →
  ArticleIo.sink_truncate (cra_sink a) (position_of start) = (k, Ok tt) →
  ∃ store', (store' = cra_checkpoints a ∨ Checkpoint.store_clear (cra_checkpoints a) = (store', true))
    ∧ Checkpoint.healthy store'
    ∧ serve_open_write (S fuel) i f (cra_restart a) (cra_max_article a) mes tid (cra_handle a)
        (mkServing s (cra_checkpoints a) (cra_sink a))
      = (mkServing (after_event i (cra_handle a) (Started tid start) (set_conn (talk crc Server
           (out ++ map (wire crc) [Builder.ack_orf (rs_peer_id s) Diagnostic.OK c;
              Builder.ack_write (rs_peer_id s) Diagnostic.OK (Checkpoint.sync start)]) rx State.Tde02B) s)) store' k,
         Ok (server_params (rs_peer_id s) i (rs_accept s) c (Z.to_nat mes)
               (if (cra_max_article a =? 0)%nat then Z.to_nat (Builder.article_length f) else cra_max_article a), start)).
Proof.
  intros c start Hconn Hd Hp Hn Hh Hk. destruct (orf_read dst own Hd) as ([Hov _]&Hok&Hoc).
  destruct (write_read dst Hd) as [[Hwv _] Hwk]. destruct (ack_orf_read (rs_peer_id s) c Hp) as [[Hao _ _] _].
  destruct (ack_write_read (rs_peer_id s) (Checkpoint.sync start) Hp Hn) as [[Haw _ _] _].
  unfold serve_open_write. erewrite bind_eq.
  2:{ apply zoom_eq. unfold serve_orf. erewrite bind_eq.
      2:{ apply r_conn_eq. cbn [sv_resp]. rewrite Hconn.
          apply (talk_expect crc Server fuel _ FpduKind.Orf _ _ State.Sf03 State.Of01B); [done| |done|done].
          by apply (hears_request _ _ FpduKind.Orf). }
      erewrite bind_eq by reflexivity. rewrite Hoc. erewrite bind_eq by reflexivity.
      erewrite bind_eq.
      2:{ apply r_conn_eq. refine (talk_respond crc Server L_Accept _ _ _ State.Of01B State.Of02 eq_refl Hao). }
      reflexivity. }
  erewrite bind_eq.
  2:{ apply zoom_eq. apply r_conn_eq.
      apply (talk_expect crc Server fuel _ FpduKind.Write _ _ State.Of02 State.Tde01B); [done| |done|done].
      by apply (hears_request _ _ FpduKind.Write). }
  erewrite bind_eq by reflexivity. fold (serve_from f a). fold start. erewrite bind_eq.
  2:{ apply zoom_eq. apply r_conn_eq.
      refine (talk_respond crc Server L_Accept _ _ _ State.Tde01B State.Tde02B eq_refl Haw). }
  erewrite bind_eq.
  2:{ unfold sv_on_data. cbn [sv_data]. rewrite Hk. reflexivity. }
  destruct (Checkpoint.store_clear_ok (cra_checkpoints a) Hh) as (c'&Eclear&Hc').
  destruct (Checkpoint.sync start =? 0).
  - exists c'. split; [by right|]. split; [done|]. erewrite bind_eq.
    2:{ unfold sv_on_store. cbn [sv_store]. rewrite Eclear. reflexivity. }
    erewrite bind_eq by reflexivity. erewrite bind_eq by reflexivity. cbn. rewrite <-!app_assoc. reflexivity.
  - exists (cra_checkpoints a). split; [by left|]. split; [done|]. erewrite bind_eq by reflexivity.
    erewrite bind_eq by reflexivity. erewrite bind_eq by reflexivity. cbn. rewrite <-!app_assoc. reflexivity.
Qed.
End ServeWrite.

(** ** Both sides *)

Definition job_hears {C X} (crc : bool) (out : list bytes) (rx : list Arrival) (j : Job C X) : Job C X :=
  with_session (with_conn (talk crc Requester out rx State.Cn03) (j_session j)) j.

(** C4: the opening of a write agrees on both sides. A requester and a responder
    that are connected with the same negotiated parameters run CREATE, ORF and
    WRITE, each on what the other sends, for a file that the application
    accepts; when the application restarts it at a point, the requester has its
    checkpoint. Then both end in the data phase, the one sending
    and the other receiving, with the same compression, entity size,
    synchronisation and check bytes. The article length of the sender is that
    of the description and that of the receiver the one that the application
    tells, or that of the description when it tells 0: they are equal exactly
    when the application tells 0 or the length of the description. Without a
    restart both start from the beginning; with one the receiver starts from
    the checkpoint of its application, to which its sink was cut back, and the
    sender from its own checkpoint of the same number. The application was
    asked about the description that the requester has sent. *)
Theorem write_opening_agrees {HS C1 C2 K Src1 Src2} `{!ServerHandler HS C2 K Src2}
    `{!Checkpoint.CheckpointStore C1} `{!Checkpoint.CheckpointLaws C1} `{!Checkpoint.CheckpointStore C2}
    `{!Checkpoint.CheckpointLaws C2} `{!ArticleIo.ArticleSink K} `{!ArticleIo.ArticleSource Src1} `{!ArticleIo.ArticleSource Src2}
    fuel crc f a i h k (j : Job C1 Src1) (s : Responder HS C2 K Src2) out_r out_s rest_r rest_s start_s :
  let start_r := serve_from f a in
  spec_ok f → 7 ≤ Builder.fs_max_entity_size f → create_ok f a →
  byte_ok (rq_peer_id (j_session j)) → byte_ok (rq_my_id (j_session j)) → rs_peer_id s = rq_my_id (j_session j) →
  rs_info s = Some i → si_negotiated i = rq_negotiated (j_session j) →
  fits_pi Pi.MaxEntitySize (ca_max_entity (rs_accept s)) →
  fits_pi Pi.RestartPoint (Checkpoint.sync start_r) →
  restart_at f (j_store j) (Checkpoint.sync start_r) = Some start_s →
  Checkpoint.healthy (j_store j) → Checkpoint.healthy (cra_checkpoints a) →
  on_create (rs_handler s) i f = (h, inl a) →
  ArticleIo.sink_truncate (cra_sink a) (position_of start_r) = (k, Ok tt) →
  ∃ requests replies created ps pr j' s1 adm sv,
    open_write (S fuel) f (job_hears crc out_r (map (arrives crc) replies ++ rest_r) j) = (j', Ok (created, ps, start_s))
    ∧ (req ← r_conn (c_on_link recv); r_conn (c_apply_received req) ;; admit_create req)
        (set_conn (talk crc Server out_s (map (arrives crc) requests ++ rest_s) State.Cn03) s) = (s1, Ok (Some adm))
    ∧ serve_open_write (S fuel) (ad_info adm) f (cra_restart a) (cra_max_article a) (ad_max_entity adm)
        (ad_transfer_id adm) (cra_handle a) (mkServing s1 (cra_checkpoints a) (cra_sink a)) = (sv, Ok (pr, start_r))
    ∧ ad_accept adm = a ∧ ad_info adm = i ∧ FpduExt.transfer_id created = Some (ad_transfer_id adm)
    ∧ dp_compression pr = dp_compression ps
    ∧ dp_max_article ps = Z.to_nat (Builder.article_length f)
    ∧ dp_max_article pr = (if (cra_max_article a =? 0)%nat then dp_max_article ps else cra_max_article a)
    ∧ (agree ps pr ↔ cra_max_article a = 0%nat ∨ cra_max_article a = Z.to_nat (Builder.article_length f))
    ∧ (Builder.restarted f = false → start_r = Checkpoint.checkpoint_default ∧ start_s = Checkpoint.checkpoint_default)
    ∧ (Builder.restarted f = true → Checkpoint.store_get (j_store j) (Checkpoint.sync start_r) = Some start_s)
    ∧ dp_sync ps = dp_sync pr ∧ dp_resync ps = dp_resync pr ∧ dp_crc ps = dp_crc pr
    ∧ dp_max_entity ps = dp_max_entity pr
    ∧ job_conn j' = talk crc Requester (out_r ++ map (wire crc) requests) rest_r State.Tde02A
    ∧ rs_conn (sv_resp sv) = talk crc Server (out_s ++ map (wire crc) replies) rest_s State.Tde02B
    ∧ sv_data sv = k ∧ Checkpoint.healthy (j_store j') ∧ Checkpoint.healthy (sv_store sv).
Proof.
  intros start_r Hf Hmes Ha Hpeer Hmy Hid Hi Hng Hmax Hn Hrestart Hh1 Hh2 Hask Hk.
  set (own := cfg_compression (rq_cfg (j_session j))). set (c := Compression.negotiate own (ca_compression (rs_accept s))).
  set (peer := rq_peer_id (j_session j)) in *. assert (byte_ok (rs_peer_id s)) as Hps by (by rewrite Hid).
  destruct (created_reply_read s f a Hps Hf Ha Hmax) as (Hpos&Emes&Etid).
  set (requests := [Builder.create f peer; Builder.orf peer own; Builder.write peer]).
  set (replies := [created_reply s f a; Builder.ack_orf (rq_my_id (j_session j)) Diagnostic.OK c;
    Builder.ack_write (rq_my_id (j_session j)) Diagnostic.OK (Checkpoint.sync start_r)]).
  destruct (open_write_ok fuel crc f (job_hears crc out_r (map (arrives crc) replies ++ rest_r) j) out_r rest_r
    (created_reply s f a) c (Checkpoint.sync start_r) start_s) as (st1&_&Hst1&Eopen); try done.
  set (s0 := set_conn (talk crc Server out_s (map (arrives crc) requests ++ rest_s) State.Cn03) s).
  assert (Eadm := admit_create_ok crc f a i h peer s0 out_s
    (map (arrives crc) [Builder.orf peer own; Builder.write peer] ++ rest_s) eq_refl Hf Hpeer Hps Ha Hmax Hi Hask).
  match type of Eadm with _ = (?t, _) => set (s1 := t) in * end.
  destruct (serve_open_write_ok fuel crc f a i peer own (offered_entity f (rs_accept s)) (assigned_id f a) s1
    (out_s ++ [wire crc (created_reply s f a)]) rest_s k) as (st2&_&Hst2&Eserve); try done.
  exists requests, replies, (created_reply s f a). do 2 eexists. eexists _, s1, (mkAdmission _ _ _ _), _.
  split; [exact Eopen|]. split; [exact Eadm|]. split; [exact Eserve|].
  cbn [ad_accept ad_info ad_transfer_id data_params server_params dp_sync dp_resync dp_crc dp_max_entity].
  assert (agreed_entity f (created_reply s f a) = Z.to_nat (offered_entity f (rs_accept s))) as Ee by by apply entity_agrees.
  assert (rq_negotiated (j_session (job_hears crc out_r (map (arrives crc) replies ++ rest_r) j))
    = si_negotiated i) as Eng by by rewrite Hng.
  assert (Hcomp : Compression.negotiate own (ca_compression (rs_accept s1)) = Compression.negotiate own c)
    by (change (rs_accept s1) with (rs_accept s); symmetry; apply compression_agrees).
  split_and!; try done; try by rewrite Eng.
  - split.
    + intros [_ E]. cbn [data_params server_params dp_max_article] in E. destruct (Nat.eqb_spec (cra_max_article a) 0); [by left|by right].
    + intros Hart. split; cbn [data_params server_params dp_compression dp_max_article]; [done|].
      destruct Hart as [E|E]; rewrite E; [done|]. destruct (Z.to_nat (Builder.article_length f) =? 0)%nat; done.
  - intros E. unfold restart_at in Hrestart. rewrite E in Hrestart. injection Hrestart as <-. unfold start_r, serve_from. by rewrite E.
  - intros E. unfold restart_at in Hrestart. rewrite E in Hrestart. cbn [andb] in Hrestart.
    destruct (Z.eqb_spec (Checkpoint.sync start_r) 0) as [E0|_]; [|done]. injection Hrestart as <-. rewrite E0.
    apply Checkpoint.store_get_zero.
  - change (rs_peer_id s1) with (rs_peer_id s). cbn [sv_resp after_event set_handler set_conn rs_conn].
    rewrite Hid, <-app_assoc. reflexivity.
Qed.

(** The connection of [ConnectProps], a file of at most 4096 bytes per article,
    and the application that accepts it. *)
Module Sample.

Definition negotiated : Negotiated := mkNegotiated Version.E (SyncOption.mkSyncOption 64 2) true true.

Definition responder : Responder (list TransferEvent) Checkpoint.MemoryCheckpoints ArticleIo.VecSink ArticleIo.VecSource :=
  mkResponder (talk true Server [] [] State.Cn03) ConnectProps.Sample.rcfg [] 1
    (Some (mkSessionInfo [115] [80; 67] [67; 69] [49] negotiated)) ConnectProps.Sample.accept [] [].

Definition job : Job Checkpoint.MemoryCheckpoints ArticleIo.VecSource :=
  mkJob (mkRequester (talk true Requester [] [] State.Cn03) ConnectProps.Sample.cfg 1 9 negotiated 4096)
    Checkpoint.mem_default (ArticleIo.vec_source_new TransferProps.Sample.file) [] [].

Definition created : CreateAccept Checkpoint.MemoryCheckpoints ArticleIo.VecSink :=
  mkCreateAccept ArticleIo.vec_sink_new Checkpoint.mem_default (Some 77) None 0%nat 5 None.

End Sample.

Example write_opening_agrees_witness :
  ∃ requests replies created ps j', open_write 1 sample_spec (job_hears true [] (map (arrives true) replies) Sample.job)
      = (j', Ok (created, ps, Checkpoint.checkpoint_default))
    ∧ job_conn j' = talk true Requester (map (wire true) requests) [] State.Tde02A.
Proof.
  assert (spec_ok sample_spec) as Hf by (split; first [by_compute | intros ? [= <-]; by_compute | intros ? [=] | done]).
  assert (create_ok sample_spec Sample.created) as Ha by (split; [intros ? [= <-]; by_compute|intros ? [=]]).
  destruct (write_opening_agrees (ServerHandler0 := ConnectProps.Sample.handler) 0 true sample_spec Sample.created _ [] _
    Sample.job Sample.responder [] [] [] [] _ Hf ltac:(by_compute) Ha ltac:(by_compute) ltac:(by_compute) eq_refl eq_refl
    eq_refl ltac:(by_compute) ltac:(by_compute) eq_refl
    I I eq_refl eq_refl) as (rq&rp&cr&ps&pr&j'&s1&adm&sv&E&_&_&_&_&_&_&_&_&_&_&_&_&_&_&_&Hj&_).
  rewrite app_nil_r in E. exists rq, rp, cr, ps, j'. split; [exact E|exact Hj].
Defined.
