(* ===== verification/CloseProps.v ===== *)
(** * The end of a transfer: properties

    TRANS.END, CRF and DESELECT on both sides, and the end of the session. *)

From S2P Require Import Prelude Diag Pi Kinds Crc Fpdu FpduNum FpduCodec Params Frame State Setters Builder BuilderProps FileSpecProps.
From S2P Require Import Checkpoint ArticleIo Link LinkProps Datapath.
From S2P Require Import Requester Responder ExchangeProps ConnectProps OpenProps.
Open Scope Z_scope.
Import Fpdu.

(** ** The FPDUs of the closing *)

Definition counts_ok (d : DataResult) : Prop :=
  fits_pi Pi.ByteCount (dr_data_bytes d) ∧ fits_pi Pi.ArticleCount (dr_articles d).

Lemma count_read pi v : fits_pi pi v → (Pi.max_len pi <=? 8)%nat = true → decode_num (encode_num v) = v.
Proof.
  intros Hv Hm%Nat.leb_le. apply decode_encode_num. unfold fits_pi in Hv. split; [lia|].
  eapply Z.lt_le_trans; [apply Hv|]. change 18446744073709551616 with (256 ^ 8). apply Z.pow_le_mono_r; lia.
Qed.

Definition trans_end_of (dst : Z) (d : DataResult) : Fpdu :=
  Builder.trans_end dst (Some (dr_data_bytes d)) (Some (dr_articles d)).
Definition ack_trans_end_of (dst : Z) (diag : Diagnostic) (d : DataResult) : Fpdu :=
  Builder.ack_trans_end dst diag (Some (dr_data_bytes d)) (Some (dr_articles d)).

(** The comparison of the counters of both sides. *)
Definition same_counts (a b : DataResult) : bool :=
  (dr_data_bytes a =? dr_data_bytes b) && (dr_articles a =? dr_articles b).

Lemma check_counts_total f b a : check_counts f b a ≠ Panic.
Proof. unfold check_counts. repeat case_match; done. Qed.

Lemma trans_end_read dst d :
  byte_ok dst → counts_ok d → sendable (trans_end_of dst d) ∧ kind (trans_end_of dst d) = FpduKind.TransEnd
  ∧ FpduExt.diag_or_ok (trans_end_of dst d) = Diagnostic.OK
  ∧ ∀ d', is_ok (check_counts (trans_end_of dst d) (dr_data_bytes d') (dr_articles d')) = same_counts d d'.
Proof.
  intros Hd [Hb Ha]. assert (byte_ok 0) by done.
  assert (∀ v, Some (dr_data_bytes d) = Some v → fits_pi Pi.ByteCount v) by (by intros ? [= <-]).
  assert (∀ v, Some (dr_articles d) = Some v → fits_pi Pi.ArticleCount v) by (by intros ? [= <-]).
  unfold trans_end_of. split; [|split; [done|split; [done|]]].
  - sendable.
  - intros d'. unfold check_counts, get_num.
    change (get _ Pi.ByteCount) with (Some (encode_num (dr_data_bytes d))).
    change (get _ Pi.ArticleCount) with (Some (encode_num (dr_articles d))). cbn [fmap option_fmap option_map].
    rewrite (count_read Pi.ByteCount _ Hb eq_refl), (count_read Pi.ArticleCount _ Ha eq_refl). unfold same_counts.
    by destruct (_ =? _), (_ =? _).
Qed.

Lemma ack_trans_end_read dst diag d :
  byte_ok dst → counts_ok d → Diagnostic.wf diag → let f := ack_trans_end_of dst diag d in
  sendable f ∧ kind f = FpduKind.AckTransEnd ∧ FpduExt.diag_or_ok f = diag
  ∧ is_negative f = negb (Diagnostic.is_ok diag)
  ∧ ∀ d', is_ok (check_counts f (dr_data_bytes d') (dr_articles d')) = same_counts d d'.
Proof.
  intros Hd [Hb Ha] Hw f. assert (byte_ok 0) by done.
  assert (∀ v, Some (dr_data_bytes d) = Some v → fits_pi Pi.ByteCount v) by (by intros ? [= <-]).
  assert (∀ v, Some (dr_articles d) = Some v → fits_pi Pi.ArticleCount v) by (by intros ? [= <-]).
  assert (fpdu_diag f = Some diag) as E by (rewrite <-(Diagnostic.from_to_bytes _ Hw); reflexivity).
  split; [unfold f, ack_trans_end_of; sendable|]. split; [done|]. unfold FpduExt.diag_or_ok, is_negative. rewrite E.
  split; [done|]. split; [done|]. intros d'. unfold check_counts, get_num.
  change (get f Pi.ByteCount) with (Some (encode_num (dr_data_bytes d))).
  change (get f Pi.ArticleCount) with (Some (encode_num (dr_articles d))). cbn [fmap option_fmap option_map].
  rewrite (count_read Pi.ByteCount _ Hb eq_refl), (count_read Pi.ArticleCount _ Ha eq_refl). unfold same_counts.
  by destruct (_ =? _), (_ =? _).
Qed.

(** The FPDUs that carry only a diagnostic. *)
Lemma close_fpdus_read dst :
  byte_ok dst →
  (sendable (Builder.crf dst Diagnostic.OK) ∧ FpduExt.diag_or_ok (Builder.crf dst Diagnostic.OK) = Diagnostic.OK)
  ∧ positive FpduKind.AckCrf (Builder.ack_crf dst Diagnostic.OK)
  ∧ sendable (Builder.deselect dst Diagnostic.OK)
  ∧ positive FpduKind.AckDeselect (Builder.ack_deselect dst Diagnostic.OK).
Proof.
  intros Hd. assert (byte_ok 0) by done. assert (Diagnostic.wf Diagnostic.OK) by by_compute.
  split; [split; [sendable|done]|]. split; [split; [sendable|done..]|]. split; [sendable|]. split; [sendable|done..].
Qed.

(** ** The requester *)

(** A request that is refused: only the diagnostic is kept. *)
Lemma request_refused fuel crc f ev k reply out rx st0 st1 st2 s :
  rq_conn s = talk crc Requester out (arrives crc reply :: rx) st0 →
  sendable f → asks st0 ev st1 → valid reply → kind reply = k → is_negative reply = true →
  State.apply st1 (Received k true) = State.Next st2 → k ≠ FpduKind.Abort →
  request (S fuel) f ev k s = (with_conn (talk crc Requester (out ++ [wire crc f]) rx st2) s,
    Err (Refused (kind f) (FpduExt.diag_or_ok reply) (peer_message reply))).
Proof.
  intros Hc Hf H1 Hv Hk Hneg H2 Ha. unfold request, on_conn. apply zoom_eq. rewrite Hc.
  rewrite (talk_exchange crc Requester fuel f ev k reply out rx st0 st1 st2); try done.
  - by rewrite Hneg.
  - unfold hears. by rewrite Hk, Hneg.
Qed.

(** What both sides find at the end: the same counters, or not. *)
Definition end_of (r s : DataResult) : Diagnostic :=
  if same_counts r s then Diagnostic.OK else Diagnostic.INVALID_COUNTS.

Lemma end_of_wf r s : Diagnostic.wf (end_of r s).
Proof. unfold end_of. destruct (same_counts r s); by_compute. Qed.

Lemma same_counts_sym r s : same_counts r s = same_counts s r.
Proof. unfold same_counts. by rewrite (Z.eqb_sym (dr_data_bytes r)), (Z.eqb_sym (dr_articles r)). Qed.

(** The states of a lane at its end: before TRANS.END, and while it is under
    way, on both sides. *)
Inductive ending : State → State → State → State → Prop :=
| ending_write : ending State.Tde07A State.Tde08A State.Tde07B State.Tde08B
| ending_read : ending State.Tdl07A State.Tdl08A State.Tdl07B State.Tdl08B.

Lemma trans_end_request fuel crc s out rx sa sb sc sd r d :
  ending sa sb sc sd → byte_ok (rq_peer_id s) → byte_ok (rq_my_id s) → counts_ok r → counts_ok d →
  let ack := ack_trans_end_of (rq_my_id s) (end_of r d) d in
  rq_conn s = talk crc Requester out (arrives crc ack :: rx) sa →
  unless_refused (
    ack ← request (S fuel) (trans_end_of (rq_peer_id s) r) L_TransferEnd FpduKind.AckTransEnd;
    lift (check_counts ack (dr_data_bytes r) (dr_articles r)) ;; mret Diagnostic.OK) s
  = (with_conn (talk crc Requester (out ++ [wire crc (trans_end_of (rq_peer_id s) r)]) rx State.Of02) s, Ok (end_of r d)).
Proof.
  intros Hend Hp Hm Hr Hd ack Hc. destruct (trans_end_read (rq_peer_id s) r Hp Hr) as (Hf&_&_&_).
  destruct (ack_trans_end_read (rq_my_id s) (end_of r d) d Hm Hd (end_of_wf r d)) as (Ha&Hk&Hdiag&Hneg&Hcheck). fold ack in Ha, Hk, Hdiag, Hneg, Hcheck.
  assert (asks sa L_TransferEnd sb) as Hasks by (by destruct Hend).
  unfold unless_refused. unfold end_of in *. destruct (same_counts r d) eqn:Es.
  - erewrite bind_eq.
    2:{ eapply (request_ok fuel crc _ L_TransferEnd FpduKind.AckTransEnd); [exact Hc|exact Hf|exact Hasks|by split| |done].
        by destruct Hend. }
    specialize (Hcheck r). rewrite same_counts_sym, Es in Hcheck.
    destruct (check_counts ack _ _) as [[]| |]; [|done..]. reflexivity.
  - erewrite bind_err.
    2:{ eapply (request_refused fuel crc _ L_TransferEnd FpduKind.AckTransEnd); [exact Hc|exact Hf|exact Hasks|apply Ha|done|by rewrite Hneg| |done].
        by destruct Hend. }
    by rewrite Hdiag.
Qed.

(** What the requester sends at the end, and what it is answered. *)
Definition end_requests (peer : Z) (interrupted : bool) (r : DataResult) : list Fpdu :=
  (if interrupted then [] else [trans_end_of peer r])
  ++ [Builder.crf peer Diagnostic.OK; Builder.deselect peer Diagnostic.OK].
Definition end_replies (dst : Z) (interrupted : bool) (r d : DataResult) : list Fpdu :=
  (if interrupted then [] else [ack_trans_end_of dst (end_of r d) d])
  ++ [Builder.ack_crf dst Diagnostic.OK; Builder.ack_deselect dst Diagnostic.OK].

Definition is_interrupted (e : DataEnd) : bool := match e with Interrupted _ _ _ => true | _ => false end.

(** The diagnostic that both sides end with. *)
Definition closing_diag (r d : DataResult) : Diagnostic :=
  if is_interrupted (dr_end r) then Diagnostic.OK else end_of r d.

Lemma close_simple fuel crc s out rx st0 st1 st2 ev f k reply (diag : Diagnostic) :
  rq_conn s = talk crc Requester out (arrives crc reply :: rx) st0 →
  sendable f → asks st0 ev st1 → positive k reply → State.apply st1 (Received k false) = State.Next st2 →
  k ≠ FpduKind.Abort →
  unless_refused (request (S fuel) f ev k ;; mret diag) s
  = (with_conn (talk crc Requester (out ++ [wire crc f]) rx st2) s, Ok diag).
Proof.
  intros Hc Hf Ha Hp Hs Hk. unfold unless_refused.
  by rewrite (bind_eq _ _ _ _ _ (request_ok fuel crc f ev k reply out rx st0 st1 st2 s Hc Hf Ha Hp Hs Hk)).
Qed.

Lemma close_transfer_ok fuel crc s out rx sa sb sc sd st r d :
  ending sa sb sc sd → byte_ok (rq_peer_id s) → byte_ok (rq_my_id s) → counts_ok r → counts_ok d →
  st = (if is_interrupted (dr_end r) then State.Of02 else sa) →
  rq_conn s = talk crc Requester out
    (map (arrives crc) (end_replies (rq_my_id s) (is_interrupted (dr_end r)) r d) ++ rx) st →
  close_transfer (S fuel) r s
  = (with_conn (talk crc Requester
       (out ++ map (wire crc) (end_requests (rq_peer_id s) (is_interrupted (dr_end r)) r)) rx State.Cn03) s,
     Ok (closing_diag r d)).
Proof.
  intros Hend Hp Hm Hr Hd -> Hc. destruct (close_fpdus_read _ Hp) as ([Hcrf _]&_&Hdes&_).
  destruct (close_fpdus_read _ Hm) as (_&Hacrf&_&Hades).
  unfold close_transfer. erewrite bind_eq by reflexivity.
  assert (∀ s' out' diag, rq_conn s' = talk crc Requester out' (map (arrives crc)
        [Builder.ack_crf (rq_my_id s) Diagnostic.OK; Builder.ack_deselect (rq_my_id s) Diagnostic.OK] ++ rx) State.Of02 →
    (diag ← unless_refused (request (S fuel) (Builder.crf (rq_peer_id s) Diagnostic.OK) L_Close FpduKind.AckCrf ;; mret diag);
     unless_refused (request (S fuel) (Builder.deselect (rq_peer_id s) Diagnostic.OK) L_Deselect FpduKind.AckDeselect ;; mret diag)) s'
    = (with_conn (talk crc Requester (out' ++ map (wire crc)
         [Builder.crf (rq_peer_id s) Diagnostic.OK; Builder.deselect (rq_peer_id s) Diagnostic.OK]) rx State.Cn03) s', Ok diag)) as Hclose.
  { intros s' out' diag Hc'. erewrite bind_eq.
    2:{ eapply (close_simple fuel crc s' out' _ State.Of02 State.Of03A State.Sf03 L_Close _ FpduKind.AckCrf); [exact Hc'|exact Hcrf|reflexivity|exact Hacrf|reflexivity|done]. }
    erewrite (close_simple fuel crc _ _ rx State.Sf03 State.Sf04A State.Cn03 L_Deselect);
      [|reflexivity|exact Hdes|reflexivity|exact Hades|reflexivity|done].
    by rewrite <-app_assoc. }
  unfold end_replies, end_requests, closing_diag in *. destruct (dr_end r); cbn [is_interrupted] in *.
  - erewrite bind_eq.
    2:{ eapply (trans_end_request fuel crc s out); [exact Hend|done|done|exact Hr|exact Hd|exact Hc]. }
    erewrite Hclose by reflexivity. by rewrite <-app_assoc.
  - erewrite bind_eq.
    2:{ eapply (trans_end_request fuel crc s out); [exact Hend|done|done|exact Hr|exact Hd|exact Hc]. }
    erewrite Hclose by reflexivity. by rewrite <-app_assoc.
  - erewrite bind_eq by reflexivity. by apply Hclose.
Qed.

(** ** The responder *)

Lemma serve_close_ok fuel crc out rx sa sb sc sd st (interrupted : bool) peer dst r d :
  ending sa sb sc sd → byte_ok peer → byte_ok dst → counts_ok r → counts_ok d →
  st = (if interrupted then State.Of02 else sc) → (3 ≤ fuel)%nat →
  serve_close fuel peer d Diagnostic.OK
    (talk crc Server out (map (arrives crc) (end_requests dst interrupted r) ++ rx) st)
  = (talk crc Server (out ++ map (wire crc) (end_replies peer interrupted r d)) rx State.Cn03,
     Ok (if interrupted then Diagnostic.OK else end_of r d)).
Proof.
  intros Hend Hp Hdst Hr Hd -> Hfuel. destruct (close_fpdus_read _ Hp) as (_&[Hacrf _ _]&_&[Hades _ _]).
  destruct (close_fpdus_read _ Hdst) as ([[Hcrf _] Hcd]&_&[Hdes _]&_).
  assert (∀ n out' diag, serve_close (S (S n)) peer d diag (talk crc Server out' (map (arrives crc)
        [Builder.crf dst Diagnostic.OK; Builder.deselect dst Diagnostic.OK] ++ rx) State.Of02)
    = (talk crc Server (out' ++ map (wire crc) [Builder.ack_crf peer Diagnostic.OK; Builder.ack_deselect peer Diagnostic.OK])
         rx State.Cn03, Ok diag)) as Hclose.
  { intros n out' diag. cbn [serve_close map app].
    rewrite (bind_eq _ _ _ _ _ (talk_recv crc Server (Builder.crf dst Diagnostic.OK) _ _ _ Hcrf)).
    erewrite bind_eq.
    2:{ apply (talk_apply_received crc Server _ _ _ State.Of02 State.Of03B); done. }
    change (kind (Builder.crf dst Diagnostic.OK)) with FpduKind.Crf. cbv iota.
    erewrite bind_eq.
    2:{ apply (talk_respond crc Server L_Accept _ _ _ State.Of03B State.Sf03 eq_refl Hacrf). }
    rewrite (bind_eq _ _ _ _ _ (talk_recv crc Server (Builder.deselect dst Diagnostic.OK) _ _ _ Hdes)).
    erewrite bind_eq.
    2:{ apply (talk_apply_received crc Server _ _ _ State.Sf03 State.Sf04B); done. }
    change (kind (Builder.deselect dst Diagnostic.OK)) with FpduKind.Deselect. cbv iota.
    erewrite bind_eq.
    2:{ apply (talk_respond crc Server L_Accept _ _ _ State.Sf04B State.Cn03 eq_refl Hades). }
    unfold end_diag. rewrite Hcd. by rewrite <-app_assoc. }
  destruct fuel as [|[|[|n]]]; [lia..|]. destruct interrupted; [by apply Hclose|].
  unfold end_requests, end_replies. destruct (trans_end_read dst r Hdst Hr) as ([Hv _]&Hk&Hdiag&Hcheck).
  destruct (ack_trans_end_read peer (end_of r d) d Hp Hd (end_of_wf r d)) as (Ha&_).
  cbn [map app]. cbn [serve_close]. fold (trans_end_of dst r).
  rewrite (bind_eq _ _ _ _ _ (talk_recv crc Server _ _ _ _ Hv)).
  erewrite bind_eq.
  2:{ apply (talk_apply_received crc Server _ _ _ sc sd); [|by rewrite Hk].
      apply (hears_request _ _ FpduKind.TransEnd); [done|done|]. by destruct Hend. }
  rewrite Hk. cbv iota. unfold answer_trans_end. specialize (Hcheck d).
  assert (respond L_Accept (ack_trans_end_of peer (end_of r d) d) (talk crc Server out (map (arrives crc)
      [Builder.crf dst Diagnostic.OK; Builder.deselect dst Diagnostic.OK] ++ rx) sd)
    = (talk crc Server (out ++ [wire crc (ack_trans_end_of peer (end_of r d) d)]) (map (arrives crc)
      [Builder.crf dst Diagnostic.OK; Builder.deselect dst Diagnostic.OK] ++ rx) State.Of02, Ok tt)) as Hresp.
  { apply talk_respond; [by destruct Hend|done]. }
  unfold end_of in *. destruct (check_counts _ _ _) as [[]| |] eqn:Ecc; cbn [is_ok] in Hcheck; rewrite <-Hcheck in *.
  - erewrite bind_eq by exact Hresp. unfold end_diag. rewrite Hdiag.
    change (Diagnostic.is_ok Diagnostic.OK) with true. cbv iota.
    etransitivity; [exact (Hclose n _ _)|]. by rewrite <-app_assoc.
  - erewrite bind_eq by exact Hresp. etransitivity; [exact (Hclose n _ _)|]. by rewrite <-app_assoc.
  - by destruct (check_counts_total (trans_end_of dst r) (dr_data_bytes d) (dr_articles d)).
Qed.

(** C5: the closing of a transfer agrees on both sides. At the end of a write or
    of a read, each side run on what the other sends, TRANS.END (which an
    interrupted transfer leaves out), CRF and DESELECT bring both back to the
    connected state with the same diagnostic: success exactly when the transfer
    was interrupted or both have counted the same bytes and articles, and
    invalid counts otherwise, which the responder detects and the requester
    learns from the refusal. *)
Theorem closing_agrees fuel crc sa sb sc sd (s : Requester_) r d out_r out_s rest_r rest_s :
  let stopped := is_interrupted (dr_end r) in
  ending sa sb sc sd → byte_ok (rq_peer_id s) → byte_ok (rq_my_id s) → counts_ok r → counts_ok d → (3 ≤ fuel)%nat →
  ∃ requests replies diag,
    close_transfer fuel r (with_conn (talk crc Requester out_r (map (arrives crc) replies ++ rest_r)
        (if stopped then State.Of02 else sa)) s)
      = (with_conn (talk crc Requester (out_r ++ map (wire crc) requests) rest_r State.Cn03) s, Ok diag)
    ∧ serve_close fuel (rq_my_id s) d Diagnostic.OK (talk crc Server out_s (map (arrives crc) requests ++ rest_s)
        (if stopped then State.Of02 else sc))
      = (talk crc Server (out_s ++ map (wire crc) replies) rest_s State.Cn03, Ok diag)
    ∧ diag = (if stopped || (dr_data_bytes r =? dr_data_bytes d) && (dr_articles r =? dr_articles d)
              then Diagnostic.OK else Diagnostic.INVALID_COUNTS).
Proof.
  intros stopped Hend Hp Hm Hr Hd Hfuel.
  exists (end_requests (rq_peer_id s) stopped r), (end_replies (rq_my_id s) stopped r d), (closing_diag r d).
  destruct fuel as [|fuel]; [lia|]. split; [|split].
  - set (s' := with_conn _ s).
    exact (close_transfer_ok fuel crc s' out_r rest_r sa sb sc sd _ r d Hend Hp Hm Hr Hd eq_refl eq_refl).
  - exact (serve_close_ok (S fuel) crc out_s rest_s sa sb sc sd (if stopped then State.Of02 else sc) stopped
      (rq_my_id s) (rq_peer_id s) r d Hend Hm Hp Hr Hd eq_refl Hfuel).
  - unfold closing_diag, end_of, same_counts. fold stopped. by destruct stopped.
Qed.

Example closing_agrees_witness :
  let r := mkDataResult Completed 1457 3 1 in let d := mkDataResult Completed 1457 2 1 in
  ∃ replies s', close_transfer 3 r (with_conn (talk true Requester [] (map (arrives true) replies) State.Tde07A)
      (j_session OpenProps.Sample.job)) = (s', Ok Diagnostic.INVALID_COUNTS).
Proof.
  intros r d. assert (counts_ok r) as Hr by (split; by_compute). assert (counts_ok d) as Hd by (split; by_compute).
  destruct (closing_agrees 3 true _ _ _ _ (j_session OpenProps.Sample.job) r d [] [] [] [] ending_write
    ltac:(by_compute) ltac:(by_compute) Hr Hd ltac:(lia)) as (rq&rp&diag&E&_&Ediag).
  rewrite app_nil_r in E. exists rp. eexists. rewrite Ediag in E. exact E.
Defined.
