(* ===== verification/MessageProps.v ===== *)
(** * Messages: properties

    A message, segmented or not, arrives whole, and its reply comes back. *)

From S2P Require Import Prelude Diag Pi Kinds Crc Ebcdic Fpdu FpduNum FpduCodec Params Frame State Setters Builder BuilderProps FileSpecProps.
From S2P Require Import Checkpoint ArticleIo Link LinkProps Datapath.
From S2P Require Import Requester Responder ExchangeProps ConnectProps OpenProps.
Open Scope Z_scope.
Import Fpdu.

(** ** The FPDUs of a message *)

(** The parameters of an MSG or MSGDM in the order of their codes. *)
Definition param_some {A} (o : option A) (g : A → Param) : list Param :=
  match o with Some x => [g x] | None => [] end.

Lemma msg_params k dst f reply body :
  params (Builder.msg k dst f reply body)
  = Param_Pgi Pgi.FileId (Builder.file_id_group f)
    :: Param_Pi Pi.TransferId (encode_num (Builder.fs_transfer_id f))
    :: param_some (if reply then Some tt else None) (λ _, Param_Pi Pi.RequestedAttributes [1])
    ++ param_some (Builder.data_code f) (λ c, Param_Pi Pi.DataCode [c])
    ++ Param_Pi Pi.Priority [Builder.priority f]
    :: param_some (Builder.historical_group f) (Param_Pgi Pgi.HistoricalAttributes)
    ++ param_some (Builder.client_id f) (λ c, Param_Pi Pi.ClientId (encode_text c))
    ++ param_some (Builder.bank_id f) (λ c, Param_Pi Pi.BankId (encode_text c))
    ++ param_some (Builder.non_empty body) (Param_Pi Pi.Message) ++ [].
Proof.
  unfold Builder.msg, Builder.when, Builder.when_some, Builder.file_id_group, Builder.historical_group.
  destruct (Builder.fs_requester f), (Builder.fs_server f), reply, (Builder.data_code f), (Builder.creation_date f),
    (Builder.extraction_date f), (Builder.client_id f), (Builder.bank_id f), (Builder.non_empty body);
    reflexivity.
Qed.

Lemma msg_kind k dst f reply body : kind (Builder.msg k dst f reply body) = k.
Proof.
  unfold Builder.msg, Builder.when, Builder.when_some.
  destruct reply, (Builder.data_code f), (Builder.historical_group f), (Builder.client_id f), (Builder.bank_id f),
    (Builder.non_empty body); reflexivity.
Qed.

(** Parameters without the value that is looked for. *)
Lemma get_in_skip q p l : holds q p = None → get_in q (p :: l) = get_in q l.
Proof. intros Hp. by rewrite get_in_cons, Hp. Qed.

Lemma get_in_skip_some {A} q (o : option A) g l :
  (∀ x, o = Some x → holds q (g x) = None) → get_in q (param_some o g ++ l) = get_in q l.
Proof. intros Ho. destruct o as [x|]; [|done]. unfold param_some. simpl app. apply get_in_skip. by apply Ho. Qed.

Lemma get_in_this {A} q (o : option A) g (h : A → bytes) l :
  (∀ x, holds q (g x) = Some (h x)) → get_in q l = None → get_in q (param_some o g ++ l) = h <$> o.
Proof.
  intros Hg Hl. destruct o as [x|]; [|done]. unfold param_some. simpl app. rewrite get_in_cons, Hg. done.
Qed.

Lemma file_id_absent q f : Pgi.of_pi q ≠ Some Pgi.FileId → find_item q (Builder.file_id_group f) = None.
Proof.
  intros Hq. unfold Builder.file_id_group. apply find_item_None.
  destruct (Builder.fs_requester f), (Builder.fs_server f); simpl; repeat (constructor; [intros <-; by apply Hq|]); constructor.
Qed.

Lemma historical_absent q f h :
  Pgi.of_pi q ≠ Some Pgi.HistoricalAttributes → Builder.historical_group f = Some h → find_item q h = None.
Proof.
  intros Hq. unfold Builder.historical_group. destruct (Builder.creation_date f) as [d|]; [|done]. intros [= <-].
  apply find_item_None.
  destruct (Builder.extraction_date f); simpl; repeat (constructor; [intros <-; by apply Hq|]); constructor.
Qed.

(** The next parameters until the one that is looked for. *)
Ltac skip_params :=
  repeat first
    [ rewrite get_in_skip by (first [reflexivity | by apply file_id_absent])
    | rewrite get_in_skip_some by (first [intros ? _; reflexivity | intros ?; by apply historical_absent]) ].

Ltac read_msg := unfold get; rewrite msg_params; skip_params.

Section Read.
Context (k : FpduKind) (dst : Z) (f : Builder.FileSpec) (reply : bool) (body : option bytes).
Let g := Builder.msg k dst f reply body.

Lemma msg_message : get g Pi.Message = Builder.non_empty body.
Proof. unfold g. read_msg. rewrite (get_in_this _ _ _ id); [by destruct (Builder.non_empty body)|done|done]. Qed.

Lemma msg_transfer_id : get g Pi.TransferId = Some (encode_num (Builder.fs_transfer_id f)).
Proof. unfold g. by read_msg. Qed.

Lemma msg_attributes : get g Pi.RequestedAttributes = if reply then Some [1] else None.
Proof. unfold g. read_msg. rewrite (get_in_this _ _ _ (λ _, [1])); [by destruct reply|done|by skip_params]. Qed.

(** An option that is sent as it is, or translated. *)
Ltac this_param h := read_msg; rewrite (get_in_this _ _ _ h); [done|done|by skip_params].

(** The description that an MSG carries: the identification, the identifier of
    the transfer, the code and the priority, the dates and the parties. *)
Definition message_spec (s : Builder.FileSpec) : Builder.FileSpec :=
  Builder.mkFileSpec (Builder.fs_requester s) (Builder.fs_server s) (Builder.file_type s) (Builder.file_name s)
    (Builder.fs_transfer_id s) false (Builder.data_code s) (Builder.priority s) 0 ArticleFormat.Fixed 0 None None
    None 0 (Builder.creation_date s) (Builder.extraction_date s) (Builder.client_id s) (Builder.bank_id s) None None.

Lemma msg_file_id q v : find_item q (Builder.file_id_group f) = Some v → get g q = Some v.
Proof. intros E. unfold get, g. rewrite msg_params, get_in_cons. simpl holds. by rewrite E. Qed.

Lemma msg_in_file_id q : Builder.in_file_id g q = Builder.text_of <$> find_item q (Builder.file_id_group f).
Proof. unfold Builder.in_file_id, pgi, g. by rewrite msg_params. Qed.

Lemma text_option m (o : option ustring) : opt_ok (canonical m) o → decode_text <$> (encode_text <$> o) = o.
Proof. intros Ho. destruct o as [s|]; [|done]. simpl. f_equal. by apply (canonical_decode m), Ho. Qed.

(** The historical group holds the dates. *)
Lemma msg_creation l :
  get_in Pi.CreationDate l = None →
  get_in Pi.CreationDate (param_some (Builder.historical_group f) (Param_Pgi Pgi.HistoricalAttributes) ++ l)
  = Builder.text <$> Builder.creation_date f.
Proof.
  intros Hl. unfold Builder.historical_group. by destruct (Builder.creation_date f), (Builder.extraction_date f).
Qed.

Lemma msg_extraction l :
  get_in Pi.ExtractionDate l = None →
  get_in Pi.ExtractionDate (param_some (Builder.historical_group f) (Param_Pgi Pgi.HistoricalAttributes) ++ l)
  = match Builder.creation_date f with Some _ => Builder.text <$> Builder.extraction_date f | None => None end.
Proof.
  intros Hl. unfold Builder.historical_group. by destruct (Builder.creation_date f), (Builder.extraction_date f).
Qed.

Context (Hf : spec_ok f).

Lemma msg_texts :
  get_text g Pi.CreationDate = Builder.creation_date f ∧ get_text g Pi.ExtractionDate = Builder.extraction_date f
  ∧ get_text g Pi.ClientId = Builder.client_id f ∧ get_text g Pi.BankId = Builder.bank_id f.
Proof.
  unfold get_text, g. destruct Hf. split_and!; read_msg.
  - rewrite msg_creation by (by skip_params). by apply (text_option 12).
  - rewrite msg_extraction by (by skip_params).
    destruct (Builder.creation_date f) eqn:E; [by apply (text_option 12)|by rewrite ok_dates].
  - rewrite (get_in_this _ _ _ encode_text) by (done || by skip_params). by apply (text_option 24).
  - rewrite (get_in_this _ _ _ encode_text) by (done || by skip_params). by apply (text_option 24).
Qed.

(** The parameters that an MSG does not carry. *)
Lemma msg_absent :
  Forall (λ q, get g q = None)
    [Pi.Restarted; Pi.MaxEntitySize; Pi.ArticleFormat; Pi.ArticleLength; Pi.FileOrganisation; Pi.FileLabel;
     Pi.ReservationUnit; Pi.MaxReservation; Pi.FileAccessControl; Pi.FreeMessage].
Proof. unfold g. repeat (constructor; [by read_msg|]). constructor. Qed.

(** What is in the group of the file identifier. *)
Lemma msg_identification :
  Builder.in_file_id g Pi.Requester = Builder.fs_requester f ∧ Builder.in_file_id g Pi.Server = Builder.fs_server f
  ∧ get_num g Pi.FileType = Some (Builder.file_type f) ∧ get_text g Pi.FileName = Some (Builder.file_name f).
Proof.
  rewrite !msg_in_file_id. unfold get_num, get_text. destruct Hf. split_and!.
  - transitivity (decode_text <$> (encode_text <$> Builder.fs_requester f)); [|by apply (text_option 24)].
    unfold Builder.file_id_group. by destruct (Builder.fs_requester f), (Builder.fs_server f).
  - transitivity (decode_text <$> (encode_text <$> Builder.fs_server f)); [|by apply (text_option 24)].
    unfold Builder.file_id_group. by destruct (Builder.fs_requester f), (Builder.fs_server f).
  - rewrite (msg_file_id _ (encode_num (Builder.file_type f))); [simpl; by rewrite decode_encode_num|].
    unfold Builder.file_id_group. by destruct (Builder.fs_requester f), (Builder.fs_server f).
  - rewrite (msg_file_id _ (encode_text (Builder.file_name f))); [simpl; by rewrite (canonical_decode 76)|].
    unfold Builder.file_id_group. by destruct (Builder.fs_requester f), (Builder.fs_server f).
Qed.

Lemma msg_bytes :
  Builder.first_byte g Pi.DataCode = Builder.data_code f ∧ Builder.first_byte g Pi.Priority = Some (Builder.priority f)
  ∧ FpduExt.transfer_id g = Some (Builder.fs_transfer_id f).
Proof.
  unfold Builder.first_byte, FpduExt.transfer_id. rewrite msg_transfer_id. split_and!.
  - unfold g. read_msg. rewrite (get_in_this _ _ _ (λ c, [c])) by (done || by skip_params). by destruct (Builder.data_code f).
  - unfold g. by read_msg.
  - destruct (num_read _ _ (ok_transfer_id _ Hf) eq_refl) as [E Eu]. simpl. by rewrite E, Eu.
Qed.

Lemma from_fpdu_msg : Builder.from_fpdu g = message_spec f.
Proof.
  destruct msg_texts as (E51&E52&E61&E62), msg_identification as (E3&E4&E11&E12), msg_bytes as (E16&E17&E13).
  pose proof msg_absent as Habs. rewrite !Forall_cons in Habs.
  destruct Habs as (E15&E25&E31&E32&E33&E37&E41&E42&E63&E99&_).
  unfold Builder.from_fpdu. rewrite E3, E4, E11, E12, E13, E16, E17, E51, E52, E61, E62.
  unfold get_text, get_num, FpduExt.max_entity_size, Builder.first_byte, get_num.
  by rewrite E15, E25, E31, E32, E33, E37, E41, E42, E63, E99.
Qed.
End Read.

(** A parameter that is not there adds its length. *)
Lemma params_len_set_new p l :
  (∀ q, q ∈ l → param_code q ≠ param_code p) → params_len (set_param p l) = (param_len p + params_len l)%nat.
Proof.
  unfold params_len. induction l as [|q l IH]; intros Hn; [done|]. cbn [set_param].
  destruct (Z.eqb_spec (param_code q) (param_code p)) as [E|_]; [by destruct (Hn q ltac:(left))|].
  destruct (_ <? _); [done|]. simpl. rewrite IH by (intros r Hr; apply Hn; by right). lia.
Qed.

Lemma get_in_absent pi l : get_in pi l = None → ∀ q, q ∈ l → param_code q ≠ Pi.code pi.
Proof.
  induction l as [|p l IH]; intros Hg q Hq Hc; [by apply elem_of_nil in Hq|]. rewrite get_in_cons in Hg.
  apply elem_of_cons in Hq as [->|Hq]; [|destruct (holds pi p); [done|by apply (IH Hg q)]].
  destruct (same_code_pi _ _ Hc) as [w ->]. simpl in Hg. by rewrite decide_True in Hg.
Qed.

Lemma msg_length k dst f reply v :
  v ≠ [] → FpduKind.is_data k = false →
  encoded_len (Builder.msg k dst f reply (Some v)) = (encoded_len (Builder.msg k dst f reply None) + unit_len (length v))%nat.
Proof.
  intros Hv Hk. 
  rewrite !encoded_len_params by (by rewrite msg_kind).
  assert (Builder.msg k dst f reply (Some v) = set (Builder.msg k dst f reply None) Pi.Message v) as -> by (by destruct v).
  unfold set. cbn [params with_params]. rewrite params_len_set_new; [cbn [param_len]; lia|].
  apply get_in_absent. apply (msg_message k dst f reply None).
Qed.

(** A body that the catalogue allows. *)
Lemma msg_sendable k dst f reply body :
  k = FpduKind.Msg ∨ k = FpduKind.MsgDm → spec_ok f → byte_ok dst → body_ok body →
  sendable (Builder.msg k dst f reply body).
Proof.
  intros Hk Hf Hd Hb. destruct (msg_built f dst Hf Hd k reply body Hk Hb) as (cs&n&Hn&Hc&HB).
  apply (B_sendable k cs n); [done|by destruct Hk as [->| ->]|done|done].
Qed.

Lemma segment_sendable k dst v :
  k = FpduKind.MsgMm ∨ k = FpduKind.MsgFm → byte_ok dst → bytes_ok v → (length v ≤ 4096)%nat → v ≠ [] →
  sendable (Builder.msg_segment k dst v) ∧ kind (Builder.msg_segment k dst v) = k
  ∧ get (Builder.msg_segment k dst v) Pi.Message = Some v.
Proof.
  intros Hk Hd Hv Hl Hne. assert (byte_ok 0) by done.
  split; [|unfold Builder.msg_segment; rewrite bool_decide_true by done; by split].
  destruct Hk as [->| ->]; sendable.
Qed.

Lemma ack_msg_read dst diag tid body :
  byte_ok dst → Diagnostic.wf diag → fits_pi Pi.TransferId tid → body_ok body →
  let f := Builder.ack_msg dst diag (Some tid) body in
  sendable f ∧ kind f = FpduKind.AckMsg ∧ FpduExt.diag_or_ok f = diag ∧ is_negative f = negb (Diagnostic.is_ok diag)
  ∧ get f Pi.Message = Builder.non_empty body ∧ peer_message f = None ∧ get_text f Pi.FreeMessage = None.
Proof.
  intros Hd Hw Ht Hb f. assert (byte_ok 0) by done.
  assert (∀ v, Some tid = Some v → fits_pi Pi.TransferId v) by (by intros ? [= <-]).
  split; [unfold f; sendable|].
  assert (fpdu_diag f = Some diag) as E.
  { rewrite <-(Diagnostic.from_to_bytes _ Hw). unfold f, Builder.ack_msg, Builder.when_some.
    by destruct (Builder.non_empty body). }
  unfold FpduExt.diag_or_ok, is_negative, peer_message, get_text. rewrite E. unfold f, Builder.ack_msg, Builder.when_some.
  by destruct (Builder.non_empty body).
Qed.

(** ** Segments *)

Section Segments.
Context (crc : bool) (peer : Z) (Hp : byte_ok peer).

(** Pieces that one FPDU carries. *)
Definition pieces_ok (l : list bytes) : Prop :=
  Forall (λ v, bytes_ok v ∧ (length v ≤ 4096)%nat ∧ v ≠ []) l.

Lemma segment_fpdus_sendable l : pieces_ok l → Forall sendable (segment_fpdus peer l).
Proof.
  induction 1 as [|v l (Hv&Hl&Hn) Hrest IH]; [constructor|]. cbn [segment_fpdus]. destruct l as [|w l].
  - apply Forall_singleton. by apply segment_sendable; [right|..].
  - constructor; [by apply segment_sendable; [left|..]|done].
Qed.

Lemma talk_send_all role fs out rx s :
  Forall sendable fs →
  c_on_link (send_all fs) (talk crc role out rx s) = (talk crc role (out ++ map (wire crc) fs) rx s, Ok tt).
Proof.
  intros Hfs. revert out. induction Hfs as [|f fs Hf Hfs IH]; intros out; cbn [send_all map].
  - by rewrite app_nil_r.
  - unfold c_on_link, zoom in *. cbn [c_link c_machine] in *.
    pose proof (talk_send crc role f out rx s Hf) as E. unfold c_on_link, zoom in E. cbn [c_link c_machine] in E.
    destruct (send f (c_link (talk crc role out rx s))) as [l r] eqn:El. injection E as El' ->.
    rewrite (bind_eq _ _ _ _ _ El), El'. specialize (IH (out ++ [wire crc f])). rewrite <-app_assoc in IH. exact IH.
Qed.

(** The responder puts the segments together. *)
Lemma talk_gather l fuel out rx acc :
  pieces_ok l → l ≠ [] → (length l ≤ fuel)%nat →
  gather fuel acc (talk crc Server out (map (arrives crc) (segment_fpdus peer l) ++ rx) State.Mg01B)
  = (talk crc Server out rx State.Mg04B, Ok (acc ++ concat l)).
Proof.
  intros Hl Hn. revert fuel acc. induction Hl as [|v l (Hv&Hlen&Hne) Hrest IH]; intros fuel acc Hfuel; [done|].
  destruct fuel as [|fuel]; [simpl in Hfuel; lia|]. cbn [length] in Hfuel. cbn [gather segment_fpdus].
  destruct l as [|w l].
  - destruct (segment_sendable FpduKind.MsgFm peer v) as ([Hs _]&Hk&Hg); [by right|done..|].
    cbn [map app]. rewrite (bind_eq _ _ _ _ _ (talk_recv crc Server _ _ _ _ Hs)). erewrite bind_eq.
    2:{ apply (talk_apply_received crc Server _ _ _ State.Mg01B State.Mg04B); [|by rewrite Hk].
        by apply (hears_request _ _ FpduKind.MsgFm). }
    rewrite Hk, Hg. simpl. by rewrite app_nil_r.
  - destruct (segment_sendable FpduKind.MsgMm peer v) as ([Hs _]&Hk&Hg); [by left|done..|].
    cbn [map app]. rewrite (bind_eq _ _ _ _ _ (talk_recv crc Server _ _ _ _ Hs)). erewrite bind_eq.
    2:{ apply (talk_apply_received crc Server _ _ _ State.Mg01B State.Mg01B); [|by rewrite Hk].
        by apply (hears_request _ _ FpduKind.MsgMm). }
    rewrite Hk, Hg. cbn [default]. etransitivity; [apply IH; [done|simpl in *; lia]|].
    by rewrite <-app_assoc.
Qed.
End Segments.

(** The pieces that [chunks] cuts. *)
Lemma chunks_pieces n m : (0 < n ≤ 4096)%nat → bytes_ok m → pieces_ok (chunks n m).
Proof.
  intros [Hn Hmax]. revert m. apply (chunks_ind (λ m, bytes_ok m → pieces_ok (chunks n m)) n Hn); [constructor|].
  intros m Hne IH Hm.
  rewrite (chunks_step n m Hn Hne). constructor; [|by apply IH, bytes_ok_drop]. split; [by apply bytes_ok_take|].
  rewrite length_take. split; [lia|]. destruct m, n; [done|done|lia|done].
Qed.

Lemma chunks_count {A} n (l : list A) : (0 < n)%nat → (length (chunks n l) ≤ length l)%nat.
Proof.
  intros Hn. revert l. apply (chunks_ind (λ l, length (chunks n l) ≤ length l)%nat n Hn); [done|]. intros l Hl IH.
  rewrite (chunks_step n l Hn Hl). simpl. rewrite length_drop in IH. destruct l; [done|]. simpl in *. lia.
Qed.

(** ** The requester *)

(** The FPDUs of a message. *)
Definition message_fpdus (max : nat) (crc : bool) (peer : Z) (f : Builder.FileSpec) (reply : bool) (m : bytes) : list Fpdu :=
  let room := message_room max peer f reply crc in
  if (length m <=? room)%nat then [Builder.msg FpduKind.Msg peer f reply (Some m)]
  else Builder.msg FpduKind.MsgDm peer f reply (Some (take room m))
       :: segment_fpdus peer (chunks (segment_room max crc) (drop room m)).

(** Bodies that the catalogue allows (4096 bytes): a message that goes in one
    FPDU, or entities small enough for every segment. *)
Definition message_fits (max : nat) (crc : bool) (peer : Z) (f : Builder.FileSpec) (reply : bool) (m : bytes) : Prop :=
  bytes_ok m ∧ (length m ≤ Nat.min (message_room max peer f reply crc) 4096 ∨ segment_room max crc ≤ 4096)%nat.

Lemma message_room_le max peer f reply crc : (message_room max peer f reply crc ≤ segment_room max crc)%nat.
Proof.
  unfold message_room, segment_room. pose proof (encoded_len_ge (Builder.msg FpduKind.Msg peer f reply None)).
  enough (3 ≤ params_len (params (Builder.msg FpduKind.Msg peer f reply None)))%nat.
  { rewrite encoded_len_params by (by rewrite msg_kind). lia. }
  assert (∀ n, 2 ≤ unit_len n)%nat as Hu by (intros n; unfold unit_len; destruct (_ <? _)%nat; lia).
  rewrite msg_params. unfold params_len. cbn [sum_list_with param_len].
  pose proof (Hu (items_len (Builder.file_id_group f))).
  pose proof (Hu (length (encode_num (Builder.fs_transfer_id f)))). lia.
Qed.

Section Send.
Context (max : nat) (crc : bool) (peer : Z) (f : Builder.FileSpec) (reply : bool) (m : bytes).
Context (Hp : byte_ok peer) (Hf : spec_ok f) (Hm : message_fits max crc peer f reply m).
Abbreviation room := (message_room max peer f reply crc).
Abbreviation single := ((length m <=? room)%nat).

Lemma room_pos : (1 ≤ room)%nat ∧ (1 ≤ segment_room max crc)%nat.
Proof. unfold message_room, segment_room. lia. Qed.

Lemma single_sendable : single = true → sendable (Builder.msg FpduKind.Msg peer f reply (Some m)).
Proof.
  intros Hs%Nat.leb_le. apply msg_sendable; [by left|done|done|]. intros v [= <-]. destruct Hm as [Hb Hl].
  split; [done|]. pose proof (message_room_le max peer f reply crc). lia.
Qed.

Lemma head_sendable : single = false → sendable (Builder.msg FpduKind.MsgDm peer f reply (Some (take room m))).
Proof.
  intros Hs%Nat.leb_gt. apply msg_sendable; [by right|done|done|]. intros v [= <-]. destruct Hm as [Hb Hl].
  split; [by apply bytes_ok_take|]. rewrite length_take. pose proof (message_room_le max peer f reply crc). lia.
Qed.

Lemma rest_pieces_ok :
  single = false → pieces_ok (chunks (segment_room max crc) (drop room m)) ∧ chunks (segment_room max crc) (drop room m) ≠ [].
Proof.
  intros Hs%Nat.leb_gt. destruct Hm as [Hb Hl], room_pos. split.
  - apply chunks_pieces; [lia|by apply bytes_ok_drop].
  - intros E. assert (drop room m = []) as Hd by (rewrite <-(concat_chunks (segment_room max crc) (drop room m)), E by lia; done).
    apply (f_equal length) in Hd. rewrite length_drop in Hd. simpl in Hd. lia.
Qed.

(** What the requester makes of the acknowledgement. *)
Definition reply_outcome (ack : Fpdu) : outcome SessionError MessageOutcome :=
  if is_negative ack then Err (Refused FpduKind.Msg (FpduExt.diag_or_ok ack) None)
  else Ok (mkMessageOutcome (FpduExt.diag_or_ok ack) (get ack Pi.Message)).

Lemma send_message_ok fuel s out rx ack :
  rq_conn s = talk crc Requester out (arrives crc ack :: rx) State.Cn03 → ng_crc (rq_negotiated s) = crc →
  rq_peer_id s = peer → rq_max_entity s = max → valid ack → kind ack = FpduKind.AckMsg →
  peer_message ack = None → get_text ack Pi.FreeMessage = None →
  send_message (S fuel) f m reply s
  = (with_conn (talk crc Requester (out ++ map (wire crc) (message_fpdus max crc peer f reply m)) rx State.Cn03) s,
     reply_outcome ack).
Proof.
  intros Hc Hcrc Hpeer Hmax Hv Hk Hpm Hfm. unfold send_message. do 3 (erewrite bind_eq by reflexivity).
  rewrite Hcrc, Hpeer, Hmax. cbv zeta. unfold message_fpdus, reply_outcome. destruct single eqn:Es.
  - assert (request (S fuel) (Builder.msg FpduKind.Msg peer f reply (Some m)) L_Message FpduKind.AckMsg s
      = (with_conn (talk crc Requester (out ++ [wire crc (Builder.msg FpduKind.Msg peer f reply (Some m))]) rx State.Cn03) s,
         if is_negative ack then Err (Refused FpduKind.Msg (FpduExt.diag_or_ok ack) None) else Ok ack)) as E.
    { unfold request, on_conn. apply zoom_eq. rewrite Hc.
      rewrite (talk_exchange crc Requester fuel _ L_Message FpduKind.AckMsg ack out rx State.Cn03 State.Mg01A State.Cn03);
        try done; [by rewrite msg_kind, Hpm|by apply single_sendable|].
      unfold hears. rewrite Hk. by destruct (is_negative ack). }
    destruct (is_negative ack); [by rewrite (bind_err _ _ _ _ _ E)|by rewrite (bind_eq _ _ _ _ _ E)].
  - destruct (rest_pieces_ok Es) as [Hpieces _].
    assert (on_conn (
             c_apply_local L_Message ;;
             c_on_link (send (Builder.msg FpduKind.MsgDm peer f reply (Some (take room m)))) ;;
             c_on_link (send_all (segment_fpdus peer (chunks (segment_room max crc) (drop room m)))) ;;
             c_apply_local L_DataEnd ;;
             reply ← c_on_link recv;
             segmented_reply reply) s
      = (with_conn (talk crc Requester (out ++ map (wire crc) (Builder.msg FpduKind.MsgDm peer f reply (Some (take room m))
           :: segment_fpdus peer (chunks (segment_room max crc) (drop room m)))) rx State.Cn03) s,
         if is_negative ack then Err (Refused FpduKind.Msg (FpduExt.diag_or_ok ack) None) else Ok ack)) as E.
    { unfold on_conn. apply zoom_eq. rewrite Hc.
      rewrite (bind_eq _ _ _ _ _ (talk_apply_local crc Requester L_Message _ _ State.Cn03 State.Mg01A eq_refl)).
      rewrite (bind_eq _ _ _ _ _ (talk_send crc Requester _ _ _ _ (head_sendable Es))).
      rewrite (bind_eq _ _ _ _ _ (talk_send_all crc Requester _ _ _ _ (segment_fpdus_sendable peer Hp _ Hpieces))).
      rewrite (bind_eq _ _ _ _ _ (talk_apply_local crc Requester L_DataEnd _ _ State.Mg01A State.Mg04A eq_refl)).
      rewrite (bind_eq _ _ _ _ _ (talk_recv crc Requester _ _ _ _ Hv)).
      unfold segmented_reply. rewrite Hk, decide_False by done.
      erewrite (bind_eq _ _ _ (talk crc Requester _ rx State.Cn03) false).
      2:{ apply talk_apply_kind. by destruct (is_negative ack). }
      rewrite decide_False by (intros Hn; by apply Hn). rewrite Hfm. cbn [map]. rewrite <-app_assoc.
      by destruct (is_negative ack). }
    destruct (is_negative ack); [by rewrite (bind_err _ _ _ _ _ E)|by rewrite (bind_eq _ _ _ _ _ E)].
Qed.
End Send.

(** ** The size of the first segment *)

Lemma msg_wf k dst f reply v :
  k = FpduKind.Msg ∨ k = FpduKind.MsgDm → spec_ok f → byte_ok dst → bytes_ok v → v ≠ [] →
  (encoded_len (Builder.msg k dst f reply (Some v)) ≤ MAX_FPDU_LEN)%nat → wf (Builder.msg k dst f reply (Some v)).
Proof.
  intros Hk Hf Hd Hb Hv Hl.
  destruct (msg_sendable k dst f reply None Hk Hf Hd ltac:(by intros ? [=])) as [[Hw _] _].
  revert Hl. replace (Builder.msg k dst f reply (Some v)) with (set (Builder.msg k dst f reply None) Pi.Message v)
    by (by destruct v). intros Hl.
  destruct Hw. constructor; try done; unfold set; cbn [params with_params kind].
  - by apply set_param_Forall.
  - apply set_param_ascending; [|done]. pose proof (param_code_pos (Param_Pi Pi.Message v)). lia.
  - assert (FpduKind.is_data (kind (Builder.msg k dst f reply None)) = false) as E
      by (rewrite msg_kind; by destruct Hk as [->| ->]).
    by rewrite E in *.
Qed.

(** The length does not depend on the kind. *)
Lemma msg_length_kind dst f reply :
  encoded_len (Builder.msg FpduKind.MsgDm dst f reply None) = encoded_len (Builder.msg FpduKind.Msg dst f reply None).
Proof. rewrite !encoded_len_params by (by rewrite msg_kind). by rewrite !msg_params. Qed.

(** The first segment of a long message does not fit the entity that it was
    cut for. The room for it counts three bytes for the code and the length of
    the value, but a value of 255 bytes or more takes four: the entity is one
    byte longer than the size agreed. With the default size of 65535 bytes no
    segmented message can leave at all: the link refuses it, the machine has
    already left CN03, and nothing has been sent. *)
Theorem segmented_message_overflows fuel max crc peer f reply m s out rx :
  spec_ok f → byte_ok peer → bytes_ok m →
  let room := message_room max peer f reply crc in
  (255 ≤ room < length m)%nat →
  framed_len crc (Builder.msg FpduKind.MsgDm peer f reply (Some (take room m))) = S max
  ∧ (rq_conn s = talk crc Requester out rx State.Cn03 → ng_crc (rq_negotiated s) = crc →
     rq_peer_id s = peer → rq_max_entity s = max → max = Z.to_nat 0xFFFF →
     send_message fuel f m reply s
     = (with_conn (talk crc Requester out rx State.Mg01A) s,
        Err (if crc then Transport (TooLarge (S max) max) else Negotiation (Encoding (TooLong (S max)))))).
Proof.
  intros Hf Hp Hm room Hr.
  set (v := take room m). assert (length v = room) as Hlv by (unfold v; rewrite length_take; lia).
  assert (v ≠ []) as Hv by (intros E; rewrite E in Hlv; simpl in Hlv; lia).
  set (g := Builder.msg FpduKind.MsgDm peer f reply (Some v)).
  assert (framed_len crc g = S max) as Hfr.
  { unfold framed_len, g. rewrite (msg_length FpduKind.MsgDm _ _ _ v Hv eq_refl), msg_length_kind, Hlv.
    unfold unit_len. destruct (Nat.ltb_spec room 255); [lia|].
    clearbody v. unfold room, message_room, check_bytes_cost in *. change Crc.CRC_LEN with 2%nat. lia. }
  split; [exact Hfr|]. intros Hc Hcrc Hpeer Hmax Hdef.
  assert (c_on_link (send g) (talk crc Requester out rx State.Mg01A)
    = (talk crc Requester out rx State.Mg01A,
       Err (if crc then Transport (TooLarge (S max) max) else Negotiation (Encoding (TooLong (S max)))))) as Hsend.
  { unfold framed_len in Hfr. change MAX_FPDU_LEN with (Z.to_nat 0xFFFF) in *. unfold c_on_link, zoom, send. destruct crc.
    - assert (wf g) as Hw by (apply msg_wf; [by right|done|done|by apply bytes_ok_take|done|
        change MAX_FPDU_LEN with (Z.to_nat 0xFFFF); fold g; unfold Crc.CRC_LEN in Hfr; lia]).
      erewrite bind_eq by reflexivity. cbn [c_link talk link_crc].
      erewrite bind_eq by (unfold lift, Frame.single_entity; rewrite (encode_wf g Hw); reflexivity).
      unfold send_entity. rewrite Crc.length_append, length_fpdu_bytes, Hfr, Hdef.
      by rewrite (proj2 (Nat.ltb_lt _ _) (Nat.lt_succ_diag_r (Z.to_nat 0xFFFF))).
    - erewrite bind_eq by reflexivity. cbn [c_link talk link_crc].
      erewrite (bind_err _ _ _ _ (Negotiation (Encoding (TooLong (S max))))); [done|].
      unfold lift, Frame.single_entity, encode, encode_into. change MAX_FPDU_LEN with (Z.to_nat 0xFFFF).
      replace (encoded_len g) with (S max) by lia. rewrite Hdef.
      by rewrite (proj2 (Nat.ltb_lt _ _) (Nat.lt_succ_diag_r (Z.to_nat 0xFFFF))). }
  unfold send_message. do 3 (erewrite bind_eq by reflexivity). rewrite Hcrc, Hpeer, Hmax. cbv zeta. fold room.
  rewrite (proj2 (Nat.leb_gt (length m) room) ltac:(lia)). erewrite bind_err; [reflexivity|].
  unfold on_conn. apply zoom_eq. rewrite Hc.
  rewrite (bind_eq _ _ _ _ _ (talk_apply_local crc Requester L_Message _ _ State.Cn03 State.Mg01A eq_refl)).
  by rewrite (bind_err _ _ _ _ _ Hsend).
Qed.

Example segmented_message_overflows_witness :
  ∃ e, (send_message 1 sample_spec (replicate (Z.to_nat 70000) 65) true
    (mkRequester (talk true Requester [] [] State.Cn03) ConnectProps.Sample.cfg 1 9 OpenProps.Sample.negotiated
       (Z.to_nat 0xFFFF))).2 = Err e.
Proof.
  set (s := mkRequester _ _ _ _ _ _).
  assert (spec_ok sample_spec) as Hf by (split; first [by_compute | intros ? [= <-]; by_compute | intros ? [=] | done]).
  destruct (segmented_message_overflows 1 (Z.to_nat 0xFFFF) true 9 sample_spec true (replicate (Z.to_nat 70000) 65) s [] []
    Hf ltac:(by_compute) ltac:(apply Forall_replicate; by_compute)
    ltac:(rewrite length_replicate; split; [by_compute|apply Nat.ltb_lt; vm_compute; reflexivity])) as [_ E].
  eexists. rewrite (E eq_refl eq_refl eq_refl eq_refl eq_refl). reflexivity.
Defined.

(** ** The responder *)
Section Serve.
Context {HS C K Src : Type} `{!ServerHandler HS C K Src} `{!Checkpoint.CheckpointStore C}
  `{!ArticleIo.ArticleSink K} `{!ArticleIo.ArticleSource Src}.

(** What the application answers with, and the acknowledgement of it. *)
Definition answer_ok (a : option bytes + Refusal) : Prop :=
  match a with
  | inl r => body_ok r
  | inr r => Diagnostic.wf (rf_diag r) ∧ rf_diag r ≠ Diagnostic.OK ∧ body_ok (Ebcdic.utf8 <$> rf_message r)
  end.

Definition message_ack (dst tid : Z) (a : option bytes + Refusal) : Fpdu :=
  match a with
  | inl r => Builder.ack_msg dst Diagnostic.OK (Some tid) r
  | inr r => Builder.ack_msg dst (rf_diag r) (Some tid) (Ebcdic.utf8 <$> rf_message r)
  end.

Lemma message_ack_read dst tid a :
  byte_ok dst → fits_pi Pi.TransferId tid → answer_ok a → let ack := message_ack dst tid a in
  sendable ack ∧ kind ack = FpduKind.AckMsg ∧ peer_message ack = None ∧ get_text ack Pi.FreeMessage = None
  ∧ reply_outcome ack = match a with
                        | inl r => Ok (mkMessageOutcome Diagnostic.OK (Builder.non_empty r))
                        | inr r => Err (Refused FpduKind.Msg (rf_diag r) None)
                        end.
Proof.
  intros Hd Ht Ha. unfold reply_outcome. destruct a as [r|r]; cbn [message_ack answer_ok] in *.
  - destruct (ack_msg_read dst Diagnostic.OK tid r) as (Hs&Hk&Ed&En&Eg&Ep&Ef); try done. split_and!; try done.
    by rewrite En, Ed, Eg.
  - destruct Ha as (Hw&Hn&Hb). destruct (ack_msg_read dst (rf_diag r) tid (Ebcdic.utf8 <$> rf_message r)) as (Hs&Hk&Ed&En&Eg&Ep&Ef); try done.
    split_and!; try done. rewrite En, Ed. destruct (Diagnostic.is_ok (rf_diag r)) eqn:E; [|done].
    by apply Diagnostic.is_ok_iff in E.
Qed.

Lemma serve_message_ok fuel access max crc peer f reply m i h a (s : Responder HS C K Src) out rx :
  byte_ok peer → spec_ok f → message_fits max crc peer f reply m → byte_ok (rs_peer_id s) → answer_ok a →
  rs_info s = Some i → on_message (rs_handler s) i (message_spec f) m reply = (h, a) → (length m < fuel)%nat →
  rs_conn s = talk crc Server out (map (arrives crc) (message_fpdus max crc peer f reply m) ++ rx) State.Cn03 →
  (first ← r_conn (c_on_link recv); serve_request fuel access first) s
  = (set_handler h (set_conn (talk crc Server
       (out ++ [wire crc (message_ack (rs_peer_id s) (Builder.fs_transfer_id f) a)]) rx State.Cn03) s), Ok false).
Proof.
  intros Hp Hf Hm Hd Ha Hi Hh Hfuel Hc.
  destruct (message_ack_read (rs_peer_id s) (Builder.fs_transfer_id f) a Hd (ok_transfer_id _ Hf) Ha) as (Hack&_).
  assert (∀ k body (s' : Responder HS C K Src) out rx, rs_conn s' = talk crc Server out rx State.Mg04B →
    rs_info s' = Some i → rs_handler s' = rs_handler s → rs_peer_id s' = rs_peer_id s →
    let first := Builder.msg k peer f reply body in
    (i ← info; answer ← ask (λ h, on_message h i (Builder.from_fpdu first) m (expects_reply_of first));
     peer ← gets rs_peer_id;
     r_conn (respond L_Accept match answer with
       | inl reply => Builder.ack_msg peer Diagnostic.OK (Some (Builder.fs_transfer_id (Builder.from_fpdu first))) reply
       | inr r => Builder.ack_msg peer (rf_diag r) (Some (Builder.fs_transfer_id (Builder.from_fpdu first))) (Ebcdic.utf8 <$> rf_message r)
       end)) s'
    = (set_handler h (set_conn (talk crc Server
       (out ++ [wire crc (message_ack (rs_peer_id s) (Builder.fs_transfer_id f) a)]) rx State.Cn03) s'), Ok tt)) as Hend.
  { intros k body s' out' rx' Hc' Hi' Hh' Hp' first. unfold first. rewrite (from_fpdu_msg k peer f reply body Hf).
    assert (expects_reply_of (Builder.msg k peer f reply body) = reply) as Er.
    { unfold expects_reply_of, get_num. rewrite msg_attributes. by destruct reply. }
    rewrite Er. erewrite bind_eq.
    2:{ unfold info. rewrite Hi'. reflexivity. }
    erewrite bind_eq.
    2:{ unfold ask. rewrite Hh', Hh. reflexivity. }
    erewrite bind_eq by reflexivity. cbn [set_handler rs_peer_id]. rewrite Hp'.
    erewrite r_conn_eq.
    2:{ cbn [set_handler rs_conn]. rewrite Hc'.
        refine (talk_respond crc Server L_Accept (message_ack (rs_peer_id s) (Builder.fs_transfer_id f) a) _ _ State.Mg04B State.Cn03 eq_refl Hack). }
    reflexivity. }
  unfold message_fpdus in Hc. destruct (length m <=? _)%nat eqn:Es.
  - pose proof (single_sendable max crc peer f reply m Hp Hf Hm Es) as [Hv _].
    erewrite bind_eq.
    2:{ apply r_conn_eq. rewrite Hc. by apply talk_recv. }
    unfold serve_request. rewrite msg_kind. erewrite bind_eq.
    2:{ apply r_conn_eq. apply (talk_apply_received crc Server _ _ _ State.Cn03 State.Mg04B); [|by rewrite msg_kind].
        by apply (hears_request _ _ FpduKind.Msg); [apply msg_kind|..]. }
    erewrite bind_eq.
    2:{ unfold handle_message. rewrite msg_kind, decide_False by done. erewrite bind_eq by reflexivity.
        rewrite msg_message. replace (default [] (Builder.non_empty (Some m))) with m by (by destruct m).
        apply (Hend FpduKind.Msg (Some m)); [reflexivity|exact Hi|done|done]. }
    reflexivity.
  - pose proof (head_sendable max crc peer f reply m Hp Hf Hm Es) as [Hv _].
    destruct (rest_pieces_ok max crc peer f reply m Hm Es) as [Hpieces Hne].
    pose proof (room_pos max crc peer f reply) as [Hr Hseg].
    set (room := message_room max peer f reply crc) in *. set (seg := segment_room max crc) in *.
    assert (take room m ≠ []) as Hhead.
    { apply Nat.leb_gt in Es.
      destruct m, room; simpl in *; (done || lia). }
    erewrite bind_eq.
    2:{ apply r_conn_eq. rewrite Hc. cbn [map app]. by apply talk_recv. }
    unfold serve_request. rewrite msg_kind. erewrite bind_eq.
    2:{ apply r_conn_eq. apply (talk_apply_received crc Server _ _ _ State.Cn03 State.Mg01B); [|by rewrite msg_kind].
        by apply (hears_request _ _ FpduKind.MsgDm); [apply msg_kind|..]. }
    erewrite bind_eq.
    2:{ unfold handle_message. rewrite msg_kind, decide_True by done. erewrite bind_eq.
        2:{ apply r_conn_eq. cbn [set_conn rs_conn]. rewrite msg_message.
            replace (default [] (Builder.non_empty (Some (take room m)))) with (take room m) by (by destruct (take room m)).
            apply talk_gather; [done|exact Hpieces|exact Hne|].
            pose proof (chunks_count seg (drop room m) Hseg). rewrite length_drop in *. lia. }
        rewrite (concat_chunks seg) by exact Hseg. rewrite take_drop.
        apply (Hend FpduKind.MsgDm (Some (take room m))); [reflexivity|exact Hi|done|done]. }
    reflexivity.
Qed.
End Serve.

(** C6: a message arrives whole and its reply comes back. Each side is run on
    what the other sends, for a message that goes in one FPDU as for one that is
    cut into segments (within the lengths that the catalogue allows): the
    application is asked about exactly the description and the bytes that were
    sent, its reply is what the requester returns, its refusal is the
    requester's error with the diagnostic but without the text, and both ends
    are connected again. *)
Theorem message_delivers {HS C K Src : Type} `{ServerHandler HS C K Src} `{Checkpoint.CheckpointStore C}
    `{ArticleIo.ArticleSink K} `{ArticleIo.ArticleSource Src}
    fuel access crc f reply m i h a (q : Requester_) (s : Responder HS C K Src) out_q out_s rest_q rest_s :
  spec_ok f → message_fits (rq_max_entity q) crc (rq_peer_id q) f reply m → answer_ok a →
  byte_ok (rq_peer_id q) → byte_ok (rs_peer_id s) → ng_crc (rq_negotiated q) = crc → rs_info s = Some i →
  on_message (rs_handler s) i (message_spec f) m reply = (h, a) → (length m < fuel)%nat →
  ∃ to_server ack,
    send_message fuel f m reply (with_conn (talk crc Requester out_q (arrives crc ack :: rest_q) State.Cn03) q)
      = (with_conn (talk crc Requester (out_q ++ map (wire crc) to_server) rest_q State.Cn03) q,
         match a with
         | inl r => Ok (mkMessageOutcome Diagnostic.OK (Builder.non_empty r))
         | inr r => Err (Refused FpduKind.Msg (rf_diag r) None)
         end)
    ∧ (first ← r_conn (c_on_link recv); serve_request fuel access first)
        (set_conn (talk crc Server out_s (map (arrives crc) to_server ++ rest_s) State.Cn03) s)
      = (set_handler h (set_conn (talk crc Server (out_s ++ [wire crc ack]) rest_s State.Cn03) s), Ok false).
Proof.
  intros Hf Hm Ha Hp Hd Hcrc Hi Hh Hfuel.
  destruct (message_ack_read (rs_peer_id s) (Builder.fs_transfer_id f) a Hd (ok_transfer_id _ Hf) Ha)
    as ([Hv _]&Hk&Hpm&Hfm&Ho).
  exists (message_fpdus (rq_max_entity q) crc (rq_peer_id q) f reply m), (message_ack (rs_peer_id s) (Builder.fs_transfer_id f) a).
  split.
  - destruct fuel as [|fuel]; [lia|]. rewrite <-Ho.
    by apply (send_message_ok (rq_max_entity q) crc (rq_peer_id q) f reply m Hp Hf Hm fuel
      (with_conn (talk crc Requester out_q (arrives crc _ :: rest_q) State.Cn03) q)).
  - set (s' := set_conn (talk crc Server out_s _ State.Cn03) s).
    exact (serve_message_ok fuel access (rq_max_entity q) crc (rq_peer_id q) f reply m i h a s' out_s rest_s
      Hp Hf Hm Hd Ha Hi Hh Hfuel eq_refl).
Qed.

(** The sample application answers with the reversed bytes: 100 bytes in
    entities of 100. *)
Example message_delivers_witness :
  let q := mkRequester (talk true Requester [] [] State.Cn03) ConnectProps.Sample.cfg 1 9 OpenProps.Sample.negotiated 100 in
  let m := map Z.of_nat (seq 1 100) in
  ∃ ack, (send_message 101 sample_spec m true (with_conn (talk true Requester [] [arrives true ack] State.Cn03) q)).2
    = Ok (mkMessageOutcome Diagnostic.OK (Some (rev m))).
Proof.
  intros q m.
  assert (spec_ok sample_spec) as Hf by (split; first [by_compute | intros ? [= <-]; by_compute | intros ? [=] | done]).
  assert (message_fits 100 true 9 sample_spec true m) as Hm by (split; [by_compute|right; by_compute]).
  assert (answer_ok (inl (Some (rev m)))) as Ha by (intros v [= <-]; split; by_compute).
  destruct (message_delivers (H := ConnectProps.Sample.handler) 101 AccessType.Mixed true sample_spec true m _ [] _ q
    OpenProps.Sample.responder [] [] [] [] Hf Hm Ha ltac:(by_compute) ltac:(by_compute) eq_refl eq_refl eq_refl
    ltac:(by_compute)) as (ts&ack&E&_).
  exists ack. rewrite E. reflexivity.
Defined.
