(* ===== verification/DocStore.v ===== *)
(** * Texts and documents ([crates/pesit-app/src/store.rs])

    What the server and the client share around the protocol: the texts of
    their records, with the functions of the standard library that the sources
    call on them, and the tables of the document store. A stored document is
    read back as it was written ([serde_json] and SQLite are outside the
    sources). *)

From Stdlib Require Import String Ascii DecimalString.
From S2P Require Import Prelude Diag Ebcdic Params Link.
Open Scope Z_scope.

(** ** Texts *)

(** A text of the source. *)
Definition lit (s : string) : ustring := map (λ c, Z.of_N (N_of_ascii c)) (list_ascii_of_string s).

(** [{}] of an unsigned integer, and [{:03}]. *)
Definition decimal (n : Z) : ustring := lit (NilZero.string_of_uint (N.to_uint (Z.to_N n))).
Definition padded (n : Z) : ustring :=
  let d := decimal n in replicate (3 - List.length d) 48 ++ d.

(** [str::trim_start] and [str::trim]. *)
Fixpoint trim_start (s : ustring) : ustring :=
  match s with c :: s' => if is_whitespace c then trim_start s' else s | [] => [] end.
Definition trim (s : ustring) : ustring := trim_start (trim_end s).

(** [str::split]: the pieces between the separators. *)
Fixpoint split_on (sep : Z) (s : ustring) : list ustring :=
  match s with
  | [] => [[]]
  | c :: s =>
      if c =? sep then [] :: split_on sep s
      else match split_on sep s with p :: ps => (c :: p) :: ps | [] => [[c]] end
  end.

Definition is_empty (s : ustring) : bool := match s with [] => true | _ => false end.

(** [Option::filter(|s| !s.is_empty())]. *)
Definition filled (o : option ustring) : option ustring :=
  match o with Some s => if is_empty s then None else Some s | None => None end.

(** [String::from_utf8_lossy]: a sequence that is not UTF-8 becomes U+FFFD, one
    for its longest valid beginning. *)
Definition REPLACEMENT : Z := 0xFFFD.
Definition continuation (b : Z) : bool := (0x80 <=? b) && (b <=? 0xBF).

(** The bytes that may follow a first byte of three or four. *)
Definition second_ok (b b1 : Z) : bool :=
  if b =? 0xE0 then (0xA0 <=? b1) && (b1 <=? 0xBF)
  else if b =? 0xED then (0x80 <=? b1) && (b1 <=? 0x9F)
  else if b =? 0xF0 then (0x90 <=? b1) && (b1 <=? 0xBF)
  else if b =? 0xF4 then (0x80 <=? b1) && (b1 <=? 0x8F)
  else continuation b1.

(** The first character, and how many bytes it takes. *)
Definition lossy_char (b : Z) (l : bytes) : Z * nat :=
  if b <? 0x80 then (b, 1%nat)
  else if (0xC2 <=? b) && (b <=? 0xDF) then
    match l with
    | b1 :: _ => if continuation b1 then ((b - 0xC0) * 64 + (b1 - 0x80), 2%nat) else (REPLACEMENT, 1%nat)
    | [] => (REPLACEMENT, 1%nat)
    end
  else if (0xE0 <=? b) && (b <=? 0xEF) then
    match l with
    | b1 :: l =>
        if second_ok b b1 then
          match l with
          | b2 :: _ => if continuation b2 then ((b - 0xE0) * 4096 + (b1 - 0x80) * 64 + (b2 - 0x80), 3%nat) else (REPLACEMENT, 2%nat)
          | [] => (REPLACEMENT, 2%nat)
          end
        else (REPLACEMENT, 1%nat)
    | [] => (REPLACEMENT, 1%nat)
    end
  else if (0xF0 <=? b) && (b <=? 0xF4) then
    match l with
    | b1 :: l =>
        if second_ok b b1 then
          match l with
          | b2 :: l =>
              if continuation b2 then
                match l with
                | b3 :: _ =>
                    if continuation b3
                    then ((b - 0xF0) * 262144 + (b1 - 0x80) * 4096 + (b2 - 0x80) * 64 + (b3 - 0x80), 4%nat)
                    else (REPLACEMENT, 3%nat)
                | [] => (REPLACEMENT, 3%nat)
                end
              else (REPLACEMENT, 2%nat)
          | [] => (REPLACEMENT, 2%nat)
          end
        else (REPLACEMENT, 1%nat)
    | [] => (REPLACEMENT, 1%nat)
    end
  else (REPLACEMENT, 1%nat).

Fixpoint lossy_fuel (fuel : nat) (l : bytes) : ustring :=
  match fuel, l with
  | S fuel, b :: l' => let '(c, n) := lossy_char b l' in c :: lossy_fuel fuel (drop n l)
  | _, _ => []
  end.
Definition from_utf8_lossy (l : bytes) : ustring := lossy_fuel (List.length l) l.

(** ** Errors as texts *)

(** An error message: a text, or the text of an error of a session. *)
Inductive Note : Type := Words (s : ustring) | ErrorText (e : SessionError).

(** The texts of diagnostics and end codes. *)
Definition diag_debug (d : Diagnostic) : ustring :=
  lit "D" ++ decimal (Diagnostic.kind d) ++ lit "-" ++ padded (Diagnostic.code d).
Definition diag_display (d : Diagnostic) : ustring := diag_debug d ++ lit " " ++ lit (Diagnostic.description d).
Definition end_code_debug (c : EndCode) : ustring :=
  match c with
  | EndCode.Error => lit "Error"
  | EndCode.Suspension => lit "Suspension"
  | EndCode.CancelByServer => lit "CancelByServer"
  | EndCode.CancelByRequester => lit "CancelByRequester"
  | EndCode.Other n => lit "Other(" ++ decimal n ++ lit ")"
  end.

(** ** Tables

    A table in the order of insertion; a document that is put again keeps its
    place. *)
Definition Table (T : Type) : Type := list (ustring * T).

Fixpoint table_put {T} (k : ustring) (v : T) (t : Table T) : Table T :=
  match t with
  | [] => [(k, v)]
  | (k', v') :: t => if decide (k' = k) then (k, v) :: t else (k', v') :: table_put k v t
  end.

Fixpoint table_get {T} (k : ustring) (t : Table T) : option T :=
  match t with
  | [] => None
  | (k', v) :: t => if decide (k' = k) then Some v else table_get k t
  end.

Definition table_list {T} (t : Table T) : list T := map snd t.

Definition table_exists {T} (k : ustring) (t : Table T) : bool :=
  match table_get k t with Some _ => true | None => false end.

Definition table_delete {T} (k : ustring) (t : Table T) : Table T * bool :=
  (filter (λ e, e.1 ≠ k) t, table_exists k t).

(** The [limit] documents inserted last, the newest first; all but the [keep]
    last are deleted. *)
Definition table_list_recent {T} (limit : nat) (t : Table T) : list T := take limit (rev (map snd t)).
Definition table_prune_oldest {T} (keep : nat) (t : Table T) : Table T * nat :=
  (drop (length t - keep) t, (length t - keep)%nat).

Definition table_next_counter (name : ustring) (t : Table Z) : Table Z * Z :=
  let v := match table_get name t with Some v => v + 1 | None => 1 end in
  (table_put name v t, v).

Section Tables.
Context {T : Type}.
Implicit Type t : Table T.

Lemma table_get_put_eq k v t : table_get k (table_put k v t) = Some v.
Proof.
  induction t as [|[k' v'] t IH]; simpl; [by rewrite decide_True|].
  destruct (decide (k' = k)) as [->|Hn]; simpl; [by rewrite decide_True|]. by rewrite decide_False.
Qed.

Lemma table_get_put_ne k k' v t : k' ≠ k → table_get k' (table_put k v t) = table_get k' t.
Proof.
  intros Hn. induction t as [|[k'' v''] t IH]; simpl; [by rewrite decide_False|].
  destruct (decide (k'' = k)) as [->|Hk]; simpl.
  - by rewrite !decide_False.
  - destruct (decide (k'' = k')); done.
Qed.

Lemma table_put_put k v v' t : table_put k v (table_put k v' t) = table_put k v t.
Proof.
  induction t as [|[k' w] t IH]; simpl; [by rewrite decide_True|].
  destruct (decide (k' = k)) as [->|Hn]; simpl; [by rewrite decide_True|]. by rewrite decide_False, IH.
Qed.

Lemma table_get_in k v t : table_get k t = Some v → (k, v) ∈ t.
Proof.
  induction t as [|[k' v'] t IH]; simpl; [done|]. destruct (decide (k' = k)) as [->|]; [intros [= ->]; by left|].
  intros H. right. by apply IH.
Qed.

Lemma table_put_Forall (P : ustring * T → Prop) k v t : Forall P t → P (k, v) → Forall P (table_put k v t).
Proof.
  intros Ht Hv. induction Ht as [|[k' v'] t Hk Ht IH]; simpl; [by repeat constructor|].
  destruct (decide (k' = k)); by constructor.
Qed.

Lemma table_delete_cons k k0 (v0 : T) (tb : Table T) :
  (table_delete k ((k0, v0) :: tb)).1 = if decide (k0 = k) then (table_delete k tb).1 else (k0, v0) :: (table_delete k tb).1.
Proof.
  unfold table_delete. cbn [fst]. rewrite (filter_cons (A := ustring * T)). cbn.
  destruct (decide (k0 = k)), (decide (k0 ≠ k)); done.
Qed.

Lemma table_get_delete k k' (tb : Table T) :
  table_get k' (table_delete k tb).1 = if decide (k' = k) then None else table_get k' tb.
Proof.
  induction tb as [|[k0 v0] tb IH]; [by cbn; destruct (decide _)|]. rewrite table_delete_cons. cbn [table_get].
  destruct (decide (k0 = k)) as [->|Hne]; [rewrite IH; destruct (decide (k' = k)), (decide (k = k')); congruence|].
  cbn [table_get]. rewrite IH. destruct (decide (k0 = k')), (decide (k' = k)); congruence.
Qed.
End Tables.

(** ** A database

    The tables [D] of a program with a script of faults: each statement takes
    one, and has no effect when it fails ([None]). *)
Record Db (D : Type) : Type := mkDb {
  docs : D;
  db_faults : list bool;
}.
Arguments mkDb {D} _ _. Arguments docs {D} _. Arguments db_faults {D} _.

Section Db.
Context {D : Type}.

Definition db_statement {A} (op : D → D * A) (s : Db D) : Db D * option A :=
  if default false (head (db_faults s)) then (mkDb (docs s) (tail (db_faults s)), None)
  else let '(d, a) := op (docs s) in (mkDb d (tail (db_faults s)), Some a).

(** [update]: read, change and put. *)
Definition db_update {T} (table : D → Table T) (set : Table T → D → D) (k : ustring) (f : T → T) (s : Db D)
    : Db D * option bool :=
  match db_statement (λ d, (d, table_get k (table d))) s with
  | (s, Some (Some r)) =>
      match db_statement (λ d, (set (table_put k (f r) (table d)) d, tt)) s with
      | (s, Some _) => (s, Some true)
      | (s, None) => (s, None)
      end
  | (s, Some None) => (s, Some false)
  | (s, None) => (s, None)
  end.

(** [next_counter]: incremented, then read. *)
Definition db_next_counter (table : D → Table Z) (set : Table Z → D → D) (name : ustring) (s : Db D) : Db D * option Z :=
  match db_statement (λ d, let '(t, v) := table_next_counter name (table d) in (set t d, v)) s with
  | (s, Some v) => db_statement (λ d, (d, v)) s
  | r => r
  end.

(** No statement fails. *)
Definition healthy (s : Db D) : Prop := db_faults s = [].

Lemma db_statement_healthy {A} (op : D → D * A) s :
  healthy s → ∃ s', db_statement op s = (s', Some (op (docs s)).2) ∧ healthy s' ∧ docs s' = (op (docs s)).1.
Proof.
  destruct s as [d fs]. unfold healthy. cbn. intros ->. unfold db_statement. cbn. destruct (op d) as [d' a].
  by exists (mkDb d' []).
Qed.

Lemma db_update_healthy {T} (table : D → Table T) set k f s r :
  healthy s → table_get k (table (docs s)) = Some r →
  db_update table set k f s = (mkDb (set (table_put k (f r) (table (docs s))) (docs s)) [], Some true).
Proof.
  destruct s as [d fs]. unfold healthy. cbn. intros -> Er. unfold db_update, db_statement. cbn. by rewrite Er.
Qed.
End Db.
