(* ===== verification/NodeModel.v ===== *)
(** * Server configuration and records ([crates/pesit-node/src/model.rs])

    Partners, virtual files, listeners and transfer records, the patterns that
    restrict a partner to some files, and the tables of the document store that
    hold them. A statement of the database may fail. *)

From Stdlib Require Import String.
From S2P Require Import Prelude Diag Ebcdic Params Article Link DocStore.
Open Scope Z_scope.

(** ** Patterns *)

Definition to_ascii_lowercase (b : Z) : Z := if (65 <=? b) && (b <=? 90) then b + 32 else b.
Definition eq_ignore_ascii_case (a b : Z) : bool := to_ascii_lowercase a =? to_ascii_lowercase b.

Definition STAR : Z := 42.
Definition QUESTION : Z := 63.

Fixpoint glob_rec (p : bytes) : bytes → bool :=
  match p with
  | [] => λ t, match t with [] => true | _ => false end
  | c :: p =>
      if c =? STAR then
        fix star (t : bytes) : bool :=
          glob_rec p t || match t with [] => false | _ :: t => star t end
      else λ t,
        match t with
        | [] => false
        | b :: t => if (c =? QUESTION) || eq_ignore_ascii_case c b then glob_rec p t else false
        end
  end.

Definition glob_match (pattern text : ustring) : bool := glob_rec (Ebcdic.utf8 pattern) (Ebcdic.utf8 text).

(** ** Partners *)

Module Rights.

Inductive AccessType : Type := Read | Write | Both.

Definition can_write (a : AccessType) : bool := match a with Write | Both => true | Read => false end.
Definition can_read (a : AccessType) : bool := match a with Read | Both => true | Write => false end.

End Rights.

Record Partner : Type := mkPartner {
  p_id : ustring;
  p_description : option ustring;
  p_password : option ustring;
  p_enabled : bool;
  p_access_type : Rights.AccessType;
  p_max_connections : Z;
  p_allowed_files : option ustring;
  p_preconnect_password : option ustring;
  p_created_at : option ustring;
  p_updated_at : option ustring;
}.

Definition partner_default : Partner := mkPartner [] None None true Rights.Both 10 None None None None.

Definition can_access_file (p : Partner) (file : ustring) : bool :=
  match p_allowed_files p with
  | Some l =>
      if is_empty (trim l) then true
      else existsb (λ pattern, glob_match pattern file) (map trim (split_on 44 l))
  | None => true
  end.

(** ** Virtual files *)

Module Direction.

Inductive Direction : Type := Receive | Send | Both.

End Direction.

Record VirtualFile : Type := mkVirtualFile {
  vf_id : ustring;
  vf_description : option ustring;
  vf_enabled : bool;
  vf_direction : Direction.Direction;
  vf_receive_directory : option ustring;
  vf_send_file : option ustring;
  vf_receive_filename_pattern : ustring;
  vf_overwrite : bool;
  vf_max_file_size : Z;
  vf_file_type : Z;
  vf_record_length : Z;
  vf_record_format : Z;
  vf_text : bool;
  vf_ebcdic : bool;
  vf_connector : option ustring;
  vf_connector_path : option ustring;
  vf_created_at : option ustring;
  vf_updated_at : option ustring;
}.

Definition DEFAULT_PATTERN : ustring := lit "${virtualFile}_${timestamp}".

Definition virtual_file_default : VirtualFile :=
  mkVirtualFile [] None true Direction.Both None None DEFAULT_PATTERN false 0 0 1024 0x80 false false None None None None.

Definition can_receive (v : VirtualFile) : bool :=
  match vf_direction v with Direction.Receive | Direction.Both => true | Direction.Send => false end.

Definition can_send (v : VirtualFile) : bool :=
  match vf_direction v with Direction.Send | Direction.Both => true | Direction.Receive => false end.

Definition record_format (v : VirtualFile) : Article.RecordFormat :=
  let variable := negb (Z.land (vf_record_format v) 0x80 =? 0) in
  match vf_text v, variable with
  | true, true => Article.Tv
  | true, false => Article.Tf
  | false, true => Article.Bu
  | false, false => Article.Bf
  end.

Definition is_ebcdic (v : VirtualFile) : bool := vf_ebcdic v.

(** ** Listeners *)

Inductive ServerStatus : Type := Stopped | Starting | Running | Stopping | Error.

Record PesitServerConfig : Type := mkPesitServerConfig {
  sc_id : option Z;
  sc_server_id : ustring;
  sc_port : Z;
  sc_bind_address : ustring;
  sc_protocol_version : Z;
  sc_max_connections : Z;
  sc_connection_timeout : Z;
  sc_read_timeout : Z;
  sc_receive_directory : ustring;
  sc_send_directory : ustring;
  sc_max_entity_size : Z;
  sc_sync_points_enabled : bool;
  sc_sync_interval_kb : Z;
  sc_sync_window : Z;
  sc_resync_enabled : bool;
  sc_auto_start : bool;
  sc_ssl_enabled : bool;
  sc_ssl_keystore : option ustring;
  sc_ssl_truststore : option ustring;
  sc_tcpip_header : bool;
  sc_compression : Z;
  sc_status : ServerStatus;
  sc_created_at : option ustring;
  sc_updated_at : option ustring;
  sc_last_started_at : option ustring;
  sc_last_stopped_at : option ustring;
}.

Definition server_config_default : PesitServerConfig :=
  mkPesitServerConfig None [] 5001 (lit "0.0.0.0") 2 100 30000 60000 (lit "/data/received") (lit "/data/send") 4096
    true 32 4 true false false None None true 0 Stopped None None None None.

(** ** Transfer records *)

Module TransferDirection.

Inductive TransferDirection : Type := Send | Receive | Message.

End TransferDirection.

Module TransferStatus.

Inductive TransferStatus : Type := Initiated | InProgress | Paused | Interrupted | Completed | Failed | Cancelled.

#[global] Instance transfer_status_eq_dec : EqDecision TransferStatus.
Proof. solve_decision. Defined.

End TransferStatus.

Record TransferRecord : Type := mkTransferRecord {
  r_id : option Z;
  r_transfer_id : ustring;
  r_pesit_transfer_id : Z;
  r_session_id : option ustring;
  r_server_id : option ustring;
  r_node_id : option ustring;
  r_direction : option TransferDirection.TransferDirection;
  r_status : TransferStatus.TransferStatus;
  r_partner_id : option ustring;
  r_filename : option ustring;
  r_local_path : option ustring;
  r_file_size : option Z;
  r_bytes_transferred : Z;
  r_progress_percent : Z;
  r_last_sync_point : Z;
  r_bytes_at_last_sync_point : Z;
  r_started_at : option ustring;
  r_completed_at : option ustring;
  r_updated_at : option ustring;
  r_remote_address : option ustring;
  r_error_code : option ustring;
  r_error_message : option Note;
  r_checksum : option ustring;
  r_checksum_algorithm : ustring;
  r_parent_transfer_id : option ustring;
  r_metadata : option ustring;
  r_label : option ustring;
  r_free_message : option ustring;
}.

Definition transfer_record_default : TransferRecord :=
  mkTransferRecord None [] 0 None None None None TransferStatus.Initiated None None None None 0 0 0 0 None None None
    None None None None (lit "SHA-256") None None None None.

(** The assignments to the fields of a record. *)
Definition set_r_status (x : TransferStatus.TransferStatus) (r : TransferRecord) : TransferRecord :=
  mkTransferRecord (r_id r) (r_transfer_id r) (r_pesit_transfer_id r) (r_session_id r) (r_server_id r)
    (r_node_id r) (r_direction r) x (r_partner_id r) (r_filename r) (r_local_path r) (r_file_size r)
    (r_bytes_transferred r) (r_progress_percent r) (r_last_sync_point r) (r_bytes_at_last_sync_point r)
    (r_started_at r) (r_completed_at r) (r_updated_at r) (r_remote_address r) (r_error_code r)
    (r_error_message r) (r_checksum r) (r_checksum_algorithm r) (r_parent_transfer_id r) (r_metadata r)
    (r_label r) (r_free_message r).
Definition set_r_pesit_transfer_id (x : Z) (r : TransferRecord) : TransferRecord :=
  mkTransferRecord (r_id r) (r_transfer_id r) x (r_session_id r) (r_server_id r) (r_node_id r) (r_direction r)
    (r_status r) (r_partner_id r) (r_filename r) (r_local_path r) (r_file_size r) (r_bytes_transferred r)
    (r_progress_percent r) (r_last_sync_point r) (r_bytes_at_last_sync_point r) (r_started_at r)
    (r_completed_at r) (r_updated_at r) (r_remote_address r) (r_error_code r) (r_error_message r) (r_checksum
    r) (r_checksum_algorithm r) (r_parent_transfer_id r) (r_metadata r) (r_label r) (r_free_message r).
Definition set_r_bytes_transferred (x : Z) (r : TransferRecord) : TransferRecord :=
  mkTransferRecord (r_id r) (r_transfer_id r) (r_pesit_transfer_id r) (r_session_id r) (r_server_id r)
    (r_node_id r) (r_direction r) (r_status r) (r_partner_id r) (r_filename r) (r_local_path r) (r_file_size
    r) x (r_progress_percent r) (r_last_sync_point r) (r_bytes_at_last_sync_point r) (r_started_at r)
    (r_completed_at r) (r_updated_at r) (r_remote_address r) (r_error_code r) (r_error_message r) (r_checksum
    r) (r_checksum_algorithm r) (r_parent_transfer_id r) (r_metadata r) (r_label r) (r_free_message r).
Definition set_r_progress_percent (x : Z) (r : TransferRecord) : TransferRecord :=
  mkTransferRecord (r_id r) (r_transfer_id r) (r_pesit_transfer_id r) (r_session_id r) (r_server_id r)
    (r_node_id r) (r_direction r) (r_status r) (r_partner_id r) (r_filename r) (r_local_path r) (r_file_size
    r) (r_bytes_transferred r) x (r_last_sync_point r) (r_bytes_at_last_sync_point r) (r_started_at r)
    (r_completed_at r) (r_updated_at r) (r_remote_address r) (r_error_code r) (r_error_message r) (r_checksum
    r) (r_checksum_algorithm r) (r_parent_transfer_id r) (r_metadata r) (r_label r) (r_free_message r).
Definition set_r_last_sync_point (x : Z) (r : TransferRecord) : TransferRecord :=
  mkTransferRecord (r_id r) (r_transfer_id r) (r_pesit_transfer_id r) (r_session_id r) (r_server_id r)
    (r_node_id r) (r_direction r) (r_status r) (r_partner_id r) (r_filename r) (r_local_path r) (r_file_size
    r) (r_bytes_transferred r) (r_progress_percent r) x (r_bytes_at_last_sync_point r) (r_started_at r)
    (r_completed_at r) (r_updated_at r) (r_remote_address r) (r_error_code r) (r_error_message r) (r_checksum
    r) (r_checksum_algorithm r) (r_parent_transfer_id r) (r_metadata r) (r_label r) (r_free_message r).
Definition set_r_bytes_at_last_sync_point (x : Z) (r : TransferRecord) : TransferRecord :=
  mkTransferRecord (r_id r) (r_transfer_id r) (r_pesit_transfer_id r) (r_session_id r) (r_server_id r)
    (r_node_id r) (r_direction r) (r_status r) (r_partner_id r) (r_filename r) (r_local_path r) (r_file_size
    r) (r_bytes_transferred r) (r_progress_percent r) (r_last_sync_point r) x (r_started_at r) (r_completed_at
    r) (r_updated_at r) (r_remote_address r) (r_error_code r) (r_error_message r) (r_checksum r)
    (r_checksum_algorithm r) (r_parent_transfer_id r) (r_metadata r) (r_label r) (r_free_message r).
Definition set_r_file_size (x : option Z) (r : TransferRecord) : TransferRecord :=
  mkTransferRecord (r_id r) (r_transfer_id r) (r_pesit_transfer_id r) (r_session_id r) (r_server_id r)
    (r_node_id r) (r_direction r) (r_status r) (r_partner_id r) (r_filename r) (r_local_path r) x
    (r_bytes_transferred r) (r_progress_percent r) (r_last_sync_point r) (r_bytes_at_last_sync_point r)
    (r_started_at r) (r_completed_at r) (r_updated_at r) (r_remote_address r) (r_error_code r)
    (r_error_message r) (r_checksum r) (r_checksum_algorithm r) (r_parent_transfer_id r) (r_metadata r)
    (r_label r) (r_free_message r).
Definition set_r_completed_at (x : option ustring) (r : TransferRecord) : TransferRecord :=
  mkTransferRecord (r_id r) (r_transfer_id r) (r_pesit_transfer_id r) (r_session_id r) (r_server_id r)
    (r_node_id r) (r_direction r) (r_status r) (r_partner_id r) (r_filename r) (r_local_path r) (r_file_size
    r) (r_bytes_transferred r) (r_progress_percent r) (r_last_sync_point r) (r_bytes_at_last_sync_point r)
    (r_started_at r) x (r_updated_at r) (r_remote_address r) (r_error_code r) (r_error_message r) (r_checksum
    r) (r_checksum_algorithm r) (r_parent_transfer_id r) (r_metadata r) (r_label r) (r_free_message r).
Definition set_r_updated_at (x : option ustring) (r : TransferRecord) : TransferRecord :=
  mkTransferRecord (r_id r) (r_transfer_id r) (r_pesit_transfer_id r) (r_session_id r) (r_server_id r)
    (r_node_id r) (r_direction r) (r_status r) (r_partner_id r) (r_filename r) (r_local_path r) (r_file_size
    r) (r_bytes_transferred r) (r_progress_percent r) (r_last_sync_point r) (r_bytes_at_last_sync_point r)
    (r_started_at r) (r_completed_at r) x (r_remote_address r) (r_error_code r) (r_error_message r)
    (r_checksum r) (r_checksum_algorithm r) (r_parent_transfer_id r) (r_metadata r) (r_label r)
    (r_free_message r).
Definition set_r_local_path (x : option ustring) (r : TransferRecord) : TransferRecord :=
  mkTransferRecord (r_id r) (r_transfer_id r) (r_pesit_transfer_id r) (r_session_id r) (r_server_id r)
    (r_node_id r) (r_direction r) (r_status r) (r_partner_id r) (r_filename r) x (r_file_size r)
    (r_bytes_transferred r) (r_progress_percent r) (r_last_sync_point r) (r_bytes_at_last_sync_point r)
    (r_started_at r) (r_completed_at r) (r_updated_at r) (r_remote_address r) (r_error_code r)
    (r_error_message r) (r_checksum r) (r_checksum_algorithm r) (r_parent_transfer_id r) (r_metadata r)
    (r_label r) (r_free_message r).
Definition set_r_error_code (x : option ustring) (r : TransferRecord) : TransferRecord :=
  mkTransferRecord (r_id r) (r_transfer_id r) (r_pesit_transfer_id r) (r_session_id r) (r_server_id r)
    (r_node_id r) (r_direction r) (r_status r) (r_partner_id r) (r_filename r) (r_local_path r) (r_file_size
    r) (r_bytes_transferred r) (r_progress_percent r) (r_last_sync_point r) (r_bytes_at_last_sync_point r)
    (r_started_at r) (r_completed_at r) (r_updated_at r) (r_remote_address r) x (r_error_message r)
    (r_checksum r) (r_checksum_algorithm r) (r_parent_transfer_id r) (r_metadata r) (r_label r)
    (r_free_message r).
Definition set_r_error_message (x : option Note) (r : TransferRecord) : TransferRecord :=
  mkTransferRecord (r_id r) (r_transfer_id r) (r_pesit_transfer_id r) (r_session_id r) (r_server_id r)
    (r_node_id r) (r_direction r) (r_status r) (r_partner_id r) (r_filename r) (r_local_path r) (r_file_size
    r) (r_bytes_transferred r) (r_progress_percent r) (r_last_sync_point r) (r_bytes_at_last_sync_point r)
    (r_started_at r) (r_completed_at r) (r_updated_at r) (r_remote_address r) (r_error_code r) x (r_checksum
    r) (r_checksum_algorithm r) (r_parent_transfer_id r) (r_metadata r) (r_label r) (r_free_message r).
Definition set_r_checksum (x : option ustring) (r : TransferRecord) : TransferRecord :=
  mkTransferRecord (r_id r) (r_transfer_id r) (r_pesit_transfer_id r) (r_session_id r) (r_server_id r)
    (r_node_id r) (r_direction r) (r_status r) (r_partner_id r) (r_filename r) (r_local_path r) (r_file_size
    r) (r_bytes_transferred r) (r_progress_percent r) (r_last_sync_point r) (r_bytes_at_last_sync_point r)
    (r_started_at r) (r_completed_at r) (r_updated_at r) (r_remote_address r) (r_error_code r)
    (r_error_message r) x (r_checksum_algorithm r) (r_parent_transfer_id r) (r_metadata r) (r_label r)
    (r_free_message r).
Definition set_r_parent_transfer_id (x : option ustring) (r : TransferRecord) : TransferRecord :=
  mkTransferRecord (r_id r) (r_transfer_id r) (r_pesit_transfer_id r) (r_session_id r) (r_server_id r)
    (r_node_id r) (r_direction r) (r_status r) (r_partner_id r) (r_filename r) (r_local_path r) (r_file_size
    r) (r_bytes_transferred r) (r_progress_percent r) (r_last_sync_point r) (r_bytes_at_last_sync_point r)
    (r_started_at r) (r_completed_at r) (r_updated_at r) (r_remote_address r) (r_error_code r)
    (r_error_message r) (r_checksum r) (r_checksum_algorithm r) x (r_metadata r) (r_label r) (r_free_message
    r).
Definition set_r_metadata (x : option ustring) (r : TransferRecord) : TransferRecord :=
  mkTransferRecord (r_id r) (r_transfer_id r) (r_pesit_transfer_id r) (r_session_id r) (r_server_id r)
    (r_node_id r) (r_direction r) (r_status r) (r_partner_id r) (r_filename r) (r_local_path r) (r_file_size
    r) (r_bytes_transferred r) (r_progress_percent r) (r_last_sync_point r) (r_bytes_at_last_sync_point r)
    (r_started_at r) (r_completed_at r) (r_updated_at r) (r_remote_address r) (r_error_code r)
    (r_error_message r) (r_checksum r) (r_checksum_algorithm r) (r_parent_transfer_id r) x (r_label r)
    (r_free_message r).

(** ** The store *)

(** The tables that the server reads and writes; [faults] tells which of the
    next operations fail, without an effect. *)
Record Store : Type := mkStore {
  partners : Table Partner;
  virtual_files : Table VirtualFile;
  servers : Table PesitServerConfig;
  transfers : Table TransferRecord;
  counters : Table Z;
  st_faults : list bool;
}.

(** An operation on the store; [None] is its error. *)
Definition statement {A} (op : Store → Store * A) (s : Store) : Store * option A :=
  let s' := mkStore (partners s) (virtual_files s) (servers s) (transfers s) (counters s) (tail (st_faults s)) in
  if default false (head (st_faults s)) then (s', None) else let '(s'', a) := op s' in (s'', Some a).

Definition set_transfers (t : Table TransferRecord) (s : Store) : Store :=
  mkStore (partners s) (virtual_files s) (servers s) t (counters s) (st_faults s).

Definition get_partner (id : ustring) : Store → Store * option (option Partner) :=
  statement (λ s, (s, table_get id (partners s))).
Definition get_virtual_file (id : ustring) : Store → Store * option (option VirtualFile) :=
  statement (λ s, (s, table_get id (virtual_files s))).
Definition get_record (id : ustring) : Store → Store * option (option TransferRecord) :=
  statement (λ s, (s, table_get id (transfers s))).
Definition list_records : Store → Store * option (list TransferRecord) :=
  statement (λ s, (s, table_list (transfers s))).
Definition put_record (id : ustring) (r : TransferRecord) : Store → Store * option unit :=
  statement (λ s, (set_transfers (table_put id r (transfers s)) s, tt)).

(** [update]: read, change and put; an error of the second statement leaves the
    document as it was. *)
Definition update_doc (id : ustring) (f : TransferRecord → TransferRecord) (s : Store) : Store * option bool :=
  match get_record id s with
  | (s, Some (Some r)) =>
      match put_record id (f r) s with (s, Some _) => (s, Some true) | (s, None) => (s, None) end
  | (s, Some None) => (s, Some false)
  | (s, None) => (s, None)
  end.

(** The counter is incremented, then read. *)
Definition next_counter (name : ustring) (s : Store) : Store * option Z :=
  match statement (λ s,
          let '(t, v) := table_next_counter name (counters s) in
          (mkStore (partners s) (virtual_files s) (servers s) (transfers s) t (st_faults s), v)) s with
  | (s, Some v) => statement (λ s, (s, v)) s
  | r => r
  end.
