(* ===== verification/NodeHandler.v ===== *)
(** * The application of the server ([crates/pesit-node/src/handler.rs])

    The handler of a listener: it authenticates partners, resolves virtual
    files, opens the resources of a transfer and keeps its record. What the
    operating system answers during a call is the [World] that the call takes
    from its state. *)

From Stdlib Require Import String.
From S2P Require Import Prelude Diag Pi Kinds Ebcdic Fpdu Params Article Builder.
From S2P Require Import Checkpoint ArticleIo Link Datapath Requester Responder DocStore NodeModel.
Open Scope Z_scope.

(** ** The environment of a call *)

Inductive ErrorKind : Type := NotFound | PermissionDenied | OtherError.

(** An error of the operating system and its text. *)
Record OsFailure : Type := mkOsFailure { os_kind : ErrorKind; os_text : ustring }.

(** What a call finds: the clock, the identifiers drawn, the files (contents,
    [metadata]), the checkpoint file of a transfer, the connectors, and the
    faults of the calls. *)
Record World : Type := mkWorld {
  w_now : ustring;
  w_compact : ustring;
  w_today : ustring;
  w_time : ustring;
  w_pesit_now : ustring;
  w_instant : Z;
  w_uuid : ustring;
  w_staging_uuid : ustring;
  w_temp_dir : ustring;
  w_exists : ustring → bool;
  w_content : ustring → option bytes;
  w_metadata : ustring → (Z * option ustring) + OsFailure;
  w_open : ustring → bytes + OsFailure;
  w_io : list (option nat);
  w_io_failure : OsFailure;
  w_disk : ustring → Checkpoint.Disk;
  w_checkpoint_fault : Checkpoint.fault;
  w_checkpoint_failure : OsFailure;
  w_fetch : ustring → ustring → unit + (Diagnostic * ustring);
  w_store : ustring → ustring → unit + ustring;
  w_sha256 : ustring → option ustring;
  w_store_failure : ustring;
  w_cancel_reads : list bool;
}.

(** ** Cancellation

    The flags of the transfers in progress. *)
Abbreviation CancelRegistry := (gmap ustring bool) (only parsing).

Definition cancel_register (id : ustring) (c : CancelRegistry) : CancelRegistry := <[id := false]> c.
Definition cancel_remove (id : ustring) (c : CancelRegistry) : CancelRegistry := delete id c.

(** The request of a cancellation: [watch::Sender::send] refuses when nobody
    holds a receiver, [listening] tells whether the data phase does. *)
Definition cancel (listening : bool) (id : ustring) (c : CancelRegistry) : CancelRegistry * bool :=
  match c !! id with
  | Some _ => if listening then (<[id := true]> c, true) else (c, false)
  | None => (c, false)
  end.

(** ** The handler *)

Record Active : Type := mkActive {
  a_record_id : ustring;
  a_file_size : option Z;
  a_last_update : Z;
  a_last_bytes : Z;
  a_last_sync : Z;
  a_connector_upload : option (ustring * ustring * ustring);
  a_connector_temp : option ustring;
}.

(** The handler of a listener. The flags of cancellation are those of its own
    transfers; the registry of the node has those of all listeners under the
    identifiers of their records. *)
Record PwHandler : Type := mkPwHandler {
  h_store : Store;
  h_server : PesitServerConfig;
  h_checkpoint_dir : ustring;
  h_node_id : ustring;
  h_cancels : CancelRegistry;
  h_active : gmap Z Active;
  h_next_handle : Z;
  h_worlds : nat → World;
  h_calls : nat;
}.

Definition handler_new (store : Store) (server : PesitServerConfig) (dir node : ustring) (cancels : CancelRegistry)
    (worlds : nat → World) : PwHandler :=
  mkPwHandler store server dir node cancels ∅ 1 worlds 0.

Definition set_store (s : Store) (h : PwHandler) : PwHandler :=
  mkPwHandler s (h_server h) (h_checkpoint_dir h) (h_node_id h) (h_cancels h) (h_active h) (h_next_handle h) (h_worlds h) (h_calls h).
Definition set_cancels (c : CancelRegistry) (h : PwHandler) : PwHandler :=
  mkPwHandler (h_store h) (h_server h) (h_checkpoint_dir h) (h_node_id h) c (h_active h) (h_next_handle h) (h_worlds h) (h_calls h).
Definition set_actives (a : gmap Z Active) (h : PwHandler) : PwHandler :=
  mkPwHandler (h_store h) (h_server h) (h_checkpoint_dir h) (h_node_id h) (h_cancels h) a (h_next_handle h) (h_worlds h) (h_calls h).
Definition set_next_handle (n : Z) (h : PwHandler) : PwHandler :=
  mkPwHandler (h_store h) (h_server h) (h_checkpoint_dir h) (h_node_id h) (h_cancels h) (h_active h) n (h_worlds h) (h_calls h).

(** The world of the next call. *)
Definition next_call (h : PwHandler) : PwHandler :=
  mkPwHandler (h_store h) (h_server h) (h_checkpoint_dir h) (h_node_id h) (h_cancels h) (h_active h) (h_next_handle h)
    (h_worlds h) (S (h_calls h)).
Definition world_of (h : PwHandler) : World := h_worlds h (h_calls h).

(** A step of the handler, which may end in a refusal. *)
Definition H (A : Type) : Type := PwHandler → PwHandler * (A + Refusal).

#[global] Instance H_ret : MRet H := λ _ a h, (h, inl a).
#[global] Instance H_bind : MBind H := λ _ _ f m h,
  match m h with
  | (h, inl a) => f a h
  | (h, inr r) => (h, inr r)
  end.

Definition refuse {A} (diag : Diagnostic) (message : ustring) : H A := λ h, (h, inr (mkRefusal diag (Some message))).
Definition h_gets {A} (f : PwHandler → A) : H A := λ h, (h, inl (f h)).
Definition h_modify (f : PwHandler → PwHandler) : H unit := λ h, (f h, inl tt).
Definition on_store {A} (op : Store → Store * A) : H A := λ h,
  let '(s, a) := op (h_store h) in (set_store s h, inl a).

(** The refusal for an error of the operating system. *)
Definition io_diag (e : OsFailure) : Diagnostic :=
  match os_kind e with
  | NotFound => Diagnostic.FILE_NOT_FOUND
  | PermissionDenied => Diagnostic.CANNOT_OPEN
  | OtherError => Diagnostic.SYSTEM_ERROR
  end.
Definition io_refuse {A} (e : OsFailure) (what : ustring) : H A :=
  refuse (io_diag e) (what ++ lit ": " ++ os_text e).

Definition guard (ok : bool) (diag : Diagnostic) (message : ustring) : H unit :=
  if ok then mret tt else refuse diag message.

(** [self.partner(..)] and [self.virtual_file(..)]: an error of the store is an
    absent document. *)
Definition partner (id : ustring) : H (option Partner) := o ← on_store (get_partner id); mret (default None o).
Definition virtual_file (id : ustring) : H (option VirtualFile) := o ← on_store (get_virtual_file id); mret (default None o).

(** ** Authentication *)

Definition has_right (a : AccessType) (p : Partner) : bool :=
  match a with
  | AccessType.Write => Rights.can_write (p_access_type p)
  | AccessType.Read => Rights.can_read (p_access_type p)
  | AccessType.Mixed => Rights.can_read (p_access_type p) || Rights.can_write (p_access_type p)
  end.

(** A password that is configured must be given, up to blanks around it. *)
Definition password_ok (expected : option ustring) (provided : option ustring) : bool :=
  match filled expected with
  | Some e => bool_decide (trim (default [] provided) = e)
  | None => true
  end.

(** A pre-connection password is checked when the partner has sent one. *)
Definition preconnect_ok (expected : option ustring) (pre : option (ustring * ustring)) : bool :=
  match pre, filled expected with
  | Some (_, pwd), Some e => bool_decide (trim pwd = e)
  | _, _ => true
  end.

Definition access_name (a : AccessType) : ustring :=
  match a with AccessType.Read => lit "Read" | AccessType.Write => lit "Write" | AccessType.Mixed => lit "Mixed" end.

Definition sync_of (c : PesitServerConfig) : SyncOption :=
  if sc_sync_points_enabled c then SyncOption.mkSyncOption (sc_sync_interval_kb c) (sc_sync_window c) else SyncOption.NONE.

Definition pw_authenticate (req : ConnectRequest) : H ConnectAccept :=
  found ← partner (cr_requester req);
  match found with
  | None => refuse Diagnostic.CALLER_UNKNOWN (lit "partner '" ++ cr_requester req ++ lit "' not configured")
  | Some p =>
      guard (p_enabled p) Diagnostic.CALLER_NOT_AUTHORISED (lit "partner '" ++ p_id p ++ lit "' is disabled") ;;
      guard (password_ok (p_password p) (cr_password req)) Diagnostic.CALLER_NOT_AUTHORISED
        (lit "invalid password for partner '" ++ p_id p ++ lit "'") ;;
      guard (preconnect_ok (p_preconnect_password p) (cr_preconnect req)) Diagnostic.CALLER_NOT_AUTHORISED
        (lit "invalid pre-connection password for partner '" ++ p_id p ++ lit "'") ;;
      guard (has_right (cr_access req) p) Diagnostic.CALLER_NOT_AUTHORISED
        (lit "partner '" ++ p_id p ++ lit "' not authorised for " ++ access_name (cr_access req) ++ lit " access") ;;
      server ← h_gets h_server;
      mret (mkConnectAccept (sync_of server) (sc_resync_enabled server)
              (default Compression.None_ (Compression.from_code (sc_compression server))) true
              (sc_max_entity_size server) None)
  end.

(** ** Access to a file *)

Definition check_partner (session : SessionInfo) (file : Builder.FileSpec) (write : bool) : H Partner :=
  found ← partner (si_requester session);
  match found with
  | None => refuse Diagnostic.CALLER_UNKNOWN (lit "partner '" ++ si_requester session ++ lit "' not configured")
  | Some p =>
      guard (if write then Rights.can_write (p_access_type p) else Rights.can_read (p_access_type p))
        Diagnostic.TRANSFER_REFUSED
        (lit "partner '" ++ p_id p ++ lit "' is not allowed to " ++ (if write then lit "send" else lit "receive")) ;;
      guard (can_access_file p (Builder.file_name file)) Diagnostic.TRANSFER_REFUSED
        (lit "partner '" ++ p_id p ++ lit "' may not access '" ++ Builder.file_name file ++ lit "'") ;;
      mret p
  end.

Definition pesit_transfer_id (requested : Z) : H Z :=
  if negb (requested =? 0) then mret requested
  else n ← on_store (next_counter (lit "pesit_transfer_id")); mret (Z.max (default 1 n mod 0x00FFFFFF) 1).

Definition is_ascii_alphanumeric (c : Z) : bool :=
  (48 <=? c) && (c <=? 57) || (65 <=? c) && (c <=? 90) || (97 <=? c) && (c <=? 122).

(** The key of a transfer across restarts. *)
Definition restart_key (session : SessionInfo) (file : Builder.FileSpec) (tid : Z) : ustring :=
  map (λ c, if is_ascii_alphanumeric c || (c =? 95) || (c =? 45) then c else 95)
    (si_requester session ++ lit "_" ++ Builder.file_name file ++ lit "_" ++ decimal tid).

(** [Path::join]. *)
Definition path_join (dir name : ustring) : ustring :=
  match head name with
  | Some 47 => name
  | _ => dir ++ (match List.last dir 47 with 47 => [] | _ => [47] end) ++ name
  end.

(** [part_path], for a path that ends in a file name. *)
Definition part_path (path : ustring) : ustring := path ++ lit ".part".
Definition base_name (path : ustring) : ustring := List.last (split_on 47 path) [].

Definition open_checkpoints (of_json : bytes → option Checkpoint.MemoryCheckpoints) (key : ustring)
    (w : World) : H Checkpoint.FileCheckpoints :=
  h ← h_gets id;
  let path := path_join (path_join (h_checkpoint_dir h) (sc_server_id (h_server h))) (key ++ lit ".json") in
  match Checkpoint.open of_json (w_checkpoint_fault w) (w_disk w path) with
  | Some c => mret c
  | None => io_refuse (w_checkpoint_failure w) (lit "checkpoint store")
  end.

(** [let _ = checkpoints.clear()]. *)
Definition clear_checkpoints (c : Checkpoint.FileCheckpoints) (w : World) : Checkpoint.FileCheckpoints :=
  (Checkpoint.clear (w_checkpoint_fault w) c).1.

(** [str::replace]. *)
Fixpoint replace_fuel (fuel : nat) (pat with_ s : ustring) : ustring :=
  match fuel with
  | O => s
  | S fuel =>
      if decide (pat `prefix_of` s) then with_ ++ replace_fuel fuel pat with_ (drop (length pat) s)
      else match s with c :: s => c :: replace_fuel fuel pat with_ s | [] => [] end
  end.
Definition replace (pat with_ s : ustring) : ustring := replace_fuel (length s) pat with_ s.

Definition resolve_placeholders (pattern : ustring) (values : list (ustring * ustring)) : ustring :=
  foldl (λ out kv, replace (lit "${" ++ kv.1 ++ lit "}") kv.2 out) pattern values.

Definition placeholders (h : PwHandler) (w : World) (session : SessionInfo) (file : Builder.FileSpec) (tid : Z)
    : list (ustring * ustring) :=
  [(lit "virtualFile", Builder.file_name file); (lit "transferId", decimal tid); (lit "timestamp", w_compact w);
   (lit "date", w_today w); (lit "time", w_time w); (lit "partnerId", si_requester session);
   (lit "serverId", sc_server_id (h_server h))].

Definition receive_path (h : PwHandler) (w : World) (vf : VirtualFile) (session : SessionInfo)
    (file : Builder.FileSpec) (tid : Z) : ustring :=
  let dir := default (sc_receive_directory (h_server h)) (filled (vf_receive_directory vf)) in
  let pattern := if is_empty (vf_receive_filename_pattern vf) then DEFAULT_PATTERN else vf_receive_filename_pattern vf in
  path_join dir (resolve_placeholders pattern (placeholders h w session file tid)).

Definition staging_path (w : World) (name : ustring) : ustring :=
  path_join (path_join (w_temp_dir w) (lit "pesitwizard-staging"))
    (w_staging_uuid w ++ lit "-"
     ++ map (λ c, if is_ascii_alphanumeric c || (c =? 46) || (c =? 45) || (c =? 95) then c else 95) name).

Definition connector_key (h : PwHandler) (w : World) (vf : VirtualFile) (session : SessionInfo)
    (file : Builder.FileSpec) (tid : Z) (default_key : ustring) : ustring :=
  match filled (vf_connector_path vf) with
  | None => default_key
  | Some pattern => resolve_placeholders pattern (placeholders h w session file tid)
  end.

(** ** Records *)

(** The newest interrupted transfer of this partner and file. *)
Definition restartable (server partner file : ustring) (tid : Z) (r : TransferRecord) : bool :=
  bool_decide (r_status r = TransferStatus.Interrupted) && (r_pesit_transfer_id r =? tid)
  && bool_decide (r_partner_id r = Some partner) && bool_decide (r_filename r = Some file)
  && bool_decide (r_server_id r = Some server).

Definition interrupted_record (partner file : ustring) (tid : Z) : H (option TransferRecord) :=
  all ← on_store list_records;
  server ← h_gets h_server;
  mret (all ≫= λ l, List.find (restartable (sc_server_id server) partner file tid) (rev l)).

Definition new_record (h : PwHandler) (w : World) (session : SessionInfo)
    (direction : TransferDirection.TransferDirection) (partner : ustring) (file : Builder.FileSpec) (tid : Z)
    (local_path : option ustring) : TransferRecord :=
  mkTransferRecord None (w_uuid w) tid (Some (si_id session)) (Some (sc_server_id (h_server h))) (Some (h_node_id h))
    (Some direction) TransferStatus.Initiated (Some partner) (Some (Builder.file_name file)) local_path
    (if 0 <? Builder.max_reservation file then Some (u64 (Builder.max_reservation file * 1024)) else None)
    0 0 0 0 (Some (w_now w)) None (Some (w_now w)) (Some (si_remote_addr session)) None None None (lit "SHA-256")
    None None (filled (Builder.label file)) (filled (Builder.fs_free_message file)).

Definition register (w : World) (record : TransferRecord) : H Z :=
  handle ← h_gets h_next_handle;
  h_modify (set_next_handle (u64 (handle + 1))) ;;
  stored ← on_store (put_record (r_transfer_id record) record);
  match stored with
  | None => refuse Diagnostic.SYSTEM_ERROR (w_store_failure w)
  | Some _ =>
      h_modify (λ h, set_actives (<[handle := mkActive (r_transfer_id record) (r_file_size record) (w_instant w) 0 0
                                                None None]> (h_active h)) h) ;;
      mret handle
  end.

(** An error of the store is only logged. *)
Definition update_record (w : World) (id : ustring) (f : TransferRecord → TransferRecord) (h : PwHandler) : PwHandler :=
  set_store (update_doc id (λ r, set_r_updated_at (Some (w_now w)) (f r)) (h_store h)).1 h.

Definition set_active (handle : Z) (f : Active → Active) (h : PwHandler) : PwHandler :=
  set_actives (alter f handle (h_active h)) h.
Definition set_upload (u : ustring * ustring * ustring) (a : Active) : Active :=
  mkActive (a_record_id a) (a_file_size a) (a_last_update a) (a_last_bytes a) (a_last_sync a) (Some u) (a_connector_temp a).
Definition set_temp (p : ustring) (a : Active) : Active :=
  mkActive (a_record_id a) (a_file_size a) (a_last_update a) (a_last_bytes a) (a_last_sync a) (a_connector_upload a) (Some p).
Definition set_seen (now bytes sync : Z) (a : Active) : Active :=
  mkActive (a_record_id a) (a_file_size a) now bytes sync (a_connector_upload a) (a_connector_temp a).

(** The record of a transfer with its entry, completed when the file goes
    through a connector, and its flag. *)
Definition start_record (w : World) (record : TransferRecord) (change : option (Active → Active)) : H Z :=
  handle ← register w record;
  (match change with Some f => h_modify (set_active handle f) | None => mret tt end) ;;
  h_modify (λ h, set_cancels (cancel_register (r_transfer_id record) (h_cancels h)) h) ;;
  mret handle.

Section Calls.
Context (of_json : bytes → option Checkpoint.MemoryCheckpoints).
Abbreviation Created := (CreateAccept Checkpoint.FileCheckpoints ArticleIo.FileSink).
Abbreviation Selected := (SelectAccept Checkpoint.FileCheckpoints ArticleIo.FileSource).

(** ** F.CREATE *)

(** The path of the file and the checkpoint to restart from. *)
Definition receive_target (w : World) (vf : VirtualFile) (session : SessionInfo) (file : Builder.FileSpec) (tid : Z)
    (previous : option TransferRecord) (cps : Checkpoint.FileCheckpoints)
    : H (ustring * option Checkpoint * Checkpoint.FileCheckpoints) :=
  h ← h_gets id;
  match previous with
  | Some prev =>
      let path := default (receive_path h w vf session file tid) (r_local_path prev) in
      match (if w_exists w (part_path path) then Checkpoint.last cps else None) with
      | Some cp => mret (path, Some cp, cps)
      | None => mret (path, None, clear_checkpoints cps w)
      end
  | None =>
      let path := receive_path h w vf session file tid in
      guard (negb (w_exists w path && negb (vf_overwrite vf))) Diagnostic.FILE_EXISTS (path ++ lit " already exists") ;;
      mret (path, None, clear_checkpoints cps w)
  end.

Definition open_sink (w : World) (vf : VirtualFile) (path : ustring) (restart : option Checkpoint) (ebcdic : bool)
    : H ArticleIo.FileSink :=
  match ArticleIo.file_sink_create (w_content w (part_path path)) (w_content w path) (w_io w) (record_format vf)
          (position_of <$> restart) with
  | Ok k => mret (ArticleIo.sink_with_ebcdic k ebcdic)
  | _ => io_refuse (w_io_failure w) (lit "cannot create file")
  end.

Definition data_is_ebcdic (file : Builder.FileSpec) (vf : VirtualFile) : bool :=
  bool_decide (Builder.data_code file = Some 1) || is_ebcdic vf.

(** The checks on the virtual file. *)
Definition receivable (file : Builder.FileSpec) : H VirtualFile :=
  found ← virtual_file (Builder.file_name file);
  match found with
  | None => refuse Diagnostic.TRANSFER_REFUSED (lit "virtual file '" ++ Builder.file_name file ++ lit "' not configured")
  | Some vf =>
      guard (vf_enabled vf && can_receive vf) Diagnostic.TRANSFER_REFUSED
        (lit "virtual file '" ++ vf_id vf ++ lit "' does not accept incoming transfers") ;;
      guard (negb ((0 <? vf_max_file_size vf) && (vf_max_file_size vf <? u64 (Builder.max_reservation file * 1024))))
        Diagnostic.DISK_QUOTA
        (lit "file larger than the " ++ decimal (vf_max_file_size vf) ++ lit " bytes allowed for '" ++ vf_id vf ++ lit "'") ;;
      mret vf
  end.

Definition restarted_record (r : TransferRecord) (previous : option TransferRecord) (restart : option Checkpoint)
    : TransferRecord :=
  let r := set_r_parent_transfer_id (r_transfer_id <$> previous) r in
  match restart with
  | Some cp =>
      set_r_bytes_at_last_sync_point (Checkpoint.data_bytes cp)
        (set_r_last_sync_point (Checkpoint.sync cp) (set_r_bytes_transferred (Checkpoint.data_bytes cp) r))
  | None => r
  end.

Definition pw_create (session : SessionInfo) (file : Builder.FileSpec) : H Created :=
  w ← h_gets world_of;
  p ← check_partner session file true;
  vf ← receivable file;
  tid ← pesit_transfer_id (Builder.fs_transfer_id file);
  cps ← open_checkpoints of_json (restart_key session file tid) w;
  previous ← (if Builder.restarted file then interrupted_record (p_id p) (Builder.file_name file) tid else mret None);
  target ← receive_target w vf session file tid previous cps;
  let '(path, restart, cps) := target in
  let connector := filled (vf_connector vf) in
  let '(path, restart) :=
    match connector with
    | Some _ => (staging_path w (lit "recv-" ++ vf_id vf ++ lit "-" ++ decimal tid), None)
    | None => (path, restart)
    end in
  sink ← open_sink w vf path restart (data_is_ebcdic file vf);
  h ← h_gets id;
  let record := restarted_record (new_record h w session TransferDirection.Receive (p_id p) file tid (Some path))
                  previous restart in
  handle ← start_record w record
    ((λ cid, set_upload (cid, connector_key h w vf session file tid (base_name path), path)) <$> connector);
  mret (mkCreateAccept sink cps (Some tid) restart (Z.to_nat (vf_record_length vf)) handle None).

(** ** F.SELECT *)

Definition sendable_file (file : Builder.FileSpec) : H VirtualFile :=
  found ← virtual_file (Builder.file_name file);
  match found with
  | None => refuse Diagnostic.FILE_NOT_FOUND (lit "virtual file '" ++ Builder.file_name file ++ lit "' not configured")
  | Some vf =>
      guard (vf_enabled vf && can_send vf) Diagnostic.TRANSFER_REFUSED
        (lit "virtual file '" ++ vf_id vf ++ lit "' cannot be read") ;;
      mret vf
  end.

(** The file to send: fetched from its connector, or a local one. *)
Definition send_path (w : World) (vf : VirtualFile) (session : SessionInfo) (file : Builder.FileSpec) (tid : Z) : H ustring :=
  h ← h_gets id;
  match filled (vf_connector vf) with
  | Some cid =>
      let temp := staging_path w (lit "send-" ++ vf_id vf ++ lit "-" ++ decimal tid) in
      match w_fetch w cid (connector_key h w vf session file tid (vf_id vf)) with
      | inl _ => mret temp
      | inr (d, text) => refuse d text
      end
  | None => mret (default (path_join (sc_send_directory (h_server h)) (vf_id vf)) (filled (vf_send_file vf)))
  end.

(** The description that ACK(SELECT) returns. *)
Definition select_spec (w : World) (vf : VirtualFile) (file : Builder.FileSpec) (tid len : Z) (modified : option ustring)
    : Builder.FileSpec :=
  Builder.mkFileSpec (Builder.fs_requester file) (Builder.fs_server file)
    (if negb (Builder.file_type file =? 0) then Builder.file_type file else vf_file_type vf) (Builder.file_name file)
    tid (Builder.restarted file) (if is_ebcdic vf then Some 1 else Builder.data_code file) (Builder.priority file)
    (Builder.fs_max_entity_size file)
    (if negb (Z.land (vf_record_format vf) 0x80 =? 0) then ArticleFormat.Variable_ else ArticleFormat.Fixed)
    (Z.min (vf_record_length vf) 0xFFFF) (Some 0) (take 80 <$> filled (vf_description vf)) (Some 0)
    ((len + 1023) / 1024) (Some (default (w_pesit_now w) modified)) (Builder.extraction_date file)
    (Builder.client_id file) (Builder.bank_id file) (Builder.file_access_control file) (Builder.fs_free_message file).

Definition pw_select (session : SessionInfo) (file : Builder.FileSpec) (attrs : RequestedAttributes) : H Selected :=
  w ← h_gets world_of;
  p ← check_partner session file false;
  vf ← sendable_file file;
  tid ← pesit_transfer_id (Builder.fs_transfer_id file);
  path ← send_path w vf session file tid;
  meta ← (match w_metadata w path with inl m => mret m | inr e => io_refuse e path end);
  content ← (match w_open w path with inl b => mret b | inr e => io_refuse e (lit "cannot open file") end);
  let source := ArticleIo.with_ebcdic
                  (ArticleIo.file_source_open content (w_io w) (record_format vf) (Z.to_nat (vf_record_length vf)))
                  (is_ebcdic vf) in
  cps ← open_checkpoints of_json (restart_key session file tid) w;
  let cps := if negb (Builder.restarted file) then clear_checkpoints cps w else cps in
  h ← h_gets id;
  let record := set_r_file_size (Some meta.1)
                  (new_record h w session TransferDirection.Send (p_id p) file tid (Some path)) in
  handle ← start_record w record ((λ _, set_temp path) <$> filled (vf_connector vf));
  mret (mkSelectAccept source cps (select_spec w vf file tid meta.1 meta.2) handle).

(** ** F.MESSAGE

    An error of the store is ignored. *)
Definition message_record (h : PwHandler) (w : World) (session : SessionInfo) (file : Builder.FileSpec) (message : bytes)
    (text : ustring) : TransferRecord :=
  set_r_metadata (Some text) (set_r_completed_at (Some (w_now w))
    (set_r_bytes_transferred (Z.of_nat (length message)) (set_r_status TransferStatus.Completed
      (new_record h w session TransferDirection.Message (si_requester session) file (Builder.fs_transfer_id file) None)))).

Definition pw_message (session : SessionInfo) (file : Builder.FileSpec) (message : bytes)
    (expects_reply : bool) : H (option bytes) :=
  w ← h_gets world_of;
  h ← h_gets id;
  let record := message_record h w session file message (from_utf8_lossy message) in
  on_store (put_record (r_transfer_id record) record) ;;
  mret (if expects_reply then Some (lit "OK") else None).

(** ** Events of a transfer *)

Definition apply_started (transfer_id : Z) (from : Checkpoint) (r : TransferRecord) : TransferRecord :=
  set_r_bytes_at_last_sync_point (Checkpoint.data_bytes from) (set_r_last_sync_point (Checkpoint.sync from)
    (set_r_bytes_transferred (Checkpoint.data_bytes from) (set_r_pesit_transfer_id transfer_id
      (set_r_status TransferStatus.InProgress r)))).

Definition u64_sat_mul (a b : Z) : Z := Z.min (a * b) (2 ^ 64 - 1).

Definition apply_progress (p : Progress) (total : option Z) (sync_changed : bool) (r : TransferRecord) : TransferRecord :=
  let r := set_r_bytes_transferred (pr_data_bytes p) (set_r_status TransferStatus.InProgress r) in
  let r := match total with
           | Some t =>
               if 0 <? t
               then set_r_file_size (Some t)
                      (set_r_progress_percent (Z.min (u64_sat_mul (pr_data_bytes p) 100 / t) 100) r)
               else r
           | None => r
           end in
  if sync_changed
  then set_r_bytes_at_last_sync_point (pr_data_bytes p) (set_r_last_sync_point (pr_sync p) r)
  else r.

(** Progress is stored at a new synchronisation point, after a megabyte or
    after a second. *)
Definition worth_storing (w : World) (p : Progress) (a : Active) : bool :=
  negb (pr_sync p =? a_last_sync a) || (2 ^ 20 <=? Z.max (pr_data_bytes p - a_last_bytes a) 0)
  || (1 <=? (w_instant w - a_last_update a) / 1000).

Definition successful (data : DataResult) (diag : Diagnostic) : bool := completed (dr_end data) && Diagnostic.is_ok diag.

Definition apply_ended (now : ustring) (data : DataResult) (diag : Diagnostic) (checksum : option ustring)
    (r : TransferRecord) : TransferRecord :=
  let r := set_r_last_sync_point (dr_last_sync data) (set_r_completed_at (Some now)
             (set_r_bytes_transferred (dr_data_bytes data) r)) in
  let failed d r := set_r_error_message (Some (Words (diag_display d))) (set_r_error_code (Some (diag_debug d))
                      (set_r_status TransferStatus.Failed r)) in
  match dr_end data with
  | Completed =>
      if Diagnostic.is_ok diag then
        let size := match r_file_size r with Some s => if 0 <? s then Some s else None | None => None end in
        set_r_checksum checksum
          (set_r_file_size (Some (default (dr_data_bytes data) size))
            (set_r_progress_percent 100 (set_r_status TransferStatus.Completed r)))
      else failed diag r
  | EndedWithError d => failed d r
  | Interrupted code d by_peer =>
      set_r_error_message (Some (Words (diag_display d ++ lit " (end code " ++ end_code_debug code ++ lit ", by "
          ++ (if by_peer then lit "partner" else lit "operator") ++ lit ")")))
        (set_r_error_code (Some (diag_debug d))
          (set_r_status (if by_peer then TransferStatus.Interrupted else TransferStatus.Cancelled) r))
  end.

Definition apply_failed (now : ustring) (e : SessionError) (r : TransferRecord) : TransferRecord :=
  set_r_error_message (Some (ErrorText e)) (set_r_completed_at (Some now)
    (set_r_status (if 0 <? r_last_sync_point r then TransferStatus.Interrupted else TransferStatus.Failed) r)).

Definition is_receive (r : TransferRecord) : bool :=
  match r_direction r with Some TransferDirection.Receive => true | _ => false end.

(** The checksum of a file that was received. *)
Definition checksum_of (w : World) (data : DataResult) (diag : Diagnostic) (r : option TransferRecord) : option ustring :=
  r ← r; if successful data diag && is_receive r then p ← r_local_path r; w_sha256 w p else None.

Definition drop_active (handle : Z) (record_id : ustring) (h : PwHandler) : PwHandler :=
  set_cancels (cancel_remove record_id (h_cancels h)) (set_actives (delete handle (h_active h)) h).

(** The upload of what was received to a connector. *)
Definition upload (w : World) (data : DataResult) (diag : Diagnostic) (a : Active) (h : PwHandler) : PwHandler :=
  match a_connector_upload a with
  | Some (cid, remote, temp) =>
      if successful data diag then
        match w_store w cid remote with
        | inl _ => update_record w (a_record_id a) (set_r_local_path (Some (cid ++ lit ":" ++ remote))) h
        | inr e => update_record w (a_record_id a) (λ r,
                     set_r_error_message (Some (Words (lit "connector upload failed: " ++ e)))
                       (set_r_status TransferStatus.Failed r)) h
        end
      else h
  | None => h
  end.

Definition pw_transfer_event (session : SessionInfo) (handle : Z) (ev : TransferEvent) (h : PwHandler) : PwHandler :=
  let w := world_of h in
  match h_active h !! handle with
  | None => h
  | Some a =>
      match ev with
      | Started transfer_id from =>
          update_record w (a_record_id a) (apply_started transfer_id from)
            (set_active handle (set_seen (a_last_update a) (Checkpoint.data_bytes from) (Checkpoint.sync from)) h)
      | Progressed p =>
          if worth_storing w p a then
            let total := match a_file_size a with Some s => Some s | None => pr_total_hint p end in
            update_record w (a_record_id a) (apply_progress p total (negb (pr_sync p =? a_last_sync a)))
              (set_active handle (set_seen (w_instant w) (pr_data_bytes p) (pr_sync p)) h)
          else h
      | Ended data diag =>
          let h := drop_active handle (a_record_id a) h in
          let '(s, found) := get_record (a_record_id a) (h_store h) in
          let checksum := checksum_of w data diag (default None found) in
          upload w data diag a (update_record w (a_record_id a) (apply_ended (w_now w) data diag checksum) (set_store s h))
      | Failed e => update_record w (a_record_id a) (apply_failed (w_now w) e) (drop_active handle (a_record_id a) h)
      end
  end.

(** What a data phase reads of its cancellation flag: what the registry has at
    each look, while the flag exists. *)
Definition pw_cancel_flag (handle : Z) (h : PwHandler) : list bool :=
  match h_active h !! handle with
  | Some a => match h_cancels h !! a_record_id a with Some _ => w_cancel_reads (world_of h) | None => [] end
  | None => []
  end.

(** Every call takes a world of its own. *)
Definition calling {A} (m : H A) (h : PwHandler) : PwHandler * (A + Refusal) :=
  let '(h, r) := m h in (next_call h, r).

#[global] Instance pw_handler : ServerHandler PwHandler Checkpoint.FileCheckpoints ArticleIo.FileSink ArticleIo.FileSource := {|
  authenticate h req := calling (pw_authenticate req) h;
  on_create h session file := calling (pw_create session file) h;
  on_select h session file attrs := calling (pw_select session file attrs) h;
  on_message h session file message expects_reply := calling (pw_message session file message expects_reply) h;
  transfer_event h session handle ev := next_call (pw_transfer_event session handle ev h);
  session_closed h _ _ := h;
  cancel_flag h _ handle := pw_cancel_flag handle h;
|}.
End Calls.
