(* ===== verification/NodeProps.v ===== *)
(** * The application of the server: properties

    What a pattern admits, who is let in and to which files, and the life of
    the record of a transfer. *)

From Stdlib Require Import String.
From S2P Require Import Prelude Diag Pi Kinds Ebcdic Fpdu Params Article Builder.
From S2P Require Import Checkpoint ArticleIo Link Datapath Requester Responder DocStore NodeModel NodeHandler.
Open Scope Z_scope.

(** ** Patterns *)

(** What a pattern means: [*] stands for any bytes, [?] for one, another byte
    for itself up to the case of ASCII letters. *)
Inductive matches : bytes → bytes → Prop :=
| matches_nil : matches [] []
| matches_star p skipped t : matches p t → matches (STAR :: p) (skipped ++ t)
| matches_question p b t : matches p t → matches (QUESTION :: p) (b :: t)
| matches_byte c p b t : c ≠ STAR → c ≠ QUESTION → eq_ignore_ascii_case c b = true → matches p t → matches (c :: p) (b :: t).

Lemma glob_rec_star p t :
  glob_rec (STAR :: p) t = glob_rec p t || match t with [] => false | _ :: t => glob_rec (STAR :: p) t end.
Proof. by destruct t. Qed.

Lemma glob_rec_byte c p t :
  c ≠ STAR →
  glob_rec (c :: p) t = match t with
                        | [] => false
                        | b :: t => ((c =? QUESTION) || eq_ignore_ascii_case c b) && glob_rec p t
                        end.
Proof.
  intros Hc. cbn [glob_rec]. rewrite (proj2 (Z.eqb_neq _ _) Hc). destruct t as [|b t]; [done|].
  by destruct (_ || _).
Qed.

Lemma glob_rec_spec p t : glob_rec p t = true ↔ matches p t.
Proof.
  split.
  - revert t. induction p as [|c p IH]; intros t.
    + destruct t; [constructor|done].
    + destruct (decide (c = STAR)) as [->|Hc].
      * induction t as [|b t IHt]; rewrite glob_rec_star; intros [H|H]%orb_true_iff; try done.
        -- apply (matches_star p [] []), IH, H.
        -- apply (matches_star p []), IH, H.
        -- apply IHt in H. inversion H as [|p' skipped t' Hm| |]; subst; [|done]. by apply (matches_star p (b :: skipped)).
      * rewrite glob_rec_byte by done. destruct t as [|b t]; [done|].
        intros [H Hp]%andb_true_iff. apply IH in Hp.
        destruct (Z.eqb_spec c QUESTION) as [->|Hq]; [by constructor|]. by apply matches_byte.
  - intros Hm. induction Hm as [|p skipped t Hm IH|p b t Hm IH|c p b t Hs Hq He Hm IH].
    + done.
    + induction skipped as [|b skipped IHs]; [by rewrite glob_rec_star; simpl app; rewrite IH|].
      simpl app. rewrite glob_rec_star. by rewrite IHs, orb_true_r.
    + by rewrite glob_rec_byte.
    + rewrite glob_rec_byte by done. by rewrite He, orb_true_r.
Qed.

(** A partner's list of files admits exactly what it says. Without a list (or
    with a blank one) every file; otherwise a file that some pattern between the
    commas, without the blanks around it, matches as patterns mean: a star takes
    any bytes, a question mark one, another byte itself up to the case of ASCII
    letters. The matcher ends on every pattern and text. *)
Theorem can_access_file_spec p file :
  can_access_file p file = true ↔
    (p_allowed_files p = None ∨ ∃ l, p_allowed_files p = Some l ∧
      (trim l = [] ∨ ∃ piece, piece ∈ split_on 44 l ∧ matches (Ebcdic.utf8 (trim piece)) (Ebcdic.utf8 file))).
Proof.
  unfold can_access_file. destruct (p_allowed_files p) as [l|]; [|split; [by left|done]].
  destruct (trim l) as [|c s] eqn:E; cbn [is_empty].
  { split; [|done]. intros _. right. exists l. auto. }
  rewrite existsb_exists. split.
  - intros (q&Hq&Hm). apply in_map_iff in Hq as (piece&<-&Hp%list_elem_of_In). right. exists l. split; [done|]. right.
    exists piece. split; [done|]. by apply glob_rec_spec.
  - intros [?|(l'&[= <-]&[Hn|(piece&Hp&Hm)])]; [done|congruence|]. exists (trim piece).
    split; [apply in_map; by apply list_elem_of_In|by apply glob_rec_spec].
Qed.

(** ** Steps that end in a refusal *)

Lemma h_bind_inl {A B} (m : H A) (f : A → H B) h h' b :
  (m ≫= f) h = (h', inl b) → ∃ h1 a, m h = (h1, inl a) ∧ f a h1 = (h', inl b).
Proof. unfold mbind, H_bind. destruct (m h) as [h1 [a|r]]; [|done]. intros E. by exists h1, a. Qed.

Lemma guard_inl ok d m h h' u : guard ok d m h = (h', inl u) → ok = true ∧ h' = h.
Proof. destruct ok; [|done]. by intros [= <- _]. Qed.

(** A statement of the store. *)
Lemma statement_some {A} (op : Store → Store * A) s s' a :
  statement op s = (s', Some a) →
  head (st_faults s) ≠ Some true
  ∧ op (mkStore (partners s) (virtual_files s) (servers s) (transfers s) (counters s) (tail (st_faults s))) = (s', a).
Proof.
  unfold statement. destruct (st_faults s) as [|[] fs]; cbn [head default tail]; [| |]; [|done|].
  all: intros E; split; [done|]; destruct (op _) as [s1 a1]; by injection E as -> ->.
Qed.

Definition same_tables (h h' : PwHandler) : Prop :=
  partners (h_store h') = partners (h_store h) ∧ virtual_files (h_store h') = virtual_files (h_store h)
  ∧ transfers (h_store h') = transfers (h_store h) ∧ h_active h' = h_active h ∧ h_cancels h' = h_cancels h
  ∧ h_server h' = h_server h ∧ h_worlds h' = h_worlds h ∧ h_calls h' = h_calls h ∧ h_next_handle h' = h_next_handle h.

#[global] Instance same_tables_preorder : PreOrder same_tables.
Proof.
  split; [intros h; by split_and!|]. intros h1 h2 h3. unfold same_tables. intuition congruence.
Qed.

Lemma on_store_read {A} (g : Store → A) h :
  (∀ s f, g (mkStore (partners s) (virtual_files s) (servers s) (transfers s) (counters s) f) = g s) →
  let '(h1, r) := on_store (statement (λ s, (s, g s))) h in
  same_tables h h1
  ∧ r = inl (if default false (head (st_faults (h_store h))) then None else Some (g (h_store h))).
Proof.
  intros Hg. unfold on_store, statement. destruct (default false _); [by split|].
  rewrite Hg. by split.
Qed.

Lemma partner_read id h :
  let '(h1, r) := partner id h in
  same_tables h h1
  ∧ r = inl (if default false (head (st_faults (h_store h))) then None else table_get id (partners (h_store h))).
Proof.
  unfold partner. pose proof (on_store_read (λ s, table_get id (partners s)) h ltac:(done)) as Hr.
  unfold mbind, H_bind, get_partner. destruct (on_store _ h) as [h1 r]. destruct Hr as [Hs ->].
  by destruct (default false _).
Qed.

Lemma virtual_file_read id h :
  let '(h1, r) := virtual_file id h in
  same_tables h h1
  ∧ r = inl (if default false (head (st_faults (h_store h))) then None else table_get id (virtual_files (h_store h))).
Proof.
  unfold virtual_file. pose proof (on_store_read (λ s, table_get id (virtual_files s)) h ltac:(done)) as Hr.
  unfold mbind, H_bind, get_virtual_file. destruct (on_store _ h) as [h1 r]. destruct Hr as [Hs ->].
  by destruct (default false _).
Qed.

(** ** Authentication *)

(** What a partner must show. *)
Definition admitted (req : ConnectRequest) (p : Partner) : Prop :=
  p_enabled p = true
  ∧ (∀ e, p_password p = Some e → e ≠ [] → trim (default [] (cr_password req)) = e)
  ∧ (∀ e name pwd, p_preconnect_password p = Some e → e ≠ [] → cr_preconnect req = Some (name, pwd) → trim pwd = e)
  ∧ match cr_access req with
    | AccessType.Write => p_access_type p ≠ Rights.Read
    | AccessType.Read => p_access_type p ≠ Rights.Write
    | AccessType.Mixed => True
    end.

Lemma password_ok_iff expected provided :
  password_ok expected provided = true ↔ ∀ e, expected = Some e → e ≠ [] → trim (default [] provided) = e.
Proof.
  unfold password_ok. destruct expected as [[|c e]|]; cbn [filled is_empty].
  - split; [|done]. by intros _ e [= <-].
  - rewrite bool_decide_eq_true. split; [by intros E e' [= <-]|]. intros Hall. by apply Hall.
  - split; [|done]. by intros _ e [=].
Qed.

Lemma preconnect_ok_iff expected pre :
  preconnect_ok expected pre = true ↔
  ∀ e name pwd, expected = Some e → e ≠ [] → pre = Some (name, pwd) → trim pwd = e.
Proof.
  unfold preconnect_ok. destruct pre as [[name pwd]|].
  - destruct expected as [[|c e]|]; cbn [filled is_empty].
    + split; [|done]. by intros _ e ? ? [= <-].
    + rewrite bool_decide_eq_true. split; [by intros E ? ? ? [= <-] _ [= <- <-]|]. intros Hall. by eapply Hall.
    + split; [|done]. by intros _ ? ? ? [=].
  - split; [|done]. by intros _ ? ? ? _ _ [=].
Qed.

Lemma has_right_iff a p :
  has_right a p = true ↔ match a with
                         | AccessType.Write => p_access_type p ≠ Rights.Read
                         | AccessType.Read => p_access_type p ≠ Rights.Write
                         | AccessType.Mixed => True
                         end.
Proof. unfold has_right. by destruct a, (p_access_type p). Qed.

Lemma admitted_iff req p :
  admitted req p ↔
  p_enabled p && password_ok (p_password p) (cr_password req)
  && preconnect_ok (p_preconnect_password p) (cr_preconnect req) && has_right (cr_access req) p = true.
Proof. unfold admitted. rewrite !andb_true_iff, password_ok_iff, preconnect_ok_iff, has_right_iff. tauto. Qed.

(** Who is let in. The connection of a partner is accepted exactly when the
    store gives a partner of that identifier that is enabled, whose password,
    when one is configured, was given (up to blanks around it), whose
    pre-connection password, when one is configured and the partner has sent a
    pre-connection, was sent, and that has the rights asked for; the terms are
    those of the listener. Otherwise the refusal says unknown caller if and only
    if no partner could be read, an error of the store included, and caller not
    authorised in every other case. Nothing is written. *)
Theorem authenticate_spec req h :
  let readable := default false (head (st_faults (h_store h))) = false in
  let found := table_get (cr_requester req) (partners (h_store h)) in
  let '(h', r) := pw_authenticate req h in
  same_tables h h'
  ∧ match r with
    | inl a =>
        readable ∧ (∃ p, found = Some p ∧ admitted req p)
        ∧ a = mkConnectAccept (sync_of (h_server h)) (sc_resync_enabled (h_server h))
                (default Compression.None_ (Compression.from_code (sc_compression (h_server h)))) true
                (sc_max_entity_size (h_server h)) None
    | inr r =>
        rf_diag r = Diagnostic.CALLER_UNKNOWN ∧ (¬ readable ∨ found = None)
        ∨ rf_diag r = Diagnostic.CALLER_NOT_AUTHORISED ∧ readable ∧ ∃ p, found = Some p ∧ ¬ admitted req p
    end.
Proof.
  intros readable found. unfold pw_authenticate, mbind at 1, H_bind at 1.
  pose proof (partner_read (cr_requester req) h) as Hp. destruct (partner _ h) as [h1 r]. destruct Hp as [Hs ->].
  fold found. unfold readable. destruct (default false _) eqn:Ef.
  { split; [done|]. left. split; [done|]. by left. }
  destruct found as [p|] eqn:Et; [|split; [done|]; left; auto].
  unfold guard, mbind, H_bind, mret, H_ret, refuse, h_gets. pose proof (admitted_iff req p) as Ha.
  destruct (p_enabled p); [destruct (password_ok _ _); [destruct (preconnect_ok _ _); [destruct (has_right _ _)|]|]|];
    cbn [andb] in Ha; (split; [done|]);
    try (right; split; [done|]; split; [done|]; exists p; split; [done|]; by rewrite Ha).
  destruct Hs as (_&_&_&_&_&->&_). split; [done|]. split; [|done]. exists p. split; [done|]. by apply Ha.
Qed.

(** ** Opening a transfer *)

(** What a step makes true of the state and the result. *)
Definition hwp {A} (m : H A) (Q : PwHandler → A + Refusal → Prop) (h : PwHandler) : Prop :=
  let '(h', r) := m h in Q h' r.

Lemma hwp_bind {A B} (m : H A) (f : A → H B) Q h :
  hwp m (λ h1 r, match r with inl a => hwp (f a) Q h1 | inr e => Q h1 (inr e) end) h → hwp (m ≫= f) Q h.
Proof. unfold hwp, mbind, H_bind. by destruct (m h) as [h1 [a|r]]. Qed.

Lemma hwp_mono {A} (m : H A) (Q Q' : PwHandler → A + Refusal → Prop) h :
  hwp m Q h → (∀ h' r, Q h' r → Q' h' r) → hwp m Q' h.
Proof. unfold hwp. destruct (m h). auto. Qed.

(** Steps that only read, or draw a number from a counter. *)
Definition quiet {A} (m : H A) : Prop := ∀ h, hwp m (λ h' _, same_tables h h') h.

Lemma quiet_bind {A B} (m : H A) (f : A → H B) : quiet m → (∀ a, quiet (f a)) → quiet (m ≫= f).
Proof.
  intros Hm Hf h. apply hwp_bind. apply (hwp_mono _ _ _ _ (Hm h)). intros h1 [a|r] Hs; [|done].
  apply (hwp_mono _ _ _ _ (Hf a h1)). intros h2 r Hs'. by transitivity h1.
Qed.

Lemma quiet_ret {A} (a : A) : quiet (mret a).
Proof. by intros h. Qed.
Lemma quiet_refuse {A} d m : quiet (@refuse A d m).
Proof. by intros h. Qed.
Lemma quiet_io_refuse {A} e m : quiet (@io_refuse A e m).
Proof. by intros h. Qed.
Lemma quiet_gets {A} (f : PwHandler → A) : quiet (h_gets f).
Proof. by intros h. Qed.
Lemma quiet_guard b d m : quiet (guard b d m).
Proof. by destruct b. Qed.

Lemma quiet_read {A} (g : Store → A) :
  (∀ s f, g (mkStore (partners s) (virtual_files s) (servers s) (transfers s) (counters s) f) = g s) →
  quiet (on_store (statement (λ s, (s, g s)))).
Proof.
  intros Hg h. pose proof (on_store_read g h Hg) as Hr. unfold hwp. destruct (on_store _ h). apply Hr.
Qed.

Create HintDb quiet.
#[export] Hint Resolve quiet_bind quiet_ret quiet_refuse quiet_io_refuse quiet_gets quiet_guard : quiet.

Lemma quiet_partner id : quiet (partner id).
Proof. apply quiet_bind; [by apply (quiet_read (λ s, table_get id (partners s)))|auto with quiet]. Qed.
Lemma quiet_virtual_file id : quiet (virtual_file id).
Proof. apply quiet_bind; [by apply (quiet_read (λ s, table_get id (virtual_files s)))|auto with quiet]. Qed.
#[export] Hint Resolve quiet_partner quiet_virtual_file : quiet.

Lemma quiet_interrupted_record p f t : quiet (interrupted_record p f t).
Proof. apply quiet_bind; [by apply (quiet_read (λ s, table_list (transfers s)))|auto with quiet]. Qed.

Lemma quiet_transfer_id n : quiet (pesit_transfer_id n).
Proof.
  unfold pesit_transfer_id. destruct (negb _); [auto with quiet|]. apply quiet_bind; [|auto with quiet].
  intros h. unfold hwp, on_store, next_counter, statement. destruct (st_faults (h_store h)) as [|[] [|[] fs]]; done.
Qed.

Lemma quiet_open_checkpoints of_json key w : quiet (open_checkpoints of_json key w).
Proof. apply quiet_bind; [auto with quiet|]. intros h. cbv zeta. destruct (Checkpoint.open of_json _ _); auto with quiet. Qed.
#[export] Hint Resolve quiet_interrupted_record quiet_transfer_id quiet_open_checkpoints : quiet.

(** The next step is quiet; what it gives is kept when it matters. *)
Lemma hwp_quiet {A B} (m : H A) (f : A → H B) Q h :
  quiet m → (∀ h1 a, m h = (h1, inl a) → same_tables h h1 → hwp (f a) Q h1) →
  (∀ h1 r, same_tables h h1 → Q h1 (inr r)) → hwp (m ≫= f) Q h.
Proof.
  intros Hm Hf Hr. apply hwp_bind. specialize (Hm h). unfold hwp in *. destruct (m h) as [h1 [a|r]] eqn:E; [|by apply Hr].
  by apply Hf.
Qed.

(** The conditions on the partner and on the file. *)
Record write_granted (h : PwHandler) (session : SessionInfo) (file : Builder.FileSpec) (p : Partner) (vf : VirtualFile)
    : Prop := {
  wg_partner : table_get (si_requester session) (partners (h_store h)) = Some p;
  wg_right : p_access_type p ≠ Rights.Read;
  wg_allowed : can_access_file p (Builder.file_name file) = true;
  wg_file : table_get (Builder.file_name file) (virtual_files (h_store h)) = Some vf;
  wg_enabled : vf_enabled vf = true;
  wg_direction : vf_direction vf ≠ Direction.Send;
  wg_size : vf_max_file_size vf ≤ 0 ∨ u64 (Builder.max_reservation file * 1024) ≤ vf_max_file_size vf;
}.

Record read_granted (h : PwHandler) (session : SessionInfo) (file : Builder.FileSpec) (p : Partner) (vf : VirtualFile)
    : Prop := {
  rg_partner : table_get (si_requester session) (partners (h_store h)) = Some p;
  rg_right : p_access_type p ≠ Rights.Write;
  rg_allowed : can_access_file p (Builder.file_name file) = true;
  rg_file : table_get (Builder.file_name file) (virtual_files (h_store h)) = Some vf;
  rg_enabled : vf_enabled vf = true;
  rg_direction : vf_direction vf ≠ Direction.Receive;
}.

(** A transfer has been opened: its record, its entry and its flag. *)
Record opened (h h' : PwHandler) (handle : Z) (r : TransferRecord) : Prop := {
  op_handle : handle = h_next_handle h;
  op_next : h_next_handle h' = u64 (handle + 1);
  op_active : ∃ a, a_record_id a = r_transfer_id r ∧ h_active h' = <[handle := a]> (h_active h);
  op_cancels : h_cancels h' = <[r_transfer_id r := false]> (h_cancels h);
  op_transfers : transfers (h_store h') = table_put (r_transfer_id r) r (transfers (h_store h));
  op_status : r_status r = TransferStatus.Initiated;
  op_uuid : r_transfer_id r = w_uuid (world_of h);
  op_percent : r_progress_percent r = 0;
  op_partners : partners (h_store h') = partners (h_store h);
  op_files : virtual_files (h_store h') = virtual_files (h_store h);
  op_worlds : h_worlds h' = h_worlds h ∧ h_calls h' = h_calls h ∧ h_server h' = h_server h;
}.

(** Nothing has been opened. *)
Record unopened (h h' : PwHandler) : Prop := {
  un_next : h_next_handle h' = h_next_handle h ∨ h_next_handle h' = u64 (h_next_handle h + 1);
  un_active : h_active h' = h_active h;
  un_cancels : h_cancels h' = h_cancels h;
  un_transfers : transfers (h_store h') = transfers (h_store h);
  un_partners : partners (h_store h') = partners (h_store h);
  un_files : virtual_files (h_store h') = virtual_files (h_store h);
  un_worlds : h_worlds h' = h_worlds h ∧ h_calls h' = h_calls h ∧ h_server h' = h_server h;
}.

Lemma same_unopened h h' : same_tables h h' → unopened h h'.
Proof. unfold same_tables. intros. split; intuition auto. Qed.

Lemma start_record_spec w r change h0 h :
  same_tables h0 h → r_status r = TransferStatus.Initiated → r_progress_percent r = 0 →
  r_transfer_id r = w_uuid (world_of h0) → (∀ f a, change = Some f → a_record_id (f a) = a_record_id a) →
  hwp (start_record w r change)
    (λ h1 x, match x with inl handle => opened h0 h1 handle r | inr _ => unopened h0 h1 end) h.
Proof.
  intros (E1&E2&E3&E4&E5&E6&E7&E8&E9) Hst Hpc Hid Hch.
  unfold start_record, register, mbind, H_bind, h_gets, h_modify, on_store, put_record, statement, hwp.
  destruct (default false _).
  - cbn. split; cbn; rewrite ?E9; auto.
  - destruct change as [f|]; cbn; split; cbn; rewrite ?E9; try done.
    + exists (f (mkActive (r_transfer_id r) (r_file_size r) (w_instant w) 0 0 None None)).
      rewrite alter_insert_eq, E4. split; [by apply Hch|done].
    + unfold cancel_register. by rewrite E5.
    + by rewrite E3.
    + eexists. rewrite E4. by split; [|reflexivity].
    + unfold cancel_register. by rewrite E5.
    + by rewrite E3.
Qed.

Lemma hwp_guard {B} ok d m (k : H B) Q h :
  (ok = true → hwp k Q h) → (ok = false → Q h (inr (mkRefusal d (Some m)))) → hwp (guard ok d m ≫= λ _, k) Q h.
Proof. intros Ht Hf. apply hwp_bind. unfold hwp at 1, guard. destruct ok; [by apply Ht|by apply Hf]. Qed.

Lemma check_partner_spec session file write h :
  hwp (check_partner session file write) (λ h1 r, same_tables h h1 ∧ match r with
    | inl p => table_get (si_requester session) (partners (h_store h)) = Some p
        ∧ p_access_type p ≠ (if write then Rights.Read else Rights.Write)
        ∧ can_access_file p (Builder.file_name file) = true
    | inr _ => True
    end) h.
Proof.
  unfold check_partner. apply hwp_bind. pose proof (partner_read (si_requester session) h) as Hp.
  unfold hwp at 1. destruct (partner _ h) as [h1 r]. destruct Hp as [Hs ->].
  destruct (default false _); [by split|]. destruct (table_get _ _) as [p|] eqn:Ep; [|by split].
  apply hwp_guard; [|by split]. intros Hr. apply hwp_guard; [|by split]. intros Ha. split; [done|]. split; [done|].
  split; [|done]. by destruct write, (p_access_type p).
Qed.

Lemma receivable_spec file h :
  hwp (receivable file) (λ h1 r, same_tables h h1 ∧ match r with
    | inl vf => table_get (Builder.file_name file) (virtual_files (h_store h)) = Some vf
        ∧ vf_enabled vf = true ∧ vf_direction vf ≠ Direction.Send
        ∧ (vf_max_file_size vf ≤ 0 ∨ u64 (Builder.max_reservation file * 1024) ≤ vf_max_file_size vf)
    | inr _ => True
    end) h.
Proof.
  unfold receivable. apply hwp_bind. pose proof (virtual_file_read (Builder.file_name file) h) as Hp.
  unfold hwp at 1. destruct (virtual_file _ h) as [h1 r]. destruct Hp as [Hs ->].
  destruct (default false _); [by split|]. destruct (table_get _ _) as [vf|] eqn:Ep; [|by split].
  apply hwp_guard; [|by split]. intros [He Hd]%andb_true_iff. apply hwp_guard; [|by split].
  intros Hq%negb_true_iff. split; [done|]. split_and!; [done|done| |].
  - unfold can_receive in Hd. by destruct (vf_direction vf).
  - apply andb_false_iff in Hq as [?%Z.ltb_ge|?%Z.ltb_ge]; [by left|by right].
Qed.

Lemma sendable_file_spec file h :
  hwp (sendable_file file) (λ h1 r, same_tables h h1 ∧ match r with
    | inl vf => table_get (Builder.file_name file) (virtual_files (h_store h)) = Some vf
        ∧ vf_enabled vf = true ∧ vf_direction vf ≠ Direction.Receive
    | inr _ => True
    end) h.
Proof.
  unfold sendable_file. apply hwp_bind. pose proof (virtual_file_read (Builder.file_name file) h) as Hp.
  unfold hwp at 1. destruct (virtual_file _ h) as [h1 r]. destruct Hp as [Hs ->].
  destruct (default false _); [by split|]. destruct (table_get _ _) as [vf|] eqn:Ep; [|by split].
  apply hwp_guard; [|by split]. intros [He Hd]%andb_true_iff. split; [done|]. split_and!; [done|done|].
  unfold can_send in Hd. by destruct (vf_direction vf).
Qed.

(** The target of a transfer never is a file that exists, unless the virtual
    file allows it or the transfer is restarted. *)
Lemma receive_target_spec w vf session file tid previous cps h :
  hwp (receive_target w vf session file tid previous cps) (λ h1 r, h1 = h ∧ match r with
    | inl (path, restart, _) =>
        previous = None → w_exists w path = true → vf_overwrite vf = true
    | inr _ => True
    end) h.
Proof.
  unfold receive_target. apply hwp_bind. unfold hwp at 1, h_gets.
  destruct previous as [prev|].
  - cbv zeta. destruct (if w_exists _ _ then _ else _); split; done.
  - apply hwp_guard; [|by split]. intros Hg. split; [done|]. intros _ Hx. rewrite Hx in Hg. by destruct (vf_overwrite vf).
Qed.

Lemma restarted_record_status r previous restart :
  r_status (restarted_record r previous restart) = r_status r
  ∧ r_transfer_id (restarted_record r previous restart) = r_transfer_id r
  ∧ r_progress_percent (restarted_record r previous restart) = r_progress_percent r
  ∧ r_local_path (restarted_record r previous restart) = r_local_path r.
Proof. by destruct restart. Qed.

Lemma quiet_open_sink w vf path restart ebcdic : quiet (open_sink w vf path restart ebcdic).
Proof. unfold open_sink. destruct (ArticleIo.file_sink_create _ _ _ _ _); auto with quiet. Qed.

Lemma quiet_send_path w vf session file tid : quiet (send_path w vf session file tid).
Proof.
  apply quiet_bind; [auto with quiet|]. intros h. destruct (filled _); [|auto with quiet].
  cbv zeta. destruct (w_fetch _ _ _) as [|[d t]]; auto with quiet.
Qed.
#[export] Hint Resolve quiet_open_sink quiet_send_path : quiet.

Section Opening.
Context (of_json : bytes → option Checkpoint.MemoryCheckpoints).

Lemma create_run session file h :
  hwp (pw_create of_json session file) (λ h' x, match x with
  | inl a => ∃ p vf r, write_granted h session file p vf ∧ opened h h' (cra_handle a) r
      ∧ r_partner_id r = Some (p_id p) ∧ r_filename r = Some (Builder.file_name file)
      ∧ (Builder.restarted file = false → filled (vf_connector vf) = None → ∀ path, r_local_path r = Some path →
         w_exists (world_of h) path = true → vf_overwrite vf = true)
  | inr _ => unopened h h'
  end) h.
Proof.
  unfold pw_create. apply hwp_bind. unfold hwp at 1, h_gets. set (w := world_of h).
  apply hwp_bind. apply (hwp_mono _ _ _ _ (check_partner_spec session file true h)).
  intros h1 [p|r] [S1 Hp]; [|by apply same_unopened]. destruct Hp as (Hp&Hr&Ha).
  apply hwp_bind. apply (hwp_mono _ _ _ _ (receivable_spec file h1)).
  intros h2 [vf|r] [S2 Hv]; [|apply same_unopened; by transitivity h1]. destruct Hv as (Hv&He&Hd&Hq).
  assert (same_tables h h2) as S12 by by transitivity h1. clear S2.
  apply hwp_quiet; [auto with quiet| |intros; apply same_unopened; by transitivity h2]. intros h3 tid _ S3.
  apply hwp_quiet; [auto with quiet| |intros; apply same_unopened; transitivity h2; [done|by transitivity h3]].
  intros h4 cps _ S4. assert (same_tables h h4) as S14 by (transitivity h2; [done|by transitivity h3]). clear S3 S4.
  assert (hwp (if Builder.restarted file then interrupted_record (p_id p) (Builder.file_name file) tid else mret None)
    (λ h5 r, same_tables h h5 ∧ match r with inl o => Builder.restarted file = false → o = None | _ => True end) h4) as Hprev.
  { destruct (Builder.restarted file); [|by split].
    refine (hwp_mono _ _ _ _ (quiet_interrupted_record _ _ _ h4) _). intros h5 [o|?] S5; split; try done; by transitivity h4. }
  apply hwp_bind. apply (hwp_mono _ _ _ _ Hprev). intros h5 [previous|r] [S5 Hfresh]; [|by apply same_unopened].
  apply hwp_bind. apply (hwp_mono _ _ _ _ (receive_target_spec w vf session file tid previous cps h5)).
  intros h6 [[[path restart] cps']|r] [-> Ht]; [|by apply same_unopened].
  set (target := match filled (vf_connector vf) with Some _ => _ | None => (path, restart) end).
  assert (filled (vf_connector vf) = None → target = (path, restart)) as Htarget by (intros E; unfold target; by rewrite E).
  destruct target as [path' restart'].
  apply hwp_quiet; [auto with quiet| |intros; apply same_unopened; by transitivity h5]. intros h7 sink _ S7.
  assert (same_tables h h7) as S17 by by transitivity h5. clear S7.
  apply hwp_bind. unfold hwp at 1, h_gets. set (r0 := restarted_record _ previous restart').
  destruct (restarted_record_status (new_record (id h7) w session TransferDirection.Receive (p_id p) file tid (Some path')) previous restart')
    as (E1&E2&E3&E4). fold r0 in E1, E2, E3, E4.
  apply hwp_bind. refine (hwp_mono _ _ _ _ (start_record_spec w r0 _ h h7 S17 E1 E3 E2 _) _).
  { intros f a. destruct (filled _); [|done]. by intros [= <-]. }
  intros h8 [handle|r]; [|done]. intros Hop. exists p, vf, r0. split; [|split; [done|]].
  - split; try done. rewrite <-Hv. by destruct S1 as (_&->&_).
  - split; [by destruct restart'|]. split; [by destruct restart'|]. intros Hnr Hnc path0. rewrite E4. intros [= <-] Hx.
    specialize (Htarget Hnc). injection Htarget as -> ->. apply Ht; [by apply Hfresh|done].
Qed.

Lemma select_run session file attrs h :
  hwp (pw_select of_json session file attrs) (λ h' x, match x with
  | inl a => ∃ p vf r, read_granted h session file p vf ∧ opened h h' (sa_handle a) r
      ∧ r_partner_id r = Some (p_id p) ∧ r_filename r = Some (Builder.file_name file)
  | inr _ => unopened h h'
  end) h.
Proof.
  unfold pw_select. apply hwp_bind. unfold hwp at 1, h_gets. set (w := world_of h).
  apply hwp_bind. apply (hwp_mono _ _ _ _ (check_partner_spec session file false h)).
  intros h1 [p|r] [S1 Hp]; [|by apply same_unopened]. destruct Hp as (Hp&Hr&Ha).
  apply hwp_bind. apply (hwp_mono _ _ _ _ (sendable_file_spec file h1)).
  intros h2 [vf|r] [S2 Hv]; [|apply same_unopened; by transitivity h1]. destruct Hv as (Hv&He&Hd).
  assert (same_tables h h2) as S12 by by transitivity h1. clear S2.
  apply hwp_quiet; [auto with quiet| |intros; apply same_unopened; by transitivity h2]. intros h3 tid _ S3.
  assert (same_tables h h3) as S13 by by transitivity h2. clear S3 S12.
  apply hwp_quiet; [auto with quiet| |intros; apply same_unopened; by transitivity h3]. intros h4 path _ S4.
  assert (same_tables h h4) as S14 by by transitivity h3. clear S4 S13.
  apply hwp_quiet; [destruct (w_metadata w path); auto with quiet| |intros; apply same_unopened; by transitivity h4].
  intros h5 meta _ S5. assert (same_tables h h5) as S15 by by transitivity h4. clear S5 S14.
  apply hwp_quiet; [destruct (w_open w path); auto with quiet| |intros; apply same_unopened; by transitivity h5].
  intros h6 content _ S6. assert (same_tables h h6) as S16 by by transitivity h5. clear S6 S15. cbv zeta.
  apply hwp_quiet; [auto with quiet| |intros; apply same_unopened; by transitivity h6]. intros h7 cps _ S7.
  assert (same_tables h h7) as S17 by by transitivity h6. clear S7 S16.
  apply hwp_bind. unfold hwp at 1, h_gets. cbv beta iota zeta. set (r0 := set_r_file_size _ _).
  apply hwp_bind. refine (hwp_mono _ _ _ _ (start_record_spec w r0 _ h h7 S17 eq_refl eq_refl eq_refl _) _).
  { intros f a. destruct (filled _); [|done]. by intros [= <-]. }
  intros h8 [handle|r]; [|done]. intros Hop. exists p, vf, r0. split; [|by split].
  split; try done. rewrite <-Hv. by destruct S1 as (_&->&_).
Qed.

(** C8: files are only written by who may write them, and only read by who may
    read them. When the server accepts an F.CREATE, the requester is a partner
    that may send and may access the file, the file is a virtual file that is
    enabled and receives, its announced size is within the limit (in 64-bit
    arithmetic), and a file that exists is only replaced when the virtual file
    says so or the transfer is restarted; when it accepts an F.SELECT, the
    partner may receive and access the file, which is enabled and is sent. Then
    exactly one record is added to the store, in its initial state and for this
    partner and file, with an entry under a new handle and a cancellation flag.
    When the server refuses, whatever the reason, no record, entry or flag is
    added. *)
Theorem transfers_authorised session file attrs h :
  (let '(h', x) := pw_create of_json session file h in
   match x with
   | inl a => ∃ p vf r, write_granted h session file p vf ∧ opened h h' (cra_handle a) r
       ∧ r_partner_id r = Some (p_id p) ∧ r_filename r = Some (Builder.file_name file)
       ∧ (Builder.restarted file = false → filled (vf_connector vf) = None → ∀ path, r_local_path r = Some path →
          w_exists (world_of h) path = true → vf_overwrite vf = true)
   | inr _ => unopened h h'
   end)
  ∧ (let '(h', x) := pw_select of_json session file attrs h in
     match x with
     | inl a => ∃ p vf r, read_granted h session file p vf ∧ opened h h' (sa_handle a) r
         ∧ r_partner_id r = Some (p_id p) ∧ r_filename r = Some (Builder.file_name file)
     | inr _ => unopened h h'
     end).
Proof. split; [apply create_run|apply select_run]. Qed.
End Opening.
