(* ===== verification/NodeRecords.v ===== *)
(** * The records of the server: properties

    The life of a transfer record over every sequence of calls of the handler:
    what ties the records to the transfers in progress, which changes of status
    there are, and that a record is final once its transfer has ended. *)

From Stdlib Require Import String.
From S2P Require Import Prelude Diag Pi Kinds Fpdu Params Article Builder.
From S2P Require Import Checkpoint ArticleIo Link Datapath Requester Responder DocStore NodeModel NodeHandler NodeProps.
Open Scope Z_scope.
Import TransferStatus.

Lemma alter_present (f : Active → Active) n a (m : gmap Z Active) : m !! n = Some a → alter f n m = <[n := f a]> m.
Proof. intros E. rewrite <-(insert_id m n a E) at 1. apply alter_insert_eq. Qed.

(** ** The invariant *)

Definition pending (r : TransferRecord) : Prop := r_status r = Initiated ∨ r_status r = InProgress.

Definition records (h : PwHandler) : Table TransferRecord := transfers (h_store h).

(** The transfers in progress and their records. *)
Record tracked (h : PwHandler) : Prop := {
  tr_handles : ∀ n a, h_active h !! n = Some a → 0 ≤ n < h_next_handle h;
  tr_pending : ∀ n a, h_active h !! n = Some a → ∃ r, table_get (a_record_id a) (records h) = Some r ∧ pending r;
  tr_distinct : ∀ n m a b, h_active h !! n = Some a → h_active h !! m = Some b → a_record_id a = a_record_id b → n = m;
  tr_flags : ∀ id, is_Some (h_cancels h !! id) ↔ ∃ n a, h_active h !! n = Some a ∧ a_record_id a = id;
  tr_percent : Forall (λ e, 0 ≤ r_progress_percent e.2 ≤ 100) (records h);
}.

Definition in_progress (h : PwHandler) (id : ustring) : Prop := ∃ n a, h_active h !! n = Some a ∧ a_record_id a = id.

(** ** Updates of a record *)

(** The record of [id] is as it was or has been changed. *)
Definition updated (id : ustring) (P : TransferRecord → TransferRecord → Prop) (t t' : Table TransferRecord) : Prop :=
  t' = t ∨ ∃ r r', table_get id t = Some r ∧ t' = table_put id r' t ∧ P r r'.

Lemma updated_trans id (P Q R : TransferRecord → TransferRecord → Prop) t t1 t2 :
  (∀ r r1, P r r1 → R r r1) → (∀ r r1, Q r r1 → R r r1) → (∀ r r1 r2, P r r1 → Q r1 r2 → R r r2) →
  updated id P t t1 → updated id Q t1 t2 → updated id R t t2.
Proof.
  intros HP HQ HPQ [->|(r&r1&E&->&H1)] [->|(r1'&r2&E'&->&H2)].
  - by left.
  - right. exists r1', r2. auto.
  - right. exists r, r1. auto.
  - right. rewrite table_get_put_eq in E'. injection E' as <-. exists r, r2. split_and!; [done|by rewrite table_put_put|eauto].
Qed.

Lemma updated_mono id (P Q : TransferRecord → TransferRecord → Prop) t t' :
  (∀ r r', P r r' → Q r r') → updated id P t t' → updated id Q t t'.
Proof. intros HPQ [->|(r&r'&?&?&?)]; [by left|right; eauto 6]. Qed.

(** What an update of the store leaves alone. *)
Definition same_entries (h h' : PwHandler) : Prop :=
  h_active h' = h_active h ∧ h_cancels h' = h_cancels h ∧ h_next_handle h' = h_next_handle h.

Lemma update_record_cases w id f h :
  same_entries h (update_record w id f h)
  ∧ updated id (λ r r', r' = set_r_updated_at (Some (w_now w)) (f r)) (records h) (records (update_record w id f h)).
Proof.
  split; [done|]. unfold update_record, update_doc, get_record, put_record, statement, records.
  destruct (default false (head (st_faults (h_store h)))); [by left|]. cbn [h_store set_store transfers].
  destruct (table_get id (transfers (h_store h))) as [r|] eqn:E; [|by left].
  cbn [st_faults]. destruct (default false _); [by left|]. right. exists r. eexists. by split_and!.
Qed.

(** ** The events *)

Definition percent_ok (r : TransferRecord) : Prop := 0 ≤ r_progress_percent r ≤ 100.

(** While the data phase runs, and when a transfer ends. *)
Definition progressed (r r' : TransferRecord) : Prop := r_status r' = InProgress ∧ (percent_ok r → percent_ok r').
Definition final (r : TransferRecord) : Prop :=
  r_status r = Completed ∨ r_status r = Failed ∨ r_status r = Interrupted ∨ r_status r = Cancelled.
Definition concluded (r r' : TransferRecord) : Prop :=
  (final r' ∨ r_status r' = r_status r) ∧ (percent_ok r → percent_ok r').

Lemma apply_progress_ok p total changed r :
  0 ≤ pr_data_bytes p → progressed r (apply_progress p total changed r).
Proof.
  intros Hp. split; [unfold apply_progress; destruct total as [t|]; [destruct (0 <? t)|]; by destruct changed|].
  intros Hr. unfold apply_progress, percent_ok. destruct total as [t|]; [|by destruct changed].
  destruct (Z.ltb_spec 0 t); [|by destruct changed].
  assert (0 ≤ u64_sat_mul (pr_data_bytes p) 100 / t) by (apply Z.div_pos; [unfold u64_sat_mul|]; lia).
  destruct changed; cbn; lia.
Qed.

Lemma apply_ended_final now data diag checksum r :
  final (apply_ended now data diag checksum r) ∧ (percent_ok r → percent_ok (apply_ended now data diag checksum r)).
Proof.
  unfold apply_ended, final, percent_ok. destruct (dr_end data) as [|d|c d []]; [destruct (Diagnostic.is_ok diag)| | |];
    cbn; split; auto; lia.
Qed.

Lemma apply_failed_final now e r : final (apply_failed now e r) ∧ (percent_ok r → percent_ok (apply_failed now e r)).
Proof. unfold apply_failed, final, percent_ok. cbn. destruct (0 <? _); split; auto. Qed.

(** The progress that a data phase reports. *)
Definition event_ok (ev : TransferEvent) : Prop :=
  match ev with Progressed p => 0 ≤ pr_data_bytes p | _ => True end.

(** What an event does to the entries and to the record. *)
Inductive event_effect (h h' : PwHandler) : Prop :=
| ev_none : h' = h → event_effect h h'
| ev_progress n a f :
    h_active h !! n = Some a → a_record_id (f a) = a_record_id a →
    h_active h' = <[n := f a]> (h_active h) → h_cancels h' = h_cancels h → h_next_handle h' = h_next_handle h →
    updated (a_record_id a) progressed (records h) (records h') → event_effect h h'
| ev_end n a :
    h_active h !! n = Some a → h_active h' = delete n (h_active h) →
    h_cancels h' = delete (a_record_id a) (h_cancels h) → h_next_handle h' = h_next_handle h →
    updated (a_record_id a) concluded (records h) (records h') → event_effect h h'.

Lemma concluded_trans r r1 r2 : concluded r r1 → concluded r1 r2 → concluded r r2.
Proof.
  unfold concluded, final. intros [H1 ?] [[H2|E] ?]; (split; [|tauto]); [by left|]. rewrite E. exact H1.
Qed.

Lemma update_related (P : TransferRecord → TransferRecord → Prop) w id f h :
  (∀ r, P r (set_r_updated_at (Some (w_now w)) (f r))) →
  same_entries h (update_record w id f h) ∧ updated id P (records h) (records (update_record w id f h)).
Proof.
  intros Hf. destruct (update_record_cases w id f h) as [He Hu]. split; [done|].
  refine (updated_mono _ _ _ _ _ _ Hu). by intros r r' ->.
Qed.

Lemma upload_cases w data diag a h :
  same_entries h (upload w data diag a h) ∧ updated (a_record_id a) concluded (records h) (records (upload w data diag a h)).
Proof.
  unfold upload. destruct (a_connector_upload a) as [[[cid remote] temp]|]; [|by repeat split; left].
  destruct (successful data diag); [|by repeat split; left].
  destruct (w_store w cid remote); apply update_related; intros r.
  - split; [by right|done].
  - split; [left; right; by left|done].
Qed.

Lemma event_effects session n ev h :
  event_ok ev → event_effect h (pw_transfer_event session n ev h).
Proof.
  intros Hev. unfold pw_transfer_event. set (w := world_of h).
  destruct (h_active h !! n) as [a|] eqn:Ea; [|by apply ev_none].
  destruct ev as [tid from|p|data diag|e].
  - set (g := set_seen _ _ _).
    destruct (update_related progressed w (a_record_id a) (apply_started tid from) (set_active n g h) ltac:(done))
      as [(E1&E2&E3) Hu].
    apply (ev_progress _ _ n a g); try done. rewrite E1. cbn. by apply alter_present.
  - destruct (worth_storing w p a); [|by apply ev_none]. cbv zeta. set (g := set_seen _ _ _). set (f := apply_progress _ _ _).
    destruct (update_related progressed w (a_record_id a) f (set_active n g h)) as [(E1&E2&E3) Hu].
    { intros r. by apply apply_progress_ok. }
    apply (ev_progress _ _ n a g); try done. rewrite E1. cbn. by apply alter_present.
  - set (h1 := drop_active n (a_record_id a) h).
    destruct (get_record (a_record_id a) (h_store h1)) as [s found] eqn:Eg.
    assert (transfers s = records h) as Es.
    { unfold get_record, statement in Eg. destruct (default false _); by injection Eg as <- _. }
    set (f := apply_ended _ _ _ _).
    destruct (update_related concluded w (a_record_id a) f (set_store s h1)) as [(E1&E2&E3) Hu].
    { intros r. destruct (apply_ended_final (w_now w) data diag (checksum_of w data diag (default None found)) r).
      split; [by left|done]. }
    set (h2 := update_record _ _ _ _) in *. destruct (upload_cases w data diag a h2) as [(E4&E5&E6) Hu'].
    apply (ev_end _ _ n a); [done|by rewrite E4, E1|by rewrite E5, E2|by rewrite E6, E3|].
    assert (records (set_store s h1) = records h) as <- by done.
    exact (updated_trans _ _ _ _ _ _ _ (λ _ _ H, H) (λ _ _ H, H) concluded_trans Hu Hu').
  - destruct (update_related concluded w (a_record_id a) (apply_failed (w_now w) e) (drop_active n (a_record_id a) h)) as [(E1&E2&E3) Hu].
    { intros r. destruct (apply_failed_final (w_now w) e r). split; [by left|done]. }
    by apply (ev_end _ _ n a).
Qed.

(** ** The calls *)

Section Life.
Context (of_json : bytes → option Checkpoint.MemoryCheckpoints).
#[local] Existing Instance pw_handler.
Abbreviation Serving := (ServerHandler PwHandler Checkpoint.FileCheckpoints ArticleIo.FileSink ArticleIo.FileSource).
Let app : Serving := pw_handler of_json.

(** The identifier that is drawn for a record is new, and there are handles left. *)
Definition fresh_call (h : PwHandler) : Prop :=
  table_get (w_uuid (world_of h)) (records h) = None ∧ 0 ≤ h_next_handle h ∧ h_next_handle h + 1 < 2 ^ 64.

(** A call of the engine, or a request to cancel from outside. *)
Inductive call : PwHandler → PwHandler → Prop :=
| call_authenticate h req : call h (@authenticate _ _ _ _ app h req).1
| call_create h session file : fresh_call h → call h (@on_create _ _ _ _ app h session file).1
| call_select h session file attrs : fresh_call h → call h (@on_select _ _ _ _ app h session file attrs).1
| call_message h session file m reply : fresh_call h → call h (@on_message _ _ _ _ app h session file m reply).1
| call_event h session n ev : event_ok ev → call h (@transfer_event _ _ _ _ app h session n ev)
| call_cancel h listening id : call h (set_cancels (cancel listening id (h_cancels h)).1 h).

(** What a call does to the entries and the records. *)
Inductive effect (h h' : PwHandler) : Prop :=
| eff_none :
    records h' = records h → h_active h' = h_active h → (∀ id, is_Some (h_cancels h' !! id) ↔ is_Some (h_cancels h !! id)) →
    h_next_handle h ≤ h_next_handle h' → effect h h'
| eff_open n a r :
    0 ≤ h_next_handle h → n = h_next_handle h → h_next_handle h' = n + 1 → a_record_id a = r_transfer_id r →
    h_active h' = <[n := a]> (h_active h) → h_cancels h' = <[r_transfer_id r := false]> (h_cancels h) →
    table_get (r_transfer_id r) (records h) = None → records h' = table_put (r_transfer_id r) r (records h) →
    r_status r = Initiated → r_progress_percent r = 0 → effect h h'
| eff_message r :
    h_active h' = h_active h → h_cancels h' = h_cancels h → h_next_handle h' = h_next_handle h →
    table_get (r_transfer_id r) (records h) = None → records h' = table_put (r_transfer_id r) r (records h) →
    r_status r = Completed → r_progress_percent r = 0 → effect h h'
| eff_event : event_effect h h' → effect h h'.

Lemma opened_effect h h' n r : fresh_call h → opened h h' n r → effect h (next_call h').
Proof.
  intros (Hf&H0&Hmax) []. destruct op_active as (a&Ea&Hact).
  eapply (eff_open _ _ n a r); try done; cbn; subst n; try done.
  - rewrite op_next. unfold u64. rewrite Z.mod_small; [done|]. change 18446744073709551616 with (2 ^ 64). lia.
  - by rewrite op_uuid.
Qed.

Lemma unopened_effect h h' : fresh_call h → unopened h h' → effect h (next_call h').
Proof.
  intros (Hf&H0&Hmax) []. apply eff_none; cbn; try done.
  - intros id. by rewrite un_cancels.
  - destruct un_next as [->| ->]; [done|]. unfold u64. rewrite Z.mod_small; [lia|].
    change 18446744073709551616 with (2 ^ 64). lia.
Qed.

Lemma message_effect session file m reply h :
  fresh_call h → effect h (pw_message session file m reply h).1.
Proof.
  intros (Hf&_&_). unfold pw_message, mbind, H_bind, h_gets, on_store, put_record, statement.
  destruct (default false _); cbn; [by apply eff_none|].
  by apply (eff_message _ _ (message_record h (world_of h) session file m (from_utf8_lossy m))).
Qed.

Lemma authenticate_quiet req : quiet (pw_authenticate req).
Proof.
  apply quiet_bind; [auto with quiet|]. intros [p|]; [|auto with quiet].
  repeat (apply quiet_bind; [auto with quiet|intros _]). apply quiet_bind; auto with quiet.
Qed.

Lemma event_effect_next h h' : event_effect h h' → event_effect h (next_call h') ∨ effect h (next_call h').
Proof.
  intros [->|n a f E1 E2 E3 E4 E5 E6|n a E1 E2 E3 E4 E5].
  - right. by apply eff_none.
  - left. by apply (ev_progress _ _ n a f).
  - left. by apply (ev_end _ _ n a).
Qed.

Lemma call_effect h h' : call h h' → effect h h'.
Proof.
  intros [? req|? session file Hf|? session file attrs Hf|? session file m reply Hf|? session n ev Hev|? listening id];
    unfold app; cbn [authenticate on_create on_select on_message transfer_event pw_handler]; unfold calling.
  - pose proof (authenticate_quiet req h0) as Hq. unfold hwp in Hq. destruct (pw_authenticate req h0) as [h1 r].
    destruct Hq as (_&_&E3&E4&E5&_&_&_&E9). cbn [fst]. apply eff_none; cbn; try done; [by rewrite E5|lia].
  - pose proof (create_run of_json session file h0) as Hc. unfold hwp in Hc.
    destruct (pw_create of_json session file h0) as [h1 [x|x]]; cbn [fst]; [|by apply unopened_effect].
    destruct Hc as (p&vf&r&_&Ho&_). by apply (opened_effect _ _ (cra_handle x) r).
  - pose proof (select_run of_json session file attrs h0) as Hc. unfold hwp in Hc.
    destruct (pw_select of_json session file attrs h0) as [h1 [x|x]]; cbn [fst]; [|by apply unopened_effect].
    destruct Hc as (p&vf&r&_&Ho&_). by apply (opened_effect _ _ (sa_handle x) r).
  - pose proof (message_effect session file m reply h0 Hf) as He.
    destruct (pw_message session file m reply h0) as [h1 x]. cbn [fst] in *.
    destruct He as [| | |[->|n a f E1 E2 E3 E4 E5 E6|n a E1 E2 E3 E4 E5]];
      [by apply eff_none|by eapply eff_open|by eapply eff_message|by apply eff_none|
       by apply eff_event, (ev_progress _ _ n a f)|by apply eff_event, (ev_end _ _ n a)].
  - destruct (event_effect_next _ _ (event_effects session n ev h0 Hev)); [by apply eff_event|done].
  - unfold cancel. destruct (h_cancels h0 !! id) as [b|] eqn:E; [|by apply eff_none].
    destruct listening; [|by apply eff_none]. apply eff_none; try done. cbn. intros i.
    destruct (decide (i = id)) as [->|]; [rewrite lookup_insert_eq, E; naive_solver|by rewrite lookup_insert_ne].
Qed.

(** ** The invariant is kept *)

Lemma updated_get id P t t' k r :
  updated id P t t' → table_get k t = Some r →
  ∃ r', table_get k t' = Some r' ∧ (r' = r ∨ k = id ∧ P r r').
Proof.
  intros [->|(r0&r0'&E&->&HP)] Hk; [by exists r; auto|]. destruct (decide (k = id)) as [->|Hn].
  - exists r0'. rewrite table_get_put_eq. split; [done|]. right. split; [done|]. by simplify_eq.
  - exists r. rewrite table_get_put_ne by done. auto.
Qed.

Lemma updated_percent id (P : TransferRecord → TransferRecord → Prop) t t' :
  (∀ r r', P r r' → percent_ok r → percent_ok r') → updated id P t t' →
  Forall (λ e, percent_ok e.2) t → Forall (λ e, percent_ok e.2) t'.
Proof.
  intros HP [->|(r&r'&E&->&H)] Ht; [done|]. apply table_put_Forall; [done|]. apply (HP r r' H).
  rewrite Forall_forall in Ht. by apply (Ht (id, r)), table_get_in.
Qed.

Lemma put_new_get k k' (r r' : TransferRecord) t :
  table_get k t = None → table_get k' t = Some r' → table_get k' (table_put k r t) = Some r'.
Proof. intros Hn Hk. rewrite table_get_put_ne; [done|]. by intros ->; simplify_eq. Qed.

Lemma open_tracked h h' n a r :
  tracked h → 0 ≤ h_next_handle h → n = h_next_handle h → h_next_handle h' = n + 1 → a_record_id a = r_transfer_id r →
  h_active h' = <[n := a]> (h_active h) → h_cancels h' = <[r_transfer_id r := false]> (h_cancels h) →
  table_get (r_transfer_id r) (records h) = None → records h' = table_put (r_transfer_id r) r (records h) →
  r_status r = Initiated → r_progress_percent r = 0 → tracked h'.
Proof.
  intros [Hh Hp Hd Hc Hq] H0 -> En Ea Eact Ecan Enew Erec Est Epc.
  assert (∀ m b, h_active h !! m = Some b → a_record_id b ≠ r_transfer_id r ∧ m ≠ h_next_handle h) as Hold.
  { intros m b Hb. split; [|pose proof (Hh m b Hb); lia]. intros E. destruct (Hp m b Hb) as (r'&Er&_). by rewrite E, Enew in Er. }
  split.
  - intros m b. rewrite Eact, lookup_insert_Some. intros [[<- _]|[_ Hb]]; [lia|]. pose proof (Hh m b Hb). lia.
  - intros m b. rewrite Eact, Erec, lookup_insert_Some. intros [[<- <-]|[_ Hb]].
    + exists r. rewrite Ea, table_get_put_eq. split; [done|by left].
    + destruct (Hp m b Hb) as (r'&Er&Hr). exists r'. split; [by apply put_new_get|done].
  - intros m1 m2 b1 b2. rewrite Eact, !lookup_insert_Some. intros [[<- <-]|[_ H1]] [[<- <-]|[_ H2]] E; [done| | |].
    + rewrite Ea in E. by destruct (Hold m2 b2 H2).
    + rewrite Ea in E. by destruct (Hold m1 b1 H1).
    + by apply (Hd m1 m2 b1 b2).
  - intros id. rewrite Ecan, Eact. destruct (decide (id = r_transfer_id r)) as [->|Hn].
    + rewrite lookup_insert_eq. split; [intros _|done]. exists (h_next_handle h), a. by rewrite lookup_insert_eq.
    + rewrite lookup_insert_ne by done. rewrite Hc. split; intros (m&b&Hb&E).
      * exists m, b. destruct (Hold m b Hb) as [_ Hm]. by rewrite lookup_insert_ne.
      * apply lookup_insert_Some in Hb as [[<- <-]|[_ Hb]]; [congruence|]. by exists m, b.
  - rewrite Erec. apply table_put_Forall; [done|]. cbn. lia.
Qed.

Lemma event_tracked h h' : tracked h → event_effect h h' → tracked h'.
Proof.
  intros [Hh Hp Hd Hc Hq] [->|n a f Ea Ef Eact Ecan En Hu|n a Ea Eact Ecan En Hu]; [done| |].
  - assert (∀ m b, h_active h' !! m = Some b → ∃ b0, h_active h !! m = Some b0 ∧ a_record_id b = a_record_id b0) as Hback.
    { intros m b. rewrite Eact, lookup_insert_Some. intros [[<- <-]|[_ Hb]]; [by exists a|by exists b]. }
    split.
    + intros m b Hb. destruct (Hback m b Hb) as (b0&Hb0&_). rewrite En. by apply (Hh m b0).
    + intros m b Hb. destruct (Hback m b Hb) as (b0&Hb0&->). destruct (Hp m b0 Hb0) as (r&Er&Hr).
      destruct (updated_get _ _ _ _ _ _ Hu Er) as (r'&Er'&[->|(_&Hst&_)]); eexists; (split; [exact Er'|]); [done|by right].
    + intros m1 m2 b1 b2 H1 H2 E. destruct (Hback m1 b1 H1) as (c1&H1'&E1), (Hback m2 b2 H2) as (c2&H2'&E2).
      apply (Hd m1 m2 c1 c2); congruence.
    + intros id. rewrite Ecan, Hc. split; intros (m&b&Hb&E).
      * destruct (decide (m = n)) as [->|Hm]; [exists n, (f a); rewrite Eact, lookup_insert_eq; simplify_eq; by rewrite Ef|].
        exists m, b. by rewrite Eact, lookup_insert_ne.
      * destruct (Hback m b Hb) as (b0&Hb0&E0). exists m, b0. split; [done|congruence].
    + by apply (updated_percent _ _ _ _ (λ r r' H, proj2 H) Hu).
  - assert (∀ m b, h_active h' !! m = Some b → h_active h !! m = Some b ∧ a_record_id b ≠ a_record_id a) as Hback.
    { intros m b. rewrite Eact, lookup_delete_Some. intros [Hm Hb]. split; [done|]. intros E. by apply Hm, (Hd n m a b). }
    split.
    + intros m b Hb. destruct (Hback m b Hb) as [Hb' _]. rewrite En. by apply (Hh m b).
    + intros m b Hb. destruct (Hback m b Hb) as [Hb' Hne]. destruct (Hp m b Hb') as (r&Er&Hr).
      destruct (updated_get _ _ _ _ _ _ Hu Er) as (r'&Er'&[->|(?&_)]); [by exists r|done].
    + intros m1 m2 b1 b2 H1 H2. apply (Hd m1 m2 b1 b2); by apply Hback.
    + intros id. rewrite Ecan. destruct (decide (id = a_record_id a)) as [->|Hn].
      * rewrite lookup_delete_eq. split; [by intros []|]. intros (m&b&Hb&E). by destruct (Hback m b Hb).
      * rewrite lookup_delete_ne by done. rewrite Hc. split; intros (m&b&Hb&E).
        -- exists m, b. rewrite Eact, lookup_delete_ne; [done|]. intros ->. simplify_eq.
        -- exists m, b. split; [by apply Hback|done].
    + by apply (updated_percent _ _ _ _ (λ r r' H, proj2 H) Hu).
Qed.

Lemma effect_tracked h h' : tracked h → effect h h' → tracked h'.
Proof.
  intros Ht He. destruct He as [Er Ea Ec En|n a r H0 En En' Ei Ea Ec Hn Er Es Ep|r Ea Ec En Hn Er Es Ep|He].
  - destruct Ht as [Hh Hp Hd Hc Hq]. split; rewrite ?Ea, ?Er; try done.
    + intros m b Hb. pose proof (Hh m b Hb). lia.
    + intros id. by rewrite Ec.
  - by apply (open_tracked h h' n a r).
  - destruct Ht as [Hh Hp Hd Hc Hq]. split; rewrite ?Ea, ?Ec, ?En, ?Er; try done.
    + intros m b Hb. destruct (Hp m b Hb) as (r'&E&Hr). exists r'. split; [by apply put_new_get|done].
    + apply table_put_Forall; [done|]. cbn. lia.
  - by apply (event_tracked h).
Qed.

Lemma new_tracked store server dir node worlds :
  Forall (λ e, 0 ≤ r_progress_percent e.2 ≤ 100) (transfers store) → tracked (handler_new store server dir node ∅ worlds).
Proof. intros Hpc. split; try done. intros id. cbn. rewrite lookup_empty. split; [by intros []|by intros (?&?&?&_)]. Qed.

Lemma calls_tracked h h' : rtc call h h' → tracked h → tracked h'.
Proof.
  induction 1 as [h|h h1 h2 Hc _ IH]; [done|]. intros Ht.
  apply IH, (effect_tracked h); [done|by apply call_effect].
Qed.

(** ** The theorems *)

(** C9: what ties the records of a server to its transfers, over every sequence
    of calls (connections, F.CREATE, F.SELECT, messages and events, in any order
    and of any sessions, and requests to cancel) and with any errors of the
    store and of the system: every transfer in progress has one handle, below
    the next one to be given, and a record of its own in the store, which is
    initiated or in progress; the flags of cancellation are those of the
    transfers in progress and no other; and the percentage of every record is
    between 0 and 100. *)
Theorem handler_tracked store server dir node worlds h :
  Forall (λ e, 0 ≤ r_progress_percent e.2 ≤ 100) (transfers store) →
  rtc call (handler_new store server dir node ∅ worlds) h → tracked h.
Proof. intros Hpc Hcalls. by apply (calls_tracked _ _ Hcalls), new_tracked. Qed.

Lemma event_finished h h' id r :
  tracked h → event_effect h h' → table_get id (records h) = Some r → ¬ in_progress h id →
  table_get id (records h') = Some r ∧ ¬ in_progress h' id.
Proof.
  intros Ht [->|n a f Ea Ef Eact Ecan En Hu|n a Ea Eact Ecan En Hu] Er Hn; [done| |].
  - split.
    + destruct (updated_get _ _ _ _ _ _ Hu Er) as (r'&Er'&[->|(->&_)]); [done|]. destruct Hn. by exists n, a.
    + intros (m&b&Hb&E). rewrite Eact, lookup_insert_Some in Hb. destruct Hb as [[<- <-]|[_ Hb]]; destruct Hn.
      * exists n, a. split; [done|congruence].
      * by exists m, b.
  - split.
    + destruct (updated_get _ _ _ _ _ _ Hu Er) as (r'&Er'&[->|(->&_)]); [done|]. destruct Hn. by exists n, a.
    + intros (m&b&Hb&E). rewrite Eact, lookup_delete_Some in Hb. destruct Hn. exists m, b. tauto.
Qed.

Lemma effect_finished h h' id r :
  tracked h → effect h h' → table_get id (records h) = Some r → ¬ in_progress h id →
  table_get id (records h') = Some r ∧ ¬ in_progress h' id.
Proof.
  intros Ht He Er Hn. destruct He as [Erec Ea Ec En|n a r' H0 En En' Ei Ea Ec Hnew Erec Es Ep|r' Ea Ec En Hnew Erec Es Ep|He].
  - unfold in_progress. by rewrite Erec, Ea.
  - rewrite Erec. split; [by apply put_new_get|]. intros (m&b&Hb&E). rewrite Ea, lookup_insert_Some in Hb.
    destruct Hb as [[<- <-]|[_ Hb]]; [|destruct Hn; by exists m, b]. rewrite <-E, Ei, Hnew in Er. done.
  - unfold in_progress. rewrite Erec, Ea. split; [by apply put_new_get|done].
  - by apply (event_finished h).
Qed.

(** C10: the record of a transfer is final. Once a transfer is not in progress any
    more, because it has ended, failed or never was, no sequence of calls of the
    handler changes its record again or takes the transfer up again: not late
    events on its handle, not other transfers of the same file, not restarts,
    which get a record of their own. *)
Theorem finished_records_stay h h' id r :
  tracked h → rtc call h h' → table_get id (records h) = Some r → ¬ in_progress h id →
  table_get id (records h') = Some r ∧ ¬ in_progress h' id.
Proof.
  intros Ht Hcalls. revert Ht. induction Hcalls as [h|h h1 h2 Hc Hcs IH]; intros Ht Er Hn; [done|].
  pose proof (call_effect _ _ Hc) as He.
  destruct (effect_finished h h1 id r Ht He Er Hn) as [Er1 Hn1].
  apply IH; [by apply (effect_tracked h)|done|done].
Qed.
End Life.

(** ** A server with one partner and one file

    A file is received and acknowledged, then a message arrives. *)
Module Sample.

Definition server : PesitServerConfig := server_config_default.
Definition bank : Partner :=
  mkPartner (lit "BANK") None (Some (lit "SECRET")) true Rights.Both 10 (Some (lit "PAY*")) None None None.
Definition payments : VirtualFile :=
  mkVirtualFile (lit "PAYMENTS") None true Direction.Both None None DEFAULT_PATTERN false 0 0 1024 0x80 false false None None None None.
Definition store : Store :=
  mkStore [(lit "BANK", bank)] [(lit "PAYMENTS", payments)] [] [] [] [].

(** The call number [n] draws the identifier [n]. *)
Definition world (n : nat) : World := {|
  w_now := lit "2024-01-01T00:00:00Z"; w_compact := lit "20240101000000"; w_today := lit "20240101"; w_time := lit "000000";
  w_pesit_now := lit "240101000000"; w_instant := 0; w_uuid := decimal (Z.of_nat n); w_staging_uuid := lit "s";
  w_temp_dir := lit "/tmp"; w_exists := λ _, false; w_content := λ _, None; w_metadata := λ _, inl (0, None);
  w_open := λ _, inl []; w_io := []; w_io_failure := mkOsFailure OtherError []; w_disk := λ _, Checkpoint.mkDisk None None;
  w_checkpoint_fault := Checkpoint.NoFault; w_checkpoint_failure := mkOsFailure OtherError []; w_fetch := λ _ _, inl tt;
  w_store := λ _ _, inl tt; w_sha256 := λ _, Some (lit "00"); w_store_failure := []; w_cancel_reads := [] |}.

Definition session : SessionInfo :=
  mkSessionInfo (lit "S1") (lit "BANK") (lit "NODE") (lit "10.0.0.1:5000")
    (mkNegotiated Version.E (SyncOption.mkSyncOption 64 2) true true).
Definition file : Builder.FileSpec :=
  Builder.mkFileSpec None None 0 (lit "PAYMENTS") 7 false None 0 0 ArticleFormat.Variable_ 1024 None None None 1 None None
    None None None None.
Definition data : DataResult :=
  {| dr_end := Datapath.Completed; dr_data_bytes := 10; dr_articles := 1; dr_last_sync := 0 |}.

Definition no_json : bytes → option Checkpoint.MemoryCheckpoints := λ _, None.

Definition h0 : PwHandler := handler_new store server (lit "/checkpoints") (lit "node-1") ∅ world.
Definition h1 : PwHandler := (@on_create _ _ _ _ (pw_handler no_json) h0 session file).1.
Definition h2 : PwHandler := @transfer_event _ _ _ _ (pw_handler no_json) h1 session 1 (Ended data Diagnostic.OK).
Definition h3 : PwHandler := (@on_message _ _ _ _ (pw_handler no_json) h2 session file (lit "DONE") true).1.
End Sample.

Lemma sample_calls : rtc (call Sample.no_json) Sample.h0 Sample.h2.
Proof.
  eapply rtc_l; [apply (call_create Sample.no_json Sample.h0 Sample.session Sample.file)|].
  { split; [by vm_compute|]. split; by vm_compute. }
  eapply rtc_l; [exact (call_event Sample.no_json Sample.h1 Sample.session 1 (Ended Sample.data Diagnostic.OK) I)|]. done.
Qed.

Example handler_tracked_witness :
  tracked Sample.h2 ∧ option_map r_status (table_get (lit "0") (records Sample.h2)) = Some TransferStatus.Completed.
Proof.
  split; [|vm_compute; reflexivity].
  apply (handler_tracked Sample.no_json Sample.store Sample.server (lit "/checkpoints") (lit "node-1") Sample.world Sample.h2).
  - vm_compute. constructor.
  - exact sample_calls.
Defined.

Example finished_records_stay_witness : ∃ r,
  table_get (lit "0") (records Sample.h2) = Some r ∧ r_status r = TransferStatus.Completed
  ∧ table_get (lit "0") (records Sample.h3) = Some r ∧ ¬ in_progress Sample.h3 (lit "0").
Proof.
  assert (tracked Sample.h2) as Ht.
  { apply (calls_tracked Sample.no_json _ _ sample_calls), new_tracked. constructor. }
  eexists. split; [vm_compute; reflexivity|]. split; [reflexivity|].
  apply (finished_records_stay Sample.no_json Sample.h2 Sample.h3 (lit "0")).
  - exact Ht.
  - apply rtc_once. apply (call_message Sample.no_json Sample.h2). split; [by vm_compute|]. split; by vm_compute.
  - vm_compute; reflexivity.
  - intros H. apply (tr_flags _ Ht) in H. destruct H as [b Hb]. vm_compute in Hb. discriminate Hb.
Defined.
