(* ===== verification/Totality.v ===== *)
(** * Termination: the judgement and the link

    A computation [ends] when it runs to a result or an error, never to a panic,
    from every state that is well formed and whose load is below the fuel; the
    load is what may still arrive. Loops over what arrives have a variant: each
    turn takes something. *)

From S2P Require Import Prelude Diag Pi Kinds Crc Fpdu FpduCodec Params Frame State Compress Article ArticleIo.
From S2P Require Import Link LinkProps.
Open Scope Z_scope.
Import Fpdu.

(** ** The judgement

    [I] is kept whatever happens, [μ] never grows. *)

Section Ends.
Context {S : Type} (I : S → Prop) (μ : S → nat).

Definition ends {A} (n : nat) (m : M S A) (Q : A → Prop) : Prop := ∀ s, I s → (μ s < n)%nat →
  wp (λ s' _, I s') m (λ s' a, I s' ∧ (μ s' ≤ μ s)%nat ∧ Q a) s.

(** The steps that take something off the load. *)
Definition takes {A} (m : M S A) (Q : A → Prop) : Prop := ∀ s, I s →
  wp (λ s' _, I s') m (λ s' a, I s' ∧ (μ s' < μ s)%nat ∧ Q a) s.

Definition total {A} (m : M S A) (Q : A → Prop) : Prop := ∀ n, ends n m Q.

Lemma ends_mono {A} n n' (m : M S A) (Q Q' : A → Prop) :
  ends n m Q → (n' ≤ n)%nat → (∀ a, Q a → Q' a) → ends n' m Q'.
Proof.
  intros H Hn HQ s Hs Hlt. eapply wp_mono; [apply H; [done|lia]|]. naive_solver.
Qed.

Lemma ends_bind {A B} n (m : M S A) (f : A → M S B) Q Q' :
  ends n m Q → (∀ a, Q a → ends n (f a) Q') → ends n (m ≫= f) Q'.
Proof.
  intros Hm Hf s Hs Hlt. apply wp_bind. eapply wp_mono; [by apply Hm|].
  intros s1 a (Hs1&Hle&HQ). eapply wp_mono; [apply Hf; [done..|lia]|].
  intros s2 b (?&?&?). split_and!; [done|lia|done].
Qed.

(** The turn of a loop. *)
Lemma ends_turn {A B} n (m : M S A) (f : A → M S B) Q Q' :
  takes m Q → (∀ a, Q a → ends n (f a) Q') → ends (Datatypes.S n) (m ≫= f) Q'.
Proof.
  intros Hm Hf s Hs Hlt. apply wp_bind. eapply wp_mono; [by apply Hm|].
  intros s1 a (Hs1&Hle&HQ). eapply wp_mono; [apply Hf; [done..|lia]|].
  intros s2 b (?&?&?). split_and!; [done|lia|done].
Qed.

Lemma takes_bind {A B} (m : M S A) (f : A → M S B) Q Q' :
  takes m Q → (∀ a, Q a → total (f a) Q') → takes (m ≫= f) Q'.
Proof.
  intros Hm Hf s Hs. apply wp_bind. eapply wp_mono; [by apply Hm|].
  intros s1 a (Hs1&Hle&HQ). eapply wp_mono; [apply (Hf _ HQ (Datatypes.S (μ s1))); [done|lia]|].
  intros s2 b (?&?&?). split_and!; [done|lia|done].
Qed.

Lemma takes_total {A} (m : M S A) Q : takes m Q → total m Q.
Proof. intros H n s Hs _. eapply wp_mono; [by apply H|]. naive_solver lia. Qed.

Lemma total_bind {A B} (m : M S A) (f : A → M S B) Q Q' :
  total m Q → (∀ a, Q a → total (f a) Q') → total (m ≫= f) Q'.
Proof. intros Hm Hf n. apply (ends_bind _ _ _ Q); [apply Hm|]. intros a Ha. by apply Hf. Qed.

Lemma ends_loop {A} (m : nat → M S A) Q :
  (∀ n, ends n (m n) Q → ends (Datatypes.S n) (m (Datatypes.S n)) Q) → ∀ n, ends n (m n) Q.
Proof. intros H n. induction n as [|n IH]; [intros s _ Hlt; lia|by apply H]. Qed.

Lemma total_ret {A} (a : A) (Q : A → Prop) : Q a → total (mret a) Q.
Proof. intros HQ n s Hs _. by apply wp_ret. Qed.

Lemma total_gets {A} (f : S → A) (Q : A → Prop) : (∀ s, I s → Q (f s)) → total (gets f) Q.
Proof. intros HQ n s Hs _. apply wp_gets. auto. Qed.

Lemma total_modify (f : S → S) :
  (∀ s, I s → I (f s) ∧ (μ (f s) ≤ μ s)%nat) → total (modify f) (λ _, True).
Proof. intros Hf n s Hs _. apply wp_modify. destruct (Hf s Hs). auto. Qed.

Lemma total_raise {A} e (Q : A → Prop) : total (raise e) Q.
Proof. intros n s Hs _. by apply wp_raise. Qed.

Lemma total_lift {A} (r : outcome SessionError A) (Q : A → Prop) :
  safe r Q → total (lift r) Q.
Proof. intros Hr n s Hs _. unfold wp, lift. by destruct r as [a|e|]. Qed.

Lemma ends_if (b : bool) {A} n (m1 m2 : M S A) Q :
  ends n m1 Q → ends n m2 Q → ends n (if b then m1 else m2) Q.
Proof. by destruct b. Qed.

Lemma total_if (b : bool) {A} (m1 m2 : M S A) Q : total m1 Q → total m2 Q → total (if b then m1 else m2) Q.
Proof. by destruct b. Qed.

(** A total step in front, whose result does not matter. *)
Lemma ends_then {A B} n (m : M S A) (m' : M S B) Q Q' : total m Q → ends n m' Q' → ends n (m ;; m') Q'.
Proof. intros Hm Hm'. apply (ends_bind _ _ _ Q); [apply Hm|by intros]. Qed.

Lemma total_then {A B} (m : M S A) (m' : M S B) Q Q' : total m Q → total m' Q' → total (m ;; m') Q'.
Proof. intros Hm Hm'. apply (total_bind _ _ Q); [done|by intros]. Qed.

Lemma total_wp {A} (m : M S A) Q s :
  total m Q → I s → wp (λ s' _, I s') m (λ s' a, I s' ∧ (μ s' ≤ μ s)%nat ∧ Q a) s.
Proof. intros H Hs. apply (H (Datatypes.S (μ s))); [done|lia]. Qed.

Lemma ends_run {A} n (m : M S A) Q s : ends n m Q → I s → (μ s < n)%nat → (m s).2 ≠ Panic ∧ I (m s).1.
Proof. intros H Hs Hlt. specialize (H s Hs Hlt). unfold wp in H. destruct (m s) as [s' [a|e|]]; naive_solver. Qed.

(** A poll takes what it returns. *)
Definition polled {A} (m : M S (option A)) (Q : A → Prop) : Prop := ∀ s, I s →
  wp (λ s' _, I s') m (λ s' o, I s' ∧ match o with Some a => (μ s' < μ s)%nat ∧ Q a | None => (μ s' ≤ μ s)%nat end) s.

Lemma polled_turn {A B} k (m : M S (option A)) (none : M S B) (some : A → M S B) Q Q' :
  polled m Q → total none Q' → (∀ a, Q a → ends k (some a) Q') →
  ends (Datatypes.S k) (o ← m; match o with Some a => some a | None => none end) Q'.
Proof.
  intros Hm Hn Hsome s HI Hlt. apply wp_bind. eapply wp_mono; [by apply Hm|]. intros s1 [a|] [HI1 H1]; cbv beta iota.
  - destruct H1 as [Hl HQ]. eapply wp_mono; [apply Hsome; [done..|lia]|]. intros s2 b (?&?&?). split_and!; [done|lia|done].
  - eapply wp_mono; [apply (Hn (Datatypes.S (μ s1))); [done|lia]|]. intros s2 b (?&?&?). split_and!; [done|lia|done].
Qed.

(** A turn that takes and handles. *)
Lemma ends_turn2 {A B D} k (m : M S A) (f : A → M S B) (r : B → M S D) Q Q' :
  takes (m ≫= f) Q → (∀ b, Q b → ends k (r b) Q') → ends (Datatypes.S k) (a ← m; b ← f a; r b) Q'.
Proof.
  intros Hm Hr s HI Hlt. pose proof (ends_turn k _ r Q Q' Hm Hr s HI Hlt) as H'.
  unfold wp, mbind, M_bind in *. by destruct (m s) as [s' [a|e|]].
Qed.

End Ends.

(** A part of the state, whose load is part of the load. *)
Section Zoom.
Context {S T : Type} (I : S → Prop) (μ : S → nat) (I' : T → Prop) (μ' : T → nat).
Context (get : S → T) (put : T → S → S).
Hypothesis get_sound : ∀ s, I s → I' (get s).
Hypothesis put_sound : ∀ s t, I s → I' t → I (put t s).
Hypothesis put_le : ∀ s t, I s → I' t → (μ' t ≤ μ' (get s))%nat → (μ (put t s) ≤ μ s)%nat.

Lemma ends_zoom {A} n n' (m : M T A) Q :
  (∀ s, I s → (μ s < n)%nat → (μ' (get s) < n')%nat) → ends I' μ' n' m Q → ends I μ n (zoom get put m) Q.
Proof using Type*.
  intros Hload Hm s Hs Hlt. apply wp_zoom.
  specialize (Hm (get s) (get_sound s Hs) (Hload s Hs Hlt)). unfold wp in *.
  destruct (m (get s)) as [t [a|e|]]; [|by apply put_sound|done].
  destruct Hm as (?&?&?). auto.
Qed.

Lemma total_zoom {A} (m : M T A) Q : total I' μ' m Q → total I μ (zoom get put m) Q.
Proof using Type*.
  intros Hm n s Hs Hlt. apply wp_zoom.
  specialize (Hm (Datatypes.S (μ' (get s))) (get s) (get_sound s Hs) ltac:(lia)). unfold wp in *.
  destruct (m (get s)) as [t [a|e|]]; [|by apply put_sound|done].
  destruct Hm as (?&?&?). auto.
Qed.

Lemma takes_zoom {A} (m : M T A) Q :
  (∀ s t, I s → I' t → (μ' t < μ' (get s))%nat → (μ (put t s) < μ s)%nat) →
  takes I' μ' m Q → takes I μ (zoom get put m) Q.
Proof using Type*.
  intros put_lt Hm s Hs. apply wp_zoom. specialize (Hm (get s) (get_sound s Hs)). unfold wp in *.
  destruct (m (get s)) as [t [a|e|]]; [|by apply put_sound|done].
  destruct Hm as (?&?&?). auto.
Qed.
End Zoom.

(** ** The link *)

Definition arrival_ok (a : Arrival) : Prop := match a with Entity b => bytes_ok b | _ => True end.
Definition weight (a : Arrival) : nat := match a with Entity b => S (length b) | _ => 1 end.

(** What may still arrive. *)
Definition load (l : Link) : nat := length (pending l) + sum_list_with weight (rx l).

Record sound (l : Link) : Prop := {
  sn_pending : Forall wf (pending l);
  sn_rx : Forall arrival_ok (rx l);
}.

(** A bound that no step exceeds, on errors neither. *)
Definition calm (bound : nat) (l : Link) : Prop := sound l ∧ (load l ≤ bound)%nat.

(** The variant is the load, or leaves some turns for each thing that arrives. *)
Class Increasing (h : nat → nat) : Prop := increasing : ∀ x y, (x < y)%nat → (h x < h y)%nat.

#[global] Instance id_increasing : Increasing id.
Proof. by intros x y. Qed.

Definition turns (k x : nat) : nat := S k * S x.
#[global] Arguments turns : simpl never.
#[global] Instance turns_increasing k : Increasing (turns k).
Proof. intros x y Hxy. unfold turns. nia. Qed.

Lemma increasing_le h `{Increasing h} x y : (x ≤ y)%nat → (h x ≤ h y)%nat.
Proof. intros Hxy. destruct (decide (x = y)) as [->|]; [done|]. pose proof (increasing x y). lia. Qed.

Section Link.
Context (bound : nat) (h : nat → nat) `{Hh : !Increasing h}.
Notation tot := (total (calm bound) (λ l, h (load l))).
Notation tak := (takes (calm bound) (λ l, h (load l))).

Lemma calm_same l l' : calm bound l → pending l' = pending l → rx l' = rx l → calm bound l' ∧ h (load l') = h (load l).
Proof.
  intros [[H1 H2] H3] E1 E2. unfold calm, load. rewrite E1, E2. split; [|done].
  by repeat split; rewrite ?E1, ?E2.
Qed.

Lemma total_unchanged {A} (m : M Link A) (Q : A → Prop) :
  (∀ l, pending (m l).1 = pending l ∧ rx (m l).1 = rx l ∧ safe (m l).2 Q) → tot m Q.
Proof.
  intros Hm n l Hl _. destruct (Hm l) as (E1&E2&Hs). unfold wp, safe in *.
  destruct (m l) as [l' r]. cbn in *. destruct (calm_same l l' Hl E1 E2) as [Hc Ef].
  destruct r; [|done..]. by rewrite Ef.
Qed.

Lemma total_send_entity e : tot (send_entity e) (λ _, True).
Proof.
  apply total_unchanged. intros l. unfold send_entity. destruct (_ <? _)%nat; [done|].
  destruct (writes l) as [|[]]; done.
Qed.

Lemma single_entity_safe f crc : no_panic (Frame.single_entity f crc).
Proof.
  unfold Frame.single_entity. apply no_panic_bind; [|done]. pose proof (encode_spec f) as H.
  unfold no_panic. by destruct (encode f).
Qed.

Lemma total_single_entity f crc :
  tot (lift (map_err (λ e, Negotiation (Encoding e)) (Frame.single_entity f crc))) (λ _, True).
Proof.
  apply total_lift. pose proof (single_entity_safe f crc) as H. unfold no_panic in H.
  by destruct (Frame.single_entity f crc).
Qed.

Lemma total_send f : tot (send f) (λ _, True).
Proof.
  unfold send. apply (total_bind _ _ _ _ (λ _, True)); [by apply total_gets|]. intros crc _.
  eapply total_bind; [apply total_single_entity|]. intros e _. apply total_send_entity.
Qed.

Lemma total_set_crc on : tot (modify (set_crc on)) (λ _, True).
Proof. by apply total_unchanged. Qed.

(** What is queued came in an entity. *)
Lemma calm_less l l' :
  calm bound l → sound l' → (load l' ≤ load l)%nat → calm bound l' ∧ (h (load l') ≤ h (load l))%nat.
Proof. intros [_ Hb] Hs Hl. unfold calm. split; [split; [done|lia]|by apply increasing_le]. Qed.

Lemma fuel_less l l' : (load l' < load l)%nat → (h (load l') < h (load l))%nat.
Proof. apply increasing. Qed.

(** The entity taken, with [n] for the FPDUs it can queue. *)
Definition queueing (n : nat) (l0 l : Link) : Prop := sound l ∧ (load l + n < load l0)%nat.

Lemma queue_parts_wp parts l0 l :
  Forall bytes_ok parts → queueing (length parts) l0 l →
  wp (λ l _, sound l ∧ (load l < load l0)%nat) (queue_parts parts) (λ l _, sound l ∧ (load l < load l0)%nat) l.
Proof.
  intros Hp. revert l. induction Hp as [|b parts Hb Hp IH]; intros l [Hs Hl]; cbn [queue_parts length] in *.
  { apply wp_ret. split; [done|lia]. }
  pose proof (decode_with_safe b true Hb) as Hd. fold (decode b) in Hd. apply wp_bind. unfold wp, lift.
  destruct (decode b) as [f|e|]; [|cbn; split; [done|lia]|done]. cbn [map_err]. destruct Hd as [_ Hd].
  destruct (Hd eq_refl) as [Hf _]. apply wp_bind, wp_modify, IH. destruct Hs as [H1 H2]. split.
  - split; [by apply Forall_app; split; [|apply Forall_singleton]|done].
  - unfold load in *. cbn. rewrite length_app. cbn. lia.
Qed.

(** Started below [l0]. *)
Definition below (l0 l : Link) : Prop := sound l ∧ (load l < load l0)%nat.

Lemma parts_fewer entity crc :
  bytes_ok entity → safe (Frame.split_entity entity crc) (λ parts, Forall bytes_ok parts ∧ (length parts ≤ length entity)%nat).
Proof.
  intros Hb. eapply safe_mono; [by apply Frame.split_entity_safe|]. intros parts (Hs&Hp&Hn&Hc). split; [done|].
  destruct crc.
  - destruct (Hc eq_refl) as (checks&Hl&<-&_). clear -Hs Hl. revert checks Hl.
    induction Hs as [|p parts (?&?&?&->&_) Hs IH]; intros [|c checks] Hl; [done..|]. cbn in *.
    rewrite !length_app. specialize (IH checks ltac:(lia)). lia.
  - rewrite <-(Hn eq_refl). clear -Hs. induction Hs as [|p parts (?&?&?&->&_) Hs IH]; [done|]. cbn.
    rewrite length_app. lia.
Qed.

Lemma queue_entity_wp entity l0 l :
  bytes_ok entity → queueing (length entity) l0 l →
  wp (λ l _, below l0 l) (queue_entity entity) (λ l _, below l0 l) l.
Proof.
  intros Hb [Hs Hl]. unfold queue_entity. apply wp_bind, wp_gets, wp_bind. unfold wp at 1, lift.
  pose proof (parts_fewer entity (link_crc l) Hb) as Hp.
  destruct (Frame.split_entity _ _) as [parts|e|]; [|split; [done|lia]|done]. destruct Hp as [Hp Hn].
  apply queue_parts_wp; [done|]. split; [done|]. lia.
Qed.

Lemma arrival_takes l a l' :
  sound l → next_arrival l = (l', a) → a ≠ Nothing →
  arrival_ok a ∧ queueing (match a with Entity b => length b | _ => 0 end) l l'.
Proof.
  intros [Hp Hr] E Ha. unfold next_arrival in E. destruct (rx l) as [|x r] eqn:Er; [by injection E as <- <-|].
  apply Forall_cons in Hr as [Hx Hr]. injection E as <- <-. split; [done|]. split; [by split|].
  unfold load. rewrite Er. cbn. destruct x; cbn; lia.
Qed.

Lemma sound_pop f p l : sound l → pending l = f :: p → wf f ∧ sound (with_pending p l).
Proof. intros [Hp Hr] E. rewrite E in Hp. apply Forall_cons in Hp as [Hf Hp]. done. Qed.

Lemma pop_wp l0 l : below l0 l →
  wp (λ l _, below l0 l) pop (λ l o, below l0 l ∧ match o with Some f => wf f | None => True end) l.
Proof.
  intros [Hs Hl]. unfold wp, pop. destruct (pending l) as [|f p] eqn:E; [done|].
  destruct (sound_pop f p l Hs E) as [Hf Hs']. split; [|done]. split; [done|].
  unfold load in *. rewrite E in Hl. cbn in *. lia.
Qed.

Lemma below_closed l0 l : below l0 l → below l0 (close_link l).
Proof. by intros [[H1 H2] H3]. Qed.

(** Waiting for an entity. *)
Lemma recv_entity_wp l :
  sound l →
  wp (λ l' _, sound l' ∧ (load l' ≤ load l)%nat) recv_entity
     (λ l' b, bytes_ok b ∧ queueing (length b) l l') l.
Proof.
  intros Hs. unfold wp, recv_entity. destruct (closed l); [by split|].
  destruct (next_arrival l) as [l1 a] eqn:Ea. destruct a as [b|e| |].
  - by destruct (arrival_takes l _ l1 Hs Ea).
  - destruct (arrival_takes l _ l1 Hs Ea) as (_&Hs1&Hl1); [done|]. destruct (below_closed l l1) as [? ?]; [split; [done|lia]|].
    split; [done|lia].
  - destruct (arrival_takes l _ l1 Hs Ea) as (_&Hs1&Hl1); [done|]. destruct (below_closed l l1) as [? ?]; [split; [done|lia]|].
    split; [done|lia].
  - destruct Hs as [H1 H2]. unfold next_arrival in Ea. destruct (rx l) as [|x r] eqn:Er; injection Ea as <-.
    + split; [split; [done|by rewrite Er]|done].
    + subst x. apply Forall_cons in H2 as [_ H2]. split; [by split|]. unfold load. rewrite Er. cbn. lia.
Qed.

Lemma takes_of_wp {A} (m : M Link A) (Q : A → Prop) :
  (∀ l, sound l → wp (λ l' _, sound l' ∧ (load l' ≤ load l)%nat) m (λ l' a, below l l' ∧ Q a) l) → tak m Q.
Proof.
  intros Hm l Hl. specialize (Hm l (proj1 Hl)). unfold wp in *. destruct (m l) as [l' [a|e|]]; [| |done].
  - destruct Hm as [[Hs Hlt] HQ]. destruct (calm_less l l' Hl Hs) as [? _]; [lia|]. split_and!; [done|by apply fuel_less|done].
  - destruct Hm as [Hs Hle]. by apply (calm_less l l' Hl Hs).
Qed.

Lemma takes_recv_entity : tak recv_entity bytes_ok.
Proof.
  apply takes_of_wp. intros l Hs. eapply wp_mono; [by apply recv_entity_wp|].
  intros l' b (Hb&Hs'&Hl). split; [|done]. split; [done|lia].
Qed.

Lemma wp_err_weaken {S A} (E E' : S → SessionError → Prop) (m : M S A) Q s :
  wp E m Q s → (∀ s e, E s e → E' s e) → wp E' m Q s.
Proof. unfold wp. destruct (m s) as [s' [a|e|]]; auto. Qed.

(** An FPDU that cannot be decoded has been taken. *)
Definition recv_failed (l l' : Link) (e : SessionError) : Prop :=
  sound l' ∧ (load l' ≤ load l)%nat ∧ match e with Decode _ => (load l' < load l)%nat | _ => True end.

Lemma recv_entity_failed l :
  sound l → wp (recv_failed l) recv_entity (λ l' b, bytes_ok b ∧ queueing (length b) l l') l.
Proof.
  intros Hs. pose proof (recv_entity_wp l Hs) as H. unfold wp, recv_failed, recv_entity in *.
  destruct (closed l); [done|]. destruct (next_arrival l) as [l1 []]; naive_solver.
Qed.

Lemma recv_wp l : sound l → wp (recv_failed l) recv (λ l' f, below l l' ∧ wf f) l.
Proof.
  intros Hs. unfold recv. apply wp_bind. unfold wp at 1, pop at 1.
  destruct (pending l) as [|f p] eqn:Ep.
  - apply wp_bind. eapply wp_mono; [by apply recv_entity_failed|]. intros l1 b (Hb&Hq).
    apply (wp_err_weaken (λ l' _, below l l')); [|intros ? e [? ?]; split_and!; [done|lia|by destruct e]].
    apply wp_bind. eapply wp_mono; [by apply queue_entity_wp|]. intros l2 [] H2.
    apply wp_bind. eapply wp_mono; [by apply pop_wp|]. intros l3 o [H3 Ho]. unfold wp, lift.
    by destruct o.
  - destruct (sound_pop f p l Hs Ep) as [Hf Hs']. apply wp_ret. split; [|done]. split; [done|].
    unfold load. rewrite Ep. cbn. lia.
Qed.

Lemma takes_recv : tak recv wf.
Proof.
  apply takes_of_wp. intros l Hs. eapply wp_err_weaken; [by apply recv_wp|]. by intros l' e (?&?&_).
Qed.

Lemma polled_try_recv : polled (calm bound) (λ l, h (load l)) try_recv wf.
Proof.
  assert (∀ l, sound l → wp (λ l' _, sound l' ∧ (load l' ≤ load l)%nat) try_recv
    (λ l' o, sound l' ∧ match o with Some f => (load l' < load l)%nat ∧ wf f | None => (load l' ≤ load l)%nat end) l) as H.
  { intros l Hs. unfold try_recv. apply wp_bind. unfold wp at 1, pop at 1.
    destruct (pending l) as [|f p] eqn:Ep.
    2:{ destruct (sound_pop f p l Hs Ep) as [Hf Hs']. apply wp_ret. split; [done|]. split; [|done].
        unfold load. rewrite Ep. cbn. lia. }
    apply wp_bind, wp_gets. destruct (closed l); [by apply wp_ret|]. unfold wp at 1.
    destruct (next_arrival l) as [l1 [b|e| |]] eqn:Ea.
    - destruct (arrival_takes l _ l1 Hs Ea) as [Hb Hq]; [done|].
      change (wp (λ l' _, sound l' ∧ (load l' ≤ load l)%nat) (queue_entity b ;; pop)
        (λ l' o, sound l' ∧ match o with Some f => (load l' < load l)%nat ∧ wf f | None => (load l' ≤ load l)%nat end) l1).
      apply (wp_err_weaken (λ l' _, below l l')); [|intros ? _ [? ?]; split; [done|lia]].
      apply wp_bind. eapply wp_mono; [by apply queue_entity_wp|]. intros l2 [] H2.
      eapply wp_mono; [by apply pop_wp|]. intros l3 [f|] [[? ?] ?]; (split; [done|]); [by split|lia].
    - destruct (arrival_takes l _ l1 Hs Ea) as (_&Hs1&Hl1); [done|]. destruct (below_closed l l1) as [? ?]; [split; [done|lia]|].
      split; [done|lia].
    - destruct (arrival_takes l _ l1 Hs Ea) as (_&Hs1&Hl1); [done|]. destruct (below_closed l l1) as [? ?]; [split; [done|lia]|].
      split; [done|lia].
    - destruct Hs as [H1 H2]. unfold next_arrival in Ea. destruct (rx l) as [|x r] eqn:Er; injection Ea as <-.
      + split; [split; [done|by rewrite Er]|done].
      + subst x. apply Forall_cons in H2 as [_ H2]. split; [by split|]. unfold load. rewrite Er. cbn. lia. }
  intros l Hl. specialize (H l (proj1 Hl)). unfold wp in *. destruct (try_recv l) as [l' [o|e|]]; [| |done].
  - destruct H as [Hs H]. destruct o as [f|].
    + destruct H as [Hlt Hf]. destruct (calm_less l l' Hl Hs) as [? _]; [lia|]. split; [done|]. split; [by apply fuel_less|done].
    + by destruct (calm_less l l' Hl Hs H).
  - destruct H as [Hs Hle]. by apply (calm_less l l' Hl Hs).
Qed.
End Link.

(** ** Automation

    [total] and [ends] of a computation from those of its steps. *)

Lemma total_ends {S A} (I : S → Prop) μ n (m : M S A) Q : total I μ m Q → ends I μ n m Q.
Proof. auto. Qed.

Lemma total_weaken {S A} (I : S → Prop) μ (m : M S A) (Q Q' : A → Prop) :
  total I μ m Q → (∀ a, Q a → Q' a) → total I μ m Q'.
Proof. intros H HQ n. by eapply ends_mono; [apply H| |]. Qed.

Lemma total_seq {S A B} (I : S → Prop) μ (m : M S A) (f : A → M S B) Q :
  total I μ m (λ _, True) → (∀ a, total I μ (f a) Q) → total I μ (m ≫= f) Q.
Proof. intros Hm Hf. by eapply total_bind. Qed.

Lemma ends_seq {S A B} (I : S → Prop) μ n (m : M S A) (f : A → M S B) Q :
  total I μ m (λ _, True) → (∀ a, ends I μ n (f a) Q) → ends I μ n (m ≫= f) Q.
Proof. intros Hm Hf. eapply ends_bind; [apply Hm|]. intros a _. apply Hf. Qed.

Lemma total_ok_or {S A} (I : S → Prop) μ (o : option A) e : total I μ (lift (ok_or o e)) (λ _, True).
Proof. apply total_lift. by destruct o. Qed.

Create HintDb total.
#[export] Hint Resolve total_send total_send_entity total_set_crc total_ok_or : total.
#[export] Hint Extern 1 (Increasing _) => apply _ : total.

Ltac total_step :=
  match goal with
  | |- ∀ _, _ => intros ?
  | |- total _ _ (mret _) _ => apply total_ret; first [done | by intuition]
  | |- total _ _ (raise _) _ => apply total_raise
  | |- total _ _ (lift Panic) _ => fail 1
  | |- total _ _ _ _ => solve [eauto with total]
  | |- total _ _ (?m ≫= _) _ => apply total_seq
  | |- total _ _ (if ?b then _ else _) _ => apply total_if
  | |- total _ _ (match ?x with _ => _ end) _ => destruct x eqn:?
  end.
Ltac solve_total := repeat total_step.

(** Steps in front of a loop, up to the first branch. *)
Ltac ends_steps := repeat (first [eapply ends_seq; [solve [solve_total]|intros ?] | progress cbv zeta]).
