(* ===== verification/TotalityData.v ===== *)
(** * Termination: the data phase

    What the data phase needs of sources and sinks to end, and its ends: every
    turn of a loop takes something that arrives or an article of the source. *)

From S2P Require Import Prelude Diag Pi Kinds Crc Fpdu FpduCodec Params Frame State Compress CompressProps Article PackerProps Builder.
From S2P Require Import Checkpoint ArticleIo Link LinkProps Datapath Totality.
Open Scope Z_scope.

(** ** Sources and sinks

    They report failures and never panic; a source that holds at most [n]
    articles does so again from wherever it is rewound to. *)

Class TameSink (K : Type) `{ArticleIo.ArticleSink K} := {
  sink_ok : K → Prop;
  sink_write_tame k a : sink_ok k → sink_ok (ArticleIo.sink_write k a).1 ∧ no_panic (ArticleIo.sink_write k a).2;
  sink_checkpoint_tame k : sink_ok k → sink_ok (ArticleIo.sink_checkpoint k).1 ∧ no_panic (ArticleIo.sink_checkpoint k).2;
  sink_truncate_tame k p : sink_ok k → sink_ok (ArticleIo.sink_truncate k p).1 ∧ no_panic (ArticleIo.sink_truncate k p).2;
  sink_finish_tame k : sink_ok k → sink_ok (ArticleIo.sink_finish k).1 ∧ no_panic (ArticleIo.sink_finish k).2;
}.

Class TameSource (Src : Type) `{ArticleIo.ArticleSource Src} := {
  source_ok : nat → Src → Prop;
  articles_left : Src → nat;
  source_left n s : source_ok n s → (articles_left s ≤ n)%nat;
  source_next_tame n s : source_ok n s →
    let '(s', r) := ArticleIo.source_next s in
    source_ok n s' ∧ no_panic r ∧ (articles_left s' ≤ articles_left s)%nat
    ∧ (∀ a, r = Ok (Some a) → (articles_left s' < articles_left s)%nat);
  source_rewind_tame n s p : source_ok n s →
    source_ok n (ArticleIo.source_rewind s p).1 ∧ no_panic (ArticleIo.source_rewind s p).2;
}.

#[global] Instance vec_sink_tame : TameSink ArticleIo.VecSink.
Proof. by exists (λ _, True). Defined.

#[global] Instance vec_source_tame : TameSource ArticleIo.VecSource.
Proof.
  refine {| source_ok n s := (length (ArticleIo.vs_articles s) ≤ n)%nat;
            articles_left s := (length (ArticleIo.vs_articles s) - ArticleIo.vs_index s)%nat |}.
  - intros n s Hs. lia.
  - intros n s Hs. cbn. unfold ArticleIo.vec_source_next.
    destruct (_ !! _) as [a|] eqn:Ea; [|by split_and!].
    apply lookup_lt_Some in Ea. cbn. split_and!; [done|done|lia|]. intros ? _. lia.
  - intros n s p Hs. done.
Defined.

#[global] Instance file_sink_tame : TameSink ArticleIo.FileSink.
Proof.
  refine {| sink_ok _ := True |}; intros; (split; [done|]); unfold no_panic; cbn;
    unfold ArticleIo.file_sink_write, ArticleIo.file_sink_checkpoint, ArticleIo.file_sink_truncate, ArticleIo.file_sink_finish;
    repeat case_match; simplify_eq; done.
Defined.

(** ** The environment of the data phase *)

Section Env.
Context {C : Type} `{Checkpoint.CheckpointStore C}.
Context (bound : nat) (h : nat → nat) `{Hh : !Increasing h}.

Definition env_calm (e : Env C) : Prop := calm bound (e_link e).
Definition env_load (e : Env C) : nat := load (e_link e).
Notation tot := (total env_calm (λ e, h (env_load e))).
Notation tak := (takes env_calm (λ e, h (env_load e))).

Lemma total_on_link {A} (m : M Link A) Q : total (calm bound) (λ l, h (load l)) m Q → tot (on_link m) Q.
Proof. intros Hm. by apply (total_zoom _ _ (calm bound) (λ l, h (load l))). Qed.

Lemma takes_on_link {A} (m : M Link A) Q : takes (calm bound) (λ l, h (load l)) m Q → tak (on_link m) Q.
Proof. intros Hm. by apply (takes_zoom _ _ (calm bound) (λ l, h (load l))). Qed.

Lemma polled_on_link {A} (m : M Link (option A)) Q :
  polled (calm bound) (λ l, h (load l)) m Q → polled env_calm (λ e, h (env_load e)) (on_link m) Q.
Proof.
  intros Hm e He. apply wp_zoom. specialize (Hm (e_link e) He). unfold wp in *. by destruct (m (e_link e)) as [l [[a|]|x|]].
Qed.

Lemma total_same_link {A} (m : M (Env C) A) (Q : A → Prop) :
  (∀ e, e_link (m e).1 = e_link e ∧ safe (m e).2 Q) → tot m Q.
Proof.
  intros Hm n e He _. destruct (Hm e) as [E Hs]. unfold wp, safe, env_calm, env_load in *.
  destruct (m e) as [e' r]. cbn in *. rewrite E. by destruct r.
Qed.

Lemma total_apply_local ev : tot (apply_local ev) (λ _, True).
Proof. apply total_same_link. intros e. unfold apply_local. by destruct (Machine.apply _ _) as [m []]. Qed.

Lemma total_apply_received f : tot (apply_received f) (λ _, True).
Proof.
  apply total_same_link. intros e. unfold apply_received. destruct (decide _); [done|].
  by destruct (Machine.apply _ _) as [m []].
Qed.

Lemma total_on_store op : tot (on_store op) (λ _, True).
Proof. apply total_same_link. intros e. unfold on_store. by destruct (op _) as [c []]. Qed.

Lemma total_cancelled : tot cancelled (λ _, True).
Proof. by apply total_same_link. Qed.

Lemma total_report p : tot (report p) (λ _, True).
Proof. by apply total_same_link. Qed.

Lemma total_env_gets {A} (f : Env C → A) : tot (gets f) (λ _, True).
Proof. by apply total_gets. Qed.

Lemma total_set_machine f : tot (modify (λ e, set_machine (f e) e)) (λ _, True).
Proof. by apply total_same_link. Qed.
End Env.

#[export] Hint Resolve total_on_link total_apply_local total_apply_received total_on_store total_cancelled total_report
  total_env_gets total_set_machine : total.

Section Interrupt.
Context {C : Type} `{Checkpoint.CheckpointStore C} (bound : nat) (h : nat → nat) `{Hh : !Increasing h}.

Lemma ends_interrupt_loop params n :
  ends (env_calm (C := C) bound) (λ e, h (env_load e)) n (interrupt_loop n params) (λ _, True).
Proof.
  induction n as [|n IH]; [intros s _ Hlt; lia|]. cbn [interrupt_loop].
  eapply ends_turn; [apply takes_on_link, takes_recv; apply _|]. intros f _.
  destruct (Fpdu.kind f); try (eapply ends_then; [eauto with total|exact IH]); apply total_ends; solve_total.
Qed.

Lemma ends_interrupt params diag code n :
  ends (env_calm (C := C) bound) (λ e, h (env_load e)) n (interrupt n params diag code) (λ _, True).
Proof. unfold interrupt. repeat (eapply ends_then; [eauto with total|]). apply ends_interrupt_loop. Qed.
End Interrupt.

(** ** Sending *)

Definition packer_sound (p : Article.ArticlePacker) : Prop :=
  (0 < Article.pending_count p)%nat → (2 ≤ length (Article.pending p))%nat.

Lemma flush_sound p : packer_sound p → packer_sound (Article.flush p).1 ∧ no_panic (Article.flush p).2.
Proof.
  intros Hp. unfold Article.flush. destruct (Nat.eqb_spec (Article.pending_count p) 0); [done|].
  split; [intros Hc; cbn in Hc; lia|]. cbn. destruct (_ =? _)%nat; [|done].
  specialize (Hp ltac:(lia)). by rewrite slice_ok by lia.
Qed.

Lemma push_sound p a : packer_sound p → packer_sound (Article.packer_push p a).1 ∧ no_panic (Article.packer_push p a).2.
Proof.
  intros Hp. unfold Article.packer_push. destruct (flush_sound p Hp) as [Hf Hn]. destruct (_ <? _)%nat.
  - destruct (Article.flush p) as [p' r]. cbn in *. split; [done|]. apply no_panic_bind; [done|done].
  - destruct (negb _); [done|].
    match goal with |- context [if ?b then _ else _] => destruct b end.
    + destruct (Article.flush p) as [p' r]. cbn in *. split; [|by apply no_panic_bind].
      intros _. cbn. rewrite !length_app. cbn. lia.
    + cbn. split; [|done]. intros _. cbn. rewrite !length_app. cbn. lia.
Qed.

Lemma encode_into_grows f out :
  no_panic (Fpdu.encode_into f out).2
  ∧ ((Fpdu.encode_into f out).2 = Ok tt → (length out ≤ length (Fpdu.encode_into f out).1)%nat).
Proof.
  unfold Fpdu.encode_into. destruct (_ <? _)%nat; [done|]. cbv zeta. destruct (FpduKind.is_data _).
  - cbn [fst snd]. split; [done|]. intros _. rewrite !length_app. lia.
  - set (o := _ ++ [Fpdu.id_src f]). split.
    + pose proof (encode_params_spec (Fpdu.params f) o) as Hs. unfold no_panic. by destruct (Fpdu.encode_params _ _).2.
    + intros E. rewrite (length_encode_params _ _ E). unfold o. rewrite !length_app. lia.
Qed.

Lemma frame_push_safe b f : no_panic (Frame.push b f).2.
Proof.
  unfold Frame.push. destruct (encode_into_grows f (Frame.buf b)) as [Hn Hl].
  destruct (Fpdu.encode_into f (Frame.buf b)) as [buf [[]|e|]]; [|done|done]. cbn in *.
  by rewrite slice_ok by (specialize (Hl eq_refl); lia).
Qed.

(** The variants of the sender: what may arrive, then the articles left. *)
Class Variant (g : nat → nat → nat) : Prop := {
  variant_load x x' y : (x < x')%nat → (g x y < g x' y)%nat;
  variant_left x y y' : (y ≤ y')%nat → (g x y ≤ g x y')%nat;
}.

Definition arrivals_only (x y : nat) : nat := x.
#[global] Instance arrivals_variant : Variant arrivals_only.
Proof. by split. Qed.

Definition articles_too (n x y : nat) : nat := S n * x + y + 1.
#[global] Instance articles_variant n : Variant (articles_too n).
Proof. split; unfold articles_too; intros; nia. Qed.

Lemma variant_le g `{!Variant g} x x' y : (x ≤ x')%nat → (g x y ≤ g x' y)%nat.
Proof. intros Hx. destruct (decide (x = x')) as [->|]; [done|]. pose proof (variant_load (g := g) x x' y). lia. Qed.

Section Send.
Context {C Src : Type} `{Checkpoint.CheckpointStore C} `{TameSource Src}.
Context (bound n : nat) (g : nat → nat → nat) `{Hg : !Variant g}.
Abbreviation State := (SendState (C := C) (Src := Src)).

Definition send_calm (st : State) : Prop :=
  env_calm bound st.1 ∧ packer_sound (packer st.2) ∧ source_ok n (source st.2).
Definition send_variant (st : State) : nat := g (env_load st.1) (articles_left (source st.2)).
Notation tot := (total send_calm send_variant).
Notation tak := (takes send_calm send_variant).

Lemma total_env {A} (m : M (Env C) A) Q :
  total (env_calm bound) (λ e, id (env_load e)) m Q → tot (env m) Q.
Proof.
  intros Hm. apply (total_zoom send_calm send_variant (env_calm bound) (λ e, id (env_load e))); [by intros s []| | |done].
  - by intros s t (_&?&?) Ht.
  - intros s t _ _ Hle. unfold send_variant. cbn. by apply variant_le.
Qed.

Lemma takes_env {A} (m : M (Env C) A) Q :
  takes (env_calm bound) (λ e, id (env_load e)) m Q → tak (env m) Q.
Proof.
  intros Hm. apply (takes_zoom send_calm send_variant (env_calm bound) (λ e, id (env_load e))); [by intros s []| | | |done].
  - by intros s t (_&?&?) Ht.
  - intros s t _ _ Hle. unfold send_variant. cbn. by apply variant_le.
  - intros s t _ _ Hle. unfold send_variant. cbn. by apply variant_load.
Qed.

(** What leaves the environment and the articles left alone. *)
Lemma total_vars_only {A} (m : M State A) (Q : A → Prop) :
  (∀ st, packer_sound (packer st.2) → source_ok n (source st.2) →
     (m st).1.1 = st.1 ∧ packer_sound (packer (m st).1.2) ∧ source (m st).1.2 = source st.2 ∧ safe (m st).2 Q) → tot m Q.
Proof.
  intros Hm k st (He&Hp&Hs) _. destruct (Hm st Hp Hs) as (E1&Hp'&E2&Hr). unfold wp, send_calm, send_variant.
  destruct (m st) as [st' r]. cbn in *. rewrite E1, E2. by destruct r.
Qed.

Lemma total_set_vars f :
  (∀ v, packer (f v) = packer v) → (∀ v, source (f v) = source v) → tot (set_vars f) (λ _, True).
Proof. intros Ep Es. apply total_vars_only. intros st Hp _. cbn. rewrite Ep, Es. done. Qed.

Lemma total_vars {A} (f : Sending Src → A) : tot (vars f) (λ _, True).
Proof. by apply total_vars_only. Qed.

Lemma total_packer_flush : tot packer_flush (λ _, True).
Proof.
  apply total_vars_only. intros st Hp _. unfold packer_flush. destruct (flush_sound _ Hp) as [Hf Hn].
  destruct (Article.flush _) as [p r]. cbn in *. split_and!; [done..|]. unfold no_panic, infallible in *. by destruct r.
Qed.

Lemma total_packer_push a : tot (packer_push a) (λ _, True).
Proof.
  apply total_vars_only. intros st Hp _. unfold packer_push. destruct (push_sound _ a Hp) as [Hf Hn].
  destruct (Article.packer_push _ _) as [p r]. cbn in *. split_and!; [done..|]. unfold no_panic, infallible in *. by destruct r.
Qed.

Lemma total_compress a : tot (compress a) (λ _, True).
Proof.
  apply total_vars_only. intros st Hp _. unfold compress. destruct (compressor st.2) as [c|]; [|done].
  destruct (compress_article_ok c a) as (r&w&->&_). done.
Qed.

Lemma total_take_entity : tot take_entity (λ _, True).
Proof. by apply total_vars_only. Qed.

Lemma total_push_entity f : tot (push_entity f) (λ _, True).
Proof.
  apply total_vars_only. intros st Hp _. unfold push_entity. pose proof (frame_push_safe (entity st.2) f) as Hn.
  destruct (Frame.push _ _) as [b r]. cbn in *. split_and!; [done..|]. unfold no_panic in Hn. by destruct r.
Qed.

Hint Resolve total_env total_vars total_packer_flush total_packer_push total_compress total_take_entity total_push_entity : total.
Hint Extern 1 (total _ _ (set_vars _) _) => apply total_set_vars; [done|done] : total.

Lemma total_send_taken : tot send_taken (λ _, True).
Proof. unfold send_taken. solve_total. Qed.
Hint Resolve total_send_taken : total.

Lemma total_push_fpdu f : tot (push_fpdu f) (λ _, True).
Proof. unfold push_fpdu. solve_total. Qed.
Hint Resolve total_push_fpdu : total.

Lemma total_push_fpdus fs : tot (push_fpdus fs) (λ _, True).
Proof. induction fs as [|f fs IH]; cbn [push_fpdus]; solve_total. Qed.
Hint Resolve total_push_fpdus : total.

Lemma total_flush_packer : tot flush_packer (λ _, True).
Proof. unfold flush_packer. solve_total. Qed.
Hint Resolve total_flush_packer : total.

Lemma total_result e : tot (result e) (λ _, True).
Proof. apply total_vars. Qed.

Lemma total_sync_before params a w : tot (sync_before params a w) (λ _, True).
Proof. unfold sync_before. solve_total. Qed.
Hint Resolve total_result total_sync_before : total.

Lemma total_progress : tot progress (λ _, True).
Proof. unfold progress. solve_total. Qed.
Hint Resolve total_progress : total.

Lemma total_send_wire w : tot (send_wire w) (λ _, True).
Proof. unfold send_wire. solve_total. Qed.
Hint Resolve total_send_wire : total.

Lemma total_send_article params a : tot (send_article params a) (λ _, True).
Proof. unfold send_article. solve_total. Qed.

Lemma total_send_end params : tot (send_end params) (λ _, True).
Proof. unfold send_end. solve_total. Qed.
End Send.

#[export] Hint Resolve total_env total_vars total_packer_flush total_packer_push total_compress total_take_entity
  total_push_entity total_send_taken total_push_fpdu total_push_fpdus total_flush_packer total_result total_sync_before
  total_progress total_send_wire total_send_article total_send_end : total.
#[export] Hint Extern 1 (Variant _) => apply _ : total.
#[export] Hint Extern 1 (total _ _ (set_vars _) _) => apply total_set_vars; [done|done] : total.

Section SendLoop.
Context {C Src : Type} `{Checkpoint.CheckpointStore C} `{TameSource Src}.
Context (bound n : nat).
Abbreviation State := (SendState (C := C) (Src := Src)).
Notation sc := (send_calm (C := C) (Src := Src) bound n).
Notation arriving := (send_variant (C := C) (Src := Src) arrivals_only).
Notation working := (send_variant (C := C) (Src := Src) (articles_too n)).

Lemma total_rewind p : total sc arriving (rewind p) (λ _, True).
Proof.
  intros k st (He&Hp&Hs) _. unfold rewind, wp, send_calm, send_variant.
  destruct (source_rewind_tame n _ p Hs) as [Hs' Hn]. destruct (ArticleIo.source_rewind _ _) as [s r]. cbn in *.
  unfold no_panic in Hn. by destruct r.
Qed.

Lemma total_handle_async params f : total sc arriving (handle_async params f) (λ _, True).
Proof.
  unfold handle_async.
  destruct (Fpdu.kind f); repeat first [total_step | apply total_rewind].
Qed.

(** What arrives outweighs the articles, wherever the source is rewound to. *)
Lemma fewer_arrivals st st' : sc st' → (env_load st'.1 < env_load st.1)%nat → (working st' < working st)%nat.
Proof.
  intros (_&_&Hs) Hlt. apply source_left in Hs. unfold send_variant, articles_too. nia.
Qed.

Lemma polled_env {A} (m : M (Env C) (option A)) Q :
  polled (env_calm bound) (λ e, id (env_load e)) m Q →
  ∀ st, sc st → wp (λ st' _, sc st') (env m) (λ st' o, sc st' ∧ source st'.2 = source st.2
    ∧ match o with Some a => (env_load st'.1 < env_load st.1)%nat ∧ Q a | None => (env_load st'.1 ≤ env_load st.1)%nat end) st.
Proof.
  intros Hm st (He&Hp&Hs). apply wp_zoom. specialize (Hm st.1 He). unfold wp, id, send_calm in *.
  destruct (m st.1) as [e [[a|]|x|]]; naive_solver.
Qed.

Lemma drain_wp params k st :
  sc st → (env_load st.1 < k)%nat →
  wp (λ st' _, sc st') (drain k params) (λ st' _, sc st' ∧ (working st' ≤ working st)%nat) st.
Proof.
  revert st. induction k as [|k IH]; intros st Hc Hlt; [lia|]. cbn [drain].
  apply wp_bind. eapply wp_mono; [apply (polled_env _ _ (polled_on_link _ _ _ _ (polled_try_recv _ _))); done|].
  intros st1 [f|] (Hc1&Es&Hl); cbv beta iota.
  - destruct Hl as [Hl _]. apply wp_bind.
    eapply wp_mono; [by apply (total_wp _ _ _ _ _ (total_handle_async params f))|]. intros st2 r (Hc2&Hl2&_). cbv beta.
    unfold send_variant, arrivals_only in Hl2. assert (env_load st2.1 < env_load st.1)%nat as Hl3 by lia.
    pose proof (fewer_arrivals st st2 Hc2 Hl3). destruct r; [apply wp_ret; split; [done|lia]|].
    eapply wp_mono; [apply IH; [done|lia]|]. intros st3 ? [? ?]. split; [done|lia].
  - apply wp_ret. split; [done|]. unfold send_variant, articles_too. rewrite Es. nia.
Qed.

Lemma takes_received params :
  takes sc working (f ← env (on_link recv); handle_async params f) (λ _, True).
Proof.
  intros st Hc. apply wp_bind.
  eapply wp_mono; [by apply (takes_env bound n arrivals_only _ _ (takes_on_link _ _ _ _ (takes_recv _ _)))|].
  intros st1 f (Hc1&Hl1&_). eapply wp_mono; [by apply (total_wp _ _ _ _ _ (total_handle_async params f))|].
  intros st2 r (Hc2&Hl2&_). unfold send_variant, arrivals_only in *. split; [done|]. split; [|done].
  apply fewer_arrivals; [done|]. lia.
Qed.

Lemma polled_next_article : polled sc working (next_article (C := C) (Src := Src)) (λ _, True).
Proof.
  intros st (He&Hp&Hs). unfold wp, next_article, send_calm, send_variant.
  pose proof (source_next_tame n _ Hs) as Hn. destruct (ArticleIo.source_next _) as [s r]. destruct Hn as (Hs'&Hr&Hle&Hlt).
  unfold no_panic in Hr. destruct r as [[a|]|e|]; cbn [map_err fst snd source set_source packer]; try done.
  - specialize (Hlt a eq_refl). split; [done|]. split; [|done]. unfold articles_too. lia.
  - split; [done|]. unfold articles_too. lia.
Qed.

(** Steps on the environment with a fuel of their own. *)
Lemma ends_env_loop k {A} (m : M (Env C) A) Q :
  ends (env_calm bound) (λ e, id (env_load e)) k m Q → ends sc working (Datatypes.S k) (env m) Q.
Proof.
  intros Hm. apply (ends_zoom sc working (env_calm bound) (λ e, id (env_load e)) _ _) with k; [by intros s []| | | |done].
  - by intros s t (_&?&?) Ht.
  - intros s t _ _ Hle. unfold id, send_variant, articles_too in *. cbn. nia.
  - intros s _ Hlt. unfold id, send_variant, articles_too in *. nia.
Qed.

Lemma ends_send_loop params k : ends sc working k (send_loop k params) (λ _, True).
Proof.
  induction k as [|k IH]; intros st Hc Hlt; [lia|]. cbn [send_loop].
  assert (env_load st.1 < k)%nat as Hload by (unfold send_variant, articles_too in Hlt; nia).
  apply wp_bind. eapply wp_mono; [by apply drain_wp|]. intros st1 e [Hc1 Hle1].
  eapply (wp_mono _ _ (λ st' _, sc st' ∧ (working st' ≤ working st1)%nat ∧ True)); [|intros ? ? (?&?&?); split_and!; [done|lia|done]].
  match goal with |- wp _ ?m _ _ => assert (ends sc working (S k) m (λ _, True)) as H' end; [|apply H'; [done|lia]].
  destruct e as [e|]; [apply total_ends; solve_total|].
  ends_steps. apply ends_if.
  - ends_steps. eapply ends_bind; [apply ends_env_loop, ends_interrupt; apply _|]. intros _ _.
    apply total_ends. solve_total.
  - ends_steps. apply ends_if.
    + eapply ends_turn2; [apply takes_received|]. intros [e|] _; [apply total_ends; solve_total|exact IH].
    + eapply polled_turn; [apply polled_next_article|solve_total|]. intros art _.
      eapply ends_then; [eauto with total|exact IH].
Qed.

(** [working] bounds what arrives. *)
Lemma working_load st st' : sc st → sc st' → (working st' ≤ working st)%nat → (env_load st'.1 ≤ env_load st.1)%nat.
Proof. intros (_&_&Hs) _. apply source_left in Hs. unfold send_variant, articles_too. nia. Qed.

Lemma send_data_wp params start k st :
  env_calm bound st.1 → source_ok n (source st.2) → (turns n (env_load st.1) < k)%nat →
  wp (λ st' _, env_calm bound st'.1 ∧ source_ok n (source st'.2)) (send_data k params start)
     (λ st' _, (env_calm bound st'.1 ∧ source_ok n (source st'.2)) ∧ (env_load st'.1 ≤ env_load st.1)%nat) st.
Proof.
  intros He Hs Hk. unfold send_data. apply wp_bind, wp_modify. cbv beta.
  set (st0 := (st.1, _) : State). assert (sc st0) as Hc0 by (split_and!; [done|intros Hp; cbn in Hp; lia|done]).
  apply (wp_err_weaken (λ st' _, sc st')); [|by intros ? ? (?&?&?)].
  apply wp_bind. eapply wp_mono; [by apply (total_wp _ _ _ _ _ (total_rewind _))|]. intros st1 [] (Hc1&Hl1&_).
  apply wp_bind, wp_modify. cbv beta. set (st2 := (st1.1, _) : State).
  assert (sc st2) as Hc2 by by destruct Hc1.
  assert (working st2 < k)%nat as Hlt.
  { destruct Hc2 as (_&_&Hs2). apply source_left in Hs2. unfold send_variant, arrivals_only, articles_too, turns in *.
    cbn [st0 st2 fst snd] in *. nia. }
  apply wp_bind. eapply wp_mono; [by apply ends_send_loop|]. intros st3 e (Hc3&Hl3&_).
  pose proof (working_load st2 st3 Hc2 Hc3 Hl3) as Hl.
  assert (env_load st3.1 ≤ env_load st.1)%nat as Hle by (unfold send_variant, arrivals_only in *; cbn in *; lia).
  destruct e as [r|]; [apply wp_ret; split; [by destruct Hc3 as (?&?&?)|done]|].
  eapply wp_mono; [by apply (total_wp _ _ _ _ _ (total_send_end bound n arrivals_only params))|].
  intros st4 r ((?&?&?)&Hl4&_). split; [done|]. unfold send_variant, arrivals_only in *. lia.
Qed.
End SendLoop.

(** ** Receiving *)

Lemma feed_safe r f : bytes_ok (Fpdu.data f) → no_panic (Article.reassembler_feed r f).2.
Proof.
  intros Hd. pose proof (articles_of_safe f Hd) as Hs. apply safe_no_panic in Hs. unfold no_panic in *.
  unfold Article.reassembler_feed, Article.check, map_err.
  repeat case_match; simplify_eq; done.
Qed.

Section Receive.
Context {C K : Type} `{Checkpoint.CheckpointStore C} `{TameSink K}.
Context (bound : nat) (h : nat → nat) `{Hh : !Increasing h}.
Abbreviation State := (ReceiveState (C := C) (K := K)).

Definition receive_calm (st : State) : Prop := env_calm bound st.1 ∧ sink_ok (sink st.2).
Definition receive_variant (st : State) : nat := h (env_load st.1).
Notation tot := (total receive_calm receive_variant).
Notation tak := (takes receive_calm receive_variant).

Lemma total_renv {A} (m : M (Env C) A) Q : total (env_calm bound) (λ e, h (env_load e)) m Q → tot (renv m) Q.
Proof.
  intros Hm. apply (total_zoom receive_calm receive_variant (env_calm bound) (λ e, h (env_load e)));
    [by intros s []| |done|done]. by intros s t [_ ?] Ht.
Qed.

Lemma total_vars_of {A} (m : M State A) (Q : A → Prop) :
  (∀ st, sink_ok (sink st.2) → (m st).1.1 = st.1 ∧ sink_ok (sink (m st).1.2) ∧ safe (m st).2 Q) → tot m Q.
Proof.
  intros Hm k st (He&Hs) _. destruct (Hm st Hs) as (E1&Hs'&Hr). unfold wp, receive_calm, receive_variant.
  destruct (m st) as [st' r]. cbn in *. rewrite E1. by destruct r.
Qed.

Lemma total_set_rvars f : (∀ v, sink (f v) = sink v) → tot (set_rvars f) (λ _, True).
Proof. intros Es. apply total_vars_of. intros st Hs. cbn. by rewrite Es. Qed.

Lemma total_rvars {A} (f : Receiving K → A) : tot (rvars f) (λ _, True).
Proof. by apply total_vars_of. Qed.

Lemma total_on_sink {A} (op : K → K * outcome ArticleIo.IoError A) :
  (∀ k, sink_ok k → sink_ok (op k).1 ∧ no_panic (op k).2) → tot (on_sink op) (λ _, True).
Proof.
  intros Hop. apply total_vars_of. intros st Hs. unfold on_sink. destruct (Hop _ Hs) as [H1' H2']. unfold no_panic in *.
  destruct (op _) as [k r]. cbn in *. by destruct r.
Qed.

Lemma total_feed f : wf f → tot (feed f) (λ _, True).
Proof.
  intros Hf. apply total_vars_of. intros st Hs. unfold feed.
  pose proof (feed_safe (reassembler st.2) f (wf_data f Hf)) as Hn. unfold no_panic in Hn.
  destruct (Article.reassembler_feed _ _) as [r x]. cbn in *. by destruct x.
Qed.

Lemma total_decompress a : tot (decompress a) (λ _, True).
Proof.
  apply total_vars_of. intros st Hs. unfold decompress. destruct (decompressor st.2) as [d|]; [|done].
  assert (no_panic (Compress.decompress_article d a).2) as Hn.
  { unfold no_panic, Compress.decompress_article, Compress.decompress.
    pose proof (decompress_loop_safe a (Compress.as_slice (Compress.d_reference d)) (Compress.d_max_article d) (S (length a)) 0 []) as [Hn _];
      [cbn; lia..|]. destruct (Compress.decompress_loop _ _ _ _ _ _) as [out [x|e|]]; done. }
  unfold no_panic in Hn. destruct (Compress.decompress_article d a) as [d' r]. cbn in *. by destruct r.
Qed.

Hint Resolve total_renv total_rvars total_feed total_decompress : total.
Hint Extern 1 (total _ _ (set_rvars _) _) => apply total_set_rvars; done : total.
Hint Extern 1 (total _ _ (on_sink _) _) =>
  apply total_on_sink; first [intros ? ?; by apply sink_write_tame | exact sink_checkpoint_tame
    | intros ? ?; by apply sink_truncate_tame | exact sink_finish_tame] : total.

Lemma total_rresult e : tot (rresult e) (λ _, True).
Proof. apply total_rvars. Qed.
Lemma total_rprogress : tot rprogress (λ _, True).
Proof. unfold rprogress. solve_total. Qed.
Hint Resolve total_rresult total_rprogress : total.

Lemma total_store_articles l : tot (store_articles l) (λ _, True).
Proof. induction l as [|a l IH]; cbn [store_articles]; solve_total. Qed.
Lemma total_back_to params cp : tot (back_to params cp) (λ _, True).
Proof. unfold back_to. solve_total. Qed.
Hint Resolve total_store_articles total_back_to : total.

Lemma total_handle params f : wf f → tot (handle params f) (λ _, True).
Proof. intros Hf. unfold handle. solve_total. Qed.
End Receive.

#[export] Hint Resolve total_renv total_rvars total_feed total_decompress total_rresult total_rprogress
  total_store_articles total_back_to total_handle : total.
#[export] Hint Extern 1 (total _ _ (set_rvars _) _) => apply total_set_rvars; done : total.
#[export] Hint Extern 1 (total _ _ (on_sink _) _) =>
  apply total_on_sink; first [intros ? ?; by apply sink_write_tame | exact sink_checkpoint_tame
    | intros ? ?; by apply sink_truncate_tame | exact sink_finish_tame] : total.

Section ReceiveLoop.
Context {C K : Type} `{Checkpoint.CheckpointStore C} `{TameSink K}.
Context (bound : nat) (h : nat → nat) `{Hh : !Increasing h}.
Abbreviation State := (ReceiveState (C := C) (K := K)).
Notation rc := (receive_calm (C := C) (K := K) bound).
Notation rv := (receive_variant (C := C) (K := K) h).

Lemma takes_renv_recv : takes rc rv (renv (on_link recv)) wf.
Proof.
  apply (takes_zoom rc rv (env_calm bound) (λ e, h (env_load e))); [by intros s []| |done|done|].
  - by intros s t [_ ?] Ht.
  - apply takes_on_link, takes_recv; apply _.
Qed.

(** A loop on the environment, with a turn left. *)
Lemma ends_renv_loop k {A} (m : M (Env C) A) Q :
  (∀ x, x < h x)%nat → ends (env_calm bound) (λ e, id (env_load e)) k m Q → ends rc rv (S k) (renv m) Q.
Proof.
  intros Hx Hm. apply (ends_zoom rc rv (env_calm bound) (λ e, id (env_load e)) _ _) with k; [by intros s []| | | |done].
  - by intros s t [_ ?] Ht.
  - intros s t _ _ Hle. by apply increasing_le.
  - intros s _ Hlt. unfold id, receive_variant in *. pose proof (Hx (env_load s.1)). lia.
Qed.

Lemma ends_wait_ack_resyn k : ends rc rv k (wait_ack_resyn k) (λ _, True).
Proof.
  apply ends_loop. clear k. intros k IH. cbn [wait_ack_resyn].
  eapply ends_turn; [apply takes_renv_recv|]. intros g _.
  destruct (Fpdu.kind g); try exact IH; [|by apply total_ends, total_ret].
  ends_steps. exact IH.
Qed.

Lemma ends_request_resync params k : ends rc rv k (request_resync k params) (λ _, True).
Proof.
  unfold request_resync. ends_steps. eapply ends_bind; [apply ends_wait_ack_resyn|]. intros ack _.
  apply total_ends. solve_total.
Qed.

(** An FPDU with wrong check bytes has been taken too. *)
Lemma takes_recv_or_crc params :
  takes rc rv (recv_or_crc (C := C) (K := K) params) (λ o, match o with Some f => wf f | None => True end).
Proof.
  intros st [He Hs]. pose proof (recv_wp (e_link st.1) (proj1 He)) as Hr.
  unfold wp, recv_or_crc, renv, on_link, zoom, receive_calm, receive_variant, env_calm, env_load in *.
  destruct (recv (e_link st.1)) as [l [f|e|]]; cbn [fst snd e_link] in *; [| |done].
  - destruct Hr as [[Hl Hlt] Hf]. destruct (calm_less bound h (e_link st.1) l He Hl) as [? _]; [lia|].
    split; [done|]. split; [by apply increasing|done].
  - destruct Hr as (Hl&Hle&Hd). destruct (calm_less bound h (e_link st.1) l He Hl Hle) as [? _].
    destruct e; cbn [is_crc_error]; try done. destruct (_ && _); [|done].
    split; [done|]. split; [by apply increasing|done].
Qed.

Hypothesis h_over : ∀ x, (x < h x)%nat.

Lemma ends_receive_loop params k : ends rc rv k (receive_loop k params) (λ _, True).
Proof using Hh h_over.
  revert k. apply (ends_loop _ _ (λ k, receive_loop k params)). intros k IH. cbn [receive_loop]. ends_steps. apply ends_if.
  - eapply ends_bind; [apply ends_renv_loop, ends_interrupt; [done|apply _]|]. intros _ _. apply total_ends. solve_total.
  - eapply ends_turn; [apply takes_recv_or_crc|]. intros [f|] Hf.
    + eapply ends_bind; [by apply total_handle|]. intros [r|] _; [by apply total_ends, total_ret|exact IH].
    + eapply ends_bind; [apply ends_request_resync|]. intros _ _. exact IH.
Qed.

Lemma ends_receive_data params start k : ends rc rv k (receive_data k params start) (λ _, True).
Proof using Hh h_over.
  unfold receive_data. eapply ends_then; [|apply ends_receive_loop].
  apply total_set_rvars. done.
Qed.
End ReceiveLoop.
