(* ===== verification/TotalityEngines.v ===== *)
(** * Termination: the two engines

    A session of the responder, and every request of the requester, ends
    whatever the peer sends: what the turns of all their loops take is what
    arrives and the articles of the source. *)

From S2P Require Import Prelude Diag Pi Kinds Crc Ebcdic Fpdu FpduCodec Params Frame State Article Builder.
From S2P Require Import Checkpoint ArticleIo Link LinkProps Datapath Requester Responder Totality TotalityData.
Open Scope Z_scope.
Import Fpdu.

(** ** The link and the machine *)

Section Conn.
Context (bound : nat) (h : nat → nat) `{Hh : !Increasing h}.

Definition conn_calm (c : Conn) : Prop := calm bound (c_link c).
Definition conn_load (c : Conn) : nat := load (c_link c).
Notation tot := (total conn_calm (λ c, h (conn_load c))).
Notation tak := (takes conn_calm (λ c, h (conn_load c))).

Lemma total_c_on_link {A} (m : M Link A) Q : total (calm bound) (λ l, h (load l)) m Q → tot (c_on_link m) Q.
Proof. intros Hm. by apply (total_zoom _ _ (calm bound) (λ l, h (load l))). Qed.

Lemma takes_c_on_link {A} (m : M Link A) Q : takes (calm bound) (λ l, h (load l)) m Q → tak (c_on_link m) Q.
Proof. intros Hm. by apply (takes_zoom _ _ (calm bound) (λ l, h (load l))). Qed.

Lemma takes_c_recv : tak (c_on_link recv) wf.
Proof. apply takes_c_on_link, takes_recv. apply _. Qed.

Lemma total_same_conn {A} (m : M Conn A) (Q : A → Prop) :
  (∀ c, c_link (m c).1 = c_link c ∧ safe (m c).2 Q) → tot m Q.
Proof.
  intros Hm n c Hc _. destruct (Hm c) as [E Hs]. unfold wp, safe, conn_calm, conn_load in *.
  destruct (m c) as [c' r]. cbn in *. rewrite E. by destruct r.
Qed.

Lemma total_c_force ev : tot (c_force ev) (λ _, True).
Proof. by apply total_same_conn. Qed.

Lemma total_c_apply_local ev : tot (c_apply_local ev) (λ _, True).
Proof. apply total_same_conn. intros c. unfold c_apply_local. by destruct (Machine.apply _ _) as [m []]. Qed.

Lemma total_protocol_error {A} k (Q : A → Prop) : tot (protocol_error k) Q.
Proof. by apply total_same_conn. Qed.

Lemma total_c_apply_kind k neg : tot (c_apply_kind k neg) (λ _, True).
Proof. apply total_same_conn. intros c. unfold c_apply_kind. by destruct (Machine.apply _ _) as [m []]. Qed.

Lemma total_conn_gets {A} (f : Conn → A) : tot (gets f) (λ _, True).
Proof. by apply total_gets. Qed.

Hint Resolve total_c_on_link total_c_force total_c_apply_local total_protocol_error total_c_apply_kind total_conn_gets : total.

Lemma total_aborted {A} f (Q : A → Prop) : tot (aborted f) Q.
Proof. apply total_raise. Qed.
Hint Resolve total_aborted : total.

Lemma total_c_apply_received f : tot (c_apply_received f) (λ _, True).
Proof. unfold c_apply_received. solve_total. Qed.
Hint Resolve total_c_apply_received : total.

Lemma total_respond ev f : tot (respond ev f) (λ _, True).
Proof. unfold respond. solve_total. Qed.

Lemma total_try_send f : tot (try_send f) (λ _, True).
Proof.
  intros n c Hc Hlt. pose proof (total_c_on_link _ _ (total_send bound h f) n c Hc Hlt) as H. unfold wp, try_send in *.
  destruct (c_on_link (send f) c) as [c' [a|e|]] eqn:E; [done| |done]. split; [done|]. split; [|done].
  assert (load (c_link c') = load (c_link c)) as El; [|unfold conn_load; by rewrite El].
  unfold c_on_link, zoom, send, mbind, M_bind, gets, lift in E.
  destruct (Frame.single_entity _ _) as [b|x|]; cbn [map_err] in E; [|by injection E as <- <-|done].
  unfold send_entity in E. destruct (_ <? _)%nat; [by injection E as <- <-|].
  destruct (writes (c_link c)) as [|[]]; by simplify_eq.
Qed.

Hint Resolve total_respond total_try_send : total.

(** *** Loops *)

Lemma ends_expect k n : ends conn_calm (λ c, h (conn_load c)) n (expect n k) (λ _, True).
Proof.
  revert n. apply (ends_loop _ _ (λ n, expect n k)). intros n IH. cbn [expect].
  eapply ends_turn; [apply takes_c_recv|]. intros f _. ends_steps. apply ends_if; [exact IH|].
  apply total_ends. solve_total.
Qed.

Lemma ends_serve_close peer data diag n : ends conn_calm (λ c, h (conn_load c)) n (serve_close n peer data diag) (λ _, True).
Proof.
  revert diag. induction n as [|n IH]; intros diag; [intros s _ Hlt; lia|]. cbn [serve_close].
  eapply ends_turn; [apply takes_c_recv|]. intros f _. ends_steps. apply ends_if; [apply IH|].
  destruct (kind f); try (apply total_ends; solve [solve_total]).
  - destruct (answer_trans_end _ _ _ _) as [d ack]. ends_steps. apply IH.
  - ends_steps. apply IH.
Qed.

Lemma ends_gather message n : ends conn_calm (λ c, h (conn_load c)) n (gather n message) (λ _, True).
Proof.
  revert message. induction n as [|n IH]; intros message; [intros s _ Hlt; lia|]. cbn [gather].
  eapply ends_turn; [apply takes_c_recv|]. intros f _. ends_steps. apply ends_if; [apply IH|].
  destruct (kind f); try (apply total_ends; solve [solve_total]). apply IH.
Qed.

Lemma ends_await request k n : ends conn_calm (λ c, h (conn_load c)) n (await n request k) (λ _, True).
Proof.
  revert n. apply (ends_loop _ _ (λ n, await n request k)). intros n IH. cbn [await].
  eapply ends_turn; [apply takes_c_recv|]. intros f _. destruct (decide _); [apply total_ends; solve_total|].
  ends_steps. apply ends_if; [exact IH|]. apply total_ends. solve_total.
Qed.
End Conn.

#[export] Hint Resolve total_c_on_link total_c_force total_c_apply_local total_protocol_error total_c_apply_kind
  total_conn_gets total_aborted total_c_apply_received total_respond total_try_send : total.

(** ** The responder *)

(** What the responder needs of an application: sinks and sources as above, the
    sources with at most [n] articles. *)
Class TameHandler (n : nat) (HS C K Src : Type) `{ServerHandler HS C K Src} `{TameSink K} `{TameSource Src} := {
  handler_ok : HS → Prop;
  authenticate_tame h req : handler_ok h → handler_ok (authenticate h req).1;
  on_create_tame h i spec : handler_ok h →
    handler_ok (on_create h i spec).1 ∧ ∀ a, (on_create h i spec).2 = inl a → sink_ok (cra_sink a);
  on_select_tame h i spec attrs : handler_ok h →
    handler_ok (on_select h i spec attrs).1 ∧ ∀ a, (on_select h i spec attrs).2 = inl a → source_ok n (sa_source a);
  on_message_tame h i spec m e : handler_ok h → handler_ok (on_message h i spec m e).1;
  transfer_event_tame h i handle ev : handler_ok h → handler_ok (transfer_event h i handle ev);
  session_closed_tame h i e : handler_ok h → handler_ok (session_closed h i e);
}.

Section Responder.
Context (n : nat) {HS C K Src : Type} `{TameHandler n HS C K Src} `{!Checkpoint.CheckpointStore C}.
Context (bound : nat).
Abbreviation Resp := (Responder HS C K Src).

Definition resp_calm (r : Resp) : Prop := conn_calm bound (rs_conn r) ∧ handler_ok (rs_handler r).
Definition resp_variant (r : Resp) : nat := turns n (conn_load (rs_conn r)).
Notation tot := (total resp_calm resp_variant).
Notation tak := (takes resp_calm resp_variant).

Lemma total_r_conn {A} (m : M Conn A) Q : total (conn_calm bound) (λ c, turns n (conn_load c)) m Q → tot (r_conn m) Q.
Proof.
  intros Hm. apply (total_zoom resp_calm resp_variant (conn_calm bound) (λ c, turns n (conn_load c)));
    [by intros s []| |done|done]. by intros s t [_ ?] Ht.
Qed.

Lemma ends_r_conn {A} k (m : M Conn A) Q :
  ends (conn_calm bound) (λ c, turns n (conn_load c)) k m Q → ends resp_calm resp_variant k (r_conn m) Q.
Proof.
  intros Hm. apply (ends_zoom resp_calm resp_variant (conn_calm bound) (λ c, turns n (conn_load c)) _ _) with k;
    [by intros s []| |done|done|done]. by intros s t [_ ?] Ht.
Qed.

Lemma takes_r_recv : tak (r_conn (c_on_link recv)) wf.
Proof.
  apply (takes_zoom resp_calm resp_variant (conn_calm bound) (λ c, turns n (conn_load c)));
    [by intros s []| |done|done|apply takes_c_recv; apply _]. by intros s t [_ ?] Ht.
Qed.

Lemma total_same_resp {A} (m : M Resp A) (Q : A → Prop) :
  (∀ r, handler_ok (rs_handler r) →
     rs_conn (m r).1 = rs_conn r ∧ handler_ok (rs_handler (m r).1) ∧ safe (m r).2 Q) → tot m Q.
Proof.
  intros Hm k r [Hc Hok] _. destruct (Hm r Hok) as (E&Hok'&Hs). unfold wp, safe, resp_calm, resp_variant in *.
  destruct (m r) as [r' x]. cbn in *. rewrite E. by destruct x.
Qed.

Lemma total_rgets {A} (f : Resp → A) : tot (gets f) (λ _, True).
Proof. by apply total_gets. Qed.

Lemma total_info : tot info (λ _, True).
Proof. apply total_same_resp. intros r Hr. unfold info. by destruct (rs_info r). Qed.

Lemma total_notify i handle ev : tot (notify i handle ev) (λ _, True).
Proof. apply total_same_resp. intros r Hr. split_and!; [done|by apply transfer_event_tame|done]. Qed.

Lemma total_ask {A} (call : HS → HS * A) (Q : A → Prop) :
  (∀ h, handler_ok h → handler_ok (call h).1 ∧ Q (call h).2) → tot (ask call) Q.
Proof.
  intros Hcall. apply total_same_resp. intros r Hr. unfold ask. destruct (Hcall _ Hr).
  destruct (call (rs_handler r)) as [h' a]. done.
Qed.

Lemma total_rmodify f :
  (∀ r, rs_conn (f r) = rs_conn r ∧ (handler_ok (rs_handler r) → handler_ok (rs_handler (f r)))) → tot (modify f) (λ _, True).
Proof. intros Hf. apply total_same_resp. intros r Hr. destruct (Hf r) as [E Hh']. split_and!; [done|by apply Hh'|done]. Qed.

Hint Resolve total_r_conn total_rgets total_info total_notify : total.
Hint Extern 1 (total _ _ (modify _) _) => apply total_rmodify; by intros ? : total.

Lemma total_serve_orf k : ends resp_calm resp_variant k (serve_orf k) (λ _, True).
Proof.
  unfold serve_orf. eapply ends_bind; [apply ends_r_conn, ends_expect; apply _|]. intros orf _.
  apply total_ends. solve_total.
Qed.

(** *** With the resources of a transfer *)
Section Serving.
Context {X : Type} (P : X → Prop).

Definition serving_calm (v : Serving HS C K Src X) : Prop := resp_calm (sv_resp v) ∧ P (sv_data v).
Definition serving_variant (v : Serving HS C K Src X) : nat := resp_variant (sv_resp v).
Notation stot := (total serving_calm serving_variant).

Lemma total_resp {A} (m : M Resp A) Q : tot m Q → stot (resp m) Q.
Proof.
  intros Hm. apply (total_zoom serving_calm serving_variant resp_calm resp_variant); [by intros s []| |done|done].
  by intros s t [_ ?] Ht.
Qed.

Lemma ends_resp {A} k (m : M Resp A) Q : ends resp_calm resp_variant k m Q → ends serving_calm serving_variant k (resp m) Q.
Proof.
  intros Hm. apply (ends_zoom serving_calm serving_variant resp_calm resp_variant _ _) with k;
    [by intros s []| |done|done|done]. by intros s t [_ ?] Ht.
Qed.

Lemma total_same_serving {A} (m : M (Serving HS C K Src X) A) (Q : A → Prop) :
  (∀ v, P (sv_data v) → sv_resp (m v).1 = sv_resp v ∧ P (sv_data (m v).1) ∧ safe (m v).2 Q) → stot m Q.
Proof.
  intros Hm k v [Hr Hok] _. destruct (Hm v Hok) as (E&Hok'&Hs). unfold wp, safe, serving_calm, serving_variant in *.
  destruct (m v) as [v' x]. cbn in *. rewrite E. by destruct x.
Qed.

Lemma total_sv_on_store op : stot (sv_on_store op) (λ _, True).
Proof. apply total_same_serving. intros v Hv. unfold sv_on_store. by destruct (op _) as [c []]. Qed.

Lemma total_sv_on_data {A} (op : X → X * outcome ArticleIo.IoError A) :
  (∀ x, P x → P (op x).1 ∧ no_panic (op x).2) → stot (sv_on_data op) (λ _, True).
Proof.
  intros Hop. apply total_same_serving. intros v Hv. unfold sv_on_data. destruct (Hop _ Hv) as [H1' H2']. unfold no_panic in *.
  destruct (op _) as [x r]. cbn in *. by destruct r.
Qed.

Lemma total_sgets {A} (f : Serving HS C K Src X → A) : stot (gets f) (λ _, True).
Proof. by apply total_gets. Qed.

Hint Resolve total_resp total_sv_on_store total_sgets : total.

Lemma total_conclude i handle on_complete result :
  result ≠ Panic → stot on_complete (λ _, True) → stot (conclude i handle on_complete result) (λ _, True).
Proof. intros Hr Hc. unfold conclude. destruct result as [[data diag]|e|]; [| |done]; solve_total; done. Qed.

(** The handler hears of the progress. *)
Lemma handler_events i handle (ps : list Progress) (hs : HS) :
  handler_ok hs → handler_ok (foldl (λ h p, transfer_event h i handle (Progressed p)) hs ps).
Proof. revert hs. induction ps as [|p ps IH]; intros hs Hs; [done|]. by apply IH, transfer_event_tame. Qed.

Lemma sv_back_calm i handle e x v :
  serving_calm v → env_calm bound e → P x → serving_calm (sv_back i handle e x v).
Proof. intros [[Hc Hh] _] He Hx. split; [split; [done|by apply handler_events]|done]. Qed.
End Serving.
End Responder.

#[export] Hint Resolve total_r_conn total_rgets total_info total_notify total_resp total_sv_on_store total_sgets : total.
#[export] Hint Extern 1 (total _ _ (modify _) _) => apply total_rmodify; by intros ? : total.

(** An attempt whose failure is raised again. *)
Lemma ends_attempt {S A B} (I : S → Prop) μ n (m : M S A) (f : outcome SessionError A → M S B) Q Q' :
  ends I μ n m Q → (∀ a, Q a → ends I μ n (f (Ok a)) Q') →
  (∀ e s, I s → wp (λ s' _, I s') (f (Err e)) (λ _ _, False) s) →
  ends I μ n (r ← attempt m; f r) Q'.
Proof.
  intros Hm Hf He s Hs Hlt. pose proof (ends_bind I μ n m (λ a, f (Ok a)) Q Q' Hm Hf s Hs Hlt) as Hok.
  specialize (Hm s Hs Hlt). unfold wp, attempt, mbind, M_bind in *. destruct (m s) as [s' [a|e|]]; [done| |done].
  specialize (He e s' Hm). by destruct (f (Err e) s') as [s'' [b|e'|]].
Qed.

Section Transfers.
Context (n : nat) {HS C K Src : Type} `{TameHandler n HS C K Src} `{!Checkpoint.CheckpointStore C}.
Context (bound : nat).
Notation kc := (serving_calm (K := K) n bound (sink_ok (K := K))).
Notation kv := (serving_variant (K := K) n).
Notation lc := (serving_calm (Src := Src) n bound (source_ok (Src := Src) n)).
Notation lv := (serving_variant (Src := Src) n).

Lemma conclude_fails {X} (P : X → Prop) i handle on_complete e v :
  serving_calm (C := C) n bound P v →
  wp (λ v _, serving_calm n bound P v) (conclude (K := K) (Src := Src) i handle on_complete (Err e)) (λ _ _, False) v.
Proof.
  intros Hv. unfold conclude. apply wp_bind.
  eapply wp_mono; [by apply (total_wp _ _ _ _ _ (total_resp n bound P _ _ (total_notify n bound i handle (Failed e))))|].
  intros v' [] (?&_). by apply wp_raise.
Qed.

Lemma ends_serve_open_write i spec restart ma me tid handle k :
  ends kc kv k (serve_open_write k i spec restart ma me tid handle) (λ _, True).
Proof.
  unfold serve_open_write. eapply ends_bind; [apply ends_resp, total_serve_orf|]. intros c _.
  eapply ends_bind; [apply ends_resp, ends_r_conn, ends_expect; apply _|]. intros w _. cbv zeta.
  apply total_ends. repeat first [total_step | apply total_sv_on_data; intros; by apply sink_truncate_tame].
Qed.

Lemma ends_serve_receive i handle params start k : ends kc kv k (serve_receive k i handle params start) (λ _, True).
Proof.
  unfold serve_receive.
  apply (ends_zoom kc kv (receive_calm bound) (receive_variant (turns n)) _ _) with k.
  - by intros v [[? ?] ?].
  - intros v [e x] Hv [He Hx]. by apply sv_back_calm.
  - done.
  - done.
  - apply ends_receive_data; [apply _|]. intros x. unfold turns. nia.
Qed.

Lemma ends_run_write i spec restart ma me tid handle k :
  ends kc kv k (run_write k i spec restart ma me tid handle) (λ _, True).
Proof.
  unfold run_write. eapply ends_bind; [apply ends_serve_open_write|]. intros [params start] _.
  eapply ends_bind; [apply ends_serve_receive|]. intros data _. ends_steps.
  eapply ends_bind; [apply ends_resp, ends_r_conn, ends_serve_close; apply _|]. intros diag _. by apply total_ends, total_ret.
Qed.

Lemma ends_serve_open_read i spec me tid handle k : ends lc lv k (serve_open_read k i spec me tid handle) (λ _, True).
Proof.
  unfold serve_open_read. eapply ends_bind; [apply ends_resp, total_serve_orf|]. intros c _.
  eapply ends_bind; [apply ends_resp, ends_r_conn, ends_expect; apply _|]. intros r _. cbv zeta.
  apply total_ends. solve_total.
Qed.

Lemma ends_serve_send i handle params start k : ends lc lv k (serve_send k i handle params start) (λ _, True).
Proof.
  intros v [[Hc Hh] Hs] Hlt. unfold serve_send. apply wp_zoom. pose proof Hlt as Hlt'.
  unfold serving_variant, resp_variant in Hlt'.
  pose proof (send_data_wp (C := C) bound n params start k (sv_env i handle v, send_start params (sv_data v) start) Hc Hs Hlt') as Hw.
  unfold wp in *. destruct (send_data k params start _) as [[e x] [a|er|]]; cbn [fst snd] in *; [| |done].
  - destruct Hw as [[He Hx] Hl]. split; [by apply sv_back_calm|]. split; [|done].
    exact (increasing_le (turns n) _ _ Hl).
  - destruct Hw as [He Hx]. by apply sv_back_calm.
Qed.

Lemma ends_run_read i spec me tid handle k : ends lc lv k (run_read k i spec me tid handle) (λ _, True).
Proof.
  unfold run_read. eapply ends_bind; [apply ends_serve_open_read|]. intros [params start] _.
  eapply ends_bind; [apply ends_serve_send|]. intros data _. ends_steps.
  eapply ends_bind; [apply ends_resp, ends_r_conn, ends_serve_close; apply _|]. intros diag _. by apply total_ends, total_ret.
Qed.

Lemma ends_with_resources {X A} (P : X → Prop) x c keep (m : M (Serving HS C K Src X) A) Q k :
  P x → (∀ y r, rs_conn (keep y r) = rs_conn r ∧ rs_handler (keep y r) = rs_handler r) →
  ends (serving_calm n bound P) (serving_variant n) k m Q → ends (resp_calm n bound) (resp_variant n) k (with_resources x c keep m) Q.
Proof.
  intros Hx Hk Hm r Hr Hlt. unfold with_resources.
  specialize (Hm (mkServing r c x) (conj Hr Hx) Hlt). unfold wp in *. destruct (m _) as [v res].
  destruct (Hk (sv_data v, sv_store v) (sv_resp v)) as [E1 E2].
  unfold serving_calm, serving_variant, resp_calm, resp_variant in *. cbn in Hm. destruct res as [a|e|]; rewrite ?E1, ?E2; naive_solver.
Qed.

Notation rc := (resp_calm (HS := HS) (C := C) (K := K) (Src := Src) n bound).
Notation rv := (resp_variant (HS := HS) (C := C) (K := K) (Src := Src) n).

Lemma total_admit_create f : total rc rv (admit_create f) (λ o, match o with Some a => sink_ok (cra_sink (ad_accept a)) | None => True end).
Proof.
  unfold admit_create. cbv zeta. apply total_seq; [eauto with total|]. intros i.
  eapply total_bind; [apply (total_ask n bound _ (λ r, ∀ a, r = inl a → sink_ok (cra_sink a)));
    intros; by apply on_create_tame|]. intros [a|r] Ha.
  - apply total_seq; [eauto with total|]. intros accept. apply total_seq; [eauto with total|]. intros peer.
    apply total_seq; [eauto with total|]. intros _. apply total_ret. exact (Ha a eq_refl).
  - apply total_seq; [unfold refuse_create; solve_total|]. intros _. by apply total_ret.
Qed.

Lemma ends_handle_create f k : ends rc rv k (handle_create k f) (λ _, True).
Proof.
  unfold handle_create. eapply ends_bind; [apply total_admit_create|]. intros [[i a me tid]|] Ha; [|by apply total_ends, total_ret].
  apply (ends_with_resources sink_ok); [done|done|].
  eapply ends_attempt; [apply ends_run_write| |by intros; apply conclude_fails].
  intros r _. apply total_ends, total_conclude; [done|].
  apply total_seq; [|intros _; eauto with total]. apply total_sv_on_data. intros. by apply sink_finish_tame.
Qed.

Lemma total_admit_select f : total rc rv (admit_select f) (λ o, match o with Some a => source_ok n (sa_source (ad_accept a)) | None => True end).
Proof.
  unfold admit_select. cbv zeta. apply total_seq; [eauto with total|]. intros i.
  eapply total_bind; [apply (total_ask n bound _ (λ r, ∀ a, r = inl a → source_ok n (sa_source a)));
    intros; by apply on_select_tame|]. intros [a|r] Ha.
  - apply total_seq; [eauto with total|]. intros accept. apply total_seq; [eauto with total|]. intros peer.
    apply total_seq; [eauto with total|]. intros _. apply total_ret. exact (Ha a eq_refl).
  - apply total_seq; [unfold refuse_select; solve_total|]. intros _. by apply total_ret.
Qed.

Lemma ends_handle_select f k : ends rc rv k (handle_select k f) (λ _, True).
Proof.
  unfold handle_select. eapply ends_bind; [apply total_admit_select|]. intros [[i a me tid]|] Ha; [|by apply total_ends, total_ret].
  apply (ends_with_resources (source_ok n)); [done|done|].
  eapply ends_attempt; [apply ends_run_read| |by intros; apply conclude_fails].
  intros r _. apply total_ends, total_conclude; [done|eauto with total].
Qed.

Lemma ends_handle_message f k : ends rc rv k (handle_message k f) (λ _, True).
Proof.
  unfold handle_message. cbv zeta. eapply ends_bind with (λ _, True).
  { destruct (decide _); [apply ends_r_conn, ends_gather; apply _|by apply total_ends, total_ret]. }
  intros m _. apply total_ends. apply total_seq; [eauto with total|]. intros i.
  apply total_seq; [apply total_ask; intros; split; [by apply on_message_tame|done]|]. intros answer. solve_total.
Qed.
End Transfers.

(** *** The session *)

Section Session.
Context (n : nat) {HS C K Src : Type} `{TameHandler n HS C K Src} `{!Checkpoint.CheckpointStore C}.
Context (bound : nat).
Notation rc := (resp_calm (HS := HS) (C := C) (K := K) (Src := Src) n bound).
Notation rv := (resp_variant (HS := HS) (C := C) (K := K) (Src := Src) n).

Lemma total_recv_entity : total (calm bound) (λ l, turns n (load l)) recv_entity bytes_ok.
Proof. apply takes_total, takes_recv_entity. apply _. Qed.

Lemma total_read_opening : total (calm bound) (λ l, turns n (load l)) read_opening (λ o, bytes_ok o.2).
Proof.
  unfold read_opening. eapply total_bind; [apply total_recv_entity|]. intros first Hf.
  destruct (Ebcdic.is_preconnect first); [|by apply total_ret].
  apply total_seq; [eauto with total|]. intros _.
  eapply total_bind; [apply total_recv_entity|]. intros next Hn. by apply total_ret.
Qed.

Lemma total_read_connect entity : bytes_ok entity → total (calm bound) (λ l, turns n (load l)) (read_connect entity) (λ _, True).
Proof.
  intros Hb. unfold read_connect. cbv zeta. apply total_seq; [eauto with total|]. intros _.
  pose proof (parts_fewer entity (has_check_bytes entity) Hb) as Hp.
  eapply (total_bind _ _ _ _ (Forall bytes_ok)); [apply total_lift|].
  { destruct (Frame.split_entity _ _); [apply Hp|done|done]. }
  intros parts Hparts. eapply (total_bind _ _ _ _ bytes_ok); [apply total_lift|].
  { destruct parts as [|b parts]; [done|]. by apply Forall_cons in Hparts as [? _]. }
  intros b Hbb. eapply (total_bind _ _ _ _ (λ _, True)); [apply total_lift|by intros; apply total_ret].
  pose proof (decode_with_panics_not b true Hbb) as Hn. fold (decode b) in Hn. unfold no_panic in Hn. by destruct (decode b).
Qed.

Lemma total_establish : total rc rv establish (λ _, True).
Proof.
  unfold establish. apply total_seq; [eauto with total|]. intros cfg.
  eapply total_bind; [apply total_r_conn, total_c_on_link, total_read_opening|]. intros [pre entity] Hb.
  apply total_seq; [by apply total_r_conn, total_c_on_link, total_read_connect|]. intros [crc connect].
  apply total_seq; [solve_total|]. intros _. apply total_seq; [eauto with total|]. intros _.
  apply total_seq; [eauto with total|]. intros _. cbv zeta. apply total_seq; [solve_total|]. intros _.
  apply total_seq; [apply total_ask; intros; split; [by apply authenticate_tame|done]|]. intros answer. solve_total.
Qed.

Lemma ends_serve_request access f k : ends rc rv k (serve_request k access f) (λ _, True).
Proof.
  unfold serve_request. destruct (kind f); try (apply total_ends; solve [solve_total]); ends_steps.
  - eapply ends_bind; [apply ends_if; [apply ends_handle_create|apply total_ends; unfold refuse_create; solve_total]|].
    intros _ _. by apply total_ends, total_ret.
  - eapply ends_bind; [apply ends_if; [apply ends_handle_select|apply total_ends; unfold refuse_select; solve_total]|].
    intros _ _. by apply total_ends, total_ret.
  - eapply ends_bind; [apply ends_handle_message|]. intros _ _. by apply total_ends, total_ret.
  - eapply ends_bind; [apply ends_handle_message|]. intros _ _. by apply total_ends, total_ret.
Qed.

Lemma ends_serve_loop access k : ends rc rv k (serve_loop k access) (λ _, True).
Proof.
  revert k. apply (ends_loop _ _ (λ k, serve_loop k access)). intros k IH. cbn [serve_loop].
  eapply ends_turn; [apply takes_r_recv|]. intros f _.
  eapply ends_bind; [apply ends_serve_request|]. intros ended _. apply ends_if; [by apply total_ends, total_ret|exact IH].
Qed.

Lemma ends_run_session k : ends rc rv k (run k) (λ _, True).
Proof. unfold run. eapply ends_bind; [apply total_establish|]. intros req _. apply ends_serve_loop. Qed.

Lemma serve_ends s k : rc s → (rv s < k)%nat → (serve k s).2 ≠ Panic.
Proof.
  intros Hs Hlt. destruct (ends_run _ _ k _ _ s (ends_run_session k) Hs Hlt) as [Hn Hc].
  unfold serve, mbind at 1, M_bind at 1, attempt. destruct (run k s) as [s1 r] eqn:E. cbn [fst snd] in *.
  assert (∀ r, r ≠ Panic → total rc rv (modify (λ s : Responder HS C K Src, match rs_info s with
               | Some i => set_handler (session_closed (rs_handler s) i (error_of r)) s
               | None => s
               end) ;;
    (match r with
     | Err e =>
         state ← r_conn (gets (λ c, Machine.state (c_machine c)));
         peer ← gets rs_peer_id;
         own ← gets (λ s, conn_id (rs_cfg s));
         if negb (is_idle state) && negb (silent e)
         then r_conn (try_send (Builder.abort peer own (abort_diag e))) else mret tt
     | _ => mret tt
     end) ;; lift r) (λ _ : unit, True)) as Ht.
  { intros r' Hr. apply total_seq; [|intros _].
    - apply total_rmodify. intros s'. destruct (rs_info s'); [|done]. split; [done|]. intros. by apply session_closed_tame.
    - apply total_seq; [solve_total|]. intros _. apply total_lift. by destruct r'. }
  destruct r as [[]|e|]; [| |done].
  - specialize (Ht (Ok tt) ltac:(done)). cbv iota in Ht |- *.
    exact (proj1 (ends_run _ _ (S (rv s1)) _ _ s1 (Ht _) Hc (Nat.lt_succ_diag_r _))).
  - specialize (Ht (Err e) ltac:(done)). cbv iota in Ht |- *.
    exact (proj1 (ends_run _ _ (S (rv s1)) _ _ s1 (Ht _) Hc (Nat.lt_succ_diag_r _))).
Qed.
End Session.
