(* ===== verification/TotalityRequester.v ===== *)
(** * Termination: the requester

    Every request of the requester ends, whatever the server sends, when the
    fuel is above the turns of all that may arrive, and again after refusals,
    which the requester goes on from. *)

From S2P Require Import Prelude Diag Pi Kinds Crc Ebcdic Fpdu FpduCodec Params Frame State Article Builder.
From S2P Require Import Checkpoint ArticleIo Link LinkProps Datapath Requester Responder.
From S2P Require Import Totality TotalityData TotalityEngines.
Open Scope Z_scope.
Import Fpdu.

(** ** Keeping an invariant

    A computation that keeps [I], on errors too, and never panics. *)

Section Keeps.
Context {S : Type} (I : S → Prop).

Definition keeps {A} (m : M S A) (Q : A → Prop) : Prop := ∀ s, I s → wp (λ s' _, I s') m (λ s' a, I s' ∧ Q a) s.

Lemma keeps_of_ends {A} μ k (m : M S A) Q : (∀ s, I s → (μ s < k)%nat) → ends I μ k m Q → keeps m Q.
Proof. intros Hk Hm s Hs. eapply wp_mono; [by apply Hm; [|apply Hk]|]. naive_solver. Qed.

Lemma keeps_of_total {A} μ (m : M S A) Q : total I μ m Q → keeps m Q.
Proof. intros Hm s Hs. eapply wp_mono; [by apply (total_wp _ μ)|]. naive_solver. Qed.

Lemma keeps_bind {A B} (m : M S A) (f : A → M S B) Q Q' :
  keeps m Q → (∀ a, Q a → keeps (f a) Q') → keeps (m ≫= f) Q'.
Proof. intros Hm Hf s Hs. apply wp_bind. eapply wp_mono; [by apply Hm|]. intros s' a [Hs' HQ]. by apply Hf. Qed.

Lemma keeps_then {A B} (m : M S A) (f : A → M S B) Q :
  keeps m (λ _, True) → (∀ a, keeps (f a) Q) → keeps (m ≫= f) Q.
Proof. intros Hm Hf. by eapply keeps_bind; [|intros a _; apply Hf]. Qed.

Lemma keeps_ret {A} (a : A) (Q : A → Prop) : Q a → keeps (mret a) Q.
Proof. intros HQ s Hs. by apply wp_ret. Qed.

Lemma keeps_raise {A} e (Q : A → Prop) : keeps (raise e) Q.
Proof. intros s Hs. by apply wp_raise. Qed.

Lemma keeps_gets {A} (f : S → A) : keeps (gets f) (λ _, True).
Proof. intros s Hs. by apply wp_gets. Qed.

Lemma keeps_lift {A} (r : outcome SessionError A) : no_panic r → keeps (lift r) (λ _, True).
Proof. intros Hr s Hs. unfold wp, lift. by destruct r. Qed.

Lemma keeps_true {A} (m : M S A) Q : keeps m Q → keeps m (λ _, True).
Proof. intros Hm s Hs. eapply wp_mono; [by apply Hm|]. naive_solver. Qed.

(** It never panics, and the invariant holds in the end. *)
Lemma keeps_run {A} (m : M S A) Q s : keeps m Q → I s → (m s).2 ≠ Panic ∧ I (m s).1.
Proof. intros Hm Hs. specialize (Hm s Hs). unfold wp in Hm. destruct (m s) as [s' [a|e|]]; naive_solver. Qed.

Lemma keeps_step {A} (m : M S A) (Q : A → Prop) : (∀ s, I s → I (m s).1 ∧ safe (m s).2 Q) → keeps m Q.
Proof. intros Hm s Hs. destruct (Hm s Hs) as [H1 H2]. unfold wp, safe in *. by destruct (m s) as [s' [a|e|]]. Qed.
End Keeps.

Lemma keeps_zoom {S T A} (I : S → Prop) (J : T → Prop) (get : S → T) (put : T → S → S) (m : M T A) Q :
  (∀ s, I s → J (get s)) → (∀ s t, I s → J t → I (put t s)) → keeps J m Q → keeps I (zoom get put m) Q.
Proof.
  intros Hg Hp Hm s Hs. apply wp_zoom. specialize (Hm (get s) (Hg s Hs)). unfold wp in *.
  destruct (m (get s)) as [t [a|e|]]; naive_solver.
Qed.

Create HintDb keeps.
#[export] Hint Resolve keeps_raise keeps_gets : keeps.

Ltac keeps_step_tac :=
  match goal with
  | |- ∀ _, _ => intros ?
  | |- keeps _ (mret _) _ => by apply keeps_ret
  | |- keeps _ (lift Panic) _ => fail 1
  | |- keeps _ _ _ => solve [eauto with keeps]
  | |- keeps _ (_ ≫= _) _ => apply keeps_then
  | |- keeps _ (let '(_, _) := ?x in _) _ => destruct x
  | |- keeps _ (match ?x with _ => _ end) _ => destruct x
  end.
Ltac solve_keeps := repeat keeps_step_tac.

(** ** Requests *)

Section Requests.
Context (bound n fuel : nat) (Hfuel : (turns n bound < fuel)%nat).

Definition session_calm (s : Requester_) : Prop := conn_calm bound (rq_conn s).

Lemma calm_fuel c : conn_calm bound c → (turns n (conn_load c) < fuel)%nat.
Proof.
  intros [_ Hl]. eapply Nat.le_lt_trans; [|exact Hfuel]. by apply (increasing_le (turns n)).
Qed.

Lemma keeps_conn_total {A} (m : M Conn A) Q :
  total (conn_calm bound) (λ c, turns n (conn_load c)) m Q → keeps (conn_calm bound) m Q.
Proof. apply keeps_of_total. Qed.

Lemma keeps_conn_ends {A} (m : M Conn A) Q :
  ends (conn_calm bound) (λ c, turns n (conn_load c)) fuel m Q → keeps (conn_calm bound) m Q.
Proof. apply keeps_of_ends, calm_fuel. Qed.

Lemma keeps_on_conn {A} (m : M Conn A) Q : keeps (conn_calm bound) m Q → keeps session_calm (on_conn m) Q.
Proof. by apply keeps_zoom. Qed.

Lemma keeps_request f event expect : keeps session_calm (request fuel f event expect) (λ _, True).
Proof.
  apply keeps_on_conn, keeps_conn_ends. ends_steps. apply ends_await; apply _.
Qed.

Lemma keeps_set_max m : keeps session_calm (modify (set_rq_max_entity m)) (λ _, True).
Proof. by apply keeps_step. Qed.

Lemma keeps_unless_refused m : keeps session_calm m (λ _, True) → keeps session_calm (unless_refused m) (λ _, True).
Proof.
  intros Hm s Hs. specialize (Hm s Hs). unfold wp, unless_refused in *. by destruct (m s) as [s' [a|[]|]].
Qed.

Lemma check_counts_safe ack b a : no_panic (check_counts ack b a).
Proof. unfold check_counts. repeat case_match; done. Qed.

Hint Resolve keeps_request keeps_set_max keeps_unless_refused : keeps.
Hint Extern 1 (keeps _ (lift _) _) => apply keeps_lift, check_counts_safe : keeps.

Lemma keeps_open_file f req event expect : keeps session_calm (open_file fuel f req event expect) (λ _, True).
Proof. unfold open_file. solve_keeps. Qed.
Lemma keeps_open_data : keeps session_calm (open_data fuel) (λ _, True).
Proof. unfold open_data. solve_keeps. Qed.
Lemma keeps_close_transfer data : keeps session_calm (close_transfer fuel data) (λ _, True).
Proof.
  unfold close_transfer. apply keeps_then; [solve_keeps|]. intros peer.
  apply keeps_then; [|intros diag; apply keeps_then; [|intros diag']; apply keeps_unless_refused; solve_keeps].
  destruct (dr_end data); try (apply keeps_unless_refused); solve_keeps.
Qed.
Lemma keeps_release : keeps session_calm (release fuel) (λ _, True).
Proof. unfold release. solve_keeps. Qed.

(** *** Messages *)

Lemma keeps_send_all fs : keeps (conn_calm bound) (c_on_link (send_all fs)) (λ _, True).
Proof.
  apply keeps_conn_total, total_c_on_link. induction fs as [|f fs IH]; cbn [send_all]; [by apply total_ret|].
  eapply total_then; [apply total_send|exact IH].
Qed.

Lemma keeps_segmented_reply reply : keeps (conn_calm bound) (segmented_reply reply) (λ _, True).
Proof. apply keeps_conn_total. unfold segmented_reply. solve_total. Qed.
End Requests.

#[export] Hint Resolve keeps_request keeps_set_max keeps_unless_refused keeps_open_file keeps_open_data keeps_close_transfer
  keeps_release keeps_send_all keeps_segmented_reply : keeps.
#[export] Hint Extern 1 (keeps _ (lift _) _) => apply keeps_lift, check_counts_safe : keeps.

Section Whole.
Context (bound n fuel : nat) (Hfuel : (turns n bound < fuel)%nat).
Notation sc := (session_calm bound).
Notation cc := (conn_calm bound).

Lemma keeps_c_local ev : keeps cc (c_apply_local ev) (λ _, True).
Proof. apply (keeps_conn_total bound n), total_c_apply_local. Qed.
Lemma keeps_c_send f : keeps cc (c_on_link (send f)) (λ _, True).
Proof. apply (keeps_conn_total bound n), total_c_on_link, total_send. Qed.
Lemma keeps_c_recv : keeps cc (c_on_link recv) (λ _, True).
Proof. eapply (keeps_conn_total bound n), total_weaken; [apply takes_total, takes_c_recv; apply _|done]. Qed.
Hint Resolve keeps_c_local keeps_c_send keeps_c_recv : keeps.

Lemma keeps_send_message f message reply : keeps sc (send_message fuel f message reply) (λ _, True).
Proof.
  unfold send_message. do 3 (apply keeps_then; [solve_keeps|intros ?]). cbv zeta. apply keeps_then; [|solve_keeps].
  destruct (_ <=? _)%nat; [solve_keeps|]. apply keeps_on_conn. solve_keeps.
Qed.

(** Connecting: the pre-connection, CONNECT and its reply. *)
Lemma keeps_connect cfg : keeps cc (connect cfg) (λ s, sc s).
Proof.
  unfold connect. apply keeps_then; [|intros _].
  { destruct (preconnect cfg) as [pc|]; [|by apply keeps_ret].
    apply (keeps_conn_total bound n), total_c_on_link. unfold pre_connect.
    eapply total_then; [apply total_send_entity|].
    eapply total_bind; [apply takes_total, takes_recv_entity; apply _|]. intros reply _. solve_total. }
  apply keeps_then; [apply (keeps_conn_total bound n), total_c_on_link, total_set_crc; apply _|intros _]. cbv zeta.
  do 3 (apply keeps_then; [solve_keeps|intros ?]).
  apply keeps_then; [apply (keeps_conn_total bound n); unfold connect_reply; solve_total|intros _].
  apply keeps_step. intros c Hc. by split.
Qed.

(** *** With the resources of a transfer *)

Section Job.
Context {C X : Type} `{Checkpoint.CheckpointStore C} (P : X → Prop).

Definition job_calm (j : Job C X) : Prop := sc (j_session j) ∧ P (j_data j).

Lemma keeps_session {A} (m : M Requester_ A) Q : keeps sc m Q → keeps job_calm (session m) Q.
Proof. apply keeps_zoom; [by intros j []|]. by intros j s [_ ?] Hs. Qed.

Lemma keeps_job_store op : keeps job_calm (job_store op) (λ _, True).
Proof. apply keeps_step. intros j Hj. unfold job_store. by destruct (op _) as [c []]. Qed.

Lemma keeps_job_data {A} (op : X → X * outcome ArticleIo.IoError A) :
  (∀ x, P x → P (op x).1 ∧ no_panic (op x).2) → keeps job_calm (job_data op) (λ _, True).
Proof.
  intros Hop. apply keeps_step. intros j [Hs Hx]. unfold job_data. destruct (Hop _ Hx) as [H1 H2]. unfold no_panic in *.
  destruct (op (j_data j)) as [x r]. cbn in *. by destruct r.
Qed.
End Job.

Hint Resolve keeps_session keeps_job_store : keeps.

Lemma keeps_finish_transfer {C X} `{Checkpoint.CheckpointStore C} (P : X → Prop) ack f start data
    (on_complete : M (Job C X) unit) :
  keeps (job_calm P) on_complete (λ _, True) →
  keeps (job_calm P) (finish_transfer fuel ack f start data on_complete) (λ _, True).
Proof.
  intros Hc. unfold finish_transfer. apply keeps_then; [eauto with keeps|]. intros diag.
  apply keeps_then; [|solve_keeps]. destruct (_ && _); solve_keeps.
Qed.

Section Sending.
Context {C Src : Type} `{Checkpoint.CheckpointStore C} `{TameSource Src}.
Notation jc := (job_calm (C := C) (source_ok (Src := Src) n)).

Lemma keeps_restart (o : option Checkpoint) e : keeps jc (lift (ok_or o e)) (λ _, True).
Proof. apply keeps_lift. by destruct o. Qed.
Hint Resolve keeps_restart : keeps.

Lemma keeps_open_write f : keeps jc (open_write fuel f) (λ _, True).
Proof. unfold open_write. solve_keeps. Qed.

Lemma keeps_send_data params start : keeps jc (send_data_of fuel params start) (λ _, True).
Proof.
  intros j [Hs Hx]. unfold send_data_of. apply wp_zoom.
  pose proof (send_data_wp bound n params start fuel (job_env j, send_start params (j_data j) start) Hs Hx) as Hw.
  unfold wp in *. destruct (send_data fuel params start _) as [[e x] [a|er|]]; cbn [fst snd] in *.
  - destruct Hw as [[He Hd] _]; [by apply (calm_fuel bound n fuel Hfuel (rq_conn (j_session j)))|]. done.
  - destruct Hw as [He Hd]; [by apply (calm_fuel bound n fuel Hfuel (rq_conn (j_session j)))|]. done.
  - by apply Hw, (calm_fuel bound n fuel Hfuel (rq_conn (j_session j))).
Qed.
Hint Resolve keeps_open_write keeps_send_data : keeps.

Lemma keeps_send_file spec : keeps jc (send_file fuel spec) (λ _, True).
Proof.
  unfold send_file. apply keeps_then; [solve_keeps|]. intros f. apply keeps_then; [solve_keeps|]. intros [[created params] start].
  apply keeps_then; [solve_keeps|]. intros data. by apply keeps_finish_transfer, keeps_ret.
Qed.
End Sending.

Section Receiving.
Context {C K : Type} `{Checkpoint.CheckpointStore C} `{TameSink K}.
Notation jc := (job_calm (C := C) (sink_ok (K := K))).

Lemma keeps_sink_restart (o : option Checkpoint) e : keeps jc (lift (ok_or o e)) (λ _, True).
Proof. apply keeps_lift. by destruct o. Qed.
Hint Resolve keeps_sink_restart : keeps.
Hint Extern 1 (keeps _ (job_data _) _) =>
  apply keeps_job_data; first [intros ? ?; by apply sink_truncate_tame | exact sink_finish_tame] : keeps.

Lemma keeps_open_read spec f : keeps jc (open_read fuel spec f) (λ _, True).
Proof. unfold open_read. solve_keeps. Qed.

Lemma keeps_receive_data params start : keeps jc (receive_data_of fuel params start) (λ _, True).
Proof.
  unfold receive_data_of. eapply (keeps_zoom _ (receive_calm bound)).
  - by intros j [Hs Hx].
  - by intros j [e x] _ [He Hx].
  - apply (keeps_of_ends _ (receive_variant (turns n)) fuel).
    + intros st [He _]. destruct He as [_ Hl]. eapply Nat.le_lt_trans; [|exact Hfuel]. by apply (increasing_le (turns n)).
    + apply ends_receive_data; [apply _|]. intros x. unfold turns. nia.
Qed.
Hint Resolve keeps_open_read keeps_receive_data : keeps.

Lemma keeps_receive_file spec : keeps jc (receive_file fuel spec) (λ _, True).
Proof.
  unfold receive_file. apply keeps_then; [solve_keeps|]. intros f. apply keeps_then; [solve_keeps|]. intros [[created params] start].
  apply keeps_then; [solve_keeps|]. intros data. apply keeps_finish_transfer, keeps_job_data, sink_finish_tame.
Qed.
End Receiving.
End Whole.
