(* ===== verification/TotalityNode.v ===== *)
(** * Termination: files and the node

    The source that reads a file and the application of the server are what
    the termination of a session asks for, so a session of the node ends
    whatever its peer, the disk and the store do. *)

From Stdlib Require Import String.
From S2P Require Import Prelude Diag Pi Kinds Crc Ebcdic Fpdu FpduCodec Params Frame State Article CutterProps Builder.
From S2P Require Import Checkpoint ArticleIo ArticleIoProps Link LinkProps Datapath Requester Responder.
From S2P Require Import Totality TotalityData TotalityEngines DocStore NodeModel NodeHandler NodeProps NodeRecords.
Open Scope Z_scope.
Import ArticleIo.

(** ** The source that reads a file

    Wherever it is rewound to and whatever the calls of the operating system
    give, what is left to cut came from the file. *)

Record file_tame (n : nat) (s : FileSource) : Prop := {
  ft_size : (length (fs_file s) ≤ n)%nat;
  ft_record : (0 < Article.record_len (fs_cutter s))%nat;
  ft_cutter : cutter_ok (fs_cutter s);
  ft_avail : (length (avail (fs_cutter s)) ≤ fs_file_pos s)%nat;
  ft_left : (length (left_over s) ≤ length (fs_file s))%nat;
}.

Definition unread (s : FileSource) : nat := length (fs_file s) - fs_file_pos s.

Lemma left_over_length s : length (left_over s) = (length (avail (fs_cutter s)) + unread s)%nat.
Proof. unfold left_over, unread. by rewrite length_app, length_drop. Qed.

Lemma open_tame n file io fmt rl eb :
  (length file ≤ n)%nat → file_tame n (with_ebcdic (file_source_open file io fmt rl) eb).
Proof.
  intros Hn. split; rewrite ?left_over_length; unfold unread, cutter_ok, avail; cbn; try done; lia.
Qed.

(** The cutter moved on over what it had. *)
Lemma with_article_tame n s c pos :
  file_tame n s → (0 < Article.record_len c)%nat → cutter_ok c →
  (length (avail c) ≤ length (avail (fs_cutter s)))%nat →
  file_tame n (with_article s c pos)
  ∧ (length (left_over (with_article s c pos)) + length (avail (fs_cutter s))
     = length (left_over s) + length (avail c))%nat.
Proof.
  intros [Hs Hr Hc Ha Hl] Hr' Hc' Hle. rewrite !left_over_length in *. unfold unread in *. cbn.
  split; [|lia]. split; rewrite ?left_over_length; unfold unread; cbn; try done; lia.
Qed.

Lemma fill_tame n s :
  file_tame n s →
  let '(s', r) := fill s in
  file_tame n s' ∧ no_panic r ∧ length (left_over s') = length (left_over s) ∧ (unread s' ≤ unread s)%nat
  ∧ (r = Ok true → fs_eof s' = fs_eof s ∧ (unread s' < unread s)%nat) ∧ (r = Ok false → fs_eof s' = true).
Proof.
  intros Hs. pose proof Hs as [Hn Hr Hc Ha Hl]. unfold fill. destruct (os_call (fs_io s)) as [io [k|]].
  2: { by split_and!. }
  unfold os_read. set (rest := drop (fs_file_pos s) (fs_file s)). set (m := Nat.min (Nat.max k 1) BUFFER).
  destruct (decide (take m rest = [])) as [Hb|Hb].
  { by split_and!. }
  assert (0 < length (take m rest) ≤ unread s)%nat as Hlen.
  { split; [by destruct (take m rest); [|cbn; lia]|]. unfold unread. rewrite length_take. unfold rest. rewrite length_drop. lia. }
  pose proof (push_format (fs_cutter s) (take m rest)) as [_ Er].
  pose proof (avail_push (fs_cutter s) (take m rest) Hc) as Ep.
  rewrite left_over_length in Hl. unfold unread in Hl, Hlen.
  split_and!; try done; rewrite ?left_over_length; unfold unread; cbn [fs_cutter fs_file fs_file_pos]; rewrite ?Ep, ?length_app.
  2-3: lia.
  - split; rewrite ?left_over_length; unfold unread; cbn [fs_cutter fs_file fs_file_pos]; rewrite ?Ep, ?length_app, ?Er; try done; try lia.
    by apply push_ok.
  - intros _. split; [done|]. lia.
Qed.

(** A call gives an article that takes something of what is left, or none. *)
Definition next_tame (n : nat) (s s' : FileSource) (r : outcome IoError (option bytes)) : Prop :=
  file_tame n s' ∧ no_panic r ∧ (length (left_over s') ≤ length (left_over s))%nat
  ∧ (∀ a, r = Ok (Some a) → (length (left_over s') < length (left_over s))%nat).

Lemma cut_tame n s a k :
  file_tame n s → next_avail (Article.format (fs_cutter s)) (Article.record_len (fs_cutter s)) (avail (fs_cutter s)) = Ok (Some (a, k)) →
  let c := Article.advance (fs_cutter s) k in
  let b := (length (avail (fs_cutter s)) - k)%nat in
  Article.buffered c = Ok b ∧ sub_usize (E:=IoError) (fs_file_pos s) b = Ok (fs_file_pos s - b)%nat
  ∧ ∀ pos r, next_tame n s (with_article s c pos) (Ok r).
Proof.
  intros Hs Hn. apply next_avail_consumes in Hn as Hk; [|by destruct Hs]. pose proof Hs as [_ Hr Hc Ha _].
  unfold cutter_ok in Hc. assert (length (avail (fs_cutter s)) = length (Article.cbuf (fs_cutter s)) - Article.cpos (fs_cutter s))%nat as El
    by (unfold avail; by rewrite length_drop).
  split_and!.
  - unfold Article.buffered. rewrite sub_usize_ok by (cbn; lia). cbn. f_equal. lia.
  - by rewrite sub_usize_ok by lia.
  - intros pos r.
    destruct (with_article_tame n s (Article.advance (fs_cutter s) k) pos Hs) as [Ht E]; try done.
    + unfold cutter_ok. cbn. lia.
    + rewrite avail_advance, length_drop. lia.
    + rewrite avail_advance, length_drop in E. split_and!; [done|done|lia|intros _ _; lia].
Qed.

Lemma finish_tame n s :
  file_tame n s →
  let '(c, r) := Article.finish (fs_cutter s) in
  no_panic r ∧ ∀ pos, file_tame n (with_article s c pos)
  ∧ (length (left_over (with_article s c pos)) ≤ length (left_over s))%nat
  ∧ (∀ a, r = Ok (Some a) → (length (left_over (with_article s c pos)) < length (left_over s))%nat).
Proof.
  intros Hs. pose proof Hs as [_ Hr Hc Ha _]. rewrite finish_last by done.
  assert (∀ c, avail (Article.mkArticleCutter (Article.format c) (Article.record_len c) (Article.cbuf c) (length (Article.cbuf c))) = []) as E0
    by (intros c; apply drop_all).
  split.
  - unfold last_article, text_article_of, Article.text_article. repeat case_match; simplify_eq; done.
  - intros pos. destruct (with_article_tame n s (Article.mkArticleCutter (Article.format (fs_cutter s)) (Article.record_len (fs_cutter s))
      (Article.cbuf (fs_cutter s)) (length (Article.cbuf (fs_cutter s)))) pos Hs) as [Ht E]; try done.
    + unfold cutter_ok. by cbn.
    + rewrite E0. cbn. lia.
    + rewrite E0 in E. cbn [length] in E. split_and!; [done|lia|]. intros a. unfold last_article.
      destruct (decide (avail (fs_cutter s) = [])) as [|Hne]; [done|]. intros _.
      assert (length (avail (fs_cutter s)) ≠ 0%nat) by (by rewrite length_zero_iff_nil). lia.
Qed.

Lemma file_next_loop_tame n fuel s :
  file_tame n s → ((if fs_eof s then 1 else 2 + unread s) ≤ fuel)%nat →
  next_tame n s (file_next_loop fuel s).1 (file_next_loop fuel s).2.
Proof.
  revert s. induction fuel as [|fuel IH]; intros s Hs Hfuel; [destruct (fs_eof s); lia|].
  cbn [file_next_loop]. rewrite next_article_avail by apply Hs.
  assert (∀ r, no_panic r → (∀ a, r ≠ Ok (Some a)) → next_tame n s s r) as Hsame
    by (intros r H1 H2; split_and!; [done|done|lia|]; intros a E; by destruct (H2 a)).
  assert (with_article s (fs_cutter s) (fs_pos s) = s) as Ew by (by destruct s).
  destruct (next_avail _ _ _) as [[[a k]|]|e|] eqn:Hn; rewrite ?Ew.
  - destruct (cut_tame n s a k Hs Hn) as (->&->&Hcut). apply Hcut.
  - destruct (fs_eof s) eqn:Heof.
    + pose proof (finish_tame n s Hs) as Hf. destruct (Article.finish (fs_cutter s)) as [c r]. destruct Hf as [Hr Hf].
      destruct r as [[a|]|e|]; [| | |done]; cbn [fst snd].
      all: match goal with |- next_tame _ _ (with_article _ _ ?pos) _ => destruct (Hf pos) as (Ht&Hle&Hlt) end.
      all: split_and!; [done|done|done|]; try done. intros _ _. by apply (Hlt a).
    + pose proof (fill_tame n s Hs) as Hfill. destruct (fill s) as [s1 r1].
      destruct Hfill as (Hs1&Hr1&El&Hle&Htrue&Hfalse).
      assert (∀ b, r1 = Ok b → next_tame n s (file_next_loop fuel s1).1 (file_next_loop fuel s1).2) as Hrec.
      { intros b ->. unfold next_tame. rewrite <-El. apply IH; [done|].
        destruct b; [destruct (Htrue eq_refl) as [-> ?]; rewrite Heof; lia|].
        rewrite (Hfalse eq_refl). lia. }
      destruct r1 as [b|e|]; [by apply (Hrec b)| |done]. unfold next_tame. cbn [fst snd]. by rewrite El.
  - by apply Hsame.
  - by destruct (next_avail_no_panic _ _ _ Hn).
Qed.

#[global] Instance file_source_tame : TameSource FileSource.
Proof.
  refine {| source_ok := file_tame; articles_left s := length (left_over s) |}.
  - intros n s [Hn _ _ _ Hl]. lia.
  - intros n s Hs. cbn [source_next file_source]. unfold file_source_next.
    pose proof (file_next_loop_tame n (2 + (length (fs_file s) - fs_file_pos s)) s Hs) as H.
    destruct (file_next_loop _ s) as [s' r]. destruct H as (?&?&?&?); [|done].
    unfold unread. by destruct (fs_eof s); [lia|].
  - intros n s p [Hn Hr Hc Ha Hl]. cbn [source_rewind file_source]. unfold file_source_rewind.
    destruct (os_call (fs_io s)) as [io [k|]]; (split; [|done]).
    + split; rewrite ?left_over_length; unfold unread, cutter_ok, avail; cbn; try done; lia.
    + by split.
Defined.

(** ** The application of the server

    Every file that a world offers has at most [n] bytes. *)

Definition hosted (n : nat) (h : PwHandler) : Prop :=
  ∀ i path content, w_open (h_worlds h i) path = inl content → (length content ≤ n)%nat.

Definition hosts {A} (n : nat) (m : H A) (Q : A → Prop) : Prop :=
  ∀ h, hosted n h → hosted n (m h).1 ∧ ∀ a, (m h).2 = inl a → Q a.

Section Handler.
Context (n : nat).

Lemma hosts_bind {A B} (m : H A) (f : A → H B) Q Q' :
  hosts n m Q → (∀ a, Q a → hosts n (f a) Q') → hosts n (m ≫= f) Q'.
Proof.
  intros Hm Hf h Hh. destruct (Hm h Hh) as [H1 H2]. unfold mbind, H_bind. destruct (m h) as [h1 [a|r]]; [|done].
  by apply Hf; [apply H2|].
Qed.

Lemma hosts_weaken {A} (m : H A) (Q Q' : A → Prop) : hosts n m Q → (∀ a, Q a → Q' a) → hosts n m Q'.
Proof. intros Hm HQ h Hh. destruct (Hm h Hh) as [H1 H2]. split; [done|]. intros a E. by apply HQ, H2. Qed.

(** The steps that leave the worlds alone. *)
Lemma hosts_same {A} (m : H A) (Q : A → Prop) :
  (∀ h, h_worlds (m h).1 = h_worlds h) → (∀ h a, (m h).2 = inl a → Q a) → hosts n m Q.
Proof. intros Hm HQ h Hh. split; [unfold hosted; by rewrite Hm|apply HQ]. Qed.

Lemma hosts_ret {A} (a : A) (Q : A → Prop) : Q a → hosts n (mret a) Q.
Proof. intros HQ. apply hosts_same; [done|]. by intros h b [= <-]. Qed.

Lemma hosts_refuse {A} d m (Q : A → Prop) : hosts n (refuse d m) Q.
Proof. by apply hosts_same. Qed.

Lemma hosts_guard ok d m : hosts n (guard ok d m) (λ _, True).
Proof. by apply hosts_same; [destruct ok|]. Qed.

Lemma hosts_gets {A} (f : PwHandler → A) : hosts n (h_gets f) (λ _, True).
Proof. by apply hosts_same. Qed.

Lemma hosts_world : hosts n (h_gets world_of) (λ w, ∀ p b, w_open w p = inl b → (length b ≤ n)%nat).
Proof. intros h Hh. split; [done|]. intros w [= <-] p b. apply Hh. Qed.

Lemma hosts_modify f : (∀ h, h_worlds (f h) = h_worlds h) → hosts n (h_modify f) (λ _, True).
Proof. intros Hf. by apply hosts_same. Qed.

Lemma hosts_store {A} (op : Store → Store * A) : hosts n (on_store op) (λ _, True).
Proof. apply hosts_same; [|done]. intros h. unfold on_store. by destruct (op _). Qed.

Lemma hosts_true {A} (m : H A) Q : hosts n m Q → hosts n m (λ _, True).
Proof. intros Hm. by eapply hosts_weaken. Qed.
End Handler.

Create HintDb hosts.
#[export] Hint Resolve hosts_refuse hosts_guard hosts_gets hosts_store hosts_modify : hosts.
#[export] Hint Extern 1 (hosts _ (mret _) _) => by apply hosts_ret : hosts.

(** One step, and all of them. *)
Ltac hosts_step :=
  match goal with
  | |- hosts _ (h_gets world_of ≫= _) _ => eapply hosts_bind; [apply hosts_world|intros ? ?]
  | |- hosts _ (_ ≫= _) _ => eapply hosts_bind; [|intros ? _]
  | |- hosts _ (let '(_, _) := ?x in _) _ => destruct x as [? ?]
  | |- hosts _ (match ?x with _ => _ end) _ => destruct x
  | |- hosts _ _ _ => solve [eauto with hosts]
  end.
Ltac solve_hosts := repeat hosts_step.

Lemma hosts_partner n id : hosts n (partner id) (λ _, True).
Proof. unfold partner. solve_hosts. Qed.
Lemma hosts_virtual_file n id : hosts n (virtual_file id) (λ _, True).
Proof. unfold virtual_file. solve_hosts. Qed.
#[export] Hint Resolve hosts_partner hosts_virtual_file : hosts.

Lemma hosts_authenticate n req : hosts n (pw_authenticate req) (λ _, True).
Proof. unfold pw_authenticate. solve_hosts. Qed.

Section Steps.
Context (n : nat) (of_json : bytes → option Checkpoint.MemoryCheckpoints).
Notation plain m := (hosts n m (λ _, True)).

Lemma hosts_check_partner session file write : plain (check_partner session file write).
Proof. unfold check_partner. solve_hosts. Qed.
Lemma hosts_transfer_id requested : plain (pesit_transfer_id requested).
Proof. unfold pesit_transfer_id. solve_hosts. Qed.
Lemma hosts_io_refuse {A} e m : plain (io_refuse (A:=A) e m).
Proof. apply hosts_refuse. Qed.
Hint Resolve hosts_check_partner hosts_transfer_id hosts_io_refuse : hosts.

Lemma hosts_open_checkpoints key w : plain (open_checkpoints of_json key w).
Proof. unfold open_checkpoints. solve_hosts. Qed.
Lemma hosts_interrupted_record p f tid : plain (interrupted_record p f tid).
Proof. unfold interrupted_record. solve_hosts. Qed.
Lemma hosts_receivable file : plain (receivable file).
Proof. unfold receivable. solve_hosts. Qed.
Lemma hosts_sendable_file file : plain (sendable_file file).
Proof. unfold sendable_file. solve_hosts. Qed.
Lemma hosts_receive_target w vf session file tid previous cps :
  plain (receive_target w vf session file tid previous cps).
Proof. unfold receive_target. solve_hosts. Qed.
Lemma hosts_open_sink w vf path restart eb : plain (open_sink w vf path restart eb).
Proof. unfold open_sink. solve_hosts. Qed.
Lemma hosts_send_path w vf session file tid : plain (send_path w vf session file tid).
Proof. unfold send_path. solve_hosts. Qed.
Lemma hosts_register w record : plain (register w record).
Proof. unfold register. solve_hosts. Qed.
Hint Resolve hosts_open_checkpoints hosts_interrupted_record hosts_receivable hosts_sendable_file hosts_receive_target
  hosts_open_sink hosts_send_path hosts_register : hosts.

Lemma hosts_start_record w record change : plain (start_record w record change).
Proof. unfold start_record. solve_hosts. Qed.
Hint Resolve hosts_start_record : hosts.

Lemma hosts_create session file : plain (pw_create of_json session file).
Proof.
  unfold pw_create. repeat hosts_step.
Qed.

Lemma hosts_message session file message reply : plain (pw_message session file message reply).
Proof. unfold pw_message. solve_hosts. Qed.

(** The source of a transfer is a file of the world. *)
Lemma hosts_select session file attrs :
  hosts n (pw_select of_json session file attrs) (λ a, file_tame n (sa_source a)).
Proof.
  unfold pw_select. eapply hosts_bind; [apply hosts_world|]. intros w Hw. do 5 (eapply hosts_bind; [solve_hosts|intros ? _]).
  eapply (hosts_bind _ _ _ (λ b, (length b ≤ n)%nat)).
  { destruct (w_open w _) as [b|e] eqn:E; [|apply hosts_refuse]. apply hosts_ret. by apply (Hw _ _ E). }
  intros content Hn. repeat (eapply hosts_bind; [solve_hosts|intros ? _]). apply hosts_ret. by apply open_tame.
Qed.

Lemma event_worlds session handle ev h : h_worlds (pw_transfer_event session handle ev h) = h_worlds h.
Proof.
  unfold pw_transfer_event. destruct (h_active h !! handle) as [a|]; [|done].
  destruct ev as [| |data diag|]; [done|by destruct (worth_storing _ _ _)| |done].
  destruct (get_record _ _) as [s found]. unfold upload. by repeat case_match.
Qed.

Lemma hosts_calling {A} (m : H A) Q h :
  hosts n m Q → hosted n h → hosted n (calling m h).1 ∧ ∀ a, (calling m h).2 = inl a → Q a.
Proof. intros Hm Hh. destruct (Hm h Hh) as [H1 H2]. unfold calling. by destruct (m h) as [h' r]. Qed.

#[export] Instance pw_handler_tame :
  TameHandler (H := pw_handler of_json) n PwHandler Checkpoint.FileCheckpoints FileSink FileSource.
Proof.
  refine {| handler_ok := hosted n |}; cbn -[calling].
  - intros h req Hh. by apply (hosts_calling _ _ h (hosts_authenticate n req)).
  - intros h i spec Hh. by apply (hosts_calling _ _ h (hosts_create i spec)).
  - intros h i spec attrs Hh. by apply (hosts_calling _ _ h (hosts_select i spec attrs)).
  - intros h i spec m e Hh. by apply (hosts_calling _ _ h (hosts_message i spec m e)).
  - intros h i handle ev Hh. unfold hosted. cbn. rewrite event_worlds. apply Hh.
  - done.
Defined.
End Steps.

(** ** A session of the node *)

(** C11: a session of the server ends, whatever the peer sends and in whatever order,
    however the entities arrive and fail, and whatever the store, the disk and the
    connectors do: the loops of the responder, of the data phase and of the source
    are left after as many turns as the bytes that arrive and the articles of the
    files call for, and no conversion, slice or count on the way panics. *)
Theorem node_session_ends to_json of_json fault cfg l h n fuel :
  hosted n h → Forall wf (Link.pending l) → Forall arrival_ok (rx l) → (turns n (load l) < fuel)%nat →
  (serve (H := pw_handler of_json) (H0 := Checkpoint.file_store to_json fault) fuel (responder_new cfg l h)).2 ≠ Panic.
Proof.
  intros Hh Hp Hr Hk.
  apply (serve_ends (H := pw_handler of_json) (H4 := pw_handler_tame n of_json) n (load l)); [|done].
  split; [|exact Hh]. split; [by split|done].
Qed.

(** A partner connects with check bytes and goes away. *)
Definition connect_entity : bytes :=
  entity_of false [Builder.connect (Builder.mkConnectParams (lit "BANK") (lit "NODE") (Some (lit "SECRET")) Version.E
    SyncOption.NONE AccessType.Mixed false false None None) 1].

Example node_session_ends_witness :
  let l := link_new [] [Entity connect_entity; Disconnected] in
  (0 < length (connect_entity))%nat ∧
  (serve (H := pw_handler NodeRecords.Sample.no_json) (H0 := Checkpoint.file_store (λ _, None) Checkpoint.NoFault)
     (S (turns 0 (load l))) (responder_new (mkResponderConfig [115] 9 [49]) l NodeRecords.Sample.h0)).2 ≠ Panic.
Proof.
  split; [vm_compute; lia|].
  apply (node_session_ends (λ _, None) NodeRecords.Sample.no_json Checkpoint.NoFault (mkResponderConfig [115] 9 [49])
    (link_new [] [Entity connect_entity; Disconnected]) NodeRecords.Sample.h0 0).
  - intros i p c [= <-]. cbn. lia.
  - constructor.
  - apply Forall_cons. split; [cbn [arrival_ok]; by_compute|]. by apply Forall_singleton.
  - lia.
Defined.
