(* ===== verification/ClientModel.v ===== *)
(** * Client configuration and records ([crates/pesit-client/src/model.rs])

    The servers to connect to, the identities towards them, the requests of
    the users and the history of transfers. *)

From Stdlib Require Import String.
From S2P Require Import Prelude Diag Ebcdic Params Link DocStore.
Open Scope Z_scope.

(** ** Servers and partners *)

Record PesitServer : Type := mkPesitServer {
  ps_id : ustring;
  ps_name : ustring;
  ps_host : ustring;
  ps_port : Z;
  ps_server_id : ustring;
  ps_description : option ustring;
  ps_tls_enabled : bool;
  ps_hostname_verification : bool;
  ps_insecure : bool;
  ps_ca_file : option ustring;
  ps_cert_file : option ustring;
  ps_key_file : option ustring;
  ps_tcpip_header : bool;
  ps_truststore_configured : bool;
  ps_keystore_configured : bool;
  ps_connection_timeout : Z;
  ps_read_timeout : Z;
  ps_enabled : bool;
  ps_default_server : bool;
  ps_crc_enabled : bool;
  ps_preconnect_id : option ustring;
  ps_preconnect_password : option ustring;
  ps_created_at : option ustring;
  ps_updated_at : option ustring;
}.

Definition pesit_server_default : PesitServer :=
  mkPesitServer [] [] [] 5000 [] None false true false None None None true false false 30000 60000 true false false
    None None None None.

Definition set_ps_id (x : ustring) (s : PesitServer) : PesitServer :=
  mkPesitServer
    x (ps_name s) (ps_host s) (ps_port s) (ps_server_id s) (ps_description s) (ps_tls_enabled s)
    (ps_hostname_verification s) (ps_insecure s) (ps_ca_file s) (ps_cert_file s) (ps_key_file s)
    (ps_tcpip_header s) (ps_truststore_configured s) (ps_keystore_configured s) (ps_connection_timeout s)
    (ps_read_timeout s) (ps_enabled s) (ps_default_server s) (ps_crc_enabled s) (ps_preconnect_id s)
    (ps_preconnect_password s) (ps_created_at s) (ps_updated_at s).
Definition set_ps_ca_file (x : option ustring) (s : PesitServer) : PesitServer :=
  mkPesitServer
    (ps_id s) (ps_name s) (ps_host s) (ps_port s) (ps_server_id s) (ps_description s) (ps_tls_enabled s)
    (ps_hostname_verification s) (ps_insecure s) x (ps_cert_file s) (ps_key_file s) (ps_tcpip_header s)
    (ps_truststore_configured s) (ps_keystore_configured s) (ps_connection_timeout s) (ps_read_timeout s)
    (ps_enabled s) (ps_default_server s) (ps_crc_enabled s) (ps_preconnect_id s) (ps_preconnect_password s)
    (ps_created_at s) (ps_updated_at s).
Definition set_ps_cert_file (x : option ustring) (s : PesitServer) : PesitServer :=
  mkPesitServer
    (ps_id s) (ps_name s) (ps_host s) (ps_port s) (ps_server_id s) (ps_description s) (ps_tls_enabled s)
    (ps_hostname_verification s) (ps_insecure s) (ps_ca_file s) x (ps_key_file s) (ps_tcpip_header s)
    (ps_truststore_configured s) (ps_keystore_configured s) (ps_connection_timeout s) (ps_read_timeout s)
    (ps_enabled s) (ps_default_server s) (ps_crc_enabled s) (ps_preconnect_id s) (ps_preconnect_password s)
    (ps_created_at s) (ps_updated_at s).
Definition set_ps_key_file (x : option ustring) (s : PesitServer) : PesitServer :=
  mkPesitServer
    (ps_id s) (ps_name s) (ps_host s) (ps_port s) (ps_server_id s) (ps_description s) (ps_tls_enabled s)
    (ps_hostname_verification s) (ps_insecure s) (ps_ca_file s) (ps_cert_file s) x (ps_tcpip_header s)
    (ps_truststore_configured s) (ps_keystore_configured s) (ps_connection_timeout s) (ps_read_timeout s)
    (ps_enabled s) (ps_default_server s) (ps_crc_enabled s) (ps_preconnect_id s) (ps_preconnect_password s)
    (ps_created_at s) (ps_updated_at s).
Definition set_ps_tls_enabled (x : bool) (s : PesitServer) : PesitServer :=
  mkPesitServer
    (ps_id s) (ps_name s) (ps_host s) (ps_port s) (ps_server_id s) (ps_description s) x
    (ps_hostname_verification s) (ps_insecure s) (ps_ca_file s) (ps_cert_file s) (ps_key_file s)
    (ps_tcpip_header s) (ps_truststore_configured s) (ps_keystore_configured s) (ps_connection_timeout s)
    (ps_read_timeout s) (ps_enabled s) (ps_default_server s) (ps_crc_enabled s) (ps_preconnect_id s)
    (ps_preconnect_password s) (ps_created_at s) (ps_updated_at s).
Definition set_ps_truststore_configured (x : bool) (s : PesitServer) : PesitServer :=
  mkPesitServer
    (ps_id s) (ps_name s) (ps_host s) (ps_port s) (ps_server_id s) (ps_description s) (ps_tls_enabled s)
    (ps_hostname_verification s) (ps_insecure s) (ps_ca_file s) (ps_cert_file s) (ps_key_file s)
    (ps_tcpip_header s) x (ps_keystore_configured s) (ps_connection_timeout s) (ps_read_timeout s) (ps_enabled s)
    (ps_default_server s) (ps_crc_enabled s) (ps_preconnect_id s) (ps_preconnect_password s) (ps_created_at s)
    (ps_updated_at s).
Definition set_ps_keystore_configured (x : bool) (s : PesitServer) : PesitServer :=
  mkPesitServer
    (ps_id s) (ps_name s) (ps_host s) (ps_port s) (ps_server_id s) (ps_description s) (ps_tls_enabled s)
    (ps_hostname_verification s) (ps_insecure s) (ps_ca_file s) (ps_cert_file s) (ps_key_file s)
    (ps_tcpip_header s) (ps_truststore_configured s) x (ps_connection_timeout s) (ps_read_timeout s) (ps_enabled s)
    (ps_default_server s) (ps_crc_enabled s) (ps_preconnect_id s) (ps_preconnect_password s) (ps_created_at s)
    (ps_updated_at s).
Definition set_ps_default_server (x : bool) (s : PesitServer) : PesitServer :=
  mkPesitServer
    (ps_id s) (ps_name s) (ps_host s) (ps_port s) (ps_server_id s) (ps_description s) (ps_tls_enabled s)
    (ps_hostname_verification s) (ps_insecure s) (ps_ca_file s) (ps_cert_file s) (ps_key_file s)
    (ps_tcpip_header s) (ps_truststore_configured s) (ps_keystore_configured s) (ps_connection_timeout s)
    (ps_read_timeout s) (ps_enabled s) x (ps_crc_enabled s) (ps_preconnect_id s) (ps_preconnect_password s)
    (ps_created_at s) (ps_updated_at s).
Definition set_ps_created_at (x : option ustring) (s : PesitServer) : PesitServer :=
  mkPesitServer
    (ps_id s) (ps_name s) (ps_host s) (ps_port s) (ps_server_id s) (ps_description s) (ps_tls_enabled s)
    (ps_hostname_verification s) (ps_insecure s) (ps_ca_file s) (ps_cert_file s) (ps_key_file s)
    (ps_tcpip_header s) (ps_truststore_configured s) (ps_keystore_configured s) (ps_connection_timeout s)
    (ps_read_timeout s) (ps_enabled s) (ps_default_server s) (ps_crc_enabled s) (ps_preconnect_id s)
    (ps_preconnect_password s) x (ps_updated_at s).
Definition set_ps_updated_at (x : option ustring) (s : PesitServer) : PesitServer :=
  mkPesitServer
    (ps_id s) (ps_name s) (ps_host s) (ps_port s) (ps_server_id s) (ps_description s) (ps_tls_enabled s)
    (ps_hostname_verification s) (ps_insecure s) (ps_ca_file s) (ps_cert_file s) (ps_key_file s)
    (ps_tcpip_header s) (ps_truststore_configured s) (ps_keystore_configured s) (ps_connection_timeout s)
    (ps_read_timeout s) (ps_enabled s) (ps_default_server s) (ps_crc_enabled s) (ps_preconnect_id s)
    (ps_preconnect_password s) (ps_created_at s) x.

(** The identity towards servers: [Partner] of the client. *)
Record Identity : Type := mkIdentity {
  id_id : ustring;
  id_partner_id : ustring;
  id_description : option ustring;
  id_password : option ustring;
  id_created_at : option ustring;
  id_updated_at : option ustring;
}.
Definition set_id_id (x : ustring) (p : Identity) : Identity :=
  mkIdentity
    x (id_partner_id p) (id_description p) (id_password p) (id_created_at p) (id_updated_at p).
Definition set_id_created_at (x : option ustring) (p : Identity) : Identity :=
  mkIdentity
    (id_id p) (id_partner_id p) (id_description p) (id_password p) x (id_updated_at p).
Definition set_id_updated_at (x : option ustring) (p : Identity) : Identity :=
  mkIdentity
    (id_id p) (id_partner_id p) (id_description p) (id_password p) (id_created_at p) x.

(** ** Requests *)

Record TransferRequest : Type := mkTransferRequest {
  tq_server : option ustring;
  tq_partner_id : option ustring;
  tq_password : option ustring;
  tq_filename : option ustring;
  tq_remote_filename : option ustring;
  tq_virtual_file : option ustring;
  tq_file_type : option Z;
  tq_transfer_config : option ustring;
  tq_correlation_id : option ustring;
  tq_compression_enabled : option bool;
  tq_priority : option Z;
  tq_sync_points_enabled : option bool;
  tq_sync_point_interval_bytes : option Z;
  tq_sync_point_interval : option Z;
  tq_resync_enabled : option bool;
  tq_resume_from_transfer_id : option ustring;
  tq_record_length : option Z;
  tq_text : option bool;
  tq_ebcdic : option bool;
  tq_crc_enabled : option bool;
  tq_max_entity_size : option Z;
  tq_label : option ustring;
  tq_client_id : option ustring;
  tq_bank_id : option ustring;
  tq_free_message : option ustring;
}.

Definition transfer_request_default : TransferRequest :=
  mkTransferRequest
    None None None None None None None None None None None None None None None None None None None None None None
    None None None.

Definition set_tq_server (x : option ustring) (r : TransferRequest) : TransferRequest :=
  mkTransferRequest
    x (tq_partner_id r) (tq_password r) (tq_filename r) (tq_remote_filename r) (tq_virtual_file r) (tq_file_type r)
    (tq_transfer_config r) (tq_correlation_id r) (tq_compression_enabled r) (tq_priority r)
    (tq_sync_points_enabled r) (tq_sync_point_interval_bytes r) (tq_sync_point_interval r) (tq_resync_enabled r)
    (tq_resume_from_transfer_id r) (tq_record_length r) (tq_text r) (tq_ebcdic r) (tq_crc_enabled r)
    (tq_max_entity_size r) (tq_label r) (tq_client_id r) (tq_bank_id r) (tq_free_message r).
Definition set_tq_filename (x : option ustring) (r : TransferRequest) : TransferRequest :=
  mkTransferRequest
    (tq_server r) (tq_partner_id r) (tq_password r) x (tq_remote_filename r) (tq_virtual_file r) (tq_file_type r)
    (tq_transfer_config r) (tq_correlation_id r) (tq_compression_enabled r) (tq_priority r)
    (tq_sync_points_enabled r) (tq_sync_point_interval_bytes r) (tq_sync_point_interval r) (tq_resync_enabled r)
    (tq_resume_from_transfer_id r) (tq_record_length r) (tq_text r) (tq_ebcdic r) (tq_crc_enabled r)
    (tq_max_entity_size r) (tq_label r) (tq_client_id r) (tq_bank_id r) (tq_free_message r).
Definition set_tq_remote_filename (x : option ustring) (r : TransferRequest) : TransferRequest :=
  mkTransferRequest
    (tq_server r) (tq_partner_id r) (tq_password r) (tq_filename r) x (tq_virtual_file r) (tq_file_type r)
    (tq_transfer_config r) (tq_correlation_id r) (tq_compression_enabled r) (tq_priority r)
    (tq_sync_points_enabled r) (tq_sync_point_interval_bytes r) (tq_sync_point_interval r) (tq_resync_enabled r)
    (tq_resume_from_transfer_id r) (tq_record_length r) (tq_text r) (tq_ebcdic r) (tq_crc_enabled r)
    (tq_max_entity_size r) (tq_label r) (tq_client_id r) (tq_bank_id r) (tq_free_message r).
Definition set_tq_partner_id (x : option ustring) (r : TransferRequest) : TransferRequest :=
  mkTransferRequest
    (tq_server r) x (tq_password r) (tq_filename r) (tq_remote_filename r) (tq_virtual_file r) (tq_file_type r)
    (tq_transfer_config r) (tq_correlation_id r) (tq_compression_enabled r) (tq_priority r)
    (tq_sync_points_enabled r) (tq_sync_point_interval_bytes r) (tq_sync_point_interval r) (tq_resync_enabled r)
    (tq_resume_from_transfer_id r) (tq_record_length r) (tq_text r) (tq_ebcdic r) (tq_crc_enabled r)
    (tq_max_entity_size r) (tq_label r) (tq_client_id r) (tq_bank_id r) (tq_free_message r).
Definition set_tq_resume_from_transfer_id (x : option ustring) (r : TransferRequest) : TransferRequest :=
  mkTransferRequest
    (tq_server r) (tq_partner_id r) (tq_password r) (tq_filename r) (tq_remote_filename r) (tq_virtual_file r)
    (tq_file_type r) (tq_transfer_config r) (tq_correlation_id r) (tq_compression_enabled r) (tq_priority r)
    (tq_sync_points_enabled r) (tq_sync_point_interval_bytes r) (tq_sync_point_interval r) (tq_resync_enabled r) x
    (tq_record_length r) (tq_text r) (tq_ebcdic r) (tq_crc_enabled r) (tq_max_entity_size r) (tq_label r)
    (tq_client_id r) (tq_bank_id r) (tq_free_message r).
Definition set_tq_password (x : option ustring) (r : TransferRequest) : TransferRequest :=
  mkTransferRequest
    (tq_server r) (tq_partner_id r) x (tq_filename r) (tq_remote_filename r) (tq_virtual_file r) (tq_file_type r)
    (tq_transfer_config r) (tq_correlation_id r) (tq_compression_enabled r) (tq_priority r)
    (tq_sync_points_enabled r) (tq_sync_point_interval_bytes r) (tq_sync_point_interval r) (tq_resync_enabled r)
    (tq_resume_from_transfer_id r) (tq_record_length r) (tq_text r) (tq_ebcdic r) (tq_crc_enabled r)
    (tq_max_entity_size r) (tq_label r) (tq_client_id r) (tq_bank_id r) (tq_free_message r).
Definition set_tq_sync_points_enabled (x : option bool) (r : TransferRequest) : TransferRequest :=
  mkTransferRequest
    (tq_server r) (tq_partner_id r) (tq_password r) (tq_filename r) (tq_remote_filename r) (tq_virtual_file r)
    (tq_file_type r) (tq_transfer_config r) (tq_correlation_id r) (tq_compression_enabled r) (tq_priority r) x
    (tq_sync_point_interval_bytes r) (tq_sync_point_interval r) (tq_resync_enabled r)
    (tq_resume_from_transfer_id r) (tq_record_length r) (tq_text r) (tq_ebcdic r) (tq_crc_enabled r)
    (tq_max_entity_size r) (tq_label r) (tq_client_id r) (tq_bank_id r) (tq_free_message r).

(** An absent name of the remote file gives way to its alias, an empty one does not. *)
Definition virtual_file_of (r : TransferRequest) : option ustring :=
  filled (match tq_remote_filename r with Some f => Some f | None => tq_virtual_file r end).

Definition clamp (lo hi x : Z) : Z := Z.min (Z.max x lo) hi.

Definition sync_interval_kb (r : TransferRequest) (default_kb : Z) : Z :=
  match tq_sync_point_interval_bytes r with
  | Some b => clamp 1 0xFFFE (b / 1024)
  | None =>
      match tq_sync_point_interval r with
      | Some v => if 0xFFFF <? v then clamp 1 0xFFFE (v / 1024) else if 0 <? v then Z.min v 0xFFFE else default_kb
      | None => default_kb
      end
  end.

Record MessageRequest : Type := mkMessageRequest {
  mq_server : option ustring;
  mq_partner_id : option ustring;
  mq_password : option ustring;
  mq_message : ustring;
  mq_message_name : option ustring;
  mq_correlation_id : option ustring;
  mq_expects_reply : bool;
}.

(** ** History *)

Module Outbound.

Inductive TransferDirection : Type := Send | Receive | Message.

Inductive TransferStatus : Type := Pending | InProgress | Completed | Failed | Cancelled | Interrupted.

#[global] Instance transfer_status_eq_dec : EqDecision TransferStatus.
Proof. solve_decision. Defined.

Definition is_final (s : TransferStatus) : bool := match s with Pending | InProgress => false | _ => true end.

End Outbound.

Record TransferHistory : Type := mkTransferHistory {
  th_id : ustring;
  th_server_id : option ustring;
  th_server_name : option ustring;
  th_partner_id : option ustring;
  th_direction : option Outbound.TransferDirection;
  th_local_filename : option ustring;
  th_remote_filename : option ustring;
  th_file_size : option Z;
  th_bytes_transferred : Z;
  th_status : Outbound.TransferStatus;
  th_error_message : option Note;
  th_diagnostic_code : option ustring;
  th_checksum : option ustring;
  th_correlation_id : option ustring;
  th_sync_points_enabled : bool;
  th_last_sync_point : Z;
  th_bytes_at_last_sync_point : Z;
  th_pesit_transfer_id : Z;
  th_request : option TransferRequest;
  th_started_at : option ustring;
  th_completed_at : option ustring;
  th_created_at : option ustring;
}.

Definition transfer_history_default : TransferHistory :=
  mkTransferHistory [] None None None None None None None 0 Outbound.Pending None None None None false 0 0 0 None None
    None None.

Definition set_th_local_filename (x : option ustring) (h : TransferHistory) : TransferHistory :=
  mkTransferHistory
    (th_id h) (th_server_id h) (th_server_name h) (th_partner_id h) (th_direction h) x (th_remote_filename h)
    (th_file_size h) (th_bytes_transferred h) (th_status h) (th_error_message h) (th_diagnostic_code h)
    (th_checksum h) (th_correlation_id h) (th_sync_points_enabled h) (th_last_sync_point h)
    (th_bytes_at_last_sync_point h) (th_pesit_transfer_id h) (th_request h) (th_started_at h) (th_completed_at h)
    (th_created_at h).
Definition set_th_file_size (x : option Z) (h : TransferHistory) : TransferHistory :=
  mkTransferHistory
    (th_id h) (th_server_id h) (th_server_name h) (th_partner_id h) (th_direction h) (th_local_filename h)
    (th_remote_filename h) x (th_bytes_transferred h) (th_status h) (th_error_message h) (th_diagnostic_code h)
    (th_checksum h) (th_correlation_id h) (th_sync_points_enabled h) (th_last_sync_point h)
    (th_bytes_at_last_sync_point h) (th_pesit_transfer_id h) (th_request h) (th_started_at h) (th_completed_at h)
    (th_created_at h).
Definition set_th_bytes_transferred (x : Z) (h : TransferHistory) : TransferHistory :=
  mkTransferHistory
    (th_id h) (th_server_id h) (th_server_name h) (th_partner_id h) (th_direction h) (th_local_filename h)
    (th_remote_filename h) (th_file_size h) x (th_status h) (th_error_message h) (th_diagnostic_code h)
    (th_checksum h) (th_correlation_id h) (th_sync_points_enabled h) (th_last_sync_point h)
    (th_bytes_at_last_sync_point h) (th_pesit_transfer_id h) (th_request h) (th_started_at h) (th_completed_at h)
    (th_created_at h).
Definition set_th_status (x : Outbound.TransferStatus) (h : TransferHistory) : TransferHistory :=
  mkTransferHistory
    (th_id h) (th_server_id h) (th_server_name h) (th_partner_id h) (th_direction h) (th_local_filename h)
    (th_remote_filename h) (th_file_size h) (th_bytes_transferred h) x (th_error_message h) (th_diagnostic_code h)
    (th_checksum h) (th_correlation_id h) (th_sync_points_enabled h) (th_last_sync_point h)
    (th_bytes_at_last_sync_point h) (th_pesit_transfer_id h) (th_request h) (th_started_at h) (th_completed_at h)
    (th_created_at h).
Definition set_th_error_message (x : option Note) (h : TransferHistory) : TransferHistory :=
  mkTransferHistory
    (th_id h) (th_server_id h) (th_server_name h) (th_partner_id h) (th_direction h) (th_local_filename h)
    (th_remote_filename h) (th_file_size h) (th_bytes_transferred h) (th_status h) x (th_diagnostic_code h)
    (th_checksum h) (th_correlation_id h) (th_sync_points_enabled h) (th_last_sync_point h)
    (th_bytes_at_last_sync_point h) (th_pesit_transfer_id h) (th_request h) (th_started_at h) (th_completed_at h)
    (th_created_at h).
Definition set_th_diagnostic_code (x : option ustring) (h : TransferHistory) : TransferHistory :=
  mkTransferHistory
    (th_id h) (th_server_id h) (th_server_name h) (th_partner_id h) (th_direction h) (th_local_filename h)
    (th_remote_filename h) (th_file_size h) (th_bytes_transferred h) (th_status h) (th_error_message h) x
    (th_checksum h) (th_correlation_id h) (th_sync_points_enabled h) (th_last_sync_point h)
    (th_bytes_at_last_sync_point h) (th_pesit_transfer_id h) (th_request h) (th_started_at h) (th_completed_at h)
    (th_created_at h).
Definition set_th_checksum (x : option ustring) (h : TransferHistory) : TransferHistory :=
  mkTransferHistory
    (th_id h) (th_server_id h) (th_server_name h) (th_partner_id h) (th_direction h) (th_local_filename h)
    (th_remote_filename h) (th_file_size h) (th_bytes_transferred h) (th_status h) (th_error_message h)
    (th_diagnostic_code h) x (th_correlation_id h) (th_sync_points_enabled h) (th_last_sync_point h)
    (th_bytes_at_last_sync_point h) (th_pesit_transfer_id h) (th_request h) (th_started_at h) (th_completed_at h)
    (th_created_at h).
Definition set_th_last_sync_point (x : Z) (h : TransferHistory) : TransferHistory :=
  mkTransferHistory
    (th_id h) (th_server_id h) (th_server_name h) (th_partner_id h) (th_direction h) (th_local_filename h)
    (th_remote_filename h) (th_file_size h) (th_bytes_transferred h) (th_status h) (th_error_message h)
    (th_diagnostic_code h) (th_checksum h) (th_correlation_id h) (th_sync_points_enabled h) x
    (th_bytes_at_last_sync_point h) (th_pesit_transfer_id h) (th_request h) (th_started_at h) (th_completed_at h)
    (th_created_at h).
Definition set_th_bytes_at_last_sync_point (x : Z) (h : TransferHistory) : TransferHistory :=
  mkTransferHistory
    (th_id h) (th_server_id h) (th_server_name h) (th_partner_id h) (th_direction h) (th_local_filename h)
    (th_remote_filename h) (th_file_size h) (th_bytes_transferred h) (th_status h) (th_error_message h)
    (th_diagnostic_code h) (th_checksum h) (th_correlation_id h) (th_sync_points_enabled h) (th_last_sync_point h)
    x (th_pesit_transfer_id h) (th_request h) (th_started_at h) (th_completed_at h) (th_created_at h).
Definition set_th_pesit_transfer_id (x : Z) (h : TransferHistory) : TransferHistory :=
  mkTransferHistory
    (th_id h) (th_server_id h) (th_server_name h) (th_partner_id h) (th_direction h) (th_local_filename h)
    (th_remote_filename h) (th_file_size h) (th_bytes_transferred h) (th_status h) (th_error_message h)
    (th_diagnostic_code h) (th_checksum h) (th_correlation_id h) (th_sync_points_enabled h) (th_last_sync_point h)
    (th_bytes_at_last_sync_point h) x (th_request h) (th_started_at h) (th_completed_at h) (th_created_at h).
Definition set_th_completed_at (x : option ustring) (h : TransferHistory) : TransferHistory :=
  mkTransferHistory
    (th_id h) (th_server_id h) (th_server_name h) (th_partner_id h) (th_direction h) (th_local_filename h)
    (th_remote_filename h) (th_file_size h) (th_bytes_transferred h) (th_status h) (th_error_message h)
    (th_diagnostic_code h) (th_checksum h) (th_correlation_id h) (th_sync_points_enabled h) (th_last_sync_point h)
    (th_bytes_at_last_sync_point h) (th_pesit_transfer_id h) (th_request h) (th_started_at h) x (th_created_at h).

(** ** The answer of the interface

    The parser of time stamps is that of a library. *)

Record TransferResponse : Type := mkTransferResponse {
  tp_transfer_id : ustring;
  tp_correlation_id : option ustring;
  tp_direction : option Outbound.TransferDirection;
  tp_status : Outbound.TransferStatus;
  tp_server_name : option ustring;
  tp_local_filename : option ustring;
  tp_remote_filename : option ustring;
  tp_file_size : option Z;
  tp_bytes_transferred : Z;
  tp_checksum : option ustring;
  tp_error_message : option Note;
  tp_diagnostic_code : option ustring;
  tp_started_at : option ustring;
  tp_completed_at : option ustring;
  tp_duration_ms : option Z;
  tp_reply : option ustring;
}.

Definition response_of (parse_millis : ustring → option Z) (h : TransferHistory) : TransferResponse :=
  let duration := s ← th_started_at h; e ← th_completed_at h; e ← parse_millis e; s ← parse_millis s; Some (e - s) in
  mkTransferResponse (th_id h) (th_correlation_id h) (th_direction h) (th_status h) (th_server_name h)
    (th_local_filename h) (th_remote_filename h) (th_file_size h) (th_bytes_transferred h) (th_checksum h)
    (th_error_message h) (th_diagnostic_code h) (th_started_at h) (th_completed_at h) duration None.

Definition set_tp_reply (x : option ustring) (r : TransferResponse) : TransferResponse :=
  mkTransferResponse
    (tp_transfer_id r) (tp_correlation_id r) (tp_direction r) (tp_status r) (tp_server_name r)
    (tp_local_filename r) (tp_remote_filename r) (tp_file_size r) (tp_bytes_transferred r) (tp_checksum r)
    (tp_error_message r) (tp_diagnostic_code r) (tp_started_at r) (tp_completed_at r) (tp_duration_ms r) x.
