(* ===== verification/ClientEngine.v ===== *)
(** * The client's transfers ([crates/pesit-client/src/engine.rs])

    The engine resolves the server of a request, keeps a history of transfers
    in the document store, opens a connection and drives a requester session.
    A transfer that has checkpoints is restarted from them; when the server
    refuses the restart, the transfer starts over once. What the system gives
    (clock, identifiers, files, the connection, faults) is a record for each
    attempt. The audit log is left out. *)

From Stdlib Require Import String.
From S2P Require Import Prelude Diag Pi Kinds Ebcdic Fpdu Params Frame State Article Builder.
From S2P Require Import Checkpoint ArticleIo Link Datapath Requester Responder DocStore NodeHandler ClientModel.
Open Scope Z_scope.

Record EngineSettings : Type := mkEngineSettings {
  es_checkpoint_dir : ustring;
  es_receive_dir : ustring;
  es_requester_id : ustring;
  es_sync_interval_kb : Z;
  es_sync_window : Z;
  es_record_length : Z;
  es_max_entity_size : Z;
}.

Record Tables : Type := mkTables {
  servers : Table PesitServer;
  identities : Table Identity;
  outbound : Table TransferHistory;
  client_counters : Table Z;
}.

Definition set_servers (t : Table PesitServer) (d : Tables) : Tables := mkTables t (identities d) (outbound d) (client_counters d).
Definition set_identities (t : Table Identity) (d : Tables) : Tables := mkTables (servers d) t (outbound d) (client_counters d).
Definition set_outbound (t : Table TransferHistory) (d : Tables) : Tables := mkTables (servers d) (identities d) t (client_counters d).
Definition set_counters (t : Table Z) (d : Tables) : Tables := mkTables (servers d) (identities d) (outbound d) t.

(** The engine: the store, the flags of cancellation, the checkpoint files by
    their paths, and the connections that were used, as they were left. *)
Record Engine : Type := mkEngine {
  en_store : Db Tables;
  en_settings : EngineSettings;
  en_cancels : gmap ustring bool;
  en_disk : ustring → Checkpoint.Disk;
  en_links : list Conn;
}.

Definition set_en_store (s : Db Tables) (e : Engine) : Engine := mkEngine s (en_settings e) (en_cancels e) (en_disk e) (en_links e).
Definition set_en_cancels (c : gmap ustring bool) (e : Engine) : Engine :=
  mkEngine (en_store e) (en_settings e) c (en_disk e) (en_links e).
Definition set_disk (path : ustring) (d : Checkpoint.Disk) (e : Engine) : Engine :=
  mkEngine (en_store e) (en_settings e) (en_cancels e) (λ p, if decide (p = path) then d else en_disk e p) (en_links e).
Definition add_link (c : Conn) (e : Engine) : Engine :=
  mkEngine (en_store e) (en_settings e) (en_cancels e) (en_disk e) (en_links e ++ [c]).

(** What an attempt finds. *)
Record Attempt : Type := mkAttempt {
  at_link : Link + SessionError;
  at_file : ustring → option bytes;
  at_io : list (option nat);
  at_exists : ustring → bool;
  at_content : ustring → option bytes;
  at_fault : Checkpoint.fault;
  at_cancel : list bool;
  at_second : nat → bool;
  at_pesit_now : ustring;
  at_sha256 : ustring → option ustring;
}.

(** What a request finds. *)
Record Submission : Type := mkSubmission {
  su_uuid : ustring;
  su_started : ustring;
  su_created : ustring;
  su_compact : ustring;
  su_metadata : ustring → (bool * Z) + ustring;
}.

(** ** Errors of the interface *)

Inductive ApiStatus : Type := NotFound_ | BadRequest | Conflict | Internal.
Record ApiError : Type := mkApiError { ae_status : ApiStatus; ae_message : option ustring }.

(** A request on a state of type [S]. *)
Definition ApiM (S A : Type) : Type := S → S * (A + ApiError).
Abbreviation Api := (ApiM Engine).

#[global] Instance Api_ret {S} : MRet (ApiM S) := λ _ a s, (s, inl a).
#[global] Instance Api_bind {S} : MBind (ApiM S) := λ _ _ f m s,
  match m s with
  | (s, inl a) => f a s
  | (s, inr r) => (s, inr r)
  end.

Definition reject {S A} (status : ApiStatus) (message : ustring) : ApiM S A := λ s, (s, inr (mkApiError status (Some message))).
Definition api_gets {S A} (f : S → A) : ApiM S A := λ s, (s, inl (f s)).
Definition api_modify {S} (f : S → S) : ApiM S unit := λ s, (f s, inl tt).
Definition check {S} (ok : bool) (status : ApiStatus) (message : ustring) : ApiM S unit :=
  if ok then mret tt else reject status message.

(** A statement of the store; its error is an internal one, whose text is that
    of the library. *)
Definition stored {A} (op : Db Tables → Db Tables * option A) : Api A := λ e,
  match op (en_store e) with
  | (s, Some a) => (set_en_store s e, inl a)
  | (s, None) => (set_en_store s e, inr (mkApiError Internal None))
  end.

(** A statement whose error does not stop. *)
Definition tried {A} (op : Db Tables → Db Tables * option A) : Api (option A) := λ e,
  let '(s, a) := op (en_store e) in (set_en_store s e, inl a).

Definition list_servers : Db Tables → Db Tables * option (list PesitServer) := db_statement (λ d, (d, table_list (servers d))).
Definition list_identities : Db Tables → Db Tables * option (list Identity) := db_statement (λ d, (d, table_list (identities d))).
Definition get_outbound (id : ustring) : Db Tables → Db Tables * option (option TransferHistory) :=
  db_statement (λ d, (d, table_get id (outbound d))).
Definition put_outbound (h : TransferHistory) : Db Tables → Db Tables * option unit :=
  db_statement (λ d, (set_outbound (table_put (th_id h) h (outbound d)) d, tt)).

(** By name or identifier, or the default one. *)
Definition resolve_server (name : option ustring) : Api PesitServer :=
  all ← stored list_servers;
  let found :=
    match filled name with
    | Some n => List.find (λ s, bool_decide (ps_name s = n) || bool_decide (ps_id s = n)) all
    | None => List.find (λ s, ps_default_server s && ps_enabled s) all
    end in
  match found with
  | Some s => mret s
  | None => reject NotFound_ (lit "server '" ++ default (lit "<default>") name ++ lit "' not found")
  end.

(** ** The session of a transfer *)

(** An update of the record, whose errors are ignored. *)
Definition update (id : ustring) (f : TransferHistory → TransferHistory) (e : Engine) : Engine :=
  set_en_store (db_update outbound set_outbound id f (en_store e)).1 e.

Definition register_cancel (id : ustring) (e : Engine) : Engine := set_en_cancels (<[id := false]> (en_cancels e)) e.
Definition unregister_cancel (id : ustring) (e : Engine) : Engine := set_en_cancels (delete id (en_cancels e)) e.

(** The request of a cancellation, with whether a receiver of the flag is left. *)
Definition request_cancel (listening : bool) (id : ustring) (e : Engine) : Engine * bool :=
  match en_cancels e !! id with
  | Some _ => if listening then (set_en_cancels (<[id := true]> (en_cancels e)) e, true) else (e, false)
  | None => (e, false)
  end.

(** A statement whose error gives way to a default. *)
Definition asked {A} (op : Db Tables → Db Tables * option A) : M Engine (option A) := λ e,
  let '(s, a) := op (en_store e) in (set_en_store s e, Ok a).

Definition password_for (partner : ustring) (explicit : option ustring) : M Engine (option ustring) :=
  match filled explicit with
  | Some p => mret (Some p)
  | None =>
      all ← asked list_identities;
      mret (filled (List.find (λ p, bool_decide (id_partner_id p = partner)) (default [] all) ≫= id_password))
  end.

Definition requester_config (server : PesitServer) (partner : ustring) (pwd : option ustring) (req : TransferRequest)
    (access : AccessType) : M Engine RequesterConfig :=
  set ← gets en_settings;
  password ← password_for partner pwd;
  mret (mkRequesterConfig partner (ps_server_id server) password Version.E
    (if default true (tq_sync_points_enabled req)
     then SyncOption.mkSyncOption (sync_interval_kb req (es_sync_interval_kb set)) (es_sync_window set)
     else SyncOption.NONE)
    (default true (tq_resync_enabled req)) (default (ps_crc_enabled server) (tq_crc_enabled req))
    (if default false (tq_compression_enabled req) then Compression.Mixed else Compression.None_)
    (default (es_max_entity_size set) (tq_max_entity_size req)) true
    ((λ id, mkPreconnect id (default [] (ps_preconnect_password server))) <$> filled (ps_preconnect_id server))
    None access).

Definition file_spec (set : EngineSettings) (now : ustring) (req : TransferRequest) (remote : ustring) (size : option Z)
    (pesit_id : Z) (resume : bool) : Builder.FileSpec :=
  Builder.mkFileSpec None None (default 0 (tq_file_type req)) remote pesit_id resume
    (if default false (tq_ebcdic req) then Some 1 else None) (default 0 (tq_priority req))
    (default (es_max_entity_size set) (tq_max_entity_size req)) ArticleFormat.Variable_
    (clamp 1 0xFFFF (default (es_record_length set) (tq_record_length req))) (Some 0) (filled (tq_label req))
    ((λ _, 0) <$> size) (match size with Some s => (s + 1023) / 1024 | None => 0 end) (Some now) None
    (filled (tq_client_id req)) (filled (tq_bank_id req)) None (filled (tq_free_message req)).

Definition record_format_of (req : TransferRequest) : Article.RecordFormat :=
  if default false (tq_text req) then Article.Tv else Article.Bu.

(** *** Progress

    The updates of the record while a transfer runs: at a new synchronisation
    point, after a megabyte or after a second. *)
Record Updater : Type := mkUpdater { up_looks : nat; up_bytes : Z; up_sync : Z }.

Definition progress_record (p : Progress) (sync_changed : bool) (h : TransferHistory) : TransferHistory :=
  let h := set_th_bytes_transferred (pr_data_bytes p) h in
  let h := match th_file_size h with None => set_th_file_size (pr_total_hint p) h | Some _ => h end in
  if sync_changed
  then set_th_bytes_at_last_sync_point (pr_data_bytes p) (set_th_last_sync_point (pr_sync p) h)
  else h.

Definition progress_update (second : nat → bool) (id : ustring) (u : Updater * Engine) (p : Progress) : Updater * Engine :=
  let '(u, e) := u in
  let sync_changed := negb (pr_sync p =? up_sync u) in
  if negb sync_changed && (Z.max (pr_data_bytes p - up_bytes u) 0 <? 2 ^ 20) && negb (second (up_looks u))
  then (mkUpdater (S (up_looks u)) (up_bytes u) (up_sync u), e)
  else (mkUpdater (S (up_looks u)) (pr_data_bytes p) (pr_sync p), update id (progress_record p sync_changed) e).

Definition progress_updater (second : nat → bool) (id : ustring) (ps : list Progress) (e : Engine) : Engine :=
  (foldl (progress_update second id) (mkUpdater 0 0 0, e) ps).2.

(** *** The end of a session *)

(** The refusal of a restart: of CREATE or SELECT. *)
Definition is_restart_refusal (e : SessionError) : bool :=
  match e with Refused FpduKind.Create _ _ | Refused FpduKind.Select _ _ => true | _ => false end.

(** [let _ = ..await]. *)
Definition ignored {S A} (m : M S A) : M S unit := attempt m ;; mret tt.

Definition close_after_error (fuel : nat) (e : SessionError) : M Requester_ unit :=
  match e with
  | Refused _ _ _ => ignored (release fuel)
  | Aborted _ _ | Transport _ => mret tt
  | _ => ignored (abort (abort_diag e))
  end.

Definition close_session {A} (fuel : nat) (r : outcome SessionError A) : M Requester_ unit :=
  match r with
  | Ok _ => ignored (release fuel)
  | Err e => close_after_error fuel e
  | Panic => lift Panic
  end.

(** A connection, left behind when it is refused. *)
Definition connected (cfg : RequesterConfig) (l : Link) : M Engine Requester_ := λ e,
  match connect cfg (mkConn l (Machine.new Requester)) with
  | (_, Ok s) => (e, Ok s)
  | (c, Err err) => (add_link c e, Err err)
  | (c, Panic) => (add_link c e, Panic)
  end.

Section Run.
Context (to_json : Checkpoint.MemoryCheckpoints → option bytes) (of_json : bytes → option Checkpoint.MemoryCheckpoints).
Context (fuel : nat).

Definition checkpoint_path (id : ustring) (e : Engine) : ustring :=
  path_join (es_checkpoint_dir (en_settings e)) (id ++ lit ".json").

Definition checkpoints (f : Checkpoint.fault) (id : ustring) : M Engine Checkpoint.FileCheckpoints := λ e,
  match Checkpoint.open of_json f (en_disk e (checkpoint_path id e)) with
  | Some c => (e, Ok c)
  | None => (e, Err (Io ArticleIo.OsError))
  end.

(** What [run] makes of the session of an attempt: its result, and the store of
    checkpoints, the progress and the connection left behind. *)
Definition with_session {X A} (w : Attempt) (id : ustring) (path : ustring) (s : Requester_)
    (cps : Checkpoint.FileCheckpoints) (x : X) (run : M (Job Checkpoint.FileCheckpoints X) A)
    : M Engine (outcome SessionError A) := λ e,
  let '(j, r) := run (mkJob s cps x (at_cancel w) []) in
  let e := progress_updater (at_second w) id (j_progress j) (set_disk path (Checkpoint.disk (j_store j)) e) in
  let '(s, closed) := close_session fuel r (j_session j) in
  (add_link (rq_conn s) e, match closed with Panic => Panic | _ => match r with Panic => Panic | _ => Ok r end end).

(** [Engine::open]. *)
Definition open (w : Attempt) : M Engine Link := lift (match at_link w with inl l => Ok l | inr e => Err e end).

Definition next_transfer_id : M Engine Z :=
  n ← asked (db_next_counter client_counters set_counters (lit "pesit_transfer_id"));
  mret (Z.max (default 1 n mod 0x00FFFFFF) 1).

Definition reset_for_full_retry (w : Attempt) (history : TransferHistory) : M Engine unit :=
  modify (update (th_id history) (λ h,
    set_th_bytes_transferred 0 (set_th_bytes_at_last_sync_point 0 (set_th_last_sync_point 0 h)))) ;;
  cps ← attempt (checkpoints (at_fault w) (th_id history));
  match cps with
  | Ok c => modify (λ e, set_disk (checkpoint_path (th_id history) e) (Checkpoint.disk (Checkpoint.clear (at_fault w) c).1) e)
  | _ => mret tt
  end.

(** The bytes, the end of the data, the diagnostic and the checksum. *)
Record Report : Type := mkReport { rp_bytes : Z; rp_end : DataEnd; rp_diag : Diagnostic; rp_checksum : option ustring }.

Definition report_of (w : Attempt) (path : ustring) (out : TransferOutcome) : Report :=
  mkReport (dr_data_bytes (to_data out)) (dr_end (to_data out)) (to_diag out)
    (if is_complete out then at_sha256 w path else None).

(** *** Sending *)

Definition open_source (w : Attempt) (path : ustring) (req : TransferRequest) (record_length : Z)
    : outcome SessionError ArticleIo.FileSource :=
  match at_file w path with
  | Some content =>
      Ok (ArticleIo.with_ebcdic (ArticleIo.file_source_open content (at_io w) (record_format_of req) (Z.to_nat record_length))
            (default false (tq_ebcdic req)))
  | None => Err (Io ArticleIo.OsError)
  end.

(** The record that holds the checkpoints, and where to start. *)
Definition send_restart (w : Attempt) (history : TransferHistory) (resume : option TransferHistory)
    : M Engine (ustring * option Checkpoint) :=
  match resume with
  | Some prev =>
      cps ← checkpoints (at_fault w) (th_id prev);
      mret (th_id prev, match Checkpoint.last_acknowledged cps with Some cp => Some cp | None => Checkpoint.last cps end)
  | None => mret (th_id history, None)
  end.

(** An attempt; [again] is the full transfer after a refused restart. *)
Definition send_attempt (again : M Engine Report) (w : Attempt) (history : TransferHistory) (server : PesitServer)
    (req : TransferRequest) (resume : option TransferHistory) : M Engine Report :=
  let local := default [] (th_local_filename history) in
  let remote := default [] (th_remote_filename history) in
  let partner := default [] (th_partner_id history) in
  set ← gets en_settings;
  source ← lift (open_source w local req (default (es_record_length set) (tq_record_length req)));
  modify (register_cancel (th_id history)) ;;
  start ← send_restart w history resume;
  let '(cid, restart) := start in
  cps ← checkpoints (at_fault w) cid;
  pesit_id ← (if bool_decide (is_Some restart) && negb (th_pesit_transfer_id history =? 0)
              then mret (th_pesit_transfer_id history) else next_transfer_id);
  modify (update (th_id history) (set_th_pesit_transfer_id pesit_id)) ;;
  let spec := mkTransferSpec
    (file_spec set (at_pesit_now w) req remote (th_file_size history) pesit_id (bool_decide (is_Some restart))) restart in
  l ← open w;
  cfg ← requester_config server partner (tq_password req) req AccessType.Write;
  s ← connected cfg l;
  path ← gets (checkpoint_path cid);
  result ← with_session w (th_id history) path s cps source
             (send_file (H := Checkpoint.file_store to_json (at_fault w)) fuel spec);
  match result with
  | Ok out => mret (report_of w local out)
  | Err e =>
      if bool_decide (is_Some resume) && is_restart_refusal e then reset_for_full_retry w history ;; again else raise e
  | Panic => lift Panic
  end.

Definition do_send (w w' : Attempt) (history : TransferHistory) (server : PesitServer) (req : TransferRequest)
    (resume : option TransferHistory) : M Engine Report :=
  send_attempt (send_attempt (lift Panic) w' history server req None) w history server req resume.

(** *** Receiving *)

Definition receive_restart (w : Attempt) (history : TransferHistory) (local : ustring) (resume : option TransferHistory)
    : M Engine (ustring * option Checkpoint) :=
  match resume with
  | Some prev =>
      cps ← checkpoints (at_fault w) (th_id prev);
      mret (th_id prev, if at_exists w (part_path local) then Checkpoint.last cps else None)
  | None => mret (th_id history, None)
  end.

Definition open_sink (w : Attempt) (path : ustring) (req : TransferRequest) (restart : option Checkpoint)
    : outcome SessionError ArticleIo.FileSink :=
  k ← map_err Io (ArticleIo.file_sink_create (at_content w (part_path path)) (at_content w path) (at_io w)
                    (record_format_of req) (position_of <$> restart));
  Ok (ArticleIo.sink_with_ebcdic k (default false (tq_ebcdic req))).

Definition receive_attempt (again : M Engine Report) (w : Attempt) (history : TransferHistory) (server : PesitServer)
    (req : TransferRequest) (resume : option TransferHistory) : M Engine Report :=
  let local := default [] (th_local_filename history) in
  let remote := default [] (th_remote_filename history) in
  let partner := default [] (th_partner_id history) in
  set ← gets en_settings;
  modify (register_cancel (th_id history)) ;;
  start ← receive_restart w history local resume;
  let '(cid, restart) := start in
  cps ← checkpoints (at_fault w) cid;
  sink ← lift (open_sink w local req restart);
  let pesit_id := if bool_decide (is_Some restart) then th_pesit_transfer_id history else 0 in
  let spec := mkTransferSpec
    (file_spec set (at_pesit_now w) req remote None pesit_id (bool_decide (is_Some restart))) restart in
  l ← open w;
  cfg ← requester_config server partner (tq_password req) req AccessType.Read;
  s ← connected cfg l;
  path ← gets (checkpoint_path cid);
  result ← with_session w (th_id history) path s cps sink
             (receive_file (H := Checkpoint.file_store to_json (at_fault w)) fuel spec);
  match result with
  | Ok out =>
      modify (update (th_id history) (set_th_pesit_transfer_id (to_transfer_id out))) ;;
      mret (report_of w local out)
  | Err e =>
      if bool_decide (is_Some resume) && is_restart_refusal e then reset_for_full_retry w history ;; again else raise e
  | Panic => lift Panic
  end.

Definition do_receive (w w' : Attempt) (history : TransferHistory) (server : PesitServer) (req : TransferRequest)
    (resume : option TransferHistory) : M Engine Report :=
  receive_attempt (receive_attempt (lift Panic) w' history server req None) w history server req resume.

(** *** The end of a transfer *)

Definition finished_record (now : ustring) (outcome : outcome SessionError Report) (h : TransferHistory) : TransferHistory :=
  let h := set_th_completed_at (Some now) h in
  let failed d r := set_th_error_message (Some (Words (diag_display d))) (set_th_diagnostic_code (Some (diag_debug d))
                      (set_th_bytes_transferred (rp_bytes r) h)) in
  match outcome with
  | Ok r =>
      match rp_end r with
      | Completed =>
          if Diagnostic.is_ok (rp_diag r) then
            let h := set_th_checksum (rp_checksum r)
                       (set_th_bytes_transferred (rp_bytes r) (set_th_status Outbound.Completed h)) in
            match th_file_size h with None => set_th_file_size (Some (rp_bytes r)) h | Some _ => h end
          else set_th_status Outbound.Failed (failed (rp_diag r) r)
      | Interrupted _ diag by_peer =>
          set_th_status (if by_peer : bool then Outbound.Interrupted else Outbound.Cancelled) (failed diag r)
      | EndedWithError d => set_th_status Outbound.Failed (failed d r)
      end
  | Err e =>
      set_th_error_message (Some (ErrorText e)) (set_th_diagnostic_code (Some (diag_debug (abort_diag e)))
        (set_th_status Outbound.Failed h))
  | Panic => h
  end.

Definition finish (now : ustring) (id : ustring) (outcome : outcome SessionError Report) (e : Engine) : Engine :=
  update id (finished_record now outcome) (unregister_cancel id e).

(** The background task; a panic would leave its record as it is. *)
Definition run_transfer (now : ustring) (id : ustring) (task : M Engine Report) (e : Engine) : Engine :=
  match task e with
  | (e, Panic) => e
  | (e, r) => finish now id r e
  end.

Definition run_send (now : ustring) (w w' : Attempt) (history : TransferHistory) (server : PesitServer)
    (req : TransferRequest) (resume : option TransferHistory) : Engine → Engine :=
  run_transfer now (th_id history) (do_send w w' history server req resume).
Definition run_receive (now : ustring) (w w' : Attempt) (history : TransferHistory) (server : PesitServer)
    (req : TransferRequest) (resume : option TransferHistory) : Engine → Engine :=
  run_transfer now (th_id history) (do_receive w w' history server req resume).
End Run.

(** ** Requests *)

(** What a background task is given. *)
Record Task : Type := mkTask {
  ta_history : TransferHistory;
  ta_server : PesitServer;
  ta_request : TransferRequest;
  ta_resume : option TransferHistory;
}.

Definition required {A} (o : option A) (message : ustring) : Api A :=
  match o with Some a => mret a | None => reject BadRequest message end.

Definition get_transfer (id : ustring) : Api (option TransferHistory) := stored (get_outbound id).

(** [save]: an error is only logged. *)
Definition save (h : TransferHistory) : Api unit := tried (put_outbound h) ;; mret tt.

Definition partner_of (set : EngineSettings) (partner : option ustring) : ustring :=
  default (es_requester_id set) (filled partner).

Definition new_history (su : Submission) (set : EngineSettings) (server : PesitServer)
    (direction : Outbound.TransferDirection) (req : TransferRequest) (local remote : ustring) (size : option Z)
    : TransferHistory :=
  mkTransferHistory (su_uuid su) (Some (ps_id server)) (Some (ps_name server)) (Some (partner_of set (tq_partner_id req)))
    (Some direction) (Some local) (Some remote) size 0 Outbound.InProgress None None None (tq_correlation_id req)
    (default true (tq_sync_points_enabled req)) 0 0 0 (Some req) (Some (su_started su)) None (Some (su_created su)).

(** The transfer to restart from; an error of the store is an absent one. *)
Definition resumed (req : TransferRequest) : Api (option TransferHistory) :=
  match tq_resume_from_transfer_id req with
  | Some id => found ← tried (get_outbound id); mret (default None found)
  | None => mret None
  end.

Definition continued (prev : option TransferHistory) (h : TransferHistory) : TransferHistory :=
  match prev with
  | Some prev =>
      set_th_bytes_at_last_sync_point (th_bytes_at_last_sync_point prev)
        (set_th_last_sync_point (th_last_sync_point prev) (set_th_pesit_transfer_id (th_pesit_transfer_id prev) h))
  | None => h
  end.

Definition continued_file (prev : option TransferHistory) (h : TransferHistory) : TransferHistory :=
  match prev with Some p => set_th_local_filename (th_local_filename p) h | None => h end.

Definition submit_send (su : Submission) (req : TransferRequest) : Api Task :=
  server ← resolve_server (tq_server req);
  local ← required (filled (tq_filename req)) (lit "filename is required");
  remote ← required (virtual_file_of req) (lit "remoteFilename is required");
  size ← (match su_metadata su local with
          | inl (true, len) => mret len
          | inl (false, _) => reject BadRequest (local ++ lit " is not a regular file")
          | inr e => reject BadRequest (lit "file not found: " ++ local ++ lit " (" ++ e ++ lit ")")
          end);
  set ← api_gets en_settings;
  resume ← resumed req;
  let history := continued resume (new_history su set server Outbound.Send req local remote (Some size)) in
  save history ;;
  mret (mkTask history server req resume).

Definition is_absolute (path : ustring) : bool := match head path with Some 47 => true | _ => false end.

Definition received_path (su : Submission) (set : EngineSettings) (req : TransferRequest) (remote : ustring) : ustring :=
  match filled (tq_filename req) with
  | Some f => if is_absolute f then f else path_join (es_receive_dir set) f
  | None => path_join (es_receive_dir set) (remote ++ lit "_" ++ su_compact su)
  end.

Definition submit_receive (su : Submission) (req : TransferRequest) : Api Task :=
  server ← resolve_server (tq_server req);
  remote ← required (virtual_file_of req) (lit "remoteFilename is required");
  set ← api_gets en_settings;
  let local := received_path su set req remote in
  resume ← resumed req;
  let history := continued_file resume (continued resume
                   (new_history su set server Outbound.Receive req local remote None)) in
  save history ;;
  mret (mkTask history server req resume).

(** A finished transfer that failed after a synchronisation point is restarted. *)
Definition restartable_status (s : Outbound.TransferStatus) : bool :=
  match s with Outbound.Interrupted | Outbound.Failed | Outbound.Cancelled => true | _ => false end.

Definition again_request (prev : TransferHistory) (resume : option ustring) : TransferRequest :=
  let req := default transfer_request_default (th_request prev) in
  set_tq_resume_from_transfer_id resume (set_tq_partner_id (th_partner_id prev)
    (set_tq_remote_filename (th_remote_filename prev) (set_tq_filename (th_local_filename prev)
      (set_tq_server (match th_server_id prev with Some s => Some s | None => tq_server req end) req)))).

Definition submit_again (su : Submission) (prev : TransferHistory) (req : TransferRequest) : Api Task :=
  match th_direction prev with
  | Some Outbound.Receive => submit_receive su req
  | _ => submit_send su req
  end.

Definition existing (id : ustring) : Api TransferHistory :=
  found ← get_transfer id;
  match found with
  | Some prev => mret prev
  | None => reject NotFound_ (lit "transfer '" ++ id ++ lit "' not found")
  end.

Definition retry (su : Submission) (id : ustring) : Api Task :=
  prev ← existing id;
  if negb (Outbound.is_final (th_status prev)) then reject Conflict (lit "transfer '" ++ id ++ lit "' is still running")
  else
    submit_again su prev (again_request prev
      (if (0 <? th_last_sync_point prev) && restartable_status (th_status prev) then Some id else None)).

(** *** Messages

    A message is sent at once; its record is final when the call returns. *)
Section Message.
Context (parse_millis : ustring → option Z) (fuel : nat).

Definition message_spec (req : MessageRequest) (tid : Z) : Builder.FileSpec :=
  Builder.mkFileSpec None None 0 (default (lit "MESSAGE") (mq_message_name req)) tid false None 0 0 ArticleFormat.Fixed 0
    None None None 0 None None None None None None.

Definition message_history (su : Submission) (server : PesitServer) (partner : ustring) (req : MessageRequest)
    : TransferHistory :=
  mkTransferHistory (su_uuid su) (Some (ps_id server)) (Some (ps_name server)) (Some partner) (Some Outbound.Message) None
    (mq_message_name req) (Some (Z.of_nat (length (Ebcdic.utf8 (mq_message req))))) 0 Outbound.InProgress None None None
    (mq_correlation_id req) false 0 0 0 None (Some (su_started su)) None (Some (su_created su)).

(** The message and the end of its session. *)
Definition message_exchange (s : Requester_) (spec : Builder.FileSpec) (message : bytes) (expects_reply : bool)
    : M Engine MessageOutcome := λ e,
  let '(s, r) := send_message fuel spec message expects_reply s in
  let '(s, closed) := close_session fuel r s in
  (add_link (rq_conn s) e, match closed with Panic => Panic | _ => r end).

Definition message_session (w : Attempt) (server : PesitServer) (partner : ustring) (req : MessageRequest)
    : M Engine MessageOutcome :=
  l ← open w;
  cfg ← requester_config server partner (mq_password req)
          (set_tq_sync_points_enabled (Some false) (set_tq_password (mq_password req) transfer_request_default))
          AccessType.Mixed;
  s ← connected cfg l;
  tid ← next_transfer_id;
  message_exchange s (message_spec req tid) (Ebcdic.utf8 (mq_message req)) (mq_expects_reply req).

Definition message_record (now : ustring) (req : MessageRequest) (r : outcome SessionError MessageOutcome)
    (h : TransferHistory) : TransferHistory :=
  let h := set_th_completed_at (Some now) h in
  match r with
  | Ok m =>
      if Diagnostic.is_ok (mo_diag m) then
        set_th_bytes_transferred (Z.of_nat (length (Ebcdic.utf8 (mq_message req)))) (set_th_status Outbound.Completed h)
      else
        set_th_error_message (Some (Words (diag_display (mo_diag m))))
          (set_th_diagnostic_code (Some (diag_debug (mo_diag m))) (set_th_status Outbound.Failed h))
  | Err e =>
      set_th_error_message (Some (ErrorText e)) (set_th_diagnostic_code (Some (diag_debug (abort_diag e)))
        (set_th_status Outbound.Failed h))
  | Panic => h
  end.

Definition reply_of (r : outcome SessionError MessageOutcome) : option ustring :=
  match r with
  | Ok m => if Diagnostic.is_ok (mo_diag m) then from_utf8_lossy <$> mo_reply m else None
  | _ => None
  end.

(** The outcome of a session as a value, and [None] for a panic. *)
Definition outcome_of {A} (m : M Engine A) : Api (outcome SessionError A) := λ e, let '(e, r) := m e in (e, inl r).

Definition send_message_request (su : Submission) (now : ustring) (w : Attempt) (req : MessageRequest)
    : Api (option TransferResponse) :=
  server ← resolve_server (mq_server req);
  set ← api_gets en_settings;
  let partner := partner_of set (mq_partner_id req) in
  let history := message_history su server partner req in
  save history ;;
  r ← outcome_of (message_session w server partner req);
  match r with
  | Panic => mret None
  | _ =>
      let history := message_record now req r history in
      save history ;;
      mret (Some (set_tp_reply (reply_of r) (response_of parse_millis history)))
  end.
End Message.
