(* ===== verification/ClientProps.v ===== *)
(** * Properties of the client's transfers

    A transfer of the client ends with a final record, whatever the server
    does; the other records, the identities and the servers stay. *)

From Stdlib Require Import String.
From S2P Require Import Prelude Diag Pi Kinds Crc Ebcdic Fpdu FpduCodec Params Frame State Article Builder.
From S2P Require Import Checkpoint ArticleIo Link LinkProps Datapath Requester Responder.
From S2P Require Import Totality TotalityData TotalityEngines TotalityRequester TotalityNode DocStore NodeHandler ClientModel ClientEngine.
Open Scope Z_scope.

(** ** Sessions *)

(** A connection whose arrivals leave fuel, for files of at most [n] bytes. *)
Definition attempt_ok (n fuel : nat) (w : Attempt) : Prop :=
  (∀ l, at_link w = inl l → sound l ∧ (turns n (load l) < fuel)%nat)
  ∧ (∀ path content, at_file w path = Some content → (length content ≤ n)%nat).

Section Session.
Context (bound n fuel : nat) (Hfuel : (turns n bound < fuel)%nat).

Lemma keeps_ignored {S A} (I : S → Prop) (m : M S A) : keeps I m (λ _, True) → keeps I (ignored m) (λ _, True).
Proof.
  intros Hm s Hs. specialize (Hm s Hs). unfold wp, ignored, attempt, mbind, M_bind in *. destruct (m s) as [s' [a|e|]]; naive_solver.
Qed.

Lemma keeps_abort d : keeps (session_calm bound) (abort d) (λ _, True).
Proof.
  unfold abort. do 2 (apply keeps_then; [apply keeps_gets|intros ?]). apply keeps_on_conn, (keeps_conn_total bound n).
  solve_total.
Qed.

Lemma keeps_close_session {A} (r : outcome SessionError A) :
  r ≠ Panic → keeps (session_calm bound) (close_session fuel r) (λ _, True).
Proof.
  intros Hr. destruct r as [a|e|]; [|destruct e; cbn [close_session close_after_error]|done].
  all: first [by apply keeps_ret | apply keeps_ignored; first [by apply (keeps_release bound n) | apply keeps_abort]].
Qed.
End Session.

(** ** One transfer of the engine

    [I id e0 e]: the store answers, the record of the transfer is there and
    the other ones are those of [e0]. *)
Section Engine.
Context (id : ustring) (e0 : Engine).

Definition own_record (e : Engine) : Prop :=
  healthy (en_store e) ∧ is_Some (table_get id (outbound (docs (en_store e))))
  ∧ (∀ id', id' ≠ id → table_get id' (outbound (docs (en_store e))) = table_get id' (outbound (docs (en_store e0))))
  ∧ servers (docs (en_store e)) = servers (docs (en_store e0)) ∧ identities (docs (en_store e)) = identities (docs (en_store e0)).
Notation I := own_record.

Lemma own_same_store e e' : en_store e' = en_store e → I e → I e'.
Proof. intros E. unfold own_record. by rewrite E. Qed.

Lemma update_record_is e f r :
  healthy (en_store e) → table_get id (outbound (docs (en_store e))) = Some r →
  en_store (update id f e) = mkDb (set_outbound (table_put id (f r) (outbound (docs (en_store e)))) (docs (en_store e))) [].
Proof. intros Hh Er. unfold update. cbn. by rewrite (db_update_healthy _ _ _ _ _ _ Hh Er). Qed.

Lemma own_update e f : I e → I (update id f e).
Proof.
  intros (Hh&[r Er]&Ho&Hs&Hi). unfold own_record. rewrite (update_record_is e f r Hh Er). cbn.
  split_and!; [done|rewrite table_get_put_eq; by eexists| |done|done].
  intros id' Hn. rewrite table_get_put_ne by done. by apply Ho.
Qed.

Lemma keeps_same {A} (m : M Engine A) (Q : A → Prop) :
  (∀ e, en_store (m e).1 = en_store e ∧ safe (m e).2 Q) → keeps I m Q.
Proof. intros Hm. apply keeps_step. intros e He. destruct (Hm e) as [E Hs]. split; [by apply (own_same_store e)|done]. Qed.

Lemma keeps_update f : keeps I (modify (update id f)) (λ _, True).
Proof. apply keeps_step. intros e He. split; [by apply own_update|done]. Qed.

Lemma keeps_asked {A} (op : Tables → Tables * A) :
  (∀ d, outbound (op d).1 = outbound d ∧ servers (op d).1 = servers d ∧ identities (op d).1 = identities d) →
  keeps I (asked (db_statement op)) (λ _, True).
Proof.
  intros Hop. apply keeps_step. intros e (Hh&Hr&Ho&Hs&Hi). unfold asked.
  destruct (db_statement_healthy op _ Hh) as (s'&->&Hh'&Ed). cbn. split; [|done]. destruct (Hop (docs (en_store e))) as (E1&E2&E3).
  unfold own_record. cbn. rewrite Ed, E1, E2, E3. by split_and!.
Qed.

Lemma keeps_next_transfer_id : keeps I next_transfer_id (λ _, True).
Proof.
  unfold next_transfer_id. apply keeps_then; [|intros; by apply keeps_ret].
  apply keeps_step. intros e (Hh&Hr&Ho&Hs&Hi). unfold asked, db_next_counter.
  destruct (db_statement_healthy (λ d, let '(t, v) := table_next_counter (lit "pesit_transfer_id") (client_counters d) in
    (set_counters t d, v)) _ Hh) as (s1&->&Hh1&Ed1).
  destruct (db_statement_healthy (λ d : Tables, (d, (let '(t, v) := table_next_counter (lit "pesit_transfer_id")
    (client_counters (docs (en_store e))) in (set_counters t (docs (en_store e)), v)).2)) _ Hh1) as (s2&E2&Hh2&Ed2).
  cbn [docs] in *. rewrite E2. split; [|done]. unfold own_record. cbn. rewrite Ed2. cbn. rewrite Ed1.
  by destruct (table_next_counter _ _).
Qed.

Lemma keeps_password partner explicit : keeps I (password_for partner explicit) (λ _, True).
Proof.
  unfold password_for. destruct (filled explicit); [by apply keeps_ret|]. apply keeps_then; [by apply keeps_asked|].
  intros all. by apply keeps_ret.
Qed.

Lemma keeps_config server partner pwd req access : keeps I (requester_config server partner pwd req access) (λ _, True).
Proof.
  unfold requester_config. apply keeps_then; [apply keeps_gets|]. intros set. apply keeps_then; [apply keeps_password|].
  intros p. by apply keeps_ret.
Qed.

Lemma keeps_checkpoints of_json f path : keeps I (checkpoints of_json f path) (λ _, True).
Proof. apply keeps_same. intros e. unfold checkpoints. by destruct (Checkpoint.open _ _ _). Qed.

Lemma own_progress second ps e : I e → I (progress_updater second id ps e).
Proof.
  unfold progress_updater. generalize (mkUpdater 0 0 0) as u. revert e. induction ps as [|p ps IH]; intros e u He; [done|].
  cbn [foldl progress_update]. destruct (_ && _); apply IH; [done|by apply own_update].
Qed.

(** Connecting, and what is done in a session. *)
Lemma keeps_connected n fuel w cfg l :
  attempt_ok n fuel w → at_link w = inl l → keeps I (connected cfg l) (session_calm (load l)).
Proof.
  intros [Hl _] El. destruct (Hl l El) as [Hs _]. apply keeps_step. intros e He. unfold connected.
  pose proof (keeps_connect (load l) 0 cfg (mkConn l (Machine.new Requester))) as H. unfold wp in H.
  destruct (connect cfg _) as [c [s|err|]]; cbn [fst snd].
  - destruct H as [_ H]; [by split|]. by split.
  - by split; [apply (own_same_store e)|].
  - destruct H. by split.
Qed.

Lemma keeps_with_session {X A} (P : X → Prop) n fuel w path s l cps x (run : M (Job Checkpoint.FileCheckpoints X) A) :
  (turns n (load l) < fuel)%nat → session_calm (load l) s → P x →
  keeps (job_calm (load l) P) run (λ _, True) →
  keeps I (with_session fuel w id path s cps x run) (λ r, r ≠ Panic).
Proof.
  intros Hf Hs Hx Hrun. apply keeps_step. intros e He. unfold with_session.
  destruct (keeps_run _ run _ (mkJob s cps x (at_cancel w) []) Hrun (conj Hs Hx)) as [Hr [Hj _]].
  destruct (run _) as [j r]. cbn in Hr, Hj. cbn zeta.
  destruct (keeps_run _ _ _ _ (keeps_close_session (load l) n fuel Hf r Hr) Hj) as [Hc _].
  destruct (close_session fuel r (j_session j)) as [s' closed]. cbn in Hc. split.
  - set (e1 := progress_updater _ _ _ _). apply (own_same_store e1); [done|].
    apply own_progress. by apply (own_same_store e).
  - by destruct closed, r.
Qed.
End Engine.

Section Transfers.
Context (to_json : Checkpoint.MemoryCheckpoints → option bytes) (of_json : bytes → option Checkpoint.MemoryCheckpoints).
Context (n fuel : nat) (e0 : Engine) (history : TransferHistory).
Notation I := (own_record (th_id history) e0).
Abbreviation safely m := (keeps I m (λ _, True)).

Hint Resolve keeps_checkpoints keeps_update keeps_config keeps_next_transfer_id : keeps.

Lemma keeps_send_restart w resume : safely (send_restart of_json w history resume).
Proof. unfold send_restart. solve_keeps. Qed.
Lemma keeps_receive_restart w local resume : safely (receive_restart of_json w history local resume).
Proof. unfold receive_restart. solve_keeps. Qed.
Lemma keeps_register : safely (modify (register_cancel (th_id history))).
Proof. by apply keeps_same. Qed.
Hint Resolve keeps_send_restart keeps_receive_restart keeps_register : keeps.

Lemma keeps_reset w : safely (reset_for_full_retry of_json w history).
Proof.
  unfold reset_for_full_retry. apply keeps_then; [eauto with keeps|]. intros _. apply keeps_then; [|intros r].
  - apply keeps_same. intros e. unfold attempt, checkpoints. by destruct (Checkpoint.open _ _ _).
  - destruct r; [by apply keeps_same|by apply keeps_ret..].
Qed.

Lemma keeps_open_link w : keeps I (open w) (λ l, at_link w = inl l).
Proof. apply keeps_same. intros e. unfold open, safe. cbn. by destruct (at_link w). Qed.

(** The end of an attempt: its report, another attempt after a refused restart,
    or the error. *)
Lemma keeps_conclusion w (again : M Engine Report) (resume : option TransferHistory) (report : TransferOutcome → M Engine Report)
    (r : outcome SessionError TransferOutcome) :
  r ≠ Panic → (∀ out, safely (report out)) → (is_Some resume → safely again) →
  safely (match r with
          | Ok out => report out
          | Err e => if bool_decide (is_Some resume) && is_restart_refusal e
                     then reset_for_full_retry of_json w history ;; again else raise e
          | Panic => lift Panic
          end).
Proof.
  intros Hr Hreport Hagain. destruct r as [out|e|]; [apply Hreport| |done].
  destruct (bool_decide_reflect (is_Some resume)) as [Hs|]; [|apply keeps_raise].
  destruct (is_restart_refusal e); [|apply keeps_raise]. apply keeps_then; [apply keeps_reset|]. intros _. by apply Hagain.
Qed.

Lemma keeps_send_attempt again w server req resume :
  attempt_ok n fuel w → (is_Some resume → safely again) →
  safely (send_attempt to_json of_json fuel again w history server req resume).
Proof.
  intros Hw Hagain. unfold send_attempt. cbv zeta. apply keeps_then; [apply keeps_gets|]. intros set.
  eapply (keeps_bind _ _ _ (file_tame n)).
  { apply keeps_same. intros e. split; [done|]. unfold safe, open_source, lift. cbn.
    destruct (at_file w _) as [content|] eqn:Ec; [|done]. apply open_tame. by apply (proj2 Hw _ _ Ec). }
  intros source Hsource. do 2 (apply keeps_then; [solve_keeps|intros ?]). destruct a0 as [cid restart].
  do 3 (apply keeps_then; [solve_keeps|intros ?]).
  eapply keeps_bind; [apply keeps_open_link|]. intros l Hl. destruct (proj1 Hw l Hl) as [Hsound Hf].
  apply keeps_then; [eauto with keeps|]. intros cfg.
  eapply keeps_bind; [by eapply keeps_connected|]. intros s Hs. apply keeps_then; [apply keeps_gets|]. intros path.
  apply (keeps_bind _ _ _ (λ r, r ≠ Panic)); [|intros r Hr; apply keeps_conclusion; [done|intros out; by apply keeps_ret|done]].
  apply (keeps_with_session _ _ (source_ok (Src := ArticleIo.FileSource) n) n fuel w path s l); [done..|].
  exact (keeps_send_file (H := Checkpoint.file_store to_json (at_fault w)) (load l) n fuel Hf _).
Qed.

Lemma keeps_receive_attempt again w server req resume :
  attempt_ok n fuel w → (is_Some resume → safely again) →
  safely (receive_attempt to_json of_json fuel again w history server req resume).
Proof.
  intros Hw Hagain. unfold receive_attempt. cbv zeta. apply keeps_then; [apply keeps_gets|]. intros set.
  do 2 (apply keeps_then; [solve_keeps|intros ?]). destruct a0 as [cid restart].
  apply keeps_then; [solve_keeps|]. intros cps. apply keeps_then.
  { apply keeps_same. intros e. split; [done|]. unfold safe, open_sink, lift. cbn.
    unfold ArticleIo.file_sink_create. repeat case_match; simplify_eq; done. }
  intros sink.
  eapply keeps_bind; [apply keeps_open_link|]. intros l Hl. destruct (proj1 Hw l Hl) as [Hsound Hf].
  apply keeps_then; [eauto with keeps|]. intros cfg.
  eapply keeps_bind; [by eapply keeps_connected|]. intros s Hs. apply keeps_then; [apply keeps_gets|]. intros path.
  apply (keeps_bind _ _ _ (λ r, r ≠ Panic)); [|intros r Hr; apply keeps_conclusion; [done|intros out|done]].
  - apply (keeps_with_session _ _ (sink_ok (K := ArticleIo.FileSink)) n fuel w path s l); [done..|].
    exact (keeps_receive_file (H := Checkpoint.file_store to_json (at_fault w)) (load l) n fuel Hf _).
  - apply keeps_then; [eauto with keeps|]. intros _. by apply keeps_ret.
Qed.

Lemma keeps_do_send w w' server req resume :
  attempt_ok n fuel w → attempt_ok n fuel w' → safely (do_send to_json of_json fuel w w' history server req resume).
Proof.
  intros Hw Hw'. apply keeps_send_attempt; [done|]. intros _. apply keeps_send_attempt; [done|]. by intros [].
Qed.

Lemma keeps_do_receive w w' server req resume :
  attempt_ok n fuel w → attempt_ok n fuel w' → safely (do_receive to_json of_json fuel w w' history server req resume).
Proof.
  intros Hw Hw'. apply keeps_receive_attempt; [done|]. intros _. apply keeps_receive_attempt; [done|]. by intros [].
Qed.
End Transfers.

Lemma finished_final now r h :
  r ≠ Panic → Outbound.is_final (th_status (finished_record now r h)) = true ∧ th_completed_at (finished_record now r h) = Some now
    ∧ th_id (finished_record now r h) = th_id h.
Proof.
  intros Hr. destruct r as [[b en d c]|e|]; [| |done]; unfold finished_record; cbn -[Diagnostic.is_ok diag_display diag_debug].
  - destruct en as [|d'|code d' []]; [|done..]. destruct (Diagnostic.is_ok d); [|done]. by destruct (th_file_size h).
  - done.
Qed.

(** What a transfer of the client leaves. *)
Definition concluded (now id : ustring) (e e' : Engine) : Prop :=
  (∃ r, table_get id (outbound (docs (en_store e'))) = Some r ∧ Outbound.is_final (th_status r) = true ∧ th_completed_at r = Some now)
  ∧ en_cancels e' !! id = None
  ∧ (∀ id', id' ≠ id → table_get id' (outbound (docs (en_store e'))) = table_get id' (outbound (docs (en_store e))))
  ∧ servers (docs (en_store e')) = servers (docs (en_store e)) ∧ identities (docs (en_store e')) = identities (docs (en_store e)).

Lemma finish_concludes now id r e e0 : r ≠ Panic → own_record id e0 e → concluded now id e0 (finish now id r e).
Proof.
  intros Hr He. assert (own_record id e0 (unregister_cancel id e)) as He' by by apply (own_same_store _ _ e).
  pose proof (own_update id e0 _ (finished_record now r) He') as (_&_&Ho&Hs&Hi).
  destruct He' as (Hh&[h Eh]&_). unfold concluded, finish. split_and!; [|cbn; by rewrite lookup_delete_eq|done..].
  exists (finished_record now r h). rewrite (update_record_is _ _ _ h Hh Eh). cbn [docs set_outbound outbound].
  rewrite table_get_put_eq. destruct (finished_final now r h Hr) as (?&?&_). done.
Qed.

Lemma run_concludes now id (task : M Engine Report) e :
  keeps (own_record id e) task (λ _, True) → own_record id e e → concluded now id e (run_transfer now id task e).
Proof.
  intros Ht He. destruct (keeps_run _ _ _ _ Ht He) as [Hn He']. unfold run_transfer.
  destruct (task e) as [e' r]. cbn [fst snd] in *. destruct r; [by apply finish_concludes..|done].
Qed.

(** C12: a transfer that the client runs concludes. Whatever the server sends, when
    the connection cannot be opened, when files, checkpoints or the session fail,
    and after a restart that the server refuses (which is followed by one full
    transfer and no more): the task ends without a panic, its record has a final
    status and the time of the end, and its flag of cancellation is gone; the
    records of the other transfers, the servers and the identities are as before.
    The store answers; the fuel is above the turns that all that arrives allows. *)
Theorem transfer_concludes to_json of_json n fuel now w w' history server req resume e :
  healthy (en_store e) → is_Some (table_get (th_id history) (outbound (docs (en_store e)))) →
  attempt_ok n fuel w → attempt_ok n fuel w' →
  concluded now (th_id history) e (run_send to_json of_json fuel now w w' history server req resume e)
  ∧ concluded now (th_id history) e (run_receive to_json of_json fuel now w w' history server req resume e).
Proof.
  intros Hh Hr Hw Hw'. assert (own_record (th_id history) e e) as He by done.
  split; apply run_concludes; [by apply (keeps_do_send _ _ n)|done|by apply (keeps_do_receive _ _ n)|done].
Qed.

(** ** A client with one server

    A file of three bytes is submitted; the server goes away at once. *)
Module Sample.

Definition server : PesitServer :=
  set_ps_default_server true (mkPesitServer (lit "S1") (lit "bank") (lit "bank.example") 5000 (lit "BANK") None false true
    false None None None true false false 30000 60000 true false false None None None None).
Definition settings : EngineSettings := mkEngineSettings (lit "/checkpoints") (lit "/received") (lit "CLIENT") 32 4 1024 4096.
Definition engine : Engine :=
  mkEngine (mkDb (mkTables [(lit "S1", server)] [] [] []) []) settings ∅ (λ _, Checkpoint.mkDisk None None) [].
Definition submission : Submission :=
  mkSubmission (lit "T1") (lit "2024-01-01T00:00:00Z") (lit "2024-01-01T00:00:00Z") (lit "20240101_000000") (λ _, inl (true, 3)).
Definition request : TransferRequest :=
  set_tq_remote_filename (Some (lit "PAYMENTS")) (set_tq_filename (Some (lit "/tmp/pay.txt")) transfer_request_default).
Definition attempt : Attempt :=
  mkAttempt (inl (link_new [] [Disconnected])) (λ _, Some [1; 2; 3]) [] (λ _, false) (λ _, None) Checkpoint.NoFault []
    (λ _, false) (lit "240101000000") (λ _, None).
Definition submitted : Engine := (submit_send submission request engine).1.
Definition task : Task := mkTask
  (new_history submission settings server Outbound.Send request (lit "/tmp/pay.txt") (lit "PAYMENTS") (Some 3)) server request None.
End Sample.

Example transfer_concludes_witness :
  submit_send Sample.submission Sample.request Sample.engine = (Sample.submitted, inl Sample.task)
  ∧ let h := ta_history Sample.task in
    concluded (lit "now") (th_id h) Sample.submitted
      (run_send (λ _, None) (λ _, None) 20 (lit "now") Sample.attempt Sample.attempt h Sample.server Sample.request None Sample.submitted).
Proof.
  split; [vm_compute; reflexivity|].
  assert (attempt_ok 3 20 Sample.attempt) as Ha.
  { split; [intros l [= <-]|intros path content [= <-]; cbn; lia]. split; [split; [constructor|by repeat constructor]|].
    unfold turns, load. cbn. lia. }
  apply (transfer_concludes (λ _, None) (λ _, None) 3 20 (lit "now") Sample.attempt Sample.attempt
    (ta_history Sample.task) Sample.server Sample.request None Sample.submitted).
  - reflexivity.
  - vm_compute. by eexists.
  - exact Ha.
  - exact Ha.
Defined.
