(* ===== verification/ClientApi.v ===== *)
(** * The client's interface ([crates/pesit-client/src/api.rs])

    The servers, the identities towards them and the history of transfers, as
    the interface reads and changes them. Routes, JSON, the audit log and the
    upload of certificate files around these operations are left out. *)

From Stdlib Require Import String.
From S2P Require Import Prelude Diag Ebcdic Params Builder Checkpoint Link Datapath Requester DocStore ClientModel ClientEngine.
Open Scope Z_scope.

(** ** Servers *)

Definition get_server_doc (id : ustring) : Api (option PesitServer) :=
  stored (db_statement (λ d, (d, table_get id (servers d)))).
Definition put_server (s : PesitServer) : Api unit :=
  stored (db_statement (λ d, (set_servers (table_put (ps_id s) s (servers d)) d, tt))).

Definition find_server (id : ustring) : Api PesitServer :=
  found ← get_server_doc id;
  match found with
  | Some s => mret s
  | None =>
      all ← stored list_servers;
      match List.find (λ s, bool_decide (ps_name s = id)) all with
      | Some s => mret s
      | None => reject NotFound_ (lit "server '" ++ id ++ lit "' not found")
      end
  end.

Definition validate_server (s : PesitServer) : Api unit :=
  check (negb (is_empty (trim (ps_name s)))) BadRequest (lit "name is required") ;;
  check (negb (is_empty (trim (ps_host s)))) BadRequest (lit "host is required") ;;
  check (negb (ps_port s =? 0)) BadRequest (lit "port is required").

Definition refresh_tls_flags (s : PesitServer) : PesitServer :=
  set_ps_keystore_configured (bool_decide (is_Some (ps_cert_file s)) && bool_decide (is_Some (ps_key_file s)))
    (set_ps_truststore_configured (bool_decide (is_Some (ps_ca_file s))) s).

Definition enabled_servers : Api (list PesitServer) := all ← stored list_servers; mret (filter ps_enabled all).
Definition default_server : Api PesitServer := resolve_server None.

(** The servers that were the default one are no longer. *)
Fixpoint clear_defaults (all : list PesitServer) : Api unit :=
  match all with
  | [] => mret tt
  | o :: all =>
      (if ps_default_server o then put_server (set_ps_default_server false o) else mret tt) ;;
      clear_defaults all
  end.

Definition create_server (uuid created updated : ustring) (s : PesitServer) : Api PesitServer :=
  validate_server s ;;
  all ← stored list_servers;
  check (negb (existsb (λ o, bool_decide (ps_name o = ps_name s)) all)) Conflict
    (lit "server '" ++ ps_name s ++ lit "' already exists") ;;
  let s := refresh_tls_flags (set_ps_updated_at (Some updated) (set_ps_created_at (Some created) (set_ps_id uuid s))) in
  (if ps_default_server s then clear_defaults all else mret tt) ;;
  put_server s ;;
  mret s.

(** The files of certificates stay when none is given. *)
Definition kept_files (existing s : PesitServer) : PesitServer :=
  let s := match ps_ca_file s with None => set_ps_ca_file (ps_ca_file existing) s | Some _ => s end in
  match ps_cert_file s with
  | None => set_ps_key_file (ps_key_file existing) (set_ps_cert_file (ps_cert_file existing) s)
  | Some _ => s
  end.

Definition update_server (now : ustring) (id : ustring) (s : PesitServer) : Api PesitServer :=
  existing ← find_server id;
  validate_server s ;;
  let s := refresh_tls_flags (kept_files existing
             (set_ps_updated_at (Some now) (set_ps_created_at (ps_created_at existing) (set_ps_id (ps_id existing) s)))) in
  put_server s ;;
  mret s.

Definition delete_server (id : ustring) : Api unit :=
  s ← find_server id;
  stored (db_statement (λ d, (set_servers (table_delete (ps_id s) (servers d)).1 d, tt))).

(** The loop of [set_default]: the target, with the flag that it gets. *)
Fixpoint make_default (now : ustring) (target : PesitServer) (result : PesitServer) (all : list PesitServer)
    : Api PesitServer :=
  match all with
  | [] => mret result
  | o :: all =>
      let is_target := bool_decide (ps_id o = ps_id target) in
      let changed := negb (eqb (ps_default_server o) is_target) in
      let o := if changed then set_ps_updated_at (Some now) (set_ps_default_server is_target o) else o in
      (if changed then put_server o else mret tt) ;;
      make_default now target (if is_target then o else result) all
  end.

Definition set_default (now : ustring) (id : ustring) : Api PesitServer :=
  target ← find_server id;
  all ← stored list_servers;
  make_default now target target all.

(** *** Certificates *)

Definition BEGIN : bytes := Ebcdic.utf8 (lit "-----BEGIN ").
Definition BEGIN_CERTIFICATE : bytes := Ebcdic.utf8 (lit "-----BEGIN CERTIFICATE-----").

(** [windows(n)], for the windows that are equal to [pat]. *)
Fixpoint occurrences (pat data : bytes) : nat :=
  match data with
  | [] => 0
  | _ :: rest => (if bool_decide (take (length pat) data = pat) then 1 else 0) + occurrences pat rest
  end.

Definition is_pem (data : bytes) : bool := (0 <? occurrences BEGIN data)%nat.
Definition rustls_pem_count (data : bytes) : nat := occurrences BEGIN_CERTIFICATE data.

Definition delete_truststore (id : ustring) : Api unit :=
  s ← find_server id;
  put_server (refresh_tls_flags (set_ps_ca_file None s)).

(** ** Identities *)

Definition get_identity (id : ustring) : Api Identity :=
  found ← stored (db_statement (λ d, (d, table_get id (identities d))));
  match found with
  | Some p => mret p
  | None => reject NotFound_ (lit "partner '" ++ id ++ lit "' not found")
  end.
Definition put_identity (p : Identity) : Api unit :=
  stored (db_statement (λ d, (set_identities (table_put (id_id p) p (identities d)) d, tt))).

Definition create_partner (uuid created updated : ustring) (p : Identity) : Api Identity :=
  check (negb (is_empty (trim (id_partner_id p)))) BadRequest (lit "partnerId is required") ;;
  all ← stored list_identities;
  check (negb (existsb (λ o, bool_decide (id_partner_id o = id_partner_id p)) all)) Conflict
    (lit "partner '" ++ id_partner_id p ++ lit "' already exists") ;;
  let p := set_id_updated_at (Some updated) (set_id_created_at (Some created) (set_id_id uuid p)) in
  put_identity p ;;
  mret p.

Definition update_partner (now : ustring) (id : ustring) (p : Identity) : Api Identity :=
  existing ← get_identity id;
  let p := set_id_updated_at (Some now) (set_id_created_at (id_created_at existing) (set_id_id (id_id existing) p)) in
  put_identity p ;;
  mret p.

Definition delete_partner (id : ustring) : Api unit :=
  deleted ← stored (db_statement (λ d, let '(t, b) := table_delete id (identities d) in (set_identities t d, b)));
  check deleted NotFound_ (lit "partner '" ++ id ++ lit "' not found").

(** ** Transfers *)

Definition list_recent (limit : nat) : Db Tables → Db Tables * option (list TransferHistory) :=
  db_statement (λ d, (d, table_list_recent limit (outbound d))).

Definition status_name (s : Outbound.TransferStatus) : ustring :=
  match s with
  | Outbound.Pending => lit "PENDING"
  | Outbound.InProgress => lit "IN_PROGRESS"
  | Outbound.Completed => lit "COMPLETED"
  | Outbound.Failed => lit "FAILED"
  | Outbound.Cancelled => lit "CANCELLED"
  | Outbound.Interrupted => lit "INTERRUPTED"
  end.
Definition direction_name (d : Outbound.TransferDirection) : ustring :=
  match d with Outbound.Send => lit "SEND" | Outbound.Receive => lit "RECEIVE" | Outbound.Message => lit "MESSAGE" end.

Definition status_debug (s : Outbound.TransferStatus) : ustring :=
  match s with
  | Outbound.Pending => lit "Pending"
  | Outbound.InProgress => lit "InProgress"
  | Outbound.Completed => lit "Completed"
  | Outbound.Failed => lit "Failed"
  | Outbound.Cancelled => lit "Cancelled"
  | Outbound.Interrupted => lit "Interrupted"
  end.

Definition uppercase (s : ustring) : ustring := map (λ c, if (97 <=? c) && (c <=? 122) then c - 32 else c) s.

Record ListQuery : Type := mkListQuery { lq_limit : option nat; lq_status : option ustring; lq_direction : option ustring }.

(** The records looked through; a big number for [nat], hence not computed with. *)
Definition RECENT : nat := Z.to_nat 10000.

Definition wanted (q : ListQuery) (h : TransferHistory) : bool :=
  match lq_status q with Some s => bool_decide (status_name (th_status h) = uppercase s) | None => true end
  && match lq_direction q with
     | Some d => bool_decide (direction_name <$> th_direction h = Some (uppercase d))
     | None => true
     end.

Definition list_transfers (q : ListQuery) : Api (list TransferHistory) :=
  all ← stored (list_recent RECENT);
  mret (take (default 100%nat (lq_limit q)) (filter (wanted q) all)).

Definition by_correlation (cid : ustring) : Api (list TransferHistory) :=
  all ← stored (list_recent RECENT);
  let found := filter (λ h, th_correlation_id h = Some cid) all in
  if decide (found = []) then reject NotFound_ (lit "no transfer with correlation id '" ++ cid ++ lit "'") else mret found.

Definition resumable (h : TransferHistory) : bool := (0 <? th_last_sync_point h) && restartable_status (th_status h).
Definition resumable_transfers : Api (list TransferHistory) :=
  all ← stored (list_recent RECENT);
  mret (filter resumable all).

Definition cancel_transfer (listening : bool) (id : ustring) : Api unit :=
  h ← existing id;
  requested ← (λ e, let '(e, b) := request_cancel listening id e in (e, inl b));
  check requested Conflict
    (lit "transfer '" ++ id ++ lit "' is not running (status " ++ status_debug (th_status h) ++ lit ")").

(** From the beginning, even when it could be restarted. *)
Definition replay (su : Submission) (id : ustring) : Api Task :=
  prev ← existing id;
  submit_again su prev (again_request prev None).

Record Stats : Type := mkStats {
  n_total : nat;
  n_completed : nat;
  n_failed : nat;
  n_in_progress : nat;
  n_cancelled : nat;
  n_interrupted : nat;
  n_bytes : Z;
}.

(** The sum of the bytes is one of machine integers; more than 64 bits panic in
    a debug build and wrap in a release one. *)
Definition stats (all : list TransferHistory) : Stats :=
  let n s := length (filter (λ h, th_status h = s) all) in
  mkStats (length all) (n Outbound.Completed) (n Outbound.Failed) (n Outbound.InProgress + n Outbound.Pending)
    (n Outbound.Cancelled) (n Outbound.Interrupted)
    (foldr Z.add 0 (map th_bytes_transferred (filter (λ h, th_status h = Outbound.Completed) all)) mod 2 ^ 64).
