(* ===== verification/Schedule.v ===== *)
(** * Scheduled transfers ([crates/pesit-node/src/schedule.rs])

    Recurring transfers, their next run, the slice of the schedules that a
    member of a cluster owns, and a turn of the scheduler. The parser of cron
    expressions and its calendar are those of a library. *)

From Stdlib Require Import String.
From S2P Require Import Prelude Diag Ebcdic Params Builder Checkpoint Link Datapath Requester DocStore NodeModel ClientModel ClientEngine.
Open Scope Z_scope.

Record ScheduledTransfer : Type := mkScheduledTransfer {
  sx_id : ustring;
  sx_name : ustring;
  sx_enabled : bool;
  sx_direction : ustring;
  sx_request : TransferRequest;
  sx_interval_seconds : Z;
  sx_cron : option ustring;
  sx_last_run : option ustring;
  sx_last_status : option ustring;
  sx_next_run_ms : Z;
  sx_created_at : option ustring;
  sx_updated_at : option ustring;
}.

Definition scheduled_transfer_default : ScheduledTransfer :=
  mkScheduledTransfer [] [] true (lit "send") transfer_request_default 3600 None None None 0 None None.

(** ** The next run *)

(** [split_whitespace().count()]; [inside] tells whether a word has begun. *)
Fixpoint word_count (inside : bool) (s : ustring) : nat :=
  match s with
  | [] => 0
  | c :: s => if is_whitespace c then word_count false s else (if inside then 0 else 1) + word_count true s
  end.

Definition cron_expr (raw : ustring) : ustring :=
  let raw := trim raw in if (word_count false raw =? 5)%nat then lit "0 " ++ raw else raw.

(** Arithmetic on [i64] in a release build, and the conversion of a [u64]. *)
Definition i64 (x : Z) : Z := (x + 2 ^ 63) mod 2 ^ 64 - 2 ^ 63.

(** A cron expression that is not blank. *)
Definition cron_of (s : ScheduledTransfer) : option ustring :=
  match sx_cron s with Some e => if is_empty (trim e) then None else Some e | None => None end.

Section Calendar.
Context {Cron : Type} (from_str : ustring → option Cron) (after : Cron → Z → option Z) (valid_millis : Z → bool).

Definition parse_cron (expr : ustring) : option Cron := from_str (cron_expr expr).

Definition next_run_after (clock : Z) (s : ScheduledTransfer) (from_ms : Z) : Z :=
  let from := if valid_millis from_ms then from_ms else clock in
  match (e ← cron_of s; c ← parse_cron e; after c from) with
  | Some next => next
  | None => i64 (from_ms + i64 (i64 (Z.max (sx_interval_seconds s) 1) * 1000))
  end.

(** ** The schedules of a member *)

(** [owner_index]: FNV-1a of the identifier. *)
Definition fnv_step (hash b : Z) : Z := (Z.lxor hash b * 0x100000001b3) mod 2 ^ 64.
Definition fnv (data : bytes) : Z := foldl fnv_step 0xcbf29ce484222325 data.
Definition owner_index (schedule_id : ustring) (member_count : nat) : nat :=
  if (member_count <=? 1)%nat then 0 else Z.to_nat (fnv (Ebcdic.utf8 schedule_id) mod Z.of_nat member_count).

(** The order of strings is that of their code points. *)
Fixpoint string_le (a b : ustring) : bool :=
  match a, b with
  | [], _ => true
  | _ :: _, [] => false
  | x :: a, y :: b => (x <? y) || (x =? y) && string_le a b
  end.

Fixpoint insert_sorted (x : ustring) (l : list ustring) : list ustring :=
  match l with
  | [] => [x]
  | y :: l => if string_le x y then x :: y :: l else y :: insert_sorted x l
  end.
Definition sorted (l : list ustring) : list ustring := foldr insert_sorted [] l.

Fixpoint index_of (x : ustring) (l : list ustring) : option nat :=
  match l with
  | [] => None
  | y :: l => if decide (y = x) then Some 0%nat else S <$> index_of x l
  end.

(** The slot of a node among the members it sees, and their number; a node of
    its own owns everything. *)
Definition slot (members : option (list ustring)) (node : ustring) : nat * nat :=
  match members with
  | Some ids => (default 0%nat (index_of node (sorted ids)), Nat.max (length ids) 1)
  | None => (0%nat, 1%nat)
  end.

Definition fires (own : nat * nat) (now : Z) (s : ScheduledTransfer) : bool :=
  sx_enabled s && (sx_next_run_ms s <=? now) && (owner_index (sx_id s) own.2 =? own.1)%nat.

(** ** Runs *)

Definition is_receive (s : ScheduledTransfer) : bool :=
  bool_decide (map to_ascii_lowercase (sx_direction s) = lit "receive").

(** The transfer is submitted; its text tells how. *)
Definition error_text (e : ApiError) : ustring := default [] (ae_message e).
Definition trigger (su : Submission) (s : ScheduledTransfer) (e : Engine) : Engine * (ustring * option Task) :=
  match (if is_receive s then submit_receive su (sx_request s) else submit_send su (sx_request s)) e with
  | (e, inl t) => (e, (lit "queued " ++ th_id (ta_history t), Some t))
  | (e, inr err) => (e, (lit "error: " ++ error_text err, None))
  end.

Definition ran (now_text : ustring) (outcome : ustring) (s : ScheduledTransfer) : ScheduledTransfer :=
  mkScheduledTransfer (sx_id s) (sx_name s) (sx_enabled s) (sx_direction s) (sx_request s) (sx_interval_seconds s)
    (sx_cron s) (Some now_text) (Some outcome) (sx_next_run_ms s) (sx_created_at s) (sx_updated_at s).
Definition planned (next : Z) (updated : option ustring) (s : ScheduledTransfer) : ScheduledTransfer :=
  mkScheduledTransfer (sx_id s) (sx_name s) (sx_enabled s) (sx_direction s) (sx_request s) (sx_interval_seconds s)
    (sx_cron s) (sx_last_run s) (sx_last_status s) next (sx_created_at s) updated.

(** The scheduler: its table, the engine of transfers, what it has handed to
    background tasks and what it has published to the cluster (a key and its
    document, none for a deletion). *)
Record Scheduler : Type := mkScheduler {
  sd_table : Db (Table ScheduledTransfer);
  sd_engine : Engine;
  sd_started : list (ustring * option Task);
  sd_published : list (ustring * option ScheduledTransfer);
}.

(** What a run finds: the clock, twice as a text and as a number, and its submission. *)
Record Moment : Type := mkMoment { mo_run : ustring; mo_updated : ustring; mo_clock : Z; mo_submission : Submission }.

Definition put_schedule (s : ScheduledTransfer) : Db (Table ScheduledTransfer) → Db (Table ScheduledTransfer) * option unit :=
  db_statement (λ t, (table_put (sx_id s) s t, tt)).

(** A schedule that is due: run, planned again, put back and published, even
    when the store fails. *)
Definition run_schedule (now : Z) (m : Moment) (s : ScheduledTransfer) (sd : Scheduler) : Scheduler :=
  let '(e, (outcome, task)) := trigger (mo_submission m) s (sd_engine sd) in
  let s := ran (mo_run m) outcome s in
  let s := planned (next_run_after (mo_clock m) s now) (Some (mo_updated m)) s in
  mkScheduler (put_schedule s (sd_table sd)).1 e (sd_started sd ++ [(sx_id s, task)]) (sd_published sd ++ [(sx_id s, Some s)]).

Fixpoint run_schedules (own : nat * nat) (now : Z) (moments : nat → Moment) (l : list ScheduledTransfer) (sd : Scheduler)
    : Scheduler :=
  match l with
  | [] => sd
  | s :: l =>
      run_schedules own now (λ n, moments (S n)) l
        (if fires own now s then run_schedule now (moments 0%nat) s sd else sd)
  end.

(** A turn of the loop of [spawn]. *)
Definition tick (members : option (list ustring)) (node : ustring) (now : Z) (moments : nat → Moment) (sd : Scheduler)
    : Scheduler :=
  let '(t, all) := db_statement (λ t, (t, table_list t)) (sd_table sd) in
  run_schedules (slot members node) now moments (default [] all)
    (mkScheduler t (sd_engine sd) (sd_started sd) (sd_published sd)).

(** ** The interface *)

Abbreviation Sched := (ApiM Scheduler).

Definition scheduled {A} (op : Db (Table ScheduledTransfer) → Db (Table ScheduledTransfer) * option A) : Sched A := λ sd,
  let '(t, r) := op (sd_table sd) in
  (mkScheduler t (sd_engine sd) (sd_started sd) (sd_published sd),
   match r with Some a => inl a | None => inr (mkApiError Internal None) end).

Definition publish (key : ustring) (doc : option ScheduledTransfer) : Sched unit :=
  api_modify (λ sd, mkScheduler (sd_table sd) (sd_engine sd) (sd_started sd) (sd_published sd ++ [(key, doc)])).

Definition list_schedules : Sched (list ScheduledTransfer) := scheduled (db_statement (λ t, (t, table_list t))).

Definition get_schedule (id : ustring) : Sched ScheduledTransfer :=
  found ← scheduled (db_statement (λ t, (t, table_get id t)));
  match found with
  | Some s => mret s
  | None => reject NotFound_ (lit "schedule '" ++ id ++ lit "' not found")
  end.

(** A cron expression that is given must be one; the text of its error is the
    library's. *)
Definition valid_cron (s : ScheduledTransfer) : bool :=
  match cron_of s with Some e => bool_decide (is_Some (parse_cron e)) | None => true end.

Definition created (uuid created_at updated_at : ustring) (s : ScheduledTransfer) : ScheduledTransfer :=
  mkScheduledTransfer uuid (sx_name s) (sx_enabled s) (sx_direction s) (sx_request s) (sx_interval_seconds s) (sx_cron s)
    (sx_last_run s) (sx_last_status s) (sx_next_run_ms s) (Some created_at) (Some updated_at).

Definition create_schedule (uuid created_at updated_at : ustring) (now clock : Z) (s : ScheduledTransfer) : Sched ScheduledTransfer :=
  check (negb (is_empty (trim (sx_name s)))) BadRequest (lit "name is required") ;;
  (match cron_of s with
   | Some _ => check (valid_cron s) BadRequest (lit "invalid cron expression")
   | None => check (negb (sx_interval_seconds s =? 0)) BadRequest
               (lit "intervalSeconds must be at least 1, or set a cron expression")
   end) ;;
  let s := created uuid created_at updated_at s in
  let s := planned (next_run_after clock s now) (sx_updated_at s) s in
  scheduled (put_schedule s) ;;
  publish (sx_id s) (Some s) ;;
  mret s.

(** What an update keeps of the schedule that is there. *)
Definition updated (existing : ScheduledTransfer) (now : ustring) (s : ScheduledTransfer) : ScheduledTransfer :=
  mkScheduledTransfer (sx_id existing) (sx_name s) (sx_enabled s) (sx_direction s) (sx_request s) (sx_interval_seconds s)
    (sx_cron s) (sx_last_run existing) (sx_last_status existing) (sx_next_run_ms s) (sx_created_at existing) (Some now).

Definition update_schedule (id : ustring) (now_text : ustring) (now clock : Z) (s : ScheduledTransfer) : Sched ScheduledTransfer :=
  existing ← get_schedule id;
  let s := updated existing now_text s in
  check (valid_cron s) BadRequest (lit "invalid cron expression") ;;
  let s := if sx_next_run_ms s =? 0 then planned (next_run_after clock s now) (sx_updated_at s) s else s in
  scheduled (db_statement (λ t, (table_put id s t, tt))) ;;
  publish id (Some s) ;;
  mret s.

Definition delete_schedule (id : ustring) : Sched unit :=
  deleted ← scheduled (db_statement (λ t, table_delete id t));
  check deleted NotFound_ (lit "schedule '" ++ id ++ lit "' not found") ;;
  publish id None.

(** At once, whatever its plan, which stays. *)
Definition run_now (now_text : ustring) (su : Submission) (id : ustring) : Sched ustring :=
  s ← get_schedule id;
  r ← (λ sd, let '(e, (outcome, task)) := trigger su s (sd_engine sd) in
             (mkScheduler (sd_table sd) e (sd_started sd ++ [(sx_id s, task)]) (sd_published sd), inl outcome));
  scheduled (db_statement (λ t, (table_put id (ran now_text r s) t, tt))) ;;
  mret r.
End Calendar.
