(* ===== verification/ScheduleProps.v ===== *)
(** * Properties of the scheduler

    Members of a cluster that see each other share the schedules out: each one
    that is due runs on one member. *)

From Stdlib Require Import String.
From Stdlib Require Import Sorting.Sorted.
From stdpp Require Import sorting.
From S2P Require Import Prelude Diag Ebcdic Params Builder Checkpoint Link Datapath Requester DocStore NodeModel ClientModel ClientEngine Schedule.
Open Scope Z_scope.

(** ** The order of the members *)

Notation "a ⪯ b" := (string_le a b = true) (at level 70).

Lemma string_le_cons x a y b : x :: a ⪯ y :: b ↔ x < y ∨ (x = y ∧ a ⪯ b).
Proof. cbn. by rewrite orb_true_iff, andb_true_iff, Z.ltb_lt, Z.eqb_eq. Qed.

Lemma string_le_total a b : a ⪯ b ∨ b ⪯ a.
Proof.
  revert b. induction a as [|x a IH]; intros [|y b]; [by left..|by right|]. rewrite !string_le_cons.
  destruct (Z.lt_trichotomy x y) as [|[|]]; destruct (IH b); naive_solver.
Qed.

#[global] Instance string_le_anti : AntiSymm (=) (λ a b, a ⪯ b).
Proof.
  intros a. induction a as [|x a IH]; intros [|y b]; [done..|]. rewrite !string_le_cons. intros H1 H2.
  assert (x = y) as -> by lia. f_equal. apply IH; naive_solver lia.
Qed.

#[global] Instance string_le_trans : Transitive (λ a b, a ⪯ b).
Proof.
  intros a. induction a as [|x a IH]; intros [|y b] [|z c]; [done..|]. rewrite !string_le_cons.
  intros [H1|[-> H1]] [H2|[-> H2]]; [left; lia|left; lia|left; lia|]. right. split; [done|]. by apply (IH b).
Qed.

Lemma insert_sorted_perm x l : insert_sorted x l ≡ₚ x :: l.
Proof. induction l as [|y l IH]; [done|]. cbn. destruct (string_le x y); [done|]. rewrite IH. by constructor. Qed.

Lemma sorted_perm l : sorted l ≡ₚ l.
Proof. induction l as [|x l IH]; [done|]. cbn. fold (sorted l). rewrite insert_sorted_perm. by constructor. Qed.

Lemma insert_sorted_sorted x l :
  Sorted (λ a b, a ⪯ b) l → Sorted (λ a b, a ⪯ b) (insert_sorted x l).
Proof.
  intros Hl. induction Hl as [|y l Hl IH Hy]; [by repeat constructor|]. cbn. destruct (string_le x y) eqn:E.
  - by repeat constructor.
  - assert (string_le y x = true) as E' by (destruct (string_le_total x y); congruence).
    constructor; [done|]. destruct l as [|z l]; cbn; [by constructor|]. inversion_clear Hy.
    destruct (string_le x z); by constructor.
Qed.

Lemma sorted_sorted l : Sorted (λ a b, a ⪯ b) (sorted l).
Proof. induction l as [|x l IH]; [constructor|]. cbn. by apply insert_sorted_sorted. Qed.

(** In whatever order the members are seen, they are sorted the same. *)
Lemma sorted_canonical l k : l ≡ₚ k → sorted l = sorted k.
Proof.
  intros H. apply (Sorted_unique (λ a b, a ⪯ b)); [apply sorted_sorted..|]. by rewrite !sorted_perm.
Qed.

Lemma index_of_lookup x l i : index_of x l = Some i → l !! i = Some x.
Proof.
  revert i. induction l as [|y l IH]; intros i; [done|]. cbn. destruct (decide (y = x)) as [->|]; [by intros [= <-]|].
  destruct (index_of x l) as [j|]; [|done]. intros [= <-]. by apply IH.
Qed.

Lemma index_of_in x l : x ∈ l → is_Some (index_of x l).
Proof.
  induction l as [|y l IH]; [by intros ?%not_elem_of_nil|]. cbn. destruct (decide (y = x)); [by eexists|].
  intros [->|H]%elem_of_cons; [done|]. destruct (IH H) as [j ->]. by eexists.
Qed.

Lemma owner_index_lt id n : (0 < n)%nat → (owner_index id n < n)%nat.
Proof.
  intros Hn. unfold owner_index. destruct (Nat.leb_spec n 1); [lia|].
  pose proof (Z.mod_pos_bound (fnv (Ebcdic.utf8 id)) (Z.of_nat n)). lia.
Qed.

(** The member that owns a schedule. *)
Lemma owner_exists members id :
  NoDup members → members ≠ [] → ∃ owner, owner ∈ members ∧
    ∀ node view, node ∈ members → view ≡ₚ members →
      (owner_index id (slot (Some view) node).2 = (slot (Some view) node).1 ↔ node = owner).
Proof.
  intros Hd Hne. assert (0 < length members)%nat as Hl by (destruct members; [done|cbn; lia]).
  pose proof (owner_index_lt id (length members) Hl) as Ho.
  destruct (lookup_lt_is_Some_2 (sorted members) (owner_index id (length members))) as [owner Eo].
  { by rewrite sorted_perm. }
  exists owner. split; [rewrite <-sorted_perm; by eapply list_elem_of_lookup_2|].
  intros node view Hn Hv. unfold slot. cbn [fst snd]. rewrite (sorted_canonical view members Hv), Hv.
  rewrite (Nat.max_l (length members) 1) by lia.
  destruct (index_of_in node (sorted members)) as [i Ei]; [by rewrite sorted_perm|]. rewrite Ei. cbn.
  apply index_of_lookup in Ei. split; [congruence|]. intros ->.
  eapply NoDup_lookup; [|exact Eo|exact Ei]. by rewrite sorted_perm.
Qed.

(** ** A turn *)

Section Turn.
Context {Cron : Type} (from_str : ustring → option Cron) (after : Cron → Z → option Z) (valid_millis : Z → bool).
Notation run_schedule := (run_schedule from_str after valid_millis).
Notation run_schedules := (run_schedules from_str after valid_millis).
Notation tick := (tick from_str after valid_millis).
Notation next_run_after := (next_run_after from_str after valid_millis).

(** The calendar goes forward, and the clock and the interval leave room. *)
Definition forward (now : Z) (s : ScheduledTransfer) : Prop :=
  valid_millis now = true ∧ 0 ≤ now < 2 ^ 62 ∧ 0 ≤ sx_interval_seconds s < 2 ^ 51.

Lemma next_run_later (clock now : Z) s :
  (∀ c from next, after c from = Some next → from < next) → forward now s → now < next_run_after clock s now.
Proof.
  intros Hafter (Hv&Hn&Hi). unfold Schedule.next_run_after. rewrite Hv.
  assert (now < i64 (now + i64 (i64 (Z.max (sx_interval_seconds s) 1) * 1000))) as Hlater.
  { assert (∀ x, - 2 ^ 63 ≤ x < 2 ^ 63 → i64 x = x) as E by (intros x Hx; unfold i64; rewrite Z.mod_small by lia; lia).
    set (i := Z.max (sx_interval_seconds s) 1). assert (1 ≤ i < 2 ^ 51) by lia.
    rewrite (E i), (E (i * 1000)), (E (now + i * 1000)) by lia. lia. }
  destruct (cron_of s) as [e|]; cbn; [|done]. destruct (parse_cron from_str e) as [c|]; cbn; [|done].
  destruct (after c now) as [next|] eqn:Ea; [by eapply Hafter|done].
Qed.

Lemma run_schedule_effect now m s sd :
  healthy (sd_table sd) →
  ∃ s' task, sx_id s' = sx_id s ∧ sx_next_run_ms s' = next_run_after (mo_clock m) s now
    ∧ sd_table (run_schedule now m s sd) = mkDb (table_put (sx_id s) s' (docs (sd_table sd))) []
    ∧ sd_started (run_schedule now m s sd) = sd_started sd ++ [(sx_id s, task)].
Proof.
  intros Hh. unfold Schedule.run_schedule. destruct (trigger _ s _) as [e [outcome task]].
  set (s' := planned _ _ _). exists s', task. split_and!; [done|by unfold s'|cbn|done].
  destruct (sd_table sd) as [t fs]. unfold healthy in Hh. cbn in Hh. by subst fs.
Qed.

Lemma run_schedules_started own now ms l sd :
  map fst (sd_started (run_schedules own now ms l sd)) = map fst (sd_started sd) ++ map sx_id (filter (fires own now) l).
Proof.
  revert ms sd. induction l as [|s l IH]; intros ms sd; cbn [Schedule.run_schedules]; [by rewrite app_nil_r|].
  rewrite IH, filter_cons. destruct (fires own now s) eqn:E.
  - rewrite (decide_True _ _ I). unfold Schedule.run_schedule. destruct (trigger _ s _) as [e [outcome task]].
    cbn. by rewrite map_app, <-app_assoc.
  - by rewrite (decide_False _ _ (λ H : False, H)).
Qed.

(** What the table holds after the turn: new plans for those that ran. *)
Lemma run_schedules_table own now ms l sd :
  healthy (sd_table sd) → NoDup (map sx_id l) →
  (∀ id, id ∉ map sx_id l → table_get id (docs (sd_table (run_schedules own now ms l sd))) = table_get id (docs (sd_table sd)))
  ∧ (∀ s, s ∈ l → if fires own now s
       then ∃ clock s', table_get (sx_id s) (docs (sd_table (run_schedules own now ms l sd))) = Some s'
              ∧ sx_next_run_ms s' = next_run_after clock s now
       else table_get (sx_id s) (docs (sd_table (run_schedules own now ms l sd))) = table_get (sx_id s) (docs (sd_table sd))).
Proof.
  revert ms sd. induction l as [|x l IH]; intros ms sd Hh Hd; cbn [Schedule.run_schedules].
  { split; [done|]. by intros s ?%not_elem_of_nil. }
  rewrite map_cons in Hd. apply NoDup_cons in Hd as [Hx Hd]. set (sd' := if fires own now x then _ else sd).
  assert (healthy (sd_table sd') ∧ (∀ id, id ≠ sx_id x → table_get id (docs (sd_table sd')) = table_get id (docs (sd_table sd)))
    ∧ if fires own now x
      then ∃ clock s', table_get (sx_id x) (docs (sd_table sd')) = Some s' ∧ sx_next_run_ms s' = next_run_after clock x now
      else sd' = sd) as (Hh'&Hother&Hown).
  { unfold sd'. destruct (fires own now x); [|done].
    destruct (run_schedule_effect now (ms 0%nat) x sd Hh) as (s'&task&Ei&En&->&_). split_and!; [done|..].
    - intros id Hn. cbn. by rewrite table_get_put_ne.
    - eexists _, s'. cbn. by rewrite table_get_put_eq. }
  destruct (IH (λ n, ms (S n)) sd' Hh' Hd) as [IH1 IH2]. split.
  - intros id [H1 H2]%not_elem_of_cons. rewrite IH1 by done. by apply Hother.
  - intros s [->|Hs]%elem_of_cons.
    + destruct (fires own now x); rewrite IH1 by done; [done|by rewrite Hown].
    + specialize (IH2 s Hs). assert (sx_id s ≠ sx_id x) as Hne.
      { intros E. destruct Hx. rewrite <-E. by apply list_elem_of_fmap_2. }
      destruct (fires own now s); [done|]. by rewrite IH2, Hother.
Qed.

(** A table of schedules under their identifiers. *)
Definition keyed (t : Table ScheduledTransfer) : Prop := Forall (λ e, e.1 = sx_id e.2) t ∧ NoDup (map fst t).

Lemma keyed_ids t : keyed t → map sx_id (table_list t) = map fst t.
Proof.
  intros [Hk _]. unfold table_list. rewrite map_map. induction Hk as [|[k s] t Hk Ht IH]; [done|]. cbn in *. by rewrite IH, Hk.
Qed.

Lemma keyed_get t s : keyed t → s ∈ table_list t → table_get (sx_id s) t = Some s.
Proof.
  induction t as [|[k x] t IH]; intros [Hk Hd] Hs; [by apply not_elem_of_nil in Hs|].
  apply Forall_cons in Hk as [Ek Hk]. cbn in Ek. subst k. rewrite map_cons in Hd. apply NoDup_cons in Hd as [Hn Hd]. cbn [table_get].
  unfold table_list in Hs. rewrite map_cons in Hs. apply elem_of_cons in Hs as [->|Hs]; [by rewrite decide_True|].
  rewrite decide_False; [by apply IH|]. intros E. destruct Hn. cbn [fst]. rewrite E, <-(keyed_ids t (conj Hk Hd)).
  by apply list_elem_of_fmap_2.
Qed.

Lemma NoDup_map_filter {A B} (f : A → B) (p : A → bool) l : NoDup (map f l) → NoDup (map f (filter p l)).
Proof.
  intros Hd. induction l as [|x l IH]; [constructor|]. rewrite map_cons in Hd. apply NoDup_cons in Hd as [Hn Hd].
  rewrite filter_cons. destruct (decide _); [|by apply IH]. rewrite map_cons. constructor; [|by apply IH].
  intros (y&Ey&Hy)%list_elem_of_fmap. apply list_elem_of_filter in Hy as [_ Hy]. destruct Hn. rewrite Ey.
  by apply list_elem_of_fmap_2.
Qed.

(** What one member does in a turn on the table [t]. *)
Lemma tick_effect members node now ms sd t s :
  keyed t → sd_table sd = mkDb t [] → sd_started sd = [] → s ∈ table_list t →
  let sd' := tick members node now ms sd in
  NoDup (map fst (sd_started sd'))
  ∧ (sx_id s ∈ map fst (sd_started sd') ↔ fires (slot members node) now s = true)
  ∧ (if fires (slot members node) now s
     then ∃ clock s', table_get (sx_id s) (docs (sd_table sd')) = Some s' ∧ sx_next_run_ms s' = next_run_after clock s now
     else table_get (sx_id s) (docs (sd_table sd')) = Some s).
Proof.
  intros Hk Et Es Hs sd'. set (sd0 := mkScheduler (mkDb t []) (sd_engine sd) [] (sd_published sd)).
  assert (sd' = run_schedules (slot members node) now ms (table_list t) sd0) as ->.
  { unfold sd', Schedule.tick. by rewrite Et, Es. }
  assert (NoDup (map sx_id (table_list t))) as Hd by (rewrite keyed_ids by done; apply Hk).
  rewrite run_schedules_started. cbn [sd0 sd_started map app]. split_and!.
  - by apply NoDup_map_filter.
  - split.
    + intros (x&Ex&Hx)%list_elem_of_fmap. apply list_elem_of_filter in Hx as [Hf Hx].
      assert (x = s) as -> by (apply (keyed_get t) in Hx, Hs; [congruence|done..]).
      by destruct (fires _ _ s).
    + intros Hf. apply list_elem_of_fmap_2, list_elem_of_filter. by rewrite Hf.
  - destruct (run_schedules_table (slot members node) now ms (table_list t) sd0 eq_refl Hd) as [_ H].
    specialize (H s Hs). destruct (fires _ _ s); [exact H|]. by rewrite H, keyed_get.
Qed.
End Turn.

Section Once.
Context {Cron : Type} (from_str : ustring → option Cron) (after : Cron → Z → option Z) (valid_millis : Z → bool).

(** C13: a schedule that is due runs once in the whole cluster. Members that see the
    same members, in whatever order, and hold the same schedules take a turn at
    the same time: each schedule that is enabled and due is run by exactly one of
    them, and once, and there it is planned after the present (given a calendar
    that goes forward and an interval in range); every other schedule is run by
    none of them and stays as it is. *)
Theorem schedule_fires_once members view now t (sd : ustring → Scheduler) (moments : ustring → nat → Moment) s :
  NoDup members → members ≠ [] → (∀ node, node ∈ members → view node ≡ₚ members) →
  keyed t → (∀ node, node ∈ members → sd_table (sd node) = mkDb t [] ∧ sd_started (sd node) = []) →
  (∀ c from next, after c from = Some next → from < next) → s ∈ table_list t →
  let turn node := tick from_str after valid_millis (Some (view node)) node now (moments node) (sd node) in
  if sx_enabled s && (sx_next_run_ms s <=? now) then
    ∃ owner, owner ∈ members
      ∧ (∀ node, node ∈ members → NoDup (map fst (sd_started (turn node)))
           ∧ (sx_id s ∈ map fst (sd_started (turn node)) ↔ node = owner))
      ∧ (forward valid_millis now s →
           ∃ s', table_get (sx_id s) (docs (sd_table (turn owner))) = Some s' ∧ now < sx_next_run_ms s')
  else
    ∀ node, node ∈ members →
      sx_id s ∉ map fst (sd_started (turn node)) ∧ table_get (sx_id s) (docs (sd_table (turn node))) = Some s.
Proof.
  intros Hd Hne Hview Hk Hsd Hafter Hs turn.
  assert (∀ node, node ∈ members → _) as Hturn by
    (intros node Hn; exact (tick_effect from_str after valid_millis (Some (view node)) node now (moments node) (sd node) t s Hk
       (proj1 (Hsd node Hn)) (proj2 (Hsd node Hn)) Hs)).
  destruct (owner_exists members (sx_id s) Hd Hne) as (owner&Ho&Hown). unfold fires in Hturn.
  destruct (sx_enabled s && (sx_next_run_ms s <=? now)) eqn:Edue.
  - exists owner. split; [done|]. split.
    + intros node Hn. destruct (Hturn node Hn) as (?&Hrun&_). split; [done|]. etrans; [exact Hrun|].
      cbn [andb]. rewrite Nat.eqb_eq. by apply Hown; [|apply Hview].
    + intros Hf. destruct (Hturn owner Ho) as (_&_&Htable). cbn [andb] in Htable.
      rewrite (proj2 (Nat.eqb_eq _ _)) in Htable by (apply Hown; [done|by apply Hview|done]).
      destruct Htable as (clock&s'&Eg&En). exists s'. split; [exact Eg|]. rewrite En.
      by apply next_run_later.
  - intros node Hn. destruct (Hturn node Hn) as (_&Hrun&Htable). cbn [andb] in *. split; [|exact Htable].
    intros Hin. apply Hrun in Hin. done.
Qed.
End Once.

(** ** Two members and one schedule *)
Module Sample.

Definition nightly : ScheduledTransfer :=
  mkScheduledTransfer (lit "nightly") (lit "Nightly") true (lit "receive") transfer_request_default 900 None None None 1000 None None.
Definition table : Table ScheduledTransfer := [(lit "nightly", nightly)].
Definition settings : EngineSettings := mkEngineSettings (lit "/checkpoints") (lit "/received") (lit "CLIENT") 32 4 1024 4096.
Definition engine : Engine := mkEngine (mkDb (mkTables [] [] [] []) []) settings ∅ (λ _, Checkpoint.mkDisk None None) [].
Definition scheduler : Scheduler := mkScheduler (mkDb table []) engine [] [].
Definition members : list ustring := [lit "node-b"; lit "node-a"].
Definition view (node : ustring) : list ustring := if decide (node = lit "node-a") then [lit "node-a"; lit "node-b"] else members.
Definition moment : Moment := mkMoment (lit "now") (lit "now") 2000 (mkSubmission (lit "T1") [] [] [] (λ _, inr [])).
Definition turn (node : ustring) : Scheduler :=
  tick (Cron := unit) (λ _, None) (λ _ _, None) (λ _, true) (Some (view node)) node 2000 (λ _, moment) scheduler.
End Sample.

Example schedule_fires_once_witness :
  ∃ owner, owner ∈ Sample.members
    ∧ (∀ node, node ∈ Sample.members → (lit "nightly" ∈ map fst (sd_started (Sample.turn node)) ↔ node = owner))
    ∧ ∃ s', table_get (lit "nightly") (docs (sd_table (Sample.turn owner))) = Some s' ∧ 2000 < sx_next_run_ms s'.
Proof.
  assert (∃ owner, owner ∈ Sample.members
    ∧ (∀ node, node ∈ Sample.members → NoDup (map fst (sd_started (Sample.turn node)))
         ∧ (lit "nightly" ∈ map fst (sd_started (Sample.turn node)) ↔ node = owner))
    ∧ (forward (λ _, true) 2000 Sample.nightly →
         ∃ s', table_get (lit "nightly") (docs (sd_table (Sample.turn owner))) = Some s' ∧ 2000 < sx_next_run_ms s')) as (owner&Ho&H1&H2).
  { apply (schedule_fires_once (Cron := unit) (λ _, None) (λ _ _, None) (λ _, true) Sample.members Sample.view 2000 Sample.table
      (λ _, Sample.scheduler) (λ _ _, Sample.moment) Sample.nightly).
    - by_compute.
    - done.
    - intros node _. unfold Sample.view. destruct (decide _); [|done]. apply Permutation_swap.
    - split; by_compute.
    - done.
    - done.
    - by left. }
  exists owner. split; [done|]. split; [intros node Hn; apply H1, Hn|]. apply H2. split; [done|]. cbn. lia.
Defined.

(** A node that its members do not list takes the first slot, which another one
    has too: both run the schedules of that slot. *)
Lemma unlisted_node_runs_too s now :
  sx_enabled s = true → sx_next_run_ms s ≤ now →
  fires (slot (Some [lit "node-b"]) (lit "node-a")) now s = true ∧ fires (slot (Some [lit "node-b"]) (lit "node-b")) now s = true.
Proof. intros He Hn%Z.leb_le. unfold fires. by rewrite He, Hn. Qed.
