(* ===== verification/Listeners.v ===== *)
(** * The listeners of the server ([crates/pesit-node/src/manager.rs])

    The manager starts and stops the listeners that the store describes. A
    listener is an accept loop: it shares the counter of its sessions with the
    entry of the manager, outlives that entry until it sees the signal, and
    hands each connection to a task that begins later. What the system gives
    (clock, certificates, the socket, handshakes) is the answer that a call
    takes. Each call of the manager runs to its end before the next. *)

From Stdlib Require Import String.
From S2P Require Import Prelude Diag Ebcdic Params Link Transport Checkpoint ArticleIo Datapath Requester Responder DocStore ClientEngine NodeModel NodeHandler.
Open Scope Z_scope.

(** ** Settings *)

Inductive TlsVersion : Type := V1_2 | V1_3.

Record TlsServerSettings : Type := mkTlsServerSettings {
  ts_cert_file : ustring;
  ts_key_file : ustring;
  ts_ca_file : option ustring;
  ts_require_client_cert : bool;
  ts_min_version : option TlsVersion;
}.

(** The files of the certificate store, by the names of keystores and
    truststores. *)
Record PkiFiles : Type := mkPkiFiles {
  keystore_files : ustring → option (ustring * ustring);
  truststore_file : ustring → option ustring;
}.

Record ListenerSettings : Type := mkListenerSettings {
  ls_checkpoint_dir : ustring;
  ls_node_id : ustring;
  ls_tls : option TlsServerSettings;
  ls_pki : option PkiFiles;
}.

(** ** The accept loops

    [al_pending] connections are accepted and their tasks have not begun. *)
Record AcceptLoop : Type := mkAcceptLoop {
  al_cfg : PesitServerConfig;
  al_tls : bool;
  al_active : nat;
  al_pending : nat;
  al_counter : Z;
  al_signalled : bool;
  al_over : bool;
}.

Definition u32 (n : Z) : Z := n mod 2 ^ 32.

Definition accept_loop_new (cfg : PesitServerConfig) (tls : bool) (counter : Z) : AcceptLoop :=
  mkAcceptLoop cfg tls 0 0 counter false false.

(** A connection is accepted or refused. *)
Definition admits (l : AcceptLoop) : bool := negb (sc_max_connections (al_cfg l) <=? Z.of_nat (al_active l)).
Definition accepted (l : AcceptLoop) : AcceptLoop :=
  if admits l
  then mkAcceptLoop (al_cfg l) (al_tls l) (al_active l) (S (al_pending l)) (al_counter l) (al_signalled l) (al_over l)
  else l.

(** The loop sees the signal. *)
Definition broken (l : AcceptLoop) : AcceptLoop :=
  mkAcceptLoop (al_cfg l) (al_tls l) (al_active l) (al_pending l) (al_counter l) (al_signalled l) true.

(** A task begins, and is over. *)
Definition begun (l : AcceptLoop) : AcceptLoop :=
  mkAcceptLoop (al_cfg l) (al_tls l) (S (al_active l)) (pred (al_pending l)) (u32 (al_counter l + 1)) (al_signalled l) (al_over l).
Definition ended (l : AcceptLoop) : AcceptLoop :=
  mkAcceptLoop (al_cfg l) (al_tls l) (pred (al_active l)) (al_pending l) (al_counter l) (al_signalled l) (al_over l).

Definition signalled (l : AcceptLoop) : AcceptLoop :=
  mkAcceptLoop (al_cfg l) (al_tls l) (al_active l) (al_pending l) (al_counter l) true (al_over l).

(** ** A connection

    The number of the connection names its session. *)
Definition padded6 (n : Z) : ustring := let d := decimal n in replicate (6 - length d) 48 ++ d.
Definition session_id_of (cfg : PesitServerConfig) (n : Z) : ustring := sc_server_id cfg ++ lit "-" ++ padded6 n.
Definition conn_id_of (n : Z) : Z := (n mod 254 + 1) mod 256.

Record SessionSetup : Type := mkSessionSetup {
  su_framing : Framing;
  su_config : ResponderConfig;
  su_timeout : Z;
  su_idle_timeout : Z;
}.

(** [handle_connection] up to the session: nothing when the handshake fails. *)
Definition session_setup (l : AcceptLoop) (handshake : bool) (remote_addr : ustring) : option SessionSetup :=
  let cfg := al_cfg l in
  let n := al_counter l in
  let setup framing :=
    mkSessionSetup framing (mkResponderConfig (session_id_of cfg n) (conn_id_of n) remote_addr)
      (Z.max (sc_read_timeout cfg) 1000)
      (Z.max (Z.max (sc_connection_timeout cfg) (sc_read_timeout cfg)) 1000) in
  if al_tls l
  then if handshake then Some (setup (if sc_tcpip_header cfg then LengthPrefixed else Raw)) else None
  else Some (setup LengthPrefixed).

(** The session, on the entities that the framing has cut. *)
Definition handle_connection (of_json : bytes → option Checkpoint.MemoryCheckpoints)
    (to_json : Checkpoint.MemoryCheckpoints → option bytes) (fault : Checkpoint.fault)
    (fuel : nat) (l : AcceptLoop) (handshake : bool) (remote_addr : ustring) (link : Framing → Link) (h : PwHandler)
    : PwHandler * option (outcome SessionError unit) :=
  match session_setup l handshake remote_addr with
  | None => (h, None)
  | Some s =>
      let '(r, o) := serve (H := pw_handler of_json) (H0 := Checkpoint.file_store to_json fault) fuel
                       (responder_new (su_config s) (link (su_framing s)) h) in
      (rs_handler r, Some o)
  end.

(** ** The manager *)

Module Manager.

Inductive ManagerError : Type :=
  | NotFound (id : ustring)
  | AlreadyRunning (id : ustring)
  | NotRunning (id : ustring)
  | Bind (addr : ustring) (text : ustring)
  | Tls (text : ustring)
  | OfStore.

End Manager.

(** An entry of a running listener: the place of its accept loop, whose counter
    and signal it shares. *)
Record RunningListener : Type := mkRunningListener { rn_loop : nat; rn_port : Z }.

Record ServerManager : Type := mkServerManager {
  sm_store : Store;
  sm_settings : ListenerSettings;
  sm_running : gmap ustring RunningListener;
  sm_conn_counter : Z;
  sm_loops : list AcceptLoop;
}.

Definition manager_new (store : Store) (settings : ListenerSettings) : ServerManager :=
  mkServerManager store settings ∅ 0 [].

Definition set_sm_store (s : Store) (m : ServerManager) : ServerManager :=
  mkServerManager s (sm_settings m) (sm_running m) (sm_conn_counter m) (sm_loops m).
Definition set_sm_running (r : gmap ustring RunningListener) (m : ServerManager) : ServerManager :=
  mkServerManager (sm_store m) (sm_settings m) r (sm_conn_counter m) (sm_loops m).
Definition set_sm_loops (l : list AcceptLoop) (m : ServerManager) : ServerManager :=
  mkServerManager (sm_store m) (sm_settings m) (sm_running m) (sm_conn_counter m) l.
Definition set_sm_conn_counter (n : Z) (m : ServerManager) : ServerManager :=
  mkServerManager (sm_store m) (sm_settings m) (sm_running m) n (sm_loops m).

Definition Mgr (A : Type) : Type := ServerManager → ServerManager * (A + Manager.ManagerError).

#[global] Instance Mgr_ret : MRet Mgr := λ _ a m, (m, inl a).
#[global] Instance Mgr_bind : MBind Mgr := λ _ _ f x m,
  match x m with
  | (m, inl a) => f a m
  | (m, inr e) => (m, inr e)
  end.

Definition failing {A} (e : Manager.ManagerError) : Mgr A := λ m, (m, inr e).
Definition mgr_gets {A} (f : ServerManager → A) : Mgr A := λ m, (m, inl (f m)).
Definition mgr_modify (f : ServerManager → ServerManager) : Mgr unit := λ m, (f m, inl tt).

(** A statement whose error is one of the manager, and one whose error is
    dropped. *)
Definition asked {A} (op : Store → Store * option A) : Mgr A := λ m,
  match op (sm_store m) with
  | (s, Some a) => (set_sm_store s m, inl a)
  | (s, None) => (set_sm_store s m, inr Manager.OfStore)
  end.
Definition unasked {A} (op : Store → Store * option A) : Mgr (option A) := λ m,
  let '(s, a) := op (sm_store m) in (set_sm_store s m, inl a).

(** What a call finds: the three clocks of a change of status, the certificates
    as the library reads them and the socket. *)
Record Call : Type := mkCall {
  cl_updated : ustring;
  cl_started : ustring;
  cl_stopped : ustring;
  cl_acceptor : TlsServerSettings → unit + ustring;
  cl_bind : ustring → unit + ustring;
}.

(** *** Statements on the listeners *)

Definition set_server_docs (t : Table PesitServerConfig) (s : Store) : Store :=
  mkStore (partners s) (virtual_files s) t (transfers s) (counters s) (st_faults s).
Definition get_server_doc (id : ustring) : Store → Store * option (option PesitServerConfig) :=
  statement (λ s, (s, table_get id (servers s))).
Definition put_server_doc (id : ustring) (c : PesitServerConfig) : Store → Store * option unit :=
  statement (λ s, (set_server_docs (table_put id c (servers s)) s, tt)).
Definition list_server_docs : Store → Store * option (list PesitServerConfig) :=
  statement (λ s, (s, table_list (servers s))).
Definition server_doc_exists (id : ustring) : Store → Store * option bool :=
  statement (λ s, (s, table_exists id (servers s))).
Definition update_server_doc (id : ustring) (f : PesitServerConfig → PesitServerConfig) (s : Store) : Store * option bool :=
  match get_server_doc id s with
  | (s, Some (Some c)) =>
      match put_server_doc id (f c) s with (s, Some _) => (s, Some true) | (s, None) => (s, None) end
  | (s, Some None) => (s, Some false)
  | (s, None) => (s, None)
  end.

(** *** Operations *)

Definition is_running (id : ustring) (m : ServerManager) : bool := bool_decide (is_Some (sm_running m !! id)).

Record ServerStatusResponse : Type := mkServerStatusResponse {
  sr_server_id : ustring;
  sr_status : ServerStatus;
  sr_running : bool;
  sr_active_connections : nat;
  sr_port : Z;
}.

#[global] Instance server_status_eq_dec : EqDecision ServerStatus.
Proof. solve_decision. Defined.

Definition active_of (m : ServerManager) (r : RunningListener) : nat :=
  match sm_loops m !! rn_loop r with Some l => al_active l | None => 0%nat end.

Definition status (cfg : PesitServerConfig) (m : ServerManager) : ServerStatusResponse :=
  match sm_running m !! sc_server_id cfg with
  | Some r => mkServerStatusResponse (sc_server_id cfg) Running true (active_of m r) (rn_port r)
  | None =>
      mkServerStatusResponse (sc_server_id cfg) (if decide (sc_status cfg = Error) then Error else Stopped) false 0
        (sc_port cfg)
  end.

(** The keystore that the listener names, or the certificates of the process. *)
Definition listener_tls (settings : ListenerSettings) (cfg : PesitServerConfig) : TlsServerSettings + ustring :=
  match filled (sc_ssl_keystore cfg) with
  | Some ks =>
      match ls_pki settings with
      | None => inr (lit "listener references a keystore but certificate management is disabled")
      | Some pki =>
          match keystore_files pki ks with
          | None => inr (lit "keystore '" ++ ks ++ lit "' not found")
          | Some (cert, key) =>
              let ca := match filled (sc_ssl_truststore cfg) ≫= truststore_file pki with
                        | Some p => Some p
                        | None => ls_tls settings ≫= ts_ca_file
                        end in
              let '(min, require) := match ls_tls settings with
                                     | Some t => (ts_min_version t, ts_require_client_cert t)
                                     | None => (Some V1_2, false)
                                     end in
              inl (mkTlsServerSettings cert key ca require min)
          end
      end
  | None =>
      match ls_tls settings with
      | Some t => inl t
      | None => inr (lit "listener requires TLS but no certificate is configured (set a keystore or PESIT_SSL_CERT_PATH/KEY_PATH)")
      end
  end.

(** The assignments of [set_status]. *)
Definition with_status (w : Call) (st : ServerStatus) (c : PesitServerConfig) : PesitServerConfig :=
  mkPesitServerConfig (sc_id c) (sc_server_id c) (sc_port c) (sc_bind_address c) (sc_protocol_version c)
    (sc_max_connections c) (sc_connection_timeout c) (sc_read_timeout c) (sc_receive_directory c)
    (sc_send_directory c) (sc_max_entity_size c) (sc_sync_points_enabled c) (sc_sync_interval_kb c)
    (sc_sync_window c) (sc_resync_enabled c) (sc_auto_start c) (sc_ssl_enabled c) (sc_ssl_keystore c)
    (sc_ssl_truststore c) (sc_tcpip_header c) (sc_compression c) st (sc_created_at c) (Some (cl_updated w))
    (match st with Running => Some (cl_started w) | _ => sc_last_started_at c end)
    (match st with Stopped => Some (cl_stopped w) | _ => sc_last_stopped_at c end).

Definition set_status (w : Call) (id : ustring) (st : ServerStatus) : Mgr unit :=
  unasked (update_server_doc id (with_status w st)) ;; mret tt.

Definition address (cfg : PesitServerConfig) : ustring := sc_bind_address cfg ++ lit ":" ++ decimal (sc_port cfg).

(** The acceptor, when the listener uses TLS; the status tells an error of the
    settings, not one of the files. *)
Definition start_tls (w : Call) (id : ustring) (cfg : PesitServerConfig) : Mgr bool :=
  if sc_ssl_enabled cfg then
    found ← mgr_gets (λ m, listener_tls (sm_settings m) cfg);
    match found with
    | inr text => set_status w id Error ;; failing (Manager.Tls text)
    | inl t => match cl_acceptor w t with inl _ => mret true | inr text => failing (Manager.Tls text) end
    end
  else mret false.

(** The loop is spawned and its entry inserted. *)
Definition launch (id : ustring) (cfg : PesitServerConfig) (tls : bool) (m : ServerManager) : ServerManager :=
  let m1 := set_sm_conn_counter (u32 (sm_conn_counter m + 1000)) m in
  set_sm_running (<[id := mkRunningListener (length (sm_loops m)) (sc_port cfg)]> (sm_running m1))
    (set_sm_loops (sm_loops m1 ++ [accept_loop_new cfg tls (sm_conn_counter m)]) m1).

Definition start (w : Call) (id : ustring) : Mgr unit :=
  running ← mgr_gets (is_running id);
  if running : bool then failing (Manager.AlreadyRunning id)
  else
    found ← asked (get_server_doc id);
    match found with
    | None => failing (Manager.NotFound id)
    | Some cfg =>
        tls ← start_tls w id cfg;
        match cl_bind w (address cfg) with
        | inr text => set_status w id Error ;; failing (Manager.Bind (address cfg) text)
        | inl _ => mgr_modify (launch id cfg tls) ;; set_status w id Running
        end
    end.

(** The entry is removed and the loop signalled; its sessions go on. *)
Definition unlink (id : ustring) (r : RunningListener) (m : ServerManager) : ServerManager :=
  set_sm_running (delete id (sm_running m)) (set_sm_loops (alter signalled (rn_loop r) (sm_loops m)) m).

Definition stop (w : Call) (id : ustring) : Mgr unit :=
  removed ← mgr_gets (λ m, sm_running m !! id);
  match removed with
  | None =>
      exists_ ← asked (server_doc_exists id);
      failing (if exists_ : bool then Manager.NotRunning id else Manager.NotFound id)
  | Some r => mgr_modify (unlink id r) ;; set_status w id Stopped
  end.

(** A call whose error is logged. *)
Definition logged (x : Mgr unit) : Mgr unit := λ m, ((x m).1, inl tt).

(** The listeners that start with the process; the others are stopped. The
    [n]-th takes the answers of its own call. *)
Fixpoint start_all (ws : nat → Call) (n : nat) (all : list PesitServerConfig) : Mgr unit :=
  match all with
  | [] => mret tt
  | s :: all =>
      (if sc_auto_start s then logged (start (ws n) (sc_server_id s)) else set_status (ws n) (sc_server_id s) Stopped) ;;
      start_all ws (S n) all
  end.
Definition start_auto (ws : nat → Call) : Mgr unit :=
  all ← unasked list_server_docs;
  start_all ws 0 (default [] all).

(** The entries in the order of the map, which the sources leave open. *)
Fixpoint stop_each (ws : nat → Call) (n : nat) (ids : list ustring) : Mgr unit :=
  match ids with
  | [] => mret tt
  | id :: ids => logged (stop (ws n) id) ;; stop_each ws (S n) ids
  end.
Definition stop_all (ws : nat → Call) : Mgr unit :=
  ids ← mgr_gets (λ m, (map_to_list (sm_running m)).*1);
  stop_each ws 0 ids.

(** ** The interface of the listeners ([crates/pesit-node/src/api.rs]) *)

Definition of_manager (e : Manager.ManagerError) : ApiError :=
  match e with
  | Manager.NotFound id => mkApiError NotFound_ (Some (lit "server '" ++ id ++ lit "' not found"))
  | Manager.AlreadyRunning id => mkApiError Conflict (Some (lit "server '" ++ id ++ lit "' is already running"))
  | Manager.NotRunning id => mkApiError Conflict (Some (lit "server '" ++ id ++ lit "' is not running"))
  | Manager.Bind addr text => mkApiError Internal (Some (lit "cannot listen on " ++ addr ++ lit ": " ++ text))
  | Manager.Tls text => mkApiError Internal (Some (lit "TLS: " ++ text))
  | Manager.OfStore => mkApiError Internal None
  end.

Abbreviation Admin := (ApiM ServerManager) (only parsing).

Definition via {A} (x : Mgr A) : Admin A := λ m,
  match x m with
  | (m, inl a) => (m, inl a)
  | (m, inr e) => (m, inr (of_manager e))
  end.

Definition no_server {A} (id : ustring) : Admin A := reject NotFound_ (lit "server '" ++ id ++ lit "' not found").

(** The document with the status that the manager tells. *)
Definition with_known_status (m : ServerManager) (c : PesitServerConfig) : PesitServerConfig :=
  mkPesitServerConfig (sc_id c) (sc_server_id c) (sc_port c) (sc_bind_address c) (sc_protocol_version c)
    (sc_max_connections c) (sc_connection_timeout c) (sc_read_timeout c) (sc_receive_directory c)
    (sc_send_directory c) (sc_max_entity_size c) (sc_sync_points_enabled c) (sc_sync_interval_kb c)
    (sc_sync_window c) (sc_resync_enabled c) (sc_auto_start c) (sc_ssl_enabled c) (sc_ssl_keystore c)
    (sc_ssl_truststore c) (sc_tcpip_header c) (sc_compression c) (sr_status (status c m)) (sc_created_at c)
    (sc_updated_at c) (sc_last_started_at c) (sc_last_stopped_at c).

Definition list_servers : Admin (list PesitServerConfig) :=
  all ← via (asked list_server_docs);
  api_gets (λ m, map (with_known_status m) all).

Definition get_server (id : ustring) : Admin PesitServerConfig :=
  found ← via (asked (get_server_doc id));
  match found with Some c => api_gets (λ m, with_known_status m c) | None => no_server id end.

Definition server_status (id : ustring) : Admin ServerStatusResponse :=
  found ← via (asked (get_server_doc id));
  match found with Some c => api_gets (status c) | None => no_server id end.

Definition validate_server (c : PesitServerConfig) : Admin unit :=
  check (negb (is_empty (trim (sc_server_id c)))) BadRequest (lit "serverId is required") ;;
  check (negb (sc_port c =? 0)) BadRequest (lit "port is required") ;;
  check (negb (sc_max_entity_size c <? 64)) BadRequest (lit "maxEntitySize must be at least 64") ;;
  check (negb (16 <? sc_sync_window c)) BadRequest (lit "syncWindow must be between 0 and 16").

Definition same_socket (c o : PesitServerConfig) : bool :=
  (sc_port o =? sc_port c) && bool_decide (sc_bind_address o = sc_bind_address c).

(** The fields that the interface sets: on a creation, and on a change. *)
Definition with_birth (n : Z) (created updated : ustring) (c : PesitServerConfig) : PesitServerConfig :=
  mkPesitServerConfig (Some n) (sc_server_id c) (sc_port c) (sc_bind_address c) (sc_protocol_version c)
    (sc_max_connections c) (sc_connection_timeout c) (sc_read_timeout c) (sc_receive_directory c)
    (sc_send_directory c) (sc_max_entity_size c) (sc_sync_points_enabled c) (sc_sync_interval_kb c)
    (sc_sync_window c) (sc_resync_enabled c) (sc_auto_start c) (sc_ssl_enabled c) (sc_ssl_keystore c)
    (sc_ssl_truststore c) (sc_tcpip_header c) (sc_compression c) Stopped (Some created) (Some updated)
    (sc_last_started_at c) (sc_last_stopped_at c).
Definition with_past (id : ustring) (old : PesitServerConfig) (updated : ustring) (c : PesitServerConfig) : PesitServerConfig :=
  mkPesitServerConfig (sc_id old) id (sc_port c) (sc_bind_address c) (sc_protocol_version c)
    (sc_max_connections c) (sc_connection_timeout c) (sc_read_timeout c) (sc_receive_directory c)
    (sc_send_directory c) (sc_max_entity_size c) (sc_sync_points_enabled c) (sc_sync_interval_kb c)
    (sc_sync_window c) (sc_resync_enabled c) (sc_auto_start c) (sc_ssl_enabled c) (sc_ssl_keystore c)
    (sc_ssl_truststore c) (sc_tcpip_header c) (sc_compression c) (sc_status old) (sc_created_at old) (Some updated)
    (sc_last_started_at old) (sc_last_stopped_at old).

Definition create_server (w : Call) (created updated : ustring) (cfg : PesitServerConfig) : Admin PesitServerConfig :=
  validate_server cfg ;;
  present ← via (asked (server_doc_exists (sc_server_id cfg)));
  check (negb present) Conflict (lit "server '" ++ sc_server_id cfg ++ lit "' already exists") ;;
  others ← via (asked list_server_docs);
  check (negb (existsb (same_socket cfg) others)) Conflict
    (lit "port " ++ decimal (sc_port cfg) ++ lit " is already used by another server") ;;
  n ← via (asked (next_counter (lit "server_id")));
  let cfg := with_birth n created updated cfg in
  via (asked (put_server_doc (sc_server_id cfg) cfg)) ;;
  via (if sc_auto_start cfg then logged (start w (sc_server_id cfg)) else mret tt) ;;
  stored ← via (asked (get_server_doc (sc_server_id cfg)));
  mret (default cfg stored).

(** The path gives the identifier before the document is checked. *)
Definition with_server_id (id : ustring) (c : PesitServerConfig) : PesitServerConfig :=
  mkPesitServerConfig (sc_id c) id (sc_port c) (sc_bind_address c) (sc_protocol_version c)
    (sc_max_connections c) (sc_connection_timeout c) (sc_read_timeout c) (sc_receive_directory c)
    (sc_send_directory c) (sc_max_entity_size c) (sc_sync_points_enabled c) (sc_sync_interval_kb c)
    (sc_sync_window c) (sc_resync_enabled c) (sc_auto_start c) (sc_ssl_enabled c) (sc_ssl_keystore c)
    (sc_ssl_truststore c) (sc_tcpip_header c) (sc_compression c) (sc_status c) (sc_created_at c)
    (sc_updated_at c) (sc_last_started_at c) (sc_last_stopped_at c).

Definition update_server (updated id : ustring) (cfg : PesitServerConfig) : Admin PesitServerConfig :=
  found ← via (asked (get_server_doc id));
  match found with
  | None => no_server id
  | Some existing =>
      validate_server (with_server_id id cfg) ;;
      let cfg := with_past id existing updated cfg in
      via (asked (put_server_doc id cfg)) ;;
      mret cfg
  end.

Definition delete_server_doc (id : ustring) : Store → Store * option bool :=
  statement (λ s, (set_server_docs (table_delete id (servers s)).1 s, table_exists id (servers s))).

Definition delete_server (w : Call) (id : ustring) : Admin unit :=
  running ← api_gets (is_running id);
  (if running : bool then via (stop w id) else mret tt) ;;
  existed ← via (asked (delete_server_doc id));
  if existed : bool then mret tt else no_server id.

Definition start_server (w : Call) (id : ustring) : Admin unit := via (start w id).
Definition stop_server (w : Call) (id : ustring) : Admin unit := via (stop w id).

(** ** Steps

    The calls of the interface and what the loops do between them. *)
Inductive step : ServerManager → ServerManager → Prop :=
  | step_start w id m : step m (start_server w id m).1
  | step_stop w id m : step m (stop_server w id m).1
  | step_create w created updated cfg m : step m (create_server w created updated cfg m).1
  | step_update updated id cfg m : step m (update_server updated id cfg m).1
  | step_delete w id m : step m (delete_server w id m).1
  | step_accept i l m :
      sm_loops m !! i = Some l → al_over l = false →
      step m (set_sm_loops (<[i := accepted l]> (sm_loops m)) m)
  | step_break i l m :
      sm_loops m !! i = Some l → al_signalled l = true → al_over l = false →
      step m (set_sm_loops (<[i := broken l]> (sm_loops m)) m)
  | step_begin i l m :
      sm_loops m !! i = Some l → (0 < al_pending l)%nat →
      step m (set_sm_loops (<[i := begun l]> (sm_loops m)) m)
  | step_end i l m :
      sm_loops m !! i = Some l → (0 < al_active l)%nat →
      step m (set_sm_loops (<[i := ended l]> (sm_loops m)) m).

Definition steps : ServerManager → ServerManager → Prop := rtc step.
