(* ===== verification/ListenersProps.v ===== *)
(** * The listeners of the server: properties

    Which accept loops accept, what the store says of them, and how many
    sessions one of them may have. *)

From Stdlib Require Import String.
From S2P Require Import Prelude Diag Ebcdic Params Link Transport Checkpoint ArticleIo Datapath Requester Responder DocStore ClientEngine NodeModel NodeHandler Listeners.
Open Scope Z_scope.

(** ** Loops and entries *)

Record supervised (m : ServerManager) : Prop := mkSupervised {
  sv_live id r : sm_running m !! id = Some r →
    ∃ l, sm_loops m !! rn_loop r = Some l ∧ al_signalled l = false ∧ rn_port r = sc_port (al_cfg l);
  sv_owner i l : sm_loops m !! i = Some l → al_signalled l = false → ∃ id r, sm_running m !! id = Some r ∧ rn_loop r = i;
  sv_one id id' r r' : sm_running m !! id = Some r → sm_running m !! id' = Some r' → rn_loop r = rn_loop r' → id = id';
  sv_over i l : sm_loops m !! i = Some l → al_over l = true → al_signalled l = true;
}.

Create HintDb manager.

(** Neither the store nor the statements on it matter. *)
Lemma supervised_store s m : supervised m → supervised (set_sm_store s m).
Proof. by intros [? ? ? ?]. Qed.

Lemma supervised_launch id cfg tls m : supervised m → sm_running m !! id = None → supervised (launch id cfg tls m).
Proof.
  intros [Hlive Howner Hone Hover] Hid. split; cbn.
  - intros id' r. rewrite lookup_insert_Some. intros [[-> <-]|[Hne Hr]]; cbn.
    + rewrite lookup_app_r, Nat.sub_diag by done. by eexists.
    + destruct (Hlive _ _ Hr) as (l&El&Hl). exists l. split; [by apply lookup_app_l_Some|done].
  - intros i l Hl Hs. apply lookup_app_Some in Hl as [Hl|[Hi Hl]].
    + destruct (Howner _ _ Hl Hs) as (id'&r&Hr&<-). exists id', r. split; [|done].
      rewrite lookup_insert_ne; [done|]. intros ->. by rewrite Hid in Hr.
    + apply list_lookup_singleton_Some in Hl as [Hi0 _]. exists id. eexists. rewrite lookup_insert_eq. split; [done|].
      cbn. lia.
  - intros i1 i2 r1 r2 H1 H2 E. rewrite lookup_insert_Some in H1, H2.
    destruct H1 as [[<- <-]|[_ H1]], H2 as [[<- <-]|[_ H2]]; [done| | |by eapply Hone].
    + destruct (Hlive _ _ H2) as (l&El&_). apply lookup_lt_Some in El. cbn in E. lia.
    + destruct (Hlive _ _ H1) as (l&El&_). apply lookup_lt_Some in El. cbn in E. lia.
  - intros i l Hl Ho. apply lookup_app_Some in Hl as [Hl|[_ Hl]]; [by eapply Hover|].
    apply list_lookup_singleton_Some in Hl as [_ <-]. done.
Qed.

Lemma supervised_unlink id r m : supervised m → sm_running m !! id = Some r → supervised (unlink id r m).
Proof.
  intros [Hlive Howner Hone Hover] Hid. split; cbn.
  - intros id' r'. rewrite lookup_delete_Some. intros [Hne Hr]. destruct (Hlive _ _ Hr) as (l&El&Hl). exists l.
    rewrite list_lookup_alter_ne; [done|]. intros E. by apply Hne, (Hone _ _ _ _ Hid Hr).
  - intros i l Hl Hs. destruct (decide (rn_loop r = i)) as [<-|Hne].
    + rewrite list_lookup_alter_eq in Hl. apply fmap_Some in Hl as (l0&_&->). done.
    + rewrite list_lookup_alter_ne in Hl by done. destruct (Howner _ _ Hl Hs) as (id'&r'&Hr&<-).
      exists id', r'. split; [|done]. rewrite lookup_delete_ne; [done|]. intros <-. congruence.
  - intros i1 i2 r1 r2 H1 H2. rewrite lookup_delete_Some in H1, H2. destruct H1, H2. by apply Hone.
  - intros i l Hl Ho. destruct (decide (rn_loop r = i)) as [<-|Hne].
    + rewrite list_lookup_alter_eq in Hl. apply fmap_Some in Hl as (l0&_&->). done.
    + rewrite list_lookup_alter_ne in Hl by done. by eapply Hover.
Qed.

(** An event of a loop that leaves its settings and its signal. *)
Lemma supervised_event i l l' m :
  supervised m → sm_loops m !! i = Some l → al_signalled l' = al_signalled l → al_cfg l' = al_cfg l →
  (al_over l' = true → al_signalled l = true) →
  supervised (set_sm_loops (<[i := l']> (sm_loops m)) m).
Proof.
  intros [Hlive Howner Hone Hover] Hi Es Ec Ho.
  assert (Hn := lookup_lt_Some _ _ _ Hi). split; cbn; [| |done|].
  - intros id r Hr. destruct (Hlive _ _ Hr) as (l0&El&Hs&Hp). destruct (decide (rn_loop r = i)) as [E|Hne].
    + exists l'. rewrite E, list_lookup_insert_eq by done. assert (l0 = l) as -> by congruence. by rewrite Es, Ec.
    + exists l0. by rewrite list_lookup_insert_ne.
  - intros j lj Hj Hs. apply list_lookup_insert_Some in Hj as [(<-&<-&_)|[_ Hj]]; [|by eapply Howner].
    eapply Howner; [done|]. congruence.
  - intros j lj Hj Hov. apply list_lookup_insert_Some in Hj as [(<-&<-&_)|[_ Hj]]; [|by eapply Hover].
    rewrite Es. by apply Ho.
Qed.

(** ** Calls *)

(** Statements leave the rest of the manager. *)
Definition only_store {A} (x : Mgr A) : Prop := ∀ m, ∃ s, (x m).1 = set_sm_store s m.

Lemma set_sm_store_store s s' m : set_sm_store s (set_sm_store s' m) = set_sm_store s m.
Proof. done. Qed.
Lemma set_sm_store_id m : set_sm_store (sm_store m) m = m.
Proof. by destruct m. Qed.

Lemma only_store_bind {A B} (x : Mgr A) (f : A → Mgr B) :
  only_store x → (∀ a, only_store (f a)) → only_store (x ≫= f).
Proof.
  intros Hx Hf m. destruct (Hx m) as [s E]. unfold mbind, Mgr_bind. destruct (x m) as [m' [a|e]]; cbn in E.
  - destruct (Hf a m') as [s' E']. exists s'. by rewrite E', E, set_sm_store_store.
  - by exists s.
Qed.
Lemma only_store_ret {A} (a : A) : only_store (mret a).
Proof. intros m. exists (sm_store m). by rewrite set_sm_store_id. Qed.
Lemma only_store_failing {A} e : only_store (failing (A := A) e).
Proof. intros m. exists (sm_store m). by rewrite set_sm_store_id. Qed.
Lemma only_store_gets {A} (f : ServerManager → A) : only_store (mgr_gets f).
Proof. intros m. exists (sm_store m). by rewrite set_sm_store_id. Qed.
Lemma only_store_asked {A} (op : Store → Store * option A) : only_store (asked op).
Proof. intros m. unfold asked. destruct (op _) as [s [a|]]; by exists s. Qed.
Lemma only_store_unasked {A} (op : Store → Store * option A) : only_store (unasked op).
Proof. intros m. unfold unasked. destruct (op _) as [s a]; by exists s. Qed.
#[export] Hint Resolve only_store_bind only_store_ret only_store_failing only_store_gets only_store_asked
  only_store_unasked : manager.

Lemma only_store_set_status w id st : only_store (set_status w id st).
Proof. unfold set_status. auto with manager. Qed.
#[export] Hint Resolve only_store_set_status : manager.

Lemma only_store_start_tls w id cfg : only_store (start_tls w id cfg).
Proof.
  unfold start_tls. destruct (sc_ssl_enabled cfg); [|auto with manager]. apply only_store_bind; [auto with manager|].
  intros [t|text]; [destruct (cl_acceptor w t)|]; auto with manager.
Qed.

Lemma mgr_bind_eq {A B} (x : Mgr A) (f : A → Mgr B) m :
  (x ≫= f) m = match x m with (m', inl a) => f a m' | (m', inr e) => (m', inr e) end.
Proof. done. Qed.

Lemma start_cases w id m :
  (∃ s, (start w id m).1 = set_sm_store s m)
  ∨ ∃ s cfg tls, sm_running m !! id = None ∧ (start w id m).1 = set_sm_store s (launch id cfg tls m).
Proof.
  unfold start. rewrite mgr_bind_eq. cbn. unfold is_running. case_bool_decide as Hr.
  { left. exists (sm_store m). by rewrite set_sm_store_id. }
  apply eq_None_not_Some in Hr. rewrite mgr_bind_eq.
  destruct (only_store_asked (get_server_doc id) m) as [s1 E1].
  destruct (asked (get_server_doc id) m) as [m1 [[cfg|]|e]]; cbn in E1; subst m1; [|left; by exists s1..].
  rewrite mgr_bind_eq. destruct (only_store_start_tls w id cfg (set_sm_store s1 m)) as [s2 E2].
  destruct (start_tls w id cfg _) as [m2 [tls|e]]; cbn in E2; subst m2; [|left; by exists s2].
  destruct (cl_bind w (address cfg)) as [?|text].
  - right. rewrite mgr_bind_eq. cbn. rewrite set_sm_store_store.
    destruct (only_store_set_status w id Running (launch id cfg tls (set_sm_store s2 m))) as [s3 E3].
    exists s3, cfg, tls. by rewrite E3.
  - left. match goal with |- ∃ _, (?x _).1 = _ => assert (Ho : only_store x) by auto with manager end.
    destruct (Ho (set_sm_store s2 (set_sm_store s1 m))) as [s3 E3]. exists s3. by rewrite E3.
Qed.

Lemma stop_cases w id m :
  (∃ s, (stop w id m).1 = set_sm_store s m)
  ∨ ∃ s r, sm_running m !! id = Some r ∧ (stop w id m).1 = set_sm_store s (unlink id r m).
Proof.
  unfold stop. rewrite mgr_bind_eq. cbn. destruct (sm_running m !! id) as [r|] eqn:Hr.
  - right. destruct (only_store_set_status w id Stopped (unlink id r m)) as [s E]. exists s, r. split; [done|].
    rewrite mgr_bind_eq. cbn. by rewrite E.
  - left. apply only_store_bind; [auto with manager|]. intros []; auto with manager.
Qed.

(** What the calls do to entries and loops. *)
Inductive edit : ServerManager → ServerManager → Prop :=
  | edit_store s m : edit m (set_sm_store s m)
  | edit_launch id cfg tls m : sm_running m !! id = None → edit m (launch id cfg tls m)
  | edit_unlink id r m : sm_running m !! id = Some r → edit m (unlink id r m).

Definition edits {R} (x : ServerManager → ServerManager * R) : Prop := ∀ m, rtc edit m (x m).1.

Lemma edits_only_store {A} (x : Mgr A) : only_store x → edits x.
Proof. intros Hx m. destruct (Hx m) as [s ->]. apply rtc_once, edit_store. Qed.

Lemma edits_start w id : edits (start w id).
Proof.
  intros m. destruct (start_cases w id m) as [(s&->)|(s&cfg&tls&Hr&->)]; [apply rtc_once, edit_store|].
  eapply rtc_l; [by apply edit_launch|apply rtc_once, edit_store].
Qed.

Lemma edits_stop w id : edits (stop w id).
Proof.
  intros m. destruct (stop_cases w id m) as [(s&->)|(s&r&Hr&->)]; [apply rtc_once, edit_store|].
  eapply rtc_l; [by apply edit_unlink|apply rtc_once, edit_store].
Qed.

Lemma edits_bind {A B} (x : ApiM ServerManager A) (f : A → ApiM ServerManager B) :
  edits x → (∀ a, edits (f a)) → edits (x ≫= f).
Proof.
  intros Hx Hf m. specialize (Hx m). unfold mbind, Api_bind. destruct (x m) as [m1 [a|e]]; [|done].
  etrans; [done|apply Hf].
Qed.
Lemma edits_via {A} (x : Mgr A) : edits x → edits (via x).
Proof. intros Hx m. specialize (Hx m). unfold via. by destruct (x m) as [m1 [a|e]]. Qed.
Lemma edits_asked {A} (op : Store → Store * option A) : edits (asked op).
Proof. apply edits_only_store. auto with manager. Qed.
Lemma edits_pure {A} (r : A + ApiError) : edits (λ m, (m, r)).
Proof. intros m. apply rtc_refl. Qed.
Lemma edits_ret {A} (a : A) : edits (mret (M := ApiM ServerManager) a).
Proof. intros m. apply rtc_refl. Qed.
Lemma edits_mret {A} (a : A) : edits (mret (M := Mgr) a).
Proof. intros m. apply rtc_refl. Qed.
Lemma edits_gets {A} (f : ServerManager → A) : edits (api_gets f).
Proof. intros m. apply rtc_refl. Qed.
Lemma edits_check ok status message : edits (check (S := ServerManager) ok status message).
Proof. unfold check. destruct ok; intros m; apply rtc_refl. Qed.
Lemma edits_no_server {A} id : edits (no_server (A := A) id).
Proof. intros m. apply rtc_refl. Qed.
Lemma edits_logged x : edits x → edits (logged x).
Proof. intros Hx m. apply Hx. Qed.
#[export] Hint Resolve edits_start edits_stop edits_bind edits_via edits_asked edits_pure edits_ret edits_mret
  edits_gets edits_check edits_no_server edits_logged : manager.

Lemma edits_validate cfg : edits (validate_server cfg).
Proof. unfold validate_server. auto 10 with manager. Qed.
#[export] Hint Resolve edits_validate : manager.

Lemma edits_create w created updated cfg : edits (create_server w created updated cfg).
Proof.
  unfold create_server. repeat (apply edits_bind; [|intros ?]); auto with manager.
  destruct (sc_auto_start _); auto with manager.
Qed.
Lemma edits_update updated id cfg : edits (update_server updated id cfg).
Proof. unfold update_server. apply edits_bind; [auto with manager|]. intros [old|]; auto 8 with manager. Qed.
Lemma edits_delete w id : edits (delete_server w id).
Proof.
  unfold delete_server. apply edits_bind; [auto with manager|intros running]. apply edits_bind.
  - destruct running; auto with manager.
  - intros _. apply edits_bind; [auto with manager|]. intros []; auto with manager.
Qed.

(** A step is some edits or one event of a loop. *)
Inductive event : AcceptLoop → AcceptLoop → Prop :=
  | event_accept l : al_over l = false → event l (accepted l)
  | event_break l : al_signalled l = true → event l (broken l)
  | event_begin l : (0 < al_pending l)%nat → event l (begun l)
  | event_end l : (0 < al_active l)%nat → event l (ended l).

Lemma step_cases m m' :
  step m m' → rtc edit m m' ∨ ∃ i l l', sm_loops m !! i = Some l ∧ event l l' ∧ m' = set_sm_loops (<[i := l']> (sm_loops m)) m.
Proof.
  intros []; [left..|right|right|right|right].
  - apply edits_via, edits_start.
  - apply edits_via, edits_stop.
  - apply edits_create.
  - apply edits_update.
  - apply edits_delete.
  - exists i, l. eexists. split_and!; [done|by apply event_accept|done].
  - exists i, l. eexists. split_and!; [done|by apply event_break|done].
  - exists i, l. eexists. split_and!; [done|by apply event_begin|done].
  - exists i, l. eexists. split_and!; [done|by apply event_end|done].
Qed.

Lemma rtc_keeps {A} (R : relation A) (I : A → Prop) x y : (∀ x y, I x → R x y → I y) → rtc R x y → I x → I y.
Proof. intros HR. induction 1; eauto. Qed.

Lemma supervised_edit m m' : supervised m → edit m m' → supervised m'.
Proof. intros Hm He. destruct He; [by apply supervised_store|by apply supervised_launch|by apply supervised_unlink]. Qed.

Lemma supervised_step m m' : supervised m → step m m' → supervised m'.
Proof.
  intros Hm Hs. destruct (step_cases m m' Hs) as [He|(i&l&l'&Hi&He&->)].
  - apply (rtc_keeps edit supervised _ _ supervised_edit He Hm).
  - apply supervised_event with l; [done|done| | |]; destruct He; unfold accepted; try destruct (admits l); cbn; try done;
      try congruence; by apply (sv_over m Hm i).
Qed.

Lemma supervised_new store settings : supervised (manager_new store settings).
Proof. by split. Qed.

(** ** What the store says *)

(** No statement fails. *)
Definition sound (m : ServerManager) : Prop := st_faults (sm_store m) = [].

Lemma statement_sound {A} (op : Store → Store * A) s : st_faults s = [] → statement op s = ((op s).1, Some (op s).2).
Proof. destruct s as [p v sv t c fs]. cbn. intros ->. unfold statement. cbn. by destruct (op _). Qed.

(** The document of a listener gets a status. *)
Definition marked (w : Call) (id : ustring) (st : ServerStatus) (c : PesitServerConfig) (m : ServerManager) : ServerManager :=
  set_sm_store (set_server_docs (table_put id (with_status w st c) (servers (sm_store m))) (sm_store m)) m.

Lemma asked_get id m : sound m → asked (get_server_doc id) m = (m, inl (table_get id (servers (sm_store m)))).
Proof. intros Hm. unfold asked, get_server_doc. rewrite statement_sound by done. cbn. by rewrite set_sm_store_id. Qed.

Lemma set_status_doc w id st m c :
  sound m → table_get id (servers (sm_store m)) = Some c → set_status w id st m = (marked w id st c m, inl tt).
Proof.
  intros Hm Hc. unfold set_status. rewrite mgr_bind_eq. unfold unasked, update_server_doc, get_server_doc, put_server_doc.
  rewrite statement_sound by done. cbn. rewrite Hc, statement_sound by done. done.
Qed.

(** The answer about the certificates, and whether a refusal is marked. *)
Definition tls_answer (w : Call) (settings : ListenerSettings) (cfg : PesitServerConfig) : bool + (ustring * bool) :=
  if sc_ssl_enabled cfg then
    match listener_tls settings cfg with
    | inl t => match cl_acceptor w t with inl _ => inl true | inr text => inr (text, false) end
    | inr text => inr (text, true)
    end
  else inl false.

Lemma start_eq w id m :
  sound m →
  start w id m =
    match sm_running m !! id, table_get id (servers (sm_store m)) with
    | Some _, _ => (m, inr (Manager.AlreadyRunning id))
    | None, None => (m, inr (Manager.NotFound id))
    | None, Some cfg =>
        match tls_answer w (sm_settings m) cfg with
        | inr (text, marks) => (if marks : bool then marked w id Error cfg m else m, inr (Manager.Tls text))
        | inl tls =>
            match cl_bind w (address cfg) with
            | inr text => (marked w id Error cfg m, inr (Manager.Bind (address cfg) text))
            | inl _ => (marked w id Running cfg (launch id cfg tls m), inl tt)
            end
        end
    end.
Proof.
  intros Hm. unfold start. rewrite mgr_bind_eq. cbn. unfold is_running.
  destruct (sm_running m !! id) as [r|] eqn:Hr; cbn; [done|]. rewrite mgr_bind_eq, asked_get by done.
  destruct (table_get id _) as [cfg|] eqn:Hc; [|done]. rewrite mgr_bind_eq. unfold start_tls, tls_answer.
  assert (Hb : ∀ tls, (match cl_bind w (address cfg) with
                       | inl _ => mgr_modify (launch id cfg tls) ;; set_status w id Running
                       | inr text => set_status w id Error ;; failing (Manager.Bind (address cfg) text)
                       end) m
      = match cl_bind w (address cfg) with
        | inr text => (marked w id Error cfg m, inr (Manager.Bind (address cfg) text))
        | inl _ => (marked w id Running cfg (launch id cfg tls m), inl tt)
        end).
  { intros tls. destruct (cl_bind w (address cfg)); rewrite mgr_bind_eq.
    - apply (set_status_doc w id Running (launch id cfg tls m) cfg Hm Hc).
    - by rewrite (set_status_doc w id Error m cfg Hm Hc). }
  destruct (sc_ssl_enabled cfg); [|apply Hb]. rewrite mgr_bind_eq. cbn.
  destruct (listener_tls (sm_settings m) cfg) as [t|text].
  - destruct (cl_acceptor w t); [apply Hb|done].
  - by rewrite mgr_bind_eq, (set_status_doc w id Error m cfg Hm Hc).
Qed.

Definition says_running (m : ServerManager) (id : ustring) : Prop :=
  ∃ c, table_get id (servers (sm_store m)) = Some c ∧ sc_status c = Running.

(** The store says of a listener that it runs when it has an entry. *)
Definition reflected (m : ServerManager) : Prop :=
  sound m ∧ ∀ id, is_Some (sm_running m !! id) ↔ says_running m id.

Lemma says_running_marked w id st c m id' :
  says_running (marked w id st c m) id' ↔ (if decide (id' = id) then st = Running else says_running m id').
Proof.
  unfold says_running, marked. cbn. destruct (decide (id' = id)) as [->|Hne].
  - rewrite table_get_put_eq. split; [by intros (?&[= <-]&?)|]. intros ->. by eexists.
  - by rewrite table_get_put_ne.
Qed.

Lemma reflected_marked w id st c m :
  sound m → (∀ id', is_Some (sm_running m !! id') ↔ (if decide (id' = id) then st = Running else says_running m id')) →
  reflected (marked w id st c m).
Proof. intros Hm H. split; [done|]. intros id'. by rewrite says_running_marked, <- H. Qed.

Lemma reflected_start w id m : reflected m → reflected (start w id m).1.
Proof.
  intros [Hm Hr]. rewrite start_eq by done. destruct (sm_running m !! id) as [r|] eqn:Hid; [by split|].
  destruct (table_get id _) as [cfg|] eqn:Hc; [|by split].
  assert (Herr : reflected (marked w id Error cfg m)).
  { apply reflected_marked; [done|]. intros id'. destruct (decide (id' = id)) as [->|]; [|done].
    rewrite Hid. by split; [intros []|]. }
  destruct (tls_answer w _ cfg) as [tls|[text []]]; [|done|by split].
  destruct (cl_bind w (address cfg)); [|done].
  apply reflected_marked; [done|]. intros id'. cbn. destruct (decide (id' = id)) as [->|Hne].
  - rewrite lookup_insert_eq. by split; [|eexists].
  - rewrite lookup_insert_ne by done. apply Hr.
Qed.

Lemma reflected_stop w id m : reflected m → reflected (stop w id m).1.
Proof.
  intros [Hm Hr]. unfold stop. rewrite mgr_bind_eq. cbn. destruct (sm_running m !! id) as [r|] eqn:Hid.
  - destruct (proj1 (Hr id)) as (c&Hc&_); [by eexists|]. rewrite mgr_bind_eq. cbn.
    rewrite (set_status_doc w id Stopped (unlink id r m) c Hm Hc). apply reflected_marked; [done|].
    intros id'. cbn. destruct (decide (id' = id)) as [->|Hne].
    + rewrite lookup_delete_eq. by split; [intros []|].
    + rewrite lookup_delete_ne by done. apply Hr.
  - rewrite mgr_bind_eq. unfold asked, server_doc_exists. rewrite statement_sound by done. cbn.
    by rewrite set_sm_store_id.
Qed.

(** *** The interface

    What holds of the entries and of the documents before and after a part of a
    call; a part that fails leaves them in agreement. *)
Definition Knowledge : Type := gmap ustring RunningListener → Table PesitServerConfig → Prop.
Definition knows (Φ : Knowledge) (m : ServerManager) : Prop := reflected m ∧ Φ (sm_running m) (servers (sm_store m)).

Definition triple {A} (Φ : Knowledge) (x : ApiM ServerManager A) (Ψ : A → Knowledge) : Prop :=
  ∀ m, knows Φ m → match x m with (m', inl a) => knows (Ψ a) m' | (m', inr _) => reflected m' end.

Lemma api_bind_eq {A B} (x : ApiM ServerManager A) (f : A → ApiM ServerManager B) m :
  (x ≫= f) m = match x m with (m', inl a) => f a m' | (m', inr e) => (m', inr e) end.
Proof. done. Qed.

Lemma triple_bind {A B} Φ (Ψ : A → Knowledge) (X : B → Knowledge) x f :
  triple Φ x Ψ → (∀ a, triple (Ψ a) (f a) X) → triple Φ (x ≫= f) X.
Proof.
  intros Hx Hf m Hm. specialize (Hx m Hm). unfold mbind, Api_bind. destruct (x m) as [m1 [a|e]]; [by apply Hf|done].
Qed.
Lemma triple_mono {A} Φ Φ' (Ψ : A → Knowledge) x : (∀ r t, Φ r t → Φ' r t) → triple Φ' x Ψ → triple Φ x Ψ.
Proof. intros H Hx m [Hm HΦ]. apply Hx. split; [done|by apply H]. Qed.
Lemma triple_ret {A} Φ (a : A) : triple Φ (mret a) (λ _, Φ).
Proof. by intros m Hm. Qed.
Lemma triple_error {A} Φ (Ψ : A → Knowledge) e : triple Φ (λ m, (m, inr e)) Ψ.
Proof. by intros m [Hm _]. Qed.
Lemma triple_check Φ ok st message : triple Φ (check ok st message) (λ _ r t, Φ r t ∧ ok = true).
Proof. unfold check. destruct ok; [|apply triple_error]. intros m [Hm HΦ]. by split. Qed.

Lemma reflected_store s m :
  reflected m → st_faults s = [] → servers s = servers (sm_store m) → reflected (set_sm_store s m).
Proof. intros [_ Hr] Hf Hs. split; [done|]. intros id. cbn. rewrite (Hr id). unfold says_running. cbn. by rewrite Hs. Qed.

(** A statement that leaves the listeners. *)
Lemma triple_read {A} Φ (op : Store → Store * option A) (P : A → Table PesitServerConfig → Prop) :
  (∀ s, st_faults s = [] → ∃ s' a, op s = (s', Some a) ∧ st_faults s' = [] ∧ servers s' = servers s ∧ P a (servers s)) →
  triple Φ (via (asked op)) (λ a r t, Φ r t ∧ P a t).
Proof.
  intros Hop m [Hm HΦ]. destruct (Hop (sm_store m) (proj1 Hm)) as (s'&a&E&Hf&Hs&HP). unfold via, asked. rewrite E.
  split; [by apply reflected_store|]. cbn. by rewrite Hs.
Qed.

Lemma triple_get Φ id : triple Φ (via (asked (get_server_doc id))) (λ o r t, Φ r t ∧ table_get id t = o).
Proof. apply triple_read. intros s Hs. unfold get_server_doc. rewrite statement_sound by done. by eexists _, _. Qed.
Lemma triple_exists Φ id : triple Φ (via (asked (server_doc_exists id))) (λ b r t, Φ r t ∧ table_exists id t = b).
Proof. apply triple_read. intros s Hs. unfold server_doc_exists. rewrite statement_sound by done. by eexists _, _. Qed.
Lemma triple_list Φ : triple Φ (via (asked list_server_docs)) (λ _ r t, Φ r t ∧ True).
Proof. apply triple_read. intros s Hs. unfold list_server_docs. rewrite statement_sound by done. by eexists _, _. Qed.
Lemma triple_counter Φ name : triple Φ (via (asked (next_counter name))) (λ _ r t, Φ r t ∧ True).
Proof.
  apply triple_read. intros [p v sv t c fs] Hs. cbn in Hs. subst fs. unfold next_counter, statement. cbn.
  destruct (table_next_counter name c) as [c' n]. cbn. by eexists _, _.
Qed.

(** A document is put: its status is the one that the entries say. *)
Lemma triple_put (Φ : Knowledge) id c :
  (∀ m, knows Φ m → is_Some (sm_running m !! id) ↔ sc_status c = Running) → triple Φ (via (asked (put_server_doc id c))) (λ _ _ _, True).
Proof.
  intros Hc m Hk. assert (Hid := Hc m Hk). destruct Hk as [[Hm Hr] HΦ]. unfold via, asked, put_server_doc.
  rewrite statement_sound by done. split; [|done]. split; [done|]. intros id'. unfold says_running. cbn.
  destruct (decide (id' = id)) as [->|Hne].
  - rewrite table_get_put_eq, Hid. by split; [intros ?; eexists|intros (?&[= <-]&?)].
  - rewrite table_get_put_ne by done. apply Hr.
Qed.

Lemma triple_remove id :
  triple (λ r _, r !! id = None) (via (asked (delete_server_doc id))) (λ _ _ _, True).
Proof.
  intros m [[Hm Hr] HΦ]. unfold via, asked, delete_server_doc. rewrite statement_sound by done. split; [|done].
  split; [done|]. intros id'. unfold says_running. cbn -[table_delete]. destruct (decide (id' = id)) as [->|Hne].
  - rewrite table_get_delete, decide_True, HΦ by done. by split; [intros []|intros (?&?&?)].
  - rewrite table_get_delete, decide_False by done. apply Hr.
Qed.

Lemma triple_call {A} Φ (x : Mgr A) (Ψ : A → Knowledge) :
  (∀ m, reflected m → reflected (x m).1) → (∀ m a, knows Φ m → (x m).2 = inl a → Ψ a (sm_running (x m).1) (servers (sm_store (x m).1))) →
  triple Φ (via x) Ψ.
Proof.
  intros Hx Hp m Hm. specialize (Hx m (proj1 Hm)). specialize (Hp m). unfold via. destruct (x m) as [m1 [a|e]]; [|done].
  split; [done|by apply Hp].
Qed.

Lemma triple_validate Φ c : triple Φ (validate_server c) (λ _, Φ).
Proof.
  unfold validate_server. do 3 (eapply triple_bind; [apply triple_check|intros []]).
  eapply triple_mono; [|intros m Hm; pose proof (triple_check Φ (negb (16 <? sc_sync_window c)) BadRequest
    (lit "syncWindow must be between 0 and 16") m Hm) as H; destruct (check _ _ _ m) as [m1 [a|e]]; [|done];
    destruct H as [H1 [H2 _]]; by split].
  by intros r t [[[? _] _] _].
Qed.

Definition nothing : Knowledge := λ _ _, True.

Lemma triple_create w created updated cfg : triple nothing (create_server w created updated cfg) (λ _, nothing).
Proof.
  unfold create_server.
  eapply triple_bind; [apply triple_validate|intros []]. eapply triple_bind; [apply triple_exists|intros present].
  eapply triple_bind; [apply triple_check|intros []]. eapply triple_bind; [apply triple_list|intros others].
  eapply triple_bind; [apply triple_check|intros []]. eapply triple_bind; [apply triple_counter|intros n].
  eapply triple_bind.
  { apply triple_put. intros m [[_ Hr] (((([_ Hp]&Hno)&_)&_)&_)]. cbn. split; [|done]. rewrite (Hr _).
    intros (c&Hc&_). unfold table_exists in Hp. cbn in Hc. rewrite Hc in Hp. by subst present. }
  intros []. eapply triple_bind.
  { apply (triple_call _ _ (λ _, nothing)); [|done]. intros m Hm. destruct (sc_auto_start _); [by apply reflected_start|done]. }
  intros []. eapply triple_bind; [apply triple_get|]. intros stored m [Hm _]. by split.
Qed.

Lemma triple_update updated id cfg : triple nothing (update_server updated id cfg) (λ _, nothing).
Proof.
  unfold update_server. eapply triple_bind; [apply triple_get|]. intros [old|]; [|apply triple_error].
  eapply triple_bind; [apply triple_validate|intros []]. eapply triple_bind.
  { apply triple_put. intros m [[_ Hr] [_ Hold]]. rewrite (Hr id). cbn. split; [|by exists old].
    intros (c&Hc&H). by rewrite Hold in Hc; injection Hc as ->. }
  intros []. apply triple_ret.
Qed.

Lemma triple_delete w id : triple nothing (delete_server w id) (λ _, nothing).
Proof.
  unfold delete_server. intros m Hm. rewrite api_bind_eq. cbn [api_gets].
  assert (Hrest : triple (λ r _, r !! id = None)
    (existed ← via (asked (delete_server_doc id)); if existed : bool then mret tt else no_server id) (λ _, nothing)).
  { eapply triple_bind; [apply triple_remove|]. intros []; [apply triple_ret|apply triple_error]. }
  unfold is_running. destruct (sm_running m !! id) as [r|] eqn:Hr.
  - rewrite bool_decide_eq_true_2 by by eexists.
    apply (triple_bind (λ r' _, r' !! id = Some r) (λ _ r' _, r' !! id = None) (λ _, nothing)); [|by intros _|by destruct Hm].
    apply triple_call; [intros m0; apply reflected_stop|]. intros m0 [] [[Hm0 Hr0] Hid] _. cbn in Hid.
    destruct (proj1 (Hr0 id)) as (c&Hc&_); [by eexists|]. unfold stop. rewrite mgr_bind_eq. cbn. rewrite Hid, mgr_bind_eq. cbn.
    rewrite (set_status_doc w id Stopped (unlink id r m0) c Hm0 Hc). cbn. apply lookup_delete_eq.
  - rewrite bool_decide_eq_false_2 by (by intros []). apply Hrest. by destruct Hm.
Qed.

Lemma reflected_step m m' : reflected m → step m m' → reflected m'.
Proof.
  intros Hm Hs. assert (Hk : knows nothing m) by done.
  assert (Hend : ∀ A (x : ApiM ServerManager A), triple nothing x (λ _, nothing) → reflected (x m).1).
  { intros A x Hx. specialize (Hx m Hk). destruct (x m) as [m1 [a|e]]; [apply Hx|done]. }
  destruct Hs; [| | | | |done..]; apply Hend.
  - apply (triple_call _ _ (λ _, nothing)); [|done]. intros m1. apply reflected_start.
  - apply (triple_call _ _ (λ _, nothing)); [|done]. intros m1. apply reflected_stop.
  - apply triple_create.
  - apply triple_update.
  - apply triple_delete.
Qed.

(** C14: when an operator starts, stops, creates, changes and deletes listeners, in any
    order and between whatever their accept loops do, the loops that still accept
    are those of the entries: a loop has not been told to stop exactly when a
    running listener refers to it, no two listeners refer to the same loop, and
    the loop of a running listener has not broken off. When the store answers and
    said of no listener that it runs, it says so of a listener exactly when it has
    an entry. *)
Theorem listeners_supervised store settings m :
  steps (manager_new store settings) m →
  (∀ i l, sm_loops m !! i = Some l →
     (al_signalled l = false ↔ ∃ id r, sm_running m !! id = Some r ∧ rn_loop r = i))
  ∧ (∀ id id' r r', sm_running m !! id = Some r → sm_running m !! id' = Some r' → rn_loop r = rn_loop r' → id = id')
  ∧ (∀ id r, sm_running m !! id = Some r →
     ∃ l, sm_loops m !! rn_loop r = Some l ∧ al_over l = false ∧ rn_port r = sc_port (al_cfg l))
  ∧ (st_faults store = [] → (∀ id, ¬ says_running (manager_new store settings) id) →
     ∀ id, is_running id m = true ↔ says_running m id).
Proof.
  intros Hs.
  assert (Hm : supervised m).
  { apply (rtc_keeps step supervised _ _ supervised_step Hs), supervised_new. }
  split_and!.
  - intros i l Hi. split; [by apply Hm|]. intros (id&r&Hr&<-). destruct (sv_live m Hm id r Hr) as (l'&E&H&_). congruence.
  - apply Hm.
  - intros id r Hr. destruct (sv_live m Hm id r Hr) as (l&E&H&Hp). exists l. split_and!; [done| |done].
    destruct (al_over l) eqn:Ho; [|done]. by rewrite (sv_over m Hm _ l E Ho) in H.
  - intros Hf Hn. assert (reflected m) as [_ Hr].
    { apply (rtc_keeps step reflected _ _ reflected_step Hs). split; [done|]. intros id. cbn. rewrite lookup_empty. split; [by intros []|]. intros H. by destruct (Hn id). }
    intros id. unfold is_running. by rewrite bool_decide_eq_true.
Qed.

(** ** Sessions *)

(** At most [P] tasks of a loop are waiting to begin. *)
Definition prompt (P : nat) (m : ServerManager) : Prop := ∀ i l, sm_loops m !! i = Some l → (al_pending l ≤ P)%nat.
Definition steps_within (P : nat) : ServerManager → ServerManager → Prop := rtc (λ m m', step m m' ∧ prompt P m').

Definition within (P : nat) (l : AcceptLoop) : Prop :=
  0 ≤ sc_max_connections (al_cfg l) → Z.of_nat (al_active l + al_pending l) ≤ sc_max_connections (al_cfg l) + Z.of_nat P - 1.

(** A call changes a loop by its signal alone, or adds an empty one. *)
Lemma edit_loops P m m' :
  (1 ≤ P)%nat → (∀ i l, sm_loops m !! i = Some l → within P l) → edit m m' → ∀ i l, sm_loops m' !! i = Some l → within P l.
Proof.
  intros HP Hall He i l. destruct He as [s m|id cfg tls m _|id r m _]; cbn; intros Hl.
  - by apply (Hall i).
  - apply lookup_app_Some in Hl as [Hl|[_ Hl]]; [by apply (Hall i)|]. apply list_lookup_singleton_Some in Hl as [_ <-].
    intros Hmax. cbn in *. lia.
  - destruct (decide (rn_loop r = i)) as [<-|Hne].
    + rewrite list_lookup_alter_eq in Hl. apply fmap_Some in Hl as (l0&H0&->). exact (Hall _ l0 H0).
    + rewrite list_lookup_alter_ne in Hl by done. by apply (Hall i).
Qed.

Lemma within_event P m i l l' :
  (∀ j lj, sm_loops m !! j = Some lj → within P lj) → sm_loops m !! i = Some l → (within P l → within P l') →
  ∀ j lj, <[i := l']> (sm_loops m) !! j = Some lj → within P lj.
Proof.
  intros Hall Hi Hl j lj Hj. apply list_lookup_insert_Some in Hj as [(<-&<-&_)|[_ Hj]]; [|by eapply Hall].
  by apply Hl, (Hall i).
Qed.

Lemma within_step P m m' :
  (1 ≤ P)%nat → (∀ j l, sm_loops m !! j = Some l → within P l) → step m m' → prompt P m' →
  ∀ j l, sm_loops m' !! j = Some l → within P l.
Proof.
  intros HP Hall Hs Hp. destruct (step_cases m m' Hs) as [He|(i&l&l'&Hi&He&->)].
  - apply (rtc_keeps edit (λ m, ∀ j l, sm_loops m !! j = Some l → within P l) m m'); [|done..].
    intros m1 m2 H1 H2. by apply (edit_loops P m1).
  - apply within_event with l; [done|done|]. specialize (Hp i l'). cbn in Hp.
    rewrite list_lookup_insert_eq in Hp by (by eapply lookup_lt_Some). specialize (Hp eq_refl).
    destruct He as [l Ho| | |]; [|done|unfold within; cbn; lia..].
    intros Hw. unfold accepted in *. destruct (admits l) eqn:Ea; [|done].
    unfold admits in Ea. apply negb_true_iff, Z.leb_gt in Ea. unfold within in *. cbn in *. lia.
Qed.

(** One event of a loop, and several. *)
Lemma event_within P m i l l' :
  prompt P m → sm_loops m !! i = Some l → (al_pending l' ≤ P)%nat →
  let m' := set_sm_loops (<[i := l']> (sm_loops m)) m in
  step m m' → steps_within P m m' ∧ prompt P m' ∧ sm_loops m' !! i = Some l'.
Proof.
  intros Hp Hi Hl m' Hs. subst m'. assert (prompt P (set_sm_loops (<[i := l']> (sm_loops m)) m)).
  { intros j lj. cbn. intros Hj. apply list_lookup_insert_Some in Hj as [(<-&<-&_)|[_ Hj]]; [done|by eapply Hp]. }
  split_and!; [by apply rtc_once|done|]. cbn. apply list_lookup_insert_eq. by eapply lookup_lt_Some.
Qed.

(** A loop of [a] sessions and [p] waiting tasks. *)
Definition busy (P i : nat) (cfg : PesitServerConfig) (m : ServerManager) (a p : nat) : Prop :=
  prompt P m ∧ ∃ l, sm_loops m !! i = Some l ∧ al_cfg l = cfg ∧ al_over l = false ∧ al_active l = a ∧ al_pending l = p.

Lemma busy_accept P i cfg m a p :
  busy P i cfg m a p → Z.of_nat a < sc_max_connections cfg → (p < P)%nat →
  ∃ m', steps_within P m m' ∧ busy P i cfg m' a (S p).
Proof.
  intros (Hp&l&Hi&Hc&Ho&Ha&Hq) Hmax HP. subst. assert (Ea : admits l = true) by (unfold admits; lia).
  destruct (event_within P m i l (accepted l) Hp Hi) as (H1&H2&H3); [|by apply step_accept|].
  { unfold accepted. rewrite Ea. cbn. lia. }
  eexists. split; [done|]. split; [done|]. eexists. split; [done|]. unfold accepted. by rewrite Ea.
Qed.

Lemma busy_begin P i cfg m a p :
  busy P i cfg m a (S p) → ∃ m', steps_within P m m' ∧ busy P i cfg m' (S a) p.
Proof.
  intros (Hp&l&Hi&Hc&Ho&Ha&Hq). assert (HP := Hp i l Hi).
  destruct (event_within P m i l (begun l) Hp Hi) as (H1&H2&H3); [cbn; lia|apply step_begin; [done|lia]|].
  eexists. split; [done|]. split; [done|]. eexists. split; [done|]. cbn. rewrite Ha, Hq. by subst.
Qed.

Lemma busy_accepts P i cfg k m a p :
  busy P i cfg m a p → Z.of_nat a < sc_max_connections cfg → (p + k ≤ P)%nat →
  ∃ m', steps_within P m m' ∧ busy P i cfg m' a (p + k).
Proof.
  induction k as [|k IH] in p, m |- *; intros Hb Hmax HP; [exists m; rewrite Nat.add_0_r; by split; [apply rtc_refl|]|].
  destruct (busy_accept _ _ _ _ _ _ Hb Hmax) as (m1&H1&Hb1); [lia|].
  destruct (IH m1 (S p) Hb1 Hmax) as (m2&H2&Hb2); [lia|]. exists m2. split; [by etrans|].
  by replace (p + S k)%nat with (S p + k)%nat by lia.
Qed.

Lemma busy_begins P i cfg k m a p :
  busy P i cfg m a (k + p) → ∃ m', steps_within P m m' ∧ busy P i cfg m' (a + k) p.
Proof.
  induction k as [|k IH] in a, m |- *; intros Hb; [exists m; rewrite Nat.add_0_r; by split; [apply rtc_refl|]|].
  destruct (busy_begin _ _ _ _ _ _ Hb) as (m1&H1&Hb1). destruct (IH m1 (S a) Hb1) as (m2&H2&Hb2). exists m2.
  split; [by etrans|]. by replace (a + S k)%nat with (S a + k)%nat by lia.
Qed.

(** Sessions one after the other, up to the limit. *)
Lemma busy_fill P i cfg k m a :
  (1 ≤ P)%nat → busy P i cfg m a 0 → Z.of_nat (a + k) ≤ sc_max_connections cfg →
  ∃ m', steps_within P m m' ∧ busy P i cfg m' (a + k) 0.
Proof.
  intros HP. induction k as [|k IH] in a, m |- *; intros Hb Hmax; [exists m; rewrite Nat.add_0_r; by split; [apply rtc_refl|]|].
  destruct (busy_accept _ _ _ _ _ _ Hb) as (m1&H1&Hb1); [lia|lia|]. destruct (busy_begin _ _ _ _ _ _ Hb1) as (m2&H2&Hb2).
  destruct (IH m2 (S a) Hb2) as (m3&H3&Hb3); [lia|]. exists m3. split; [by do 2 (etrans; [done|])|].
  by replace (a + S k)%nat with (S a + k)%nat by lia.
Qed.

(** C18: how many sessions a listener may have. The limit is tested when a connection is
    accepted and the session is counted when its task begins: when never more
    than [P] tasks of a loop wait to begin, a loop has at most [P - 1] sessions
    more than [maxConnections], hence no more than [maxConnections] when each
    task begins before the next connection arrives. The bound is attained: from
    an idle loop, with a positive limit, there is a run that leaves exactly
    [maxConnections + P - 1] sessions in progress. *)
Theorem sessions_bounded P store settings m i l :
  (1 ≤ P)%nat → steps_within P (manager_new store settings) m → sm_loops m !! i = Some l →
  0 ≤ sc_max_connections (al_cfg l) →
  Z.of_nat (al_active l + al_pending l) ≤ sc_max_connections (al_cfg l) + Z.of_nat P - 1
  ∧ (prompt P m → al_over l = false → al_active l = 0%nat → al_pending l = 0%nat → 0 < sc_max_connections (al_cfg l) →
     ∃ m' l', steps_within P m m' ∧ sm_loops m' !! i = Some l' ∧ al_cfg l' = al_cfg l
       ∧ Z.of_nat (al_active l') = sc_max_connections (al_cfg l) + Z.of_nat P - 1).
Proof.
  intros HP Hs Hi Hmax. split.
  - assert (Hall : ∀ j lj, sm_loops m !! j = Some lj → within P lj); [|by apply (Hall i l)].
    apply (rtc_keeps (λ m m', step m m' ∧ prompt P m') (λ m, ∀ j lj, sm_loops m !! j = Some lj → within P lj)
      (manager_new store settings) m); [|exact Hs|done].
    intros m1 m2 H1 [H2 H3]. by apply (within_step P m1).
  - intros Hp Ho Ha Hq Hpos. assert (Hb : busy P i (al_cfg l) m 0 0) by (split; [done|]; by exists l).
    destruct (busy_fill P i _ (Z.to_nat (sc_max_connections (al_cfg l) - 1)) _ _ HP Hb) as (m1&H1&Hb1); [lia|].
    destruct (busy_accepts _ _ _ P _ _ _ Hb1) as (m2&H2&Hb2); [lia|lia|].
    destruct (busy_begins P i (al_cfg l) P m2 (Z.to_nat (sc_max_connections (al_cfg l) - 1)) 0)
      as (m3&H3&(_&l3&Hl3&Hc3&_&Ha3&_)); [by rewrite Nat.add_0_r|].
    exists m3, l3. split_and!; [by do 2 (etrans; [done|])|done|done|]. rewrite Ha3. lia.
Qed.

(** ** A listener *)

Module Sample.

Definition call : Call := mkCall (lit "2026-01-01") (lit "2026-01-01") (lit "2026-01-01") (λ _, inr (lit "no certificate")) (λ _, inl tt).

(** A listener of one session, and one that uses TLS. *)
Definition listener (id : ustring) (tls : bool) : PesitServerConfig :=
  mkPesitServerConfig None id 5001 (lit "0.0.0.0") 2 1 30000 60000 [] [] 4096 true 32 4 true true tls None None true 0
    Stopped None None None None.
Definition store : Store := mkStore [] [] [(lit "MAIN", listener (lit "MAIN") false); (lit "SAFE", listener (lit "SAFE") true)] [] [] [].
Definition settings : ListenerSettings := mkListenerSettings [] (lit "node") None None.

(** Both are started with the process: the second has no certificate. *)
Definition started : ServerManager := (start_server call (lit "SAFE") (start_server call (lit "MAIN") (manager_new store settings)).1).1.

Example statuses :
  map (λ c, (sc_status c, sr_running (status c started))) (table_list (servers (sm_store started)))
    = [(Running, true); (Error, false)]
  ∧ (start call (lit "MAIN") started).2 = inr (Manager.AlreadyRunning (lit "MAIN"))
  ∧ (stop call (lit "SAFE") started).2 = inr (Manager.NotRunning (lit "SAFE"))
  ∧ (start_auto (λ _, call) (manager_new store settings)).1 = started.
Proof. by vm_compute. Qed.

Definition loop : AcceptLoop := accept_loop_new (listener (lit "MAIN") false) false 0.

End Sample.

Example listeners_supervised_witness :
  steps (manager_new Sample.store Sample.settings) Sample.started
  ∧ is_running (lit "MAIN") Sample.started = true
  ∧ (is_running (lit "MAIN") Sample.started = true ↔ says_running Sample.started (lit "MAIN")).
Proof.
  assert (Hs : steps (manager_new Sample.store Sample.settings) Sample.started).
  { eapply rtc_l; [apply step_start|]. eapply rtc_l; [apply step_start|]. apply rtc_refl. }
  split_and!; [exact Hs|by vm_compute|].
  apply (proj2 (proj2 (proj2 (listeners_supervised Sample.store Sample.settings Sample.started Hs)))); [done|].
  intros id (c&Hc&Hr). cbn in Hc. destruct (decide _); [|destruct (decide _)]; [injection Hc as <-; done..|done].
Defined.

Example sessions_bounded_witness :
  let m := (start_server Sample.call (lit "MAIN") (manager_new Sample.store Sample.settings)).1 in
  sm_loops m !! 0%nat = Some Sample.loop
  ∧ ∃ m' l', steps_within 2 m m' ∧ sm_loops m' !! 0%nat = Some l' ∧ al_cfg l' = al_cfg Sample.loop ∧ Z.of_nat (al_active l') = 2.
Proof.
  intros m. assert (E : sm_loops m = [Sample.loop]) by (by vm_compute).
  assert (Hp : prompt 2 m).
  { intros i l. rewrite E. intros [_ <-]%list_lookup_singleton_Some. cbn. lia. }
  assert (Hl : sm_loops m !! 0%nat = Some Sample.loop) by (by rewrite E). split; [exact Hl|].
  apply (sessions_bounded 2 Sample.store Sample.settings m 0 Sample.loop); [lia| |exact Hl|by vm_compute|exact Hp|done..].
  apply rtc_once. split; [apply step_start|exact Hp].
Defined.
