(* ===== verification/Replicas.v ===== *)
(** * Backups and the cluster ([crates/pesit-node/src/backup.rs], [crates/pesit-node/src/cluster.rs], [crates/pesit-cluster/src/lib.rs])

    The documents of the configuration as JSON values in tables that are named,
    their export as a bundle and its import, the changes that the nodes of a
    cluster exchange, and the lease of the leader. The serialisation of JSON,
    base64, signatures and the message broker are those of libraries. *)

From Stdlib Require Import String.
From S2P Require Import Prelude Diag Ebcdic Params Link DocStore Schedule.
Open Scope Z_scope.

(** ** Values

    The object of a library keeps its fields in the order of their names. *)
Inductive Json : Type :=
  | Null
  | Bool (b : bool)
  | Number (n : Z)
  | Text (s : ustring)
  | Array (l : list Json)
  | Object (fields : list (ustring * Json)).

Abbreviation Fields := (list (ustring * Json)) (only parsing).

Fixpoint field_insert (k : ustring) (v : Json) (m : Fields) : Fields :=
  match m with
  | [] => [(k, v)]
  | (k', v') :: m' =>
      if decide (k' = k) then (k, v) :: m'
      else if string_le k k' then (k, v) :: m
      else (k', v') :: field_insert k v m'
  end.
Definition field_remove (k : ustring) (m : Fields) : Fields := filter (λ e, e.1 ≠ k) m.

Definition as_object (v : Json) : option Fields := match v with Object m => Some m | _ => None end.
Definition as_array (v : Json) : option (list Json) := match v with Array l => Some l | _ => None end.
Definition as_str (v : Json) : option ustring := match v with Text s => Some s | _ => None end.
Definition get (k : ustring) (v : Json) : option Json := m ← as_object v; table_get k m.

(** ** Named tables

    A statement on a table that is not there fails, as one that the database
    refuses. *)
Abbreviation Documents := (Table (Table Json)) (only parsing).
Definition Q (A : Type) : Type := Db Documents → Db Documents * option A.

#[global] Instance Q_ret : MRet Q := λ _ a s, (s, Some a).
#[global] Instance Q_bind : MBind Q := λ _ _ f x s,
  match x s with
  | (s, Some a) => f a s
  | (s, None) => (s, None)
  end.

Definition query {A} (t : ustring) (op : Table Json → Table Json * A) : Q A := λ s,
  let fs := tail (db_faults s) in
  if default false (head (db_faults s)) then (mkDb (docs s) fs, None)
  else match table_get t (docs s) with
       | Some rows => let '(rows, a) := op rows in (mkDb (table_put t rows (docs s)) fs, Some a)
       | None => (mkDb (docs s) fs, None)
       end.

Definition ensure_table (t : ustring) : Q unit :=
  db_statement (λ d : Documents, (if @table_exists (Table Json) t d then d else @table_put (Table Json) t [] d, tt)).
Definition doc_put (t k : ustring) (v : Json) : Q unit := query t (λ rows, (table_put k v rows, tt)).
Definition doc_get (t k : ustring) : Q (option Json) := query t (λ rows, (rows, table_get k rows)).
Definition doc_exists (t k : ustring) : Q bool := query t (λ rows, (rows, table_exists k rows)).
Definition doc_delete (t k : ustring) : Q bool := query t (table_delete k).
Definition doc_list (t : ustring) : Q (list Json) := query t (λ rows, (rows, table_list rows)).

(** A statement whose error is dropped. *)
Definition dropped {A} (x : Q A) : Q unit := λ s, ((x s).1, Some tt).

(** ** Backups *)

Definition PARTNERS : ustring := lit "partners".
Definition FILES : ustring := lit "virtual_files".
Definition REMOTE_PARTNERS : ustring := lit "remote_partners".
Definition SERVERS : ustring := lit "servers".
Definition CONNECTORS : ustring := lit "connectors".
Definition SCHEDULES : ustring := lit "schedules".
Definition PKI : ustring := lit "pki".
Definition VAULT : ustring := lit "vault".

Definition CONFIG_TABLES : list ustring :=
  [PARTNERS; FILES; REMOTE_PARTNERS; SERVERS; lit "remote_servers"; lit "client_partners"; CONNECTORS; SCHEDULES; PKI].
Definition CLUSTER_TABLES : list ustring := [PARTNERS; FILES; REMOTE_PARTNERS; SCHEDULES].

(** [dump_only]: the loop over the tables, with the fields so far. *)
Fixpoint dump_fields (which : list ustring) (tables : Fields) : Q Fields :=
  match which with
  | [] => mret tables
  | t :: which =>
      ensure_table t ;;
      rows ← doc_list t;
      dump_fields which (field_insert t (Array rows) tables)
  end.
Definition dump_only (which : list ustring) : Q Json := tables ← dump_fields which []; mret (Object tables).
Definition dump : Q Json := dump_only CONFIG_TABLES.

(** The key of a row. *)
Definition backup_key (table : ustring) (item : Json) : option ustring :=
  if decide (table = PKI) then Some VAULT
  else get (if decide (table = SERVERS) then lit "serverId" else lit "id") item ≫= as_str.

Fixpoint apply_rows (table : ustring) (items : list Json) (restored : nat) : Q nat :=
  match items with
  | [] => mret restored
  | item :: items =>
      match backup_key table item with
      | Some key => doc_put table key item ;; apply_rows table items (S restored)
      | None => apply_rows table items restored
      end
  end.

Fixpoint apply_fields (tables : Fields) (restored : nat) : Q nat :=
  match tables with
  | [] => mret restored
  | (table, rows) :: tables =>
      if decide (table ∈ CONFIG_TABLES) then
        ensure_table table ;;
        match rows with
        | Array items => n ← apply_rows table items restored; apply_fields tables n
        | _ => apply_fields tables restored
        end
      else apply_fields tables restored
  end.
Definition apply_tables (tables : Fields) : Q nat := apply_fields tables 0.

Section Signature.
(** JSON as bytes, base64, and the signatures of the local authority. *)
Context (to_vec : Json → bytes) (encode : bytes → ustring) (decode : ustring → option bytes).
Context (verify_bytes : ustring → bytes → bytes → bool + ustring).

Definition SIGNATURE : ustring := lit "signature".
Definition ALGORITHM : ustring := lit "ecdsa-p256-sha256".

Definition sign_bundle (sign_data : bytes → option bytes) (bundle : Json) : Json :=
  match bundle with
  | Object map =>
      let map := field_remove SIGNATURE map in
      match sign_data (to_vec (Object map)) with
      | Some sig =>
          Object (field_insert SIGNATURE
            (Object (field_insert (lit "value") (Text (encode sig)) (field_insert (lit "algorithm") (Text ALGORITHM) []))) map)
      | None => Object map
      end
  | _ => bundle
  end.

Definition or_text {A} (o : option A) (text : ustring) : A + ustring :=
  match o with Some a => inl a | None => inr text end.

Definition verify_bundle (bundle : Json) : unit + ustring :=
  match get SIGNATURE bundle with
  | None => inl tt
  | Some sig_obj =>
      match get (lit "value") sig_obj ≫= as_str with
      | None => inr (lit "signature has no value")
      | Some value =>
          match decode value with
          | None => inr (lit "signature is not valid base64")
          | Some sig =>
              match (p ← get (lit "pki") bundle; c ← get (lit "ca") p; text ← get (lit "certificate") c; as_str text) with
              | None => inr (lit "signed bundle carries no CA certificate to verify against")
              | Some cert =>
                  match as_object bundle with
                  | None => inr (lit "bundle is not an object")
                  | Some map =>
                      match verify_bytes cert (to_vec (Object (field_remove SIGNATURE map))) sig with
                      | inl true => inl tt
                      | inl false => inr (lit "bundle signature does not verify against its CA")
                      | inr e => inr e
                      end
                  end
              end
          end
      end
  end.

(** The bundle of a backup, and its return; [material] and [import_material] are
    those of the certificates, when they are managed. *)
Definition export (now version : ustring) (sign_data : bytes → option bytes) (material : Json) : Q Json :=
  tables ← dump;
  mret (sign_bundle sign_data
    (Object (foldr (λ e, field_insert e.1 e.2) []
      [(lit "version", Number 1); (lit "generatedAt", Text now); (lit "node", Text version);
       (lit "tables", tables); (lit "pki", material)]))).

Inductive RestoreError : Type := Rejected (text : ustring) | Database | Material (text : ustring).

Definition restore_bundle (import_material : option (Json → unit + ustring)) (bundle : Json) (s : Db Documents)
    : Db Documents * (nat + RestoreError) :=
  match verify_bundle bundle with
  | inr e => (s, inr (Rejected e))
  | inl _ =>
      let tables := default [] (get (lit "tables") bundle ≫= as_object) in
      match apply_tables tables s with
      | (s, None) => (s, inr Database)
      | (s, Some restored) =>
          match import_material, get (lit "pki") bundle with
          | Some import, Some (Null) => (s, inl restored)
          | Some import, Some v => match import v with inl _ => (s, inl restored) | inr e => (s, inr (Material e)) end
          | _, _ => (s, inl restored)
          end
      end
  end.
End Signature.

(** ** The cluster *)

Record ConfigChange : Type := mkConfigChange {
  ch_origin : ustring;
  ch_op : ustring;
  ch_table : ustring;
  ch_key : ustring;
  ch_doc : option Json;
}.

Definition PUT : ustring := lit "put".
Definition DELETE : ustring := lit "delete".

(** *** The handler of a node *)

Definition apply (change : ConfigChange) (s : Db Documents) : Db Documents :=
  if decide (ch_table change ∈ CLUSTER_TABLES) then
    let s := (ensure_table (ch_table change) s).1 in
    if decide (ch_op change = DELETE) then (doc_delete (ch_table change) (ch_key change) s).1
    else match ch_doc change with
         | Some doc => (doc_put (ch_table change) (ch_key change) doc s).1
         | None => s
         end
  else s.

Definition TABLES : ustring := lit "tables".

Definition snapshot (s : Db Documents) : Db Documents * Json :=
  let '(s, tables) := dump_only CLUSTER_TABLES s in
  (s, Object (field_insert TABLES (default Null tables) [])).

Definition restore (snap : Json) (s : Db Documents) : Db Documents :=
  match get TABLES snap ≫= as_object with
  | Some tables => (apply_tables tables s).1
  | None => s
  end.

(** *** Changes

    A payload that is not a change is skipped, and so is a change of the node's
    own. *)
Definition received (node : ustring) (payload : option ConfigChange) (s : Db Documents) : Db Documents :=
  match payload with
  | Some change => if decide (ch_origin change = node) then s else apply change s
  | None => s
  end.

Definition publish_config (node op table key : ustring) (doc : option Json) : ConfigChange :=
  mkConfigChange node op table key doc.

(** [publish]: what a node sends, when it is a member of a cluster. *)
Definition publish (cluster : option ustring) (op table key : ustring) (doc : option Json) : list ConfigChange :=
  if decide (table ∈ CLUSTER_TABLES) then
    match cluster with Some node => [publish_config node op table key doc] | None => [] end
  else [].

(** The payloads that a node gets, in their order. *)
Definition follow (node : ustring) (payloads : list (option ConfigChange)) (s : Db Documents) : Db Documents :=
  foldl (λ s p, received node p s) s payloads.

(** A node joins with the snapshot of a peer, if one answers. *)
Definition join (answer : option Json) (s : Db Documents) : Db Documents :=
  match answer with Some snap => restore snap s | None => s end.

(** *** The leader

    The bucket of the lease, whose operations are those of the broker: what
    [entry] reads, and what [put] and [create] leave. *)
Class Bucket (B : Type) : Type := {
  entry : B → option ustring;
  kv_put : ustring → B → B;
  kv_create : ustring → B → B * bool;
}.

Section Leader.
Context {B : Type} `{!Bucket B}.

(** What a node does with the holder that it has read (none also when the read
    fails): the bucket and whether the node leads. *)
Definition leader_act (id : ustring) (held : option ustring) (b : B) : B * bool :=
  match held with
  | Some holder => if decide (holder = id) then (kv_put id b, true) else (b, false)
  | None => kv_create id b
  end.

(** A turn of the task of a node, when nothing comes between its two calls. *)
Definition leader_tick (id : ustring) (b : B) : B * bool := leader_act id (entry b) b.

Definition leader (b : B) : option ustring := entry b.
End Leader.

(** *** The history of a cluster *)

Definition started_at (v : Json) : ustring :=
  default [] (match get (lit "startedAt") v with Some x => Some x | None => get (lit "createdAt") v end ≫= as_str).
