(* ===== verification/Admin.v ===== *)
(** * The configuration interface ([crates/pesit-node/src/api.rs], [crates/pesit-node/src/schedule.rs])

    Partners, virtual files, remote partners, connectors and schedules, as the
    interface creates, changes and deletes them in the document store and
    publishes the changes to the cluster. Routes and the audit log are left out;
    how a document becomes JSON is what [serde] derives. *)

From Stdlib Require Import String.
From S2P Require Import Prelude Diag Ebcdic Params Builder Checkpoint Link Datapath Requester DocStore NodeModel ClientModel ClientEngine Schedule Replicas.
Open Scope Z_scope.

(** ** Documents *)

Record RemotePartner : Type := mkRemotePartner {
  rp_id : ustring;
  rp_description : option ustring;
  rp_host : ustring;
  rp_port : Z;
  rp_local_partner_id : option ustring;
  rp_remote_partner_id : option ustring;
  rp_enabled : bool;
  rp_max_connections : Z;
  rp_tls_enabled : bool;
  rp_created_at : option ustring;
  rp_updated_at : option ustring;
}.

Definition remote_partner_default : RemotePartner :=
  mkRemotePartner [] None [] 5000 None None true 5 false None None.

Record ConnectorConfig : Type := mkConnectorConfig {
  cc_id : ustring;
  cc_description : option ustring;
  cc_kind : ustring;
  cc_bucket : option ustring;
  cc_region : option ustring;
  cc_endpoint : option ustring;
  cc_access_key : option ustring;
  cc_secret_key : option ustring;
  cc_path_style : bool;
  cc_host : option ustring;
  cc_port : Z;
  cc_user : option ustring;
  cc_password : option ustring;
  cc_base_path : option ustring;
  cc_max_retries : Z;
  cc_created_at : option ustring;
  cc_updated_at : option ustring;
}.

Definition DEFAULT_MAX_ATTEMPTS : Z := 3.
Definition connector_config_default : ConnectorConfig :=
  mkConnectorConfig [] None (lit "s3") None None None None None true None 22 None None None DEFAULT_MAX_ATTEMPTS None None.

(** ** Entities

    A document with an identifier, its table and its clocks. *)
Class Entity (T : Type) : Type := {
  TABLE : ustring;
  NAME : ustring;
  id_of : T → ustring;
  set_id : ustring → T → T;
  created_at : T → option ustring;
  set_times : option ustring → option ustring → T → T;
}.
Arguments TABLE T {_}. Arguments NAME T {_}.

(** How it is written and read. *)
Class Serde (T : Type) : Type := {
  to_value : T → Json;
  from_value : Json → option T;
}.

(** The clocks of a call: [now_iso] for the creation and for the change. *)
Record Clock : Type := mkClock { now_created : ustring; now_updated : ustring }.

Definition touch `{Entity T} (c : Clock) (created : bool) (x : T) : T :=
  let made := if created || bool_decide (created_at x = None) then Some (now_created c) else created_at x in
  set_times made (Some (now_updated c)) x.

Definition blank (s : ustring) : bool := is_empty (trim s).

#[global] Instance partner_entity : Entity Partner := {|
  TABLE := PARTNERS;
  NAME := lit "Partner";
  id_of := p_id;
  set_id id p := mkPartner id (p_description p) (p_password p) (p_enabled p) (p_access_type p) (p_max_connections p)
    (p_allowed_files p) (p_preconnect_password p) (p_created_at p) (p_updated_at p);
  created_at := p_created_at;
  set_times c u p := mkPartner (p_id p) (p_description p) (p_password p) (p_enabled p) (p_access_type p)
    (p_max_connections p) (p_allowed_files p) (p_preconnect_password p) c u;
|}.

#[global] Instance virtual_file_entity : Entity VirtualFile := {|
  TABLE := FILES;
  NAME := lit "Virtual file";
  id_of := vf_id;
  set_id id v := mkVirtualFile id (vf_description v) (vf_enabled v) (vf_direction v) (vf_receive_directory v)
    (vf_send_file v) (vf_receive_filename_pattern v) (vf_overwrite v) (vf_max_file_size v) (vf_file_type v)
    (vf_record_length v) (vf_record_format v) (vf_text v) (vf_ebcdic v) (vf_connector v) (vf_connector_path v)
    (vf_created_at v) (vf_updated_at v);
  created_at := vf_created_at;
  set_times c u v := mkVirtualFile (vf_id v) (vf_description v) (vf_enabled v) (vf_direction v)
    (vf_receive_directory v) (vf_send_file v) (vf_receive_filename_pattern v) (vf_overwrite v) (vf_max_file_size v)
    (vf_file_type v) (vf_record_length v) (vf_record_format v) (vf_text v) (vf_ebcdic v) (vf_connector v)
    (vf_connector_path v) c u;
|}.

#[global] Instance remote_partner_entity : Entity RemotePartner := {|
  TABLE := REMOTE_PARTNERS;
  NAME := lit "Remote partner";
  id_of := rp_id;
  set_id id r := mkRemotePartner id (rp_description r) (rp_host r) (rp_port r) (rp_local_partner_id r)
    (rp_remote_partner_id r) (rp_enabled r) (rp_max_connections r) (rp_tls_enabled r) (rp_created_at r) (rp_updated_at r);
  created_at := rp_created_at;
  set_times c u r := mkRemotePartner (rp_id r) (rp_description r) (rp_host r) (rp_port r) (rp_local_partner_id r)
    (rp_remote_partner_id r) (rp_enabled r) (rp_max_connections r) (rp_tls_enabled r) c u;
|}.

#[global] Instance connector_entity : Entity ConnectorConfig := {|
  TABLE := CONNECTORS;
  NAME := lit "Connector";
  id_of := cc_id;
  set_id id c := mkConnectorConfig id (cc_description c) (cc_kind c) (cc_bucket c) (cc_region c) (cc_endpoint c)
    (cc_access_key c) (cc_secret_key c) (cc_path_style c) (cc_host c) (cc_port c) (cc_user c) (cc_password c)
    (cc_base_path c) (cc_max_retries c) (cc_created_at c) (cc_updated_at c);
  created_at := cc_created_at;
  set_times cr u c := mkConnectorConfig (cc_id c) (cc_description c) (cc_kind c) (cc_bucket c) (cc_region c)
    (cc_endpoint c) (cc_access_key c) (cc_secret_key c) (cc_path_style c) (cc_host c) (cc_port c) (cc_user c)
    (cc_password c) (cc_base_path c) (cc_max_retries c) cr u;
|}.

(** ** The interface *)

(** The store, the node when it is a member of a cluster, and the changes that
    it has published. *)
Record App : Type := mkApp {
  ap_store : Db Documents;
  ap_cluster : option ustring;
  ap_published : list ConfigChange;
}.

Definition set_ap_store (s : Db Documents) (a : App) : App := mkApp s (ap_cluster a) (ap_published a).
Definition published (changes : list ConfigChange) (a : App) : App :=
  mkApp (ap_store a) (ap_cluster a) (ap_published a ++ changes).

(** A statement; its error is an internal one. *)
Definition ask {A} (q : Q A) : ApiM App A := λ a,
  match q (ap_store a) with
  | (s, Some x) => (set_ap_store s a, inl x)
  | (s, None) => (set_ap_store s a, inr (mkApiError Internal None))
  end.

Definition tell (op table key : ustring) (doc : option Json) : ApiM App unit :=
  api_modify (λ a, published (publish (ap_cluster a) op table key doc) a).

Section Operations.
Context {T : Type} `{!Entity T} `{!Serde T}.

Definition internal {A} : ApiM App A := λ a, (a, inr (mkApiError Internal None)).
Definition missing {A} (id : ustring) : ApiM App A := reject NotFound_ (NAME T ++ lit " '" ++ id ++ lit "' not found").

(** A document that cannot be read is an error of the store. *)
Definition read_doc (v : Json) : ApiM App T :=
  match from_value v with Some x => mret x | None => internal end.
Fixpoint read_docs (vs : list Json) : ApiM App (list T) :=
  match vs with
  | [] => mret []
  | v :: vs => x ← read_doc v; xs ← read_docs vs; mret (x :: xs)
  end.

Definition list_entities : ApiM App (list T) := vs ← ask (doc_list (TABLE T)); read_docs vs.

Definition get_doc (id : ustring) : ApiM App (option T) :=
  found ← ask (doc_get (TABLE T) id);
  match found with Some v => x ← read_doc v; mret (Some x) | None => mret None end.

Definition get_one (id : ustring) : ApiM App T :=
  found ← get_doc id;
  match found with Some x => mret x | None => missing id end.

Definition validate (x : T) : ApiM App unit := check (negb (blank (id_of x))) BadRequest (lit "id is required").

Definition create (c : Clock) (body : T) : ApiM App T :=
  validate body ;;
  present ← ask (doc_exists (TABLE T) (id_of body));
  check (negb present) Conflict (NAME T ++ lit " '" ++ id_of body ++ lit "' already exists") ;;
  let body := touch c true body in
  ask (doc_put (TABLE T) (id_of body) (to_value body)) ;;
  tell PUT (TABLE T) (id_of body) (Some (to_value body)) ;;
  mret body.

Definition update (c : Clock) (id : ustring) (body : T) : ApiM App T :=
  existing ← get_doc id;
  match existing with
  | None => missing id
  | Some _ =>
      let body := set_id id body in
      validate body ;;
      let body := touch c false body in
      ask (doc_put (TABLE T) id (to_value body)) ;;
      tell PUT (TABLE T) id (Some (to_value body)) ;;
      mret body
  end.

Definition delete (id : ustring) : ApiM App unit :=
  existed ← ask (doc_delete (TABLE T) id);
  if existed : bool then tell DELETE (TABLE T) id None else missing id.
End Operations.
Arguments list_entities T {_ _}. Arguments get_one T {_ _}. Arguments get_doc T {_ _}. Arguments delete T {_}.

(** ** Schedules *)

#[global] Instance schedule_entity : Entity ScheduledTransfer := {|
  TABLE := SCHEDULES;
  NAME := lit "schedule";
  id_of := sx_id;
  set_id id s := mkScheduledTransfer id (sx_name s) (sx_enabled s) (sx_direction s) (sx_request s)
    (sx_interval_seconds s) (sx_cron s) (sx_last_run s) (sx_last_status s) (sx_next_run_ms s) (sx_created_at s) (sx_updated_at s);
  created_at := sx_created_at;
  set_times c u s := mkScheduledTransfer (sx_id s) (sx_name s) (sx_enabled s) (sx_direction s) (sx_request s)
    (sx_interval_seconds s) (sx_cron s) (sx_last_run s) (sx_last_status s) (sx_next_run_ms s) c u;
|}.

(** The run that a schedule has had, and its next one. *)
Definition with_run (last status : option ustring) (s : ScheduledTransfer) : ScheduledTransfer :=
  mkScheduledTransfer (sx_id s) (sx_name s) (sx_enabled s) (sx_direction s) (sx_request s) (sx_interval_seconds s)
    (sx_cron s) last status (sx_next_run_ms s) (sx_created_at s) (sx_updated_at s).
Definition with_next (next : Z) (s : ScheduledTransfer) : ScheduledTransfer := planned next (sx_updated_at s) s.

Section Schedules.
Context `{!Serde ScheduledTransfer}.
Context {Cron : Type} (from_str : ustring → option Cron) (after : Cron → Z → option Z) (valid_millis : Z → bool).

(** A cron expression that is not blank can be parsed; the text of the error is
    that of the library. *)
Definition check_cron (s : ScheduledTransfer) : ApiM App unit :=
  match cron_of s with
  | Some e => match parse_cron from_str e with Some _ => mret tt | None => λ a, (a, inr (mkApiError BadRequest None)) end
  | None => mret tt
  end.

Definition list_schedules : ApiM App (list ScheduledTransfer) :=
  ask (ensure_table SCHEDULES) ;;
  list_entities ScheduledTransfer.

Definition create_schedule (c : Clock) (uuid : ustring) (clock now_ms : Z) (s : ScheduledTransfer) : ApiM App ScheduledTransfer :=
  check (negb (blank (sx_name s))) BadRequest (lit "name is required") ;;
  check_cron s ;;
  check (bool_decide (is_Some (cron_of s)) || negb (sx_interval_seconds s =? 0)) BadRequest
    (lit "intervalSeconds must be at least 1, or set a cron expression") ;;
  ask (ensure_table SCHEDULES) ;;
  let s := set_times (Some (now_created c)) (Some (now_updated c)) (set_id uuid s) in
  let s := with_next (next_run_after from_str after valid_millis clock s now_ms) s in
  ask (doc_put SCHEDULES (sx_id s) (to_value s)) ;;
  tell PUT SCHEDULES (sx_id s) (Some (to_value s)) ;;
  mret s.

Definition update_schedule (c : Clock) (clock now_ms : Z) (id : ustring) (s : ScheduledTransfer) : ApiM App ScheduledTransfer :=
  existing ← get_one ScheduledTransfer id;
  let s := set_times (sx_created_at existing) (Some (now_updated c))
             (with_run (sx_last_run existing) (sx_last_status existing) (set_id (sx_id existing) s)) in
  check_cron s ;;
  let s := if sx_next_run_ms s =? 0 then with_next (next_run_after from_str after valid_millis clock s now_ms) s else s in
  ask (doc_put SCHEDULES id (to_value s)) ;;
  tell PUT SCHEDULES id (Some (to_value s)) ;;
  mret s.

Definition delete_schedule (id : ustring) : ApiM App unit := delete ScheduledTransfer id.

(** A run outside the plan; [outcome] is what [trigger] answers. It is not
    published. *)
Definition run_now (now : ustring) (outcome : ScheduledTransfer → ustring) (id : ustring) : ApiM App ustring :=
  s ← get_one ScheduledTransfer id;
  let result := outcome s in
  ask (doc_put SCHEDULES id (to_value (with_run (Some now) (Some result) s))) ;;
  mret result.
End Schedules.
