(* ===== verification/ClusterProps.v ===== *)
(** * The cluster: properties

    What the calls of the configuration interface do to the tables that a
    cluster shares and what they publish, hence how far the other nodes follow;
    and the lease of the leader. *)

From Stdlib Require Import String.
From S2P Require Import Prelude Diag Ebcdic Params Link DocStore Schedule ClientEngine Replicas Admin ReplicasProps.
Open Scope Z_scope.

#[local] Arguments rows : simpl never.

(** ** Changes *)

Definition change_table (tb : Table Json) (ch : ConfigChange) : Table Json :=
  if decide (ch_op ch = DELETE) then (table_delete (ch_key ch) tb).1
  else match ch_doc ch with Some doc => table_put (ch_key ch) doc tb | None => tb end.

Definition on (t : ustring) (cs : list ConfigChange) : list ConfigChange := filter (λ ch, ch_table ch = t) cs.

Lemma apply_eq ch d :
  ∃ d', apply ch (no_fault d) = no_fault d'
    ∧ ∀ t, t ∈ CLUSTER_TABLES → rows t d' = if decide (ch_table ch = t) then change_table (rows t d) ch else rows t d.
Proof.
  unfold apply, change_table. destruct (decide (ch_table ch ∈ CLUSTER_TABLES)) as [Hc|Hc].
  - destruct (ensure_eq (ch_table ch) d) as (d1&E1&R1&[tb G1]&O1). rewrite E1. cbn [fst].
    assert (Etb : tb = rows (ch_table ch) d) by (by rewrite <- R1; unfold rows; rewrite G1). subst tb.
    assert (Hput : ∀ tb t, rows t (table_put (ch_table ch) tb d1) = if decide (ch_table ch = t) then tb else rows t d).
    { intros tb t. rewrite rows_put, R1. destruct (decide (t = ch_table ch)), (decide (ch_table ch = t)); congruence. }
    destruct (decide (ch_op ch = DELETE)); [|destruct (ch_doc ch) as [doc|]].
    + unfold doc_delete. rewrite query_eq, G1. eexists. split; [done|]. intros t _. rewrite Hput.
      destruct (decide (ch_table ch = t)) as [<-|]; done.
    + unfold doc_put. rewrite query_eq, G1. eexists. split; [done|]. intros t _. rewrite Hput. cbn.
      destruct (decide (ch_table ch = t)) as [<-|]; done.
    + exists d1. split; [done|]. intros t _. rewrite R1. by destruct (decide (ch_table ch = t)).
  - exists d. split; [done|]. intros t Ht. destruct (decide (ch_table ch = t)) as [<-|]; done.
Qed.

(** The changes that a node takes from its payloads. *)
Definition heard (node : ustring) (p : option ConfigChange) : option ConfigChange :=
  ch ← p; if decide (ch_origin ch = node) then None else Some ch.

Lemma follow_eq node ps d :
  ∃ d', follow node ps (no_fault d) = no_fault d'
    ∧ ∀ t, t ∈ CLUSTER_TABLES → rows t d' = foldl change_table (rows t d) (on t (omap (heard node) ps)).
Proof.
  unfold follow. induction ps as [|p ps IH] in d |- *; [by exists d|].
  assert (Hskip : heard node p = None → received node p (no_fault d) = no_fault d).
  { destruct p as [ch|]; cbn; [|done]. by destruct (decide _). }
  cbn [foldl omap list_omap]. destruct (heard node p) as [ch|] eqn:Hh; [|by rewrite Hskip; [apply IH|]].
  destruct p as [ch'|]; [|done]. cbn in Hh. destruct (decide (ch_origin ch' = node)) as [|Hne]; [done|].
  injection Hh as ->. cbn [received]. rewrite decide_False by done.
  destruct (apply_eq ch d) as (d1&E1&R1). rewrite E1. destruct (IH d1) as (d2&E2&R2). exists d2. split; [done|].
  intros t Ht. rewrite (R2 t Ht), (R1 t Ht). unfold on. rewrite filter_cons.
  by destruct (decide (ch_table ch = t)).
Qed.

(** ** One document *)

Definition change_doc (o : option Json) (ch : ConfigChange) : option Json :=
  if decide (ch_op ch = DELETE) then None else match ch_doc ch with Some doc => Some doc | None => o end.

Lemma change_table_get k tb ch :
  table_get k (change_table tb ch) = if decide (ch_key ch = k) then change_doc (table_get k tb) ch else table_get k tb.
Proof.
  unfold change_table, change_doc. destruct (decide (ch_op ch = DELETE)).
  { rewrite table_get_delete. destruct (decide (k = ch_key ch)), (decide (ch_key ch = k)); congruence. }
  destruct (ch_doc ch) as [doc|]; [|by destruct (decide _)]. destruct (decide (ch_key ch = k)) as [<-|Hne].
  - by rewrite table_get_put_eq.
  - by rewrite table_get_put_ne.
Qed.

Definition about (t k : ustring) (cs : list ConfigChange) : list ConfigChange := filter (λ ch, ch_key ch = k) (on t cs).

Lemma foldl_change_get k tb cs :
  table_get k (foldl change_table tb cs) = foldl change_doc (table_get k tb) (filter (λ ch, ch_key ch = k) cs).
Proof.
  induction cs as [|ch cs IH] in tb |- *; [done|]. cbn [foldl]. rewrite IH, change_table_get, filter_cons.
  by destruct (decide (ch_key ch = k)).
Qed.

(** Nodes converge on a document that the same changes reach in the same order.
    Whatever two nodes had in the rest of their stores and got in between, when
    they agreed on the document of a shared table and have taken the same changes
    to it in the same order, they agree on it again: with one writer for each
    document, the order in which the changes of different writers arrive does
    not matter. *)
Theorem replicas_converge d1 d2 n1 n2 ps1 ps2 t k :
  t ∈ CLUSTER_TABLES → table_get k (rows t d1) = table_get k (rows t d2) →
  about t k (omap (heard n1) ps1) = about t k (omap (heard n2) ps2) →
  ∃ d1' d2', follow n1 ps1 (no_fault d1) = no_fault d1' ∧ follow n2 ps2 (no_fault d2) = no_fault d2'
    ∧ table_get k (rows t d1') = table_get k (rows t d2').
Proof.
  intros Ht E Ea. destruct (follow_eq n1 ps1 d1) as (d1'&E1&R1). destruct (follow_eq n2 ps2 d2) as (d2'&E2&R2).
  exists d1', d2'. split_and!; [done..|]. rewrite (R1 t Ht), (R2 t Ht), !foldl_change_get, E. unfold about in Ea. by rewrite Ea.
Qed.

(** Two writers of one document: each node has taken the other's change last. *)
Definition doc (text : ustring) : Json := Object [(lit "id", Text (lit "BANK")); (lit "password", Text text)].
Definition by_node (node : ustring) : ConfigChange := mkConfigChange node PUT PARTNERS (lit "BANK") (Some (doc node)).

Example concurrent_changes_diverge :
  let east := lit "east" in
  let west := lit "west" in
  let own node := apply (by_node node) (no_fault [(PARTNERS, [])]) in
  docs (follow east [Some (by_node east); Some (by_node west)] (own east)) = [(PARTNERS, [(lit "BANK", doc west)])]
  ∧ docs (follow west [Some (by_node east); Some (by_node west)] (own west)) = [(PARTNERS, [(lit "BANK", doc east)])].
Proof. by vm_compute. Qed.

Example replicas_converge_witness :
  let d := [(PARTNERS, [(lit "BANK", doc (lit "old"))])] in
  let other := mkConfigChange (lit "east") DELETE PARTNERS (lit "SHOP") None in
  PARTNERS ∈ CLUSTER_TABLES
  ∧ ∃ d1' d2', follow (lit "north") [Some (by_node (lit "east")); None; Some other] (no_fault d) = no_fault d1'
    ∧ follow (lit "south") [Some other; Some (by_node (lit "south")); Some (by_node (lit "east"))] (no_fault d) = no_fault d2'
    ∧ table_get (lit "BANK") (rows PARTNERS d1') = table_get (lit "BANK") (rows PARTNERS d2').
Proof.
  split; [by_compute|]. apply replicas_converge; [by_compute|done|by vm_compute].
Defined.

(** ** What a call does

    A node of the cluster whose database answers and whose rows are under the
    keys of their documents. *)
Record serving (node : ustring) (a : App) : Prop := mkServing {
  sv_cluster : ap_cluster a = Some node;
  sv_faults : db_faults (ap_store a) = [];
  sv_keyed t : t ∈ CLUSTER_TABLES → keyed t (rows t (docs (ap_store a)));
}.

Definition shared (t : ustring) (a : App) : Table Json := rows t (docs (ap_store a)).

(** The shared tables have changed as what was published says. *)
Definition told (node : ustring) (a a' : App) : Prop :=
  serving node a' ∧ ∃ cs, ap_published a' = ap_published a ++ cs ∧ Forall (λ ch, ch_origin ch = node) cs
    ∧ ∀ t, t ∈ CLUSTER_TABLES → shared t a' = foldl change_table (shared t a) (on t cs).

Lemma told_quiet node a a' :
  serving node a' → ap_published a' = ap_published a → (∀ t, t ∈ CLUSTER_TABLES → shared t a' = shared t a) → told node a a'.
Proof. intros Hs Hp Hr. split; [done|]. exists []. split_and!; [by rewrite app_nil_r|done|done]. Qed.

Lemma told_refl node a : serving node a → told node a a.
Proof. intros Hs. by apply told_quiet. Qed.

Lemma told_trans node a b c : told node a b → told node b c → told node a c.
Proof.
  intros [_ (cs1&P1&O1&R1)] [Hs (cs2&P2&O2&R2)]. split; [done|]. exists (cs1 ++ cs2). split_and!.
  - by rewrite P2, P1, app_assoc.
  - by apply Forall_app.
  - intros t Ht. rewrite (R2 t Ht), (R1 t Ht). unfold on. by rewrite filter_app, foldl_app.
Qed.

Section Acts.
Context (node : ustring).

Definition acts {A} (P : A → Prop) (x : ApiM App A) : Prop :=
  ∀ a, serving node a → told node a (x a).1 ∧ ∀ v, (x a).2 = inl v → P v.

Lemma acts_bind {A B} (P : A → Prop) (Q : B → Prop) (x : ApiM App A) (f : A → ApiM App B) :
  acts P x → (∀ v, P v → acts Q (f v)) → acts Q (x ≫= f).
Proof.
  intros Hx Hf a Ha. destruct (Hx a Ha) as [Ht Hv]. unfold mbind, Api_bind. destruct (x a) as [a1 [v|e]]; cbn in *.
  - destruct (Hf v (Hv v eq_refl) a1) as [Ht2 Hv2]; [apply Ht|]. split; [by eapply told_trans|done].
  - by split.
Qed.
Lemma acts_mono {A} (P Q : A → Prop) (x : ApiM App A) : acts P x → (∀ v, P v → Q v) → acts Q x.
Proof. intros Hx HPQ a Ha. destruct (Hx a Ha) as [H1 H2]. split; [done|]. intros v Hv. by apply HPQ, H2. Qed.
Lemma acts_ret {A} (P : A → Prop) v : P v → acts P (mret v).
Proof. intros HP a Ha. split; [by apply told_refl|]. by intros w [= <-]. Qed.
Lemma acts_error {A} (P : A → Prop) e : acts P (λ a, (a, inr e)).
Proof. intros a Ha. by split; [apply told_refl|]. Qed.
Lemma acts_check ok status message : acts (λ _, True) (check (S := App) ok status message).
Proof. unfold check. destruct ok; [by apply acts_ret|apply acts_error]. Qed.

(** A statement that leaves the shared rows. *)
Lemma acts_ask {A} (P : A → Prop) (q : Q A) :
  (∀ d, (∀ t, t ∈ CLUSTER_TABLES → keyed t (rows t d)) →
     ∃ d' o, q (no_fault d) = (no_fault d', o) ∧ (∀ t, t ∈ CLUSTER_TABLES → rows t d' = rows t d) ∧ ∀ v, o = Some v → P v) →
  acts P (ask q).
Proof.
  intros Hq [[d fs] c p] [Hc Hf Hk]. cbn in Hc, Hf, Hk. subst fs. unfold ask. cbn.
  destruct (Hq d Hk) as (d'&o&E&R&HP). unfold no_fault in E. rewrite E.
  assert (Ht : told node (mkApp (no_fault d) c p) (mkApp (no_fault d') c p)).
  { apply told_quiet; [|done|done]. split; cbn; [done|done|]. intros t Ht. rewrite (R t Ht). by apply Hk. }
  destruct o as [v|]; cbn; (split; [done|]); [|done]. intros w [= <-]. by apply HP.
Qed.

Lemma acts_query {A} (P : A → Prop) t (f : Table Json → A) :
  (∀ tb, (t ∈ CLUSTER_TABLES → keyed t tb) → P (f tb)) → acts P (ask (query t (λ tb, (tb, f tb)))).
Proof.
  intros HP. apply acts_ask. intros d Hk. rewrite query_eq. destruct (table_get t d) as [tb|] eqn:E; [|by exists d, None].
  exists d. eexists. cbn. rewrite table_put_same by done. split_and!; [done..|]. intros v [= <-]. apply HP. intros Ht.
  specialize (Hk t Ht). unfold rows in Hk. by rewrite E in Hk.
Qed.

Lemma acts_ensure t : acts (λ _, True) (ask (ensure_table t)).
Proof. apply acts_ask. intros d _. destruct (ensure_eq t d) as (d'&E&R&_). by exists d', (Some tt). Qed.

(** A change of a table is followed by its publication. *)
Definition change_of (op : ustring) (v : option Json) (k : ustring) (tb : Table Json) : Table Json :=
  change_table tb (mkConfigChange node op [] k v).

Lemma told_change t op k v d c p rest :
  serving node (mkApp (no_fault d) c p) →
  (t ∈ CLUSTER_TABLES → keyed t (change_of op v k (rows t d))) →
  rest = publish c op t k v →
  told node (mkApp (no_fault d) c p) (mkApp (no_fault (table_put t (change_of op v k (rows t d)) d)) c (p ++ rest)).
Proof.
  intros [Hc _ Hk] Hkey ->. cbn in Hc, Hk. subst c. unfold publish.
  assert (Hs : serving node (mkApp (no_fault (table_put t (change_of op v k (rows t d)) d)) (Some node)
                               (p ++ (if decide (t ∈ CLUSTER_TABLES) then [publish_config node op t k v] else [])))).
  { split; cbn; [done|done|]. intros t' Ht'. rewrite rows_put. destruct (decide (t' = t)) as [->|]; [by apply Hkey|by apply Hk]. }
  split; [done|]. destruct (decide (t ∈ CLUSTER_TABLES)) as [Ht|Ht]; (eexists; split; [done|]); cbn; (split; [by repeat constructor|]);
    intros t' Ht'; unfold shared; cbn; rewrite rows_put.
  - by destruct (decide (t' = t)) as [->|Hne]; [rewrite decide_True|rewrite decide_False].
  - by rewrite decide_False by (by intros ->).
Qed.

Lemma keyed_put t k v tb : keyed t tb → backup_key t v = Some k → keyed t (table_put k v tb).
Proof.
  intros [Hn Hk] Hv. split.
  - clear Hk Hv. induction tb as [|[k0 v0] tb IH]; cbn; [apply NoDup_singleton|]. cbn in Hn. apply NoDup_cons in Hn as [H1 H2].
    destruct (decide (k0 = k)) as [->|Hne]; cbn; [by apply NoDup_cons|]. apply NoDup_cons. split; [|by apply IH].
    intros Hin. clear IH H2. induction tb as [|[k1 v1] tb IH]; cbn in *; [by apply list_elem_of_singleton in Hin|].
    apply not_elem_of_cons in H1 as [Hne1 H1]. destruct (decide (k1 = k)) as [->|]; cbn in Hin;
      apply elem_of_cons in Hin as [->|Hin]; [done|done|done|by apply IH].
  - intros k' v' Hin. clear Hn. induction tb as [|[k0 v0] tb IH]; cbn in Hin.
    + apply list_elem_of_singleton in Hin. by injection Hin as -> ->.
    + destruct (decide (k0 = k)) as [->|Hne]; apply elem_of_cons in Hin as [[= -> ->]|Hin];
        [done|apply Hk; by right|apply Hk; by left|]. apply IH; [|done]. intros k1 v1 H1. apply Hk. by right.
Qed.

Lemma keyed_delete t k tb : keyed t tb → keyed t (table_delete k tb).1.
Proof.
  intros [Hn Hk].
  assert (Hsub : (table_delete k tb).1 `sublist_of` tb) by apply sublist_filter.
  split; [|intros k' v' Hin; apply Hk; by eapply elem_of_sublist].
  exact (sublist_NoDup _ _ Hn (fmap_sublist fst _ _ Hsub)).
Qed.

Lemma acts_put {A} (P : A → Prop) t k v (rest : ApiM App A) :
  (t ∈ CLUSTER_TABLES → backup_key t v = Some k) → acts P rest →
  acts P (ask (doc_put t k v) ;; tell PUT t k (Some v) ;; rest).
Proof.
  intros Hv Hrest [[d fs] c p] Hs. assert (Hf := sv_faults _ _ Hs). cbn in Hf. subst fs.
  unfold ask, mbind, Api_bind, doc_put. cbn [ap_store]. change (mkDb d []) with (no_fault d) in *. rewrite query_eq.
  destruct (table_get t d) as [tb|] eqn:E; [|by split; [apply told_refl|]].
  assert (Etb : rows t d = tb) by (unfold rows; by rewrite E).
  assert (Htold : told node (mkApp (no_fault d) c p) (mkApp (no_fault (table_put t (table_put k v tb) d)) c (p ++ publish c PUT t k (Some v)))).
  { rewrite <- Etb. apply (told_change t PUT k (Some v) d c p); [done| |done]. intros Ht. apply keyed_put; [|by apply Hv].
    by apply (sv_keyed _ _ Hs). }
  destruct (Hrest _ (proj1 Htold)) as [H1 H2]. split; [by eapply told_trans|done].
Qed.

Lemma acts_delete t k (f : bool → ApiM App unit) :
  (f = λ existed, if existed then tell DELETE t k None else f false) → acts (λ _, True) (f false) →
  acts (λ _, True) (ask (doc_delete t k) ≫= f).
Proof.
  intros Hf Hno [[d fs] c p] Hs. assert (Ho := sv_faults _ _ Hs). cbn in Ho. subst fs.
  unfold ask, mbind, Api_bind, doc_delete. cbn [ap_store]. change (mkDb d []) with (no_fault d) in *. rewrite query_eq.
  destruct (table_get t d) as [tb|] eqn:E; [|by split; [apply told_refl|]].
  assert (Etb : rows t d = tb) by (unfold rows; by rewrite E). cbn [snd]. unfold set_ap_store. cbn [ap_cluster ap_published].
  assert (Hkey : t ∈ CLUSTER_TABLES → keyed t (table_delete k tb).1).
  { intros Ht. rewrite <- Etb. by apply keyed_delete, (sv_keyed _ _ Hs). }
  rewrite Hf. change ((table_delete k tb).2) with (table_exists k tb). destruct (table_exists k tb) eqn:Ex.
  - split; [|done]. rewrite <- Etb in *. by apply (told_change t DELETE k None d c p).
  - assert (Hid : (table_delete k tb).1 = tb).
    { clear -Ex. unfold table_exists in Ex. destruct (table_get k tb) eqn:G; [done|]. clear Ex.
      induction tb as [|[k0 v0] tb IH]; [done|]. cbn in G. rewrite table_delete_cons. destruct (decide (k0 = k)); [done|].
      by rewrite IH. }
    rewrite Hid, table_put_same by done. by apply Hno.
Qed.
End Acts.

(** ** The calls of the interface *)

(** The identifier is the field [id] of the JSON value, and the clocks leave it. *)
Class EntityLaws (T : Type) `{!Entity T} `{!Serde T} : Prop := {
  set_id_eq id (x : T) : id_of (set_id id x) = id;
  set_times_id c u (x : T) : id_of (set_times c u x) = id_of x;
  table_other : TABLE T ≠ PKI ∧ TABLE T ≠ SERVERS;
  to_value_id (x : T) : get (lit "id") (to_value x) = Some (Text (id_of x));
  from_value_id v (x : T) s : from_value v = Some x → get (lit "id") v = Some (Text s) → id_of x = s;
}.

Section Calls.
Context (node : ustring) {T : Type} `{!Entity T} `{!Serde T} `{!EntityLaws T}.

Lemma backup_key_id v : backup_key (TABLE T) v = get (lit "id") v ≫= as_str.
Proof. destruct table_other as [H1 H2]. unfold backup_key. by rewrite !decide_False. Qed.

Lemma to_value_key (x : T) : backup_key (TABLE T) (to_value x) = Some (id_of x).
Proof. by rewrite backup_key_id, to_value_id. Qed.

Lemma from_value_key v (x : T) s : from_value v = Some x → backup_key (TABLE T) v = Some s → id_of x = s.
Proof.
  rewrite backup_key_id. intros Hv Hs. destruct (get (lit "id") v) as [[| | |s'| |]|] eqn:E; try done. injection Hs as ->.
  by eapply from_value_id.
Qed.

Lemma touch_id c created (x : T) : id_of (touch c created x) = id_of x.
Proof. apply set_times_id. Qed.

Lemma acts_get_doc id :
  acts node (λ o, ∀ x, o = Some x → TABLE T ∈ CLUSTER_TABLES → id_of x = id) (get_doc T id).
Proof.
  apply acts_bind with (λ o, ∀ v, o = Some v → TABLE T ∈ CLUSTER_TABLES → backup_key (TABLE T) v = Some id).
  { apply acts_query. intros tb Hk v Hv Ht. apply (Hk Ht). by apply table_get_in. }
  intros [v|] Hv; [|by apply acts_ret]. unfold read_doc. destruct (from_value v) as [x|] eqn:E; [|apply acts_error].
  apply acts_ret. intros x' [= <-] Ht. eapply from_value_key; [done|by apply Hv].
Qed.

Lemma acts_get_one id : acts node (λ x : T, TABLE T ∈ CLUSTER_TABLES → id_of x = id) (get_one T id).
Proof.
  eapply acts_bind; [apply acts_get_doc|]. intros [x|] Hx; [apply acts_ret; by apply Hx|apply acts_error].
Qed.

Lemma acts_validate (x : T) : acts node (λ _, True) (validate x).
Proof. apply acts_check. Qed.

Lemma acts_create c (body : T) : acts node (λ _, True) (create c body).
Proof.
  apply (acts_bind node (λ _, True)); [apply acts_validate|intros _ _].
  apply (acts_bind node (λ _, True)); [by apply acts_query|intros present _].
  apply (acts_bind node (λ _, True)); [apply acts_check|intros _ _].
  apply acts_put; [|by apply acts_ret]. intros _. apply to_value_key.
Qed.

Lemma acts_update c id (body : T) : acts node (λ _, True) (update c id body).
Proof.
  eapply acts_bind; [apply acts_get_doc|]. intros [x|] _; [|apply acts_error].
  apply (acts_bind node (λ _, True)); [apply acts_validate|intros _ _].
  apply acts_put; [|by apply acts_ret]. intros _. by rewrite to_value_key, touch_id, set_id_eq.
Qed.

Lemma acts_remove id : acts node (λ _, True) (delete T id).
Proof. apply acts_delete; [done|apply acts_error]. Qed.
End Calls.

Section ScheduleCalls.
Context (node : ustring) `{!Serde ScheduledTransfer} `{!EntityLaws ScheduledTransfer}.
Context {Cron : Type} (from_str : ustring → option Cron) (after : Cron → Z → option Z) (valid_millis : Z → bool).

Lemma schedule_key s : backup_key SCHEDULES (to_value s) = Some (sx_id s).
Proof. exact (to_value_key s). Qed.

Lemma acts_check_cron s : acts node (λ _, True) (check_cron from_str s).
Proof.
  unfold check_cron. destruct (cron_of s) as [e|]; [|by apply acts_ret].
  destruct (parse_cron from_str e); [by apply acts_ret|apply acts_error].
Qed.

Lemma acts_create_schedule c uuid clock now_ms s :
  acts node (λ _, True) (create_schedule from_str after valid_millis c uuid clock now_ms s).
Proof.
  apply (acts_bind node (λ _, True)); [apply acts_check|intros _ _].
  apply (acts_bind node (λ _, True)); [apply acts_check_cron|intros _ _].
  apply (acts_bind node (λ _, True)); [apply acts_check|intros _ _].
  apply (acts_bind node (λ _, True)); [apply acts_ensure|intros _ _].
  apply acts_put; [|by apply acts_ret]. intros _. apply schedule_key.
Qed.

Lemma acts_update_schedule c clock now_ms id s :
  acts node (λ _, True) (update_schedule from_str after valid_millis c clock now_ms id s).
Proof.
  assert (Ht : SCHEDULES ∈ CLUSTER_TABLES) by by_compute.
  refine (acts_bind node _ _ _ _ (acts_get_one node id) _). intros x Hx. specialize (Hx Ht).
  apply (acts_bind node (λ _, True)); [apply acts_check_cron|intros _ _].
  apply acts_put; [|by apply acts_ret]. intros _. rewrite schedule_key, <- Hx. by destruct (_ =? 0).
Qed.
End ScheduleCalls.

(** What an operator asks of a node. *)
Inductive call : App → App → Prop :=
  | call_create {T} `{EntityLaws T} c (body : T) a : call a (create c body a).1
  | call_update {T} `{EntityLaws T} c id (body : T) a : call a (update c id body a).1
  | call_delete (T : Type) `{EntityLaws T} id a : call a (delete T id a).1
  | call_create_schedule `{!Serde ScheduledTransfer} `{!EntityLaws ScheduledTransfer} {Cron : Type} (from_str : ustring → option Cron) after valid c uuid clock now s a :
      call a (create_schedule from_str after valid c uuid clock now s a).1
  | call_update_schedule `{!Serde ScheduledTransfer} `{!EntityLaws ScheduledTransfer} {Cron : Type} (from_str : ustring → option Cron) after valid c clock now id s a :
      call a (update_schedule from_str after valid c clock now id s a).1.

Lemma call_told node a a' : serving node a → call a a' → told node a a'.
Proof.
  intros Hs Hc. destruct Hc.
  - by apply (acts_create node c body a).
  - by apply (acts_update node c id body a).
  - by apply (acts_remove node id a).
  - by apply (acts_create_schedule node from_str after valid c uuid clock now s a).
  - by apply (acts_update_schedule node from_str after valid c clock now id s a).
Qed.

(** ** A run outside the plan

    It writes a row that is not published: the tables of the other nodes stay
    [matching], with the same keys, and the same documents but for the
    schedules that were run. *)
Definition matching (ran : list ustring) (t : ustring) (tb tb' : Table Json) : Prop :=
  tb.*1 = tb'.*1 ∧ ∀ k, (t = SCHEDULES → k ∉ ran) → table_get k tb = table_get k tb'.

Lemma matching_refl ran t tb : matching ran t tb tb.
Proof. done. Qed.

Lemma matching_trans ran1 ran2 t tb1 tb2 tb3 :
  matching ran1 t tb1 tb2 → matching ran2 t tb2 tb3 → matching (ran1 ++ ran2) t tb1 tb3.
Proof.
  intros [K1 G1] [K2 G2]. split; [congruence|]. intros k Hk. rewrite G1, G2; [done|..];
    intros Ht Hin; apply (Hk Ht); apply elem_of_app; auto.
Qed.

Lemma table_put_keys {T} k (v v' : T) (tb tb' : Table T) : tb.*1 = tb'.*1 → (table_put k v tb).*1 = (table_put k v' tb').*1.
Proof.
  revert tb'. induction tb as [|[k0 v0] tb IH]; intros [|[k1 v1] tb']; try done. cbn. intros [= -> E].
  destruct (decide (k1 = k)); cbn; f_equal; [done|by apply IH].
Qed.

Lemma table_delete_keys {T} k (tb tb' : Table T) : tb.*1 = tb'.*1 → (table_delete k tb).1.*1 = (table_delete k tb').1.*1.
Proof.
  revert tb'. induction tb as [|[k0 v0] tb IH]; intros [|[k1 v1] tb']; try done. cbn [fmap list_fmap fst]. intros [= -> E].
  rewrite !table_delete_cons. destruct (decide (k1 = k)); cbn; [|f_equal]; by apply IH.
Qed.

Lemma table_put_old {T} k (v v' : T) (tb : Table T) : table_get k tb = Some v' → (table_put k v tb).*1 = tb.*1.
Proof. intros E. rewrite <- (table_put_same k v' tb E) at 2. by apply table_put_keys. Qed.

Lemma table_ext {T} (tb tb' : Table T) :
  NoDup tb.*1 → tb.*1 = tb'.*1 → (∀ k, table_get k tb = table_get k tb') → tb = tb'.
Proof.
  revert tb'. induction tb as [|[k v] tb IH]; intros [|[k1 v1] tb']; try done. cbn [fmap list_fmap fst].
  intros [Hk Hn]%NoDup_cons [= <- E] G. assert (Gk := G k). cbn in Gk. rewrite !decide_True in Gk by done. injection Gk as <-.
  f_equal. apply IH; [done..|]. intros k'. destruct (decide (k = k')) as [<-|Hne].
  - rewrite !table_get_None; [done| |done]. by rewrite <- E.
  - specialize (G k'). cbn in G. by rewrite !decide_False in G.
Qed.

Lemma matching_changes ran t tb tb' cs :
  matching ran t tb tb' → matching ran t (foldl change_table tb cs) (foldl change_table tb' cs).
Proof.
  intros [K G]. split; [|intros k Hk; by rewrite !foldl_change_get, G].
  clear G. induction cs as [|ch cs IH] in tb, tb', K |- *; [done|]. apply IH. unfold change_table.
  destruct (decide _); [by apply table_delete_keys|]. destruct (ch_doc ch); [by apply table_put_keys|done].
Qed.

(** The tables of another node that hears what is published. *)
Definition followed (node : ustring) (ran : list ustring) (a a' : App) : Prop :=
  serving node a' ∧ ∃ cs, ap_published a' = ap_published a ++ cs
    ∧ ∀ t, t ∈ CLUSTER_TABLES → matching ran t (foldl change_table (shared t a) (on t cs)) (shared t a').

Lemma told_followed node a a' : told node a a' → followed node [] a a'.
Proof. intros [Hs (cs&P&_&R)]. split; [done|]. exists cs. split; [done|]. intros t Ht. by rewrite (R t Ht). Qed.

Lemma followed_trans node ran1 ran2 a b c :
  followed node ran1 a b → followed node ran2 b c → followed node (ran1 ++ ran2) a c.
Proof.
  intros [_ (cs1&P1&R1)] [Hs (cs2&P2&R2)]. split; [done|]. exists (cs1 ++ cs2). split; [by rewrite P2, P1, app_assoc|].
  intros t Ht. unfold on. rewrite filter_app, foldl_app. eapply matching_trans; [|by apply R2].
  by apply matching_changes, R1.
Qed.

(** What a read of one document does. *)
Lemma get_one_cases {T} `{!Entity T} `{!Serde T} id d c p :
  (get_one T id (mkApp (no_fault d) c p)).1 = mkApp (no_fault d) c p
  ∧ ∀ x, (get_one T id (mkApp (no_fault d) c p)).2 = inl x → ∃ v, table_get id (rows (TABLE T) d) = Some v ∧ from_value v = Some x.
Proof.
  unfold get_one, get_doc, ask, mbind, Api_bind, doc_get. cbn [ap_store]. rewrite query_eq. unfold rows.
  destruct (table_get (TABLE T) d) as [tb|] eqn:E; [|done].
  cbn [fst snd set_ap_store ap_cluster ap_published default ap_store]. rewrite (table_put_same (TABLE T) tb d E). destruct (table_get id tb) as [v|] eqn:G; [|by split; [|intros ? [=]]]. unfold read_doc.
  destruct (from_value v) as [x|] eqn:Ev; (split; [done|]); [|by intros ? [=]]. intros x' [= <-].
  exists v. by split.
Qed.

Lemma run_followed `{!Serde ScheduledTransfer} `{!EntityLaws ScheduledTransfer} node now outcome id a :
  serving node a → followed node [id] a (run_now now outcome id a).1.
Proof.
  intros Hs. assert (Hq : followed node [id] a a).
  { split; [done|]. exists []. split; [by rewrite app_nil_r|]. intros t Ht. apply matching_refl. }
  destruct a as [[d fs] c p]. assert (Hf := sv_faults _ _ Hs). cbn in Hf. subst fs. change (mkDb d []) with (no_fault d) in *.
  destruct (get_one_cases (T := ScheduledTransfer) id d c p) as [E Hx]. unfold run_now, mbind, Api_bind.
  destruct (get_one _ id _) as [a1 [x|e]]; cbn [fst snd] in E; subst a1; [|done]. destruct (Hx x eq_refl) as (v&Hg&Ev). clear Hx.
  unfold ask, doc_put. cbn [ap_store]. rewrite query_eq. unfold rows in Hg. change (TABLE ScheduledTransfer) with SCHEDULES in Hg.
  destruct (table_get SCHEDULES d) as [tb|] eqn:Et; [|done]. cbn in Hg. cbn [set_ap_store fst snd ap_cluster ap_published].
  assert (Erows : rows SCHEDULES d = tb) by (unfold rows; by rewrite Et).
  assert (Hk : keyed SCHEDULES tb) by (rewrite <- Erows; apply (sv_keyed _ _ Hs); by by_compute).
  assert (Hid : sx_id x = id).
  { refine (from_value_key (T := ScheduledTransfer) v x id Ev _). by apply Hk, table_get_in. }
  match goal with |- context [table_put id ?doc tb] => set (tb' := table_put id doc tb) end.
  match goal with |- followed _ _ _ ?a' => set (after := a') end.
  assert (Hafter : docs (ap_store after) = table_put SCHEDULES tb' d) by done.
  assert (Hkey : keyed SCHEDULES tb').
  { apply keyed_put; [done|]. rewrite schedule_key. exact (f_equal Some Hid). }
  split; [split; [exact (sv_cluster _ _ Hs)|done|]|exists []; split; [by rewrite app_nil_r|]].
  - intros t Ht. rewrite Hafter, rows_put. destruct (decide (t = SCHEDULES)) as [->|]; [done|by apply (sv_keyed _ _ Hs)].
  - intros t Ht. unfold shared. rewrite Hafter, rows_put. cbn [foldl on filter list_filter ap_store docs no_fault].
    destruct (decide (t = SCHEDULES)) as [->|]; [|apply matching_refl]. rewrite Erows. split; [symmetry; by apply (table_put_old id _ v)|].
    intros k Hk'. unfold tb'. rewrite table_get_put_ne; [done|]. intros ->. apply Hk'; [done|by apply list_elem_of_singleton].
Qed.

(** What an operator asks of a node: calls, and runs of the schedules [ran]. *)
Inductive serves : list ustring → App → App → Prop :=
  | serves_nothing a : serves [] a a
  | serves_call ran a b c : call a b → serves ran b c → serves ran a c
  | serves_run `{!Serde ScheduledTransfer} `{!EntityLaws ScheduledTransfer} ran now outcome id a c :
      serves ran (run_now now outcome id a).1 c → serves (id :: ran) a c.

Lemma serves_followed node ran a a' : serving node a → serves ran a a' → followed node ran a a'.
Proof.
  intros Hs Hc. induction Hc as [a|ran a b c H1 _ IH|Hser Hlaws ran now outcome id a c _ IH].
  - by apply told_followed, told_refl.
  - assert (Hb := told_followed _ _ _ (call_told _ _ _ Hs H1)). apply (followed_trans node [] ran _ _ _ Hb), IH, Hb.
  - assert (Hb := run_followed node now outcome id a Hs). apply (followed_trans node [id] ran _ _ _ Hb), IH, Hb.
Qed.

(** ** Joining *)

Lemma join_eq d b :
  (∀ t, t ∈ CLUSTER_TABLES → keyed t (rows t d)) → (∀ t, t ∈ CLUSTER_TABLES → rows t b = []) →
  ∃ b', join (Some (snapshot (no_fault d)).2) (no_fault b) = no_fault b' ∧ ∀ t, t ∈ CLUSTER_TABLES → rows t b' = rows t d.
Proof.
  intros Hk He.
  destruct (dump_fields_eq CLUSTER_TABLES [] d cluster_tables_nodup) as (d1&out&E1&R1&P1).
  { intros t _. apply not_elem_of_nil. }
  rewrite app_nil_r in P1.
  destruct (dump_apply CLUSTER_TABLES d b out cluster_tables_nodup) as (b'&n&E2&R2&O2); [|done|].
  { intros t Ht. split; [by apply cluster_config|by apply He]. }
  exists b'. split.
  - unfold snapshot, dump_only, mbind, Q_bind. rewrite E1. unfold join, restore. cbn [mret Q_ret snd from_option].
    rewrite get_object. change (lit "tables") with TABLES. cbn [id]. rewrite field_insert_get, decide_True by done.
    cbn [mbind option_bind as_object]. by rewrite E2.
  - intros t Ht. rewrite (R2 t Ht). by apply put_all_keyed, Hk.
Qed.

(** C15: a node follows another. [node] answers any calls that create, update or
    delete documents and schedules, or run a schedule outside its plan, whether
    they succeed or not; another node with no rows in the shared tables joins
    with its snapshot. When every change that [node] publishes from then on
    reaches the other node in its order (between payloads that are not changes,
    and changes of its own), the tables that a cluster shares have the same
    keys in the same order on both, and the same documents apart from the
    schedules that were run since, whose last run is not published: without
    such a run, and in the tables other than the schedules in any case, they
    are equal. *)
Theorem replica_follows node peer ran0 ran a0 a1 a2 b cs payloads :
  serving node a0 → serves ran0 a0 a1 → serves ran a1 a2 → ap_published a2 = ap_published a1 ++ cs →
  (∀ t, t ∈ CLUSTER_TABLES → rows t b = []) → omap (heard peer) payloads = cs →
  ∃ b', follow peer payloads (join (Some (snapshot (ap_store a1)).2) (no_fault b)) = no_fault b'
    ∧ ∀ t, t ∈ CLUSTER_TABLES → let tb := rows t (docs (ap_store a2)) in
        (rows t b').*1 = tb.*1
        ∧ (∀ k, (t = SCHEDULES → k ∉ ran) → table_get k (rows t b') = table_get k tb)
        ∧ (t ≠ SCHEDULES ∨ ran = [] → rows t b' = tb).
Proof.
  intros H0 H01 H12 Hp Hb Hh.
  destruct (serves_followed _ _ _ _ H0 H01) as [H1 _]. destruct (serves_followed _ _ _ _ H1 H12) as [H2 (cs'&P&R)].
  assert (cs' = cs) as -> by (apply (app_inv_head (ap_published a1)); congruence).
  destruct a1 as [[d1 fs] c1 p1]. assert (Hf := sv_faults _ _ H1). cbn in Hf. subst fs. cbn [ap_store].
  change (mkDb d1 []) with (no_fault d1) in *.
  destruct (join_eq d1 b (sv_keyed _ _ H1) Hb) as (b1&E1&R1). rewrite E1.
  destruct (follow_eq peer payloads b1) as (b2&E2&R2). exists b2. split; [done|].
  intros t Ht. set (tb := rows t (docs (ap_store a2))). cbv zeta. assert (matching ran t (rows t b2) tb) as [K G] by (rewrite (R2 t Ht), (R1 t Ht), Hh; by apply R).
  split; [done|]. split; [done|]. intros Hno. apply table_ext; [|done|].
  - rewrite K. by apply (sv_keyed _ _ H2).
  - intros k. apply G. intros ->. destruct Hno as [Hne| ->]; [done|]. by apply not_elem_of_nil.
Qed.

(** ** The lease *)

Class BucketLaws (B : Type) `{!Bucket B} : Prop := {
  entry_put id (b : B) : entry (kv_put id b) = Some id;
  create_free id (b : B) : entry b = None → (kv_create id b).2 = true ∧ entry (kv_create id b).1 = Some id;
}.

Section Lease.
Context {B : Type} `{!Bucket B} `{!BucketLaws B}.

(** The turns of some nodes, one after the other: the bucket and the nodes that
    lead afterwards. *)
Fixpoint turns_of (ids : list ustring) (b : B) : B * list ustring :=
  match ids with
  | [] => (b, [])
  | id :: ids =>
      let '(b, leads) := leader_tick id b in
      let '(b, leaders) := turns_of ids b in
      (b, if leads then id :: leaders else leaders)
  end.

Lemma turns_held holder ids b :
  entry b = Some holder →
  entry (turns_of ids b).1 = Some holder ∧ (turns_of ids b).2 = filter (λ id, id = holder) ids.
Proof.
  induction ids as [|id ids IH] in b |- *; intros E; cbn [turns_of]; [done|]. rewrite filter_cons. unfold leader_tick, leader_act.
  rewrite E. destruct (decide (holder = id)) as [->|Hne].
  - destruct (IH (kv_put id b) (entry_put id b)) as [H1 H2]. destruct (turns_of ids _) as [b' l]. cbn in *.
    rewrite decide_True by done. by rewrite H2.
  - destruct (IH b E) as [H1 H2]. destruct (turns_of ids _) as [b' l]. cbn in *. rewrite decide_False by congruence. by rewrite H2.
Qed.

(** The turns of nodes that do not hold the lease. *)
Lemma turns_absent holder ids b : entry b = Some holder → holder ∉ ids → (turns_of ids b).1 = b.
Proof.
  intros E. induction ids as [|id ids IH]; cbn [turns_of]; [done|]. intros [Hne Hids]%not_elem_of_cons.
  unfold leader_tick, leader_act. rewrite E, decide_False by done. specialize (IH Hids). by destruct (turns_of ids b).
Qed.

Lemma filter_one (x : ustring) l : NoDup l → x ∈ l → filter (λ id, id = x) l = [x].
Proof.
  induction 1 as [|y l Hy Hl IH]; intros Hx; [by apply elem_of_nil in Hx|]. rewrite filter_cons.
  destruct (decide (y = x)) as [->|Hne].
  - f_equal. apply elem_of_nil_inv. intros z [-> Hz]%list_elem_of_filter. done.
  - apply elem_of_cons in Hx as [->|Hx]; [done|by apply IH].
Qed.

(** C27: after a round of the members of a cluster, each reading and taking or
    renewing the lease before the next and the lease not expiring in between,
    the bucket has the name of the holder: the one of before, when there was
    one, or the first to find the lease free. When the holder is one of the
    members it is the only one that leads. When it is not (it has left and its
    lease has not expired) nobody leads and the lease stays as it was, so that
    the first member of the round after it expires is the next holder; never do
    two of them lead. *)
Theorem leader_settles first ids b :
  NoDup (first :: ids) →
  ∃ holder, holder = default first (entry b) ∧ leader (turns_of (first :: ids) b).1 = Some holder
    ∧ (turns_of (first :: ids) b).2 = (if decide (holder ∈ first :: ids) then [holder] else [])
    ∧ (holder ∉ first :: ids → (turns_of (first :: ids) b).1 = b
        ∧ ∀ b', entry b' = None → (turns_of (first :: ids) b').2 = [first]).
Proof.
  intros Hn. assert (Hfree : ∀ b, entry b = None →
    leader (turns_of (first :: ids) b).1 = Some first ∧ (turns_of (first :: ids) b).2 = [first]).
  { clear b. intros b E. cbn [turns_of]. unfold leader_tick, leader_act. rewrite E. destruct (create_free first b E) as [H1 H2].
    destruct (kv_create first b) as [b1 won]. cbn in H1, H2. subst won.
    destruct (turns_held first ids b1 H2) as [H3 H4]. destruct (turns_of ids b1) as [b2 l]. cbn in *. subst l.
    split; [done|]. f_equal. apply NoDup_cons in Hn as [Hf _]. apply elem_of_nil_inv.
    intros z [-> Hz]%list_elem_of_filter. done. }
  destruct (entry b) as [holder|] eqn:E.
  - destruct (turns_held holder (first :: ids) b E) as [H1 H2]. exists holder. rewrite H2. split_and!; [done|done| |].
    + destruct (decide (holder ∈ first :: ids)); [by apply filter_one|]. apply elem_of_nil_inv.
      intros z [-> Hz]%list_elem_of_filter. done.
    + intros Hout. split; [by apply (turns_absent holder)|]. intros b' Hb'. by apply Hfree.
  - destruct (Hfree b E) as [H1 H2]. exists first. rewrite H2, decide_True by by left. split_and!; [done..|]. intros Hout. destruct Hout. by left.
Qed.
End Lease.

(** ** Samples *)

Module Sample.

(** The lease as a cell. *)
#[global] Instance cell : Bucket (option ustring) := {|
  entry b := b;
  kv_put id _ := Some id;
  kv_create id b := match b with Some _ => (b, false) | None => (Some id, true) end;
|}.
#[global] Instance cell_laws : BucketLaws (option ustring).
Proof. split; [done|]. intros id b Hb. cbn in *. by subst. Qed.

(** Partners with their identifier and password. *)
#[global] Instance partner_serde : Serde NodeModel.Partner := {|
  to_value p := Object [(lit "id", Text (id_of p)); (lit "password", default Null (Text <$> NodeModel.p_password p))];
  from_value v := s ← (get (lit "id") v ≫= as_str); Some (set_id s NodeModel.partner_default);
|}.
#[global] Instance partner_laws : EntityLaws NodeModel.Partner.
Proof.
  split; [done|done|by split; by_compute|done|].
  intros v x s. cbn [from_value partner_serde]. intros H E. rewrite E in H. by injection H as <-.
Qed.

(** Schedules with their identifier and last status. *)
#[global] Instance schedule_serde : Serde ScheduledTransfer := {|
  to_value s := Object [(lit "id", Text (id_of s)); (lit "lastStatus", default Null (Text <$> sx_last_status s))];
  from_value v := s ← (get (lit "id") v ≫= as_str); Some (with_run None (get (lit "lastStatus") v ≫= as_str) (set_id s scheduled_transfer_default));
|}.
#[global] Instance schedule_laws : EntityLaws ScheduledTransfer.
Proof.
  split; [done|done|by split; by_compute|done|].
  intros v x s. cbn [from_value schedule_serde]. intros H E. rewrite E in H. by injection H as <-.
Qed.

Definition nightly : App := mkApp (no_fault [(SCHEDULES, [(lit "S", to_value (set_id (lit "S") scheduled_transfer_default))])]) (Some (lit "east")) [].

Definition bank : NodeModel.Partner := set_id (lit "BANK") NodeModel.partner_default.
Definition clock : Clock := mkClock (lit "2026-01-01") (lit "2026-01-01").
Definition app : App := mkApp (no_fault [(PARTNERS, [(lit "SHOP", to_value (set_id (lit "SHOP") bank))])]) (Some (lit "east")) [].
Definition later : App := (delete NodeModel.Partner (lit "SHOP") (create clock bank app).1).1.

End Sample.

(** A run outside the plan is not told to the others: the schedule of the node
    has the status of its run, and that of the node that follows has not. *)
Example run_not_followed :
  let ran := (run_now (lit "now") (λ _, lit "queued T1") (lit "S") Sample.nightly).1 in
  let peer := follow (lit "west") (map Some (ap_published ran)) (join (Some (snapshot (ap_store Sample.nightly)).2) (no_fault [])) in
  ap_published ran = []
  ∧ rows SCHEDULES (docs (ap_store ran)) = [(lit "S", Object [(lit "id", Text (lit "S")); (lit "lastStatus", Text (lit "queued T1"))])]
  ∧ rows SCHEDULES (docs peer) = [(lit "S", Object [(lit "id", Text (lit "S")); (lit "lastStatus", Null)])].
Proof. by vm_compute. Qed.

(** Between the read of a holder and its renewal the lease expires and another
    node takes it: both lead. *)
Example two_leaders :
  let east := lit "east" in
  let west := lit "west" in
  let held := entry (Some east) in
  let expired : option ustring := None in
  let '(b1, west_leads) := leader_tick west expired in
  let '(b2, east_leads) := leader_act east held b1 in
  west_leads = true ∧ east_leads = true ∧ leader b2 = Some east.
Proof. by vm_compute. Qed.

Example leader_settles_witness :
  NoDup [lit "east"; lit "west"]
  ∧ (turns_of [lit "east"; lit "west"] (Some (lit "west"))).2 = [lit "west"]
  ∧ (turns_of [lit "east"; lit "west"] (Some (lit "north"))).2 = []
  ∧ (turns_of [lit "east"; lit "west"] None).2 = [lit "east"].
Proof.
  assert (Hn : NoDup [lit "east"; lit "west"]) by by_compute. split; [exact Hn|].
  destruct (leader_settles (lit "east") [lit "west"] (Some (lit "west")) Hn) as (h1&->&_&E1&_).
  destruct (leader_settles (lit "east") [lit "west"] (Some (lit "north")) Hn) as (h2&->&_&E2&Hfree).
  split; [exact E1|]. split; [exact E2|]. apply Hfree; [by by_compute|reflexivity].
Defined.

Example replica_follows_witness :
  length (ap_published Sample.later) = 2%nat
  ∧ ∃ b', follow (lit "west") (map Some (ap_published Sample.later))
            (join (Some (snapshot (ap_store Sample.app)).2) (no_fault [])) = no_fault b'
    ∧ ∀ t, t ∈ CLUSTER_TABLES → rows t b' = rows t (docs (ap_store Sample.later)).
Proof.
  split; [by vm_compute|].
  destruct (replica_follows (lit "east") (lit "west") [] [] Sample.app Sample.app Sample.later [] (ap_published Sample.later) (map Some (ap_published Sample.later)))
    as (b'&E&R); [..|by exists b'; split; [exact E|intros t Ht; apply (R t Ht); by right]].
  - split; [done..|]. apply Forall_forall. repeat constructor; cbn; try by_compute.
    all: intros k v Hin; cbn in Hin; try (by apply elem_of_nil in Hin).
    apply list_elem_of_singleton in Hin as [= -> ->]. by vm_compute.
  - apply serves_nothing.
  - eapply serves_call; [apply (call_create Sample.clock Sample.bank)|].
    eapply serves_call; [apply (call_delete NodeModel.Partner)|]. apply serves_nothing.
  - done.
  - done.
  - by vm_compute.
Defined.
