(* ===== verification/EventLog.v ===== *)
(** * The audit log and the key of the interface ([crates/pesit-app/src/audit.rs], [crates/pesit-app/src/http.rs])

    The log is a table that only grows, but for the pruning that bounds it; the
    key is compared with a header of the request. *)

From Stdlib Require Import String.
From S2P Require Import Prelude Diag Ebcdic Params Link DocStore NodeModel Schedule.
Open Scope Z_scope.

(** ** Events *)

Inductive Outcome : Type := Success | Failure.

#[global] Instance outcome_eq_dec : EqDecision Outcome.
Proof. solve_decision. Defined.

Record AuditEvent : Type := mkAuditEvent {
  ev_id : ustring;
  ev_timestamp : ustring;
  ev_category : ustring;
  ev_action : ustring;
  ev_target : option ustring;
  ev_actor : option ustring;
  ev_detail : option ustring;
  ev_outcome : Outcome;
}.

Definition DEFAULT_MAX_ENTRIES : Z := 50000.
Definition PRUNE_INTERVAL : Z := 256.

(** ** The log

    The database, the cap (0 for none) and the number of writes, one of 64 bits. *)
Record AuditLog : Type := mkAuditLog {
  au_store : Db (Table AuditEvent);
  au_max_entries : Z;
  au_writes : Z;
}.

(** [prune_oldest]: the cap is given to the database as a signed number, and a
    negative one is no limit. *)
Definition prune_oldest (keep : Z) (t : Table AuditEvent) : Table AuditEvent * nat :=
  if i64 keep <? 0 then (t, 0%nat) else table_prune_oldest (Z.to_nat (i64 keep)) t.

Definition with_retention (s : Db (Table AuditEvent)) (max_entries : Z) : AuditLog :=
  mkAuditLog (if 0 <? max_entries then (db_statement (prune_oldest max_entries) s).1 else s) max_entries 0.

Definition audit_new (s : Db (Table AuditEvent)) : AuditLog := with_retention s DEFAULT_MAX_ENTRIES.

(** A write is counted when there is a cap, and the first of every 256 prunes. *)
Definition record (ev : AuditEvent) (l : AuditLog) : AuditLog :=
  let s := (db_statement (λ t, (table_put (ev_id ev) ev t, tt)) (au_store l)).1 in
  if 0 <? au_max_entries l then
    mkAuditLog (if au_writes l mod PRUNE_INTERVAL =? 0 then (db_statement (prune_oldest (au_max_entries l)) s).1 else s)
      (au_max_entries l) ((au_writes l + 1) mod 2 ^ 64)
  else mkAuditLog s (au_max_entries l) (au_writes l).

Definition success (id now category action target : ustring) : AuditLog → AuditLog :=
  record (mkAuditEvent id now category action (Some target) None None Success).
Definition failure (id now category action target reason : ustring) : AuditLog → AuditLog :=
  record (mkAuditEvent id now category action (Some target) None (Some reason) Failure).

(** *** Reading

    An error of the database gives no events. *)
Definition recent_events (limit : nat) (l : AuditLog) : AuditLog * list AuditEvent :=
  let '(s, r) := db_statement (λ t, (t, table_list_recent limit t)) (au_store l) in
  (mkAuditLog s (au_max_entries l) (au_writes l), default [] r).

(** The events that a filter looks through; a big number for [nat]. *)
Definition LOOKED_THROUGH : nat := Z.to_nat 5000.

Definition same_category (a b : ustring) : bool :=
  bool_decide (map to_ascii_lowercase (Ebcdic.utf8 a) = map to_ascii_lowercase (Ebcdic.utf8 b)).
Definition in_category (category : option ustring) (e : AuditEvent) : bool :=
  match category with Some c => same_category (ev_category e) c | None => true end.

Definition filtered_from (looked : nat) (category : option ustring) (limit : nat) (l : AuditLog) : AuditLog * list AuditEvent :=
  let '(l, all) := recent_events looked l in
  (l, take limit (filter (λ e, in_category category e = true) all)).
Definition filtered : option ustring → nat → AuditLog → AuditLog * list AuditEvent := filtered_from LOOKED_THROUGH.

Definition audit_stats (l : AuditLog) : AuditLog * (nat * nat * nat) :=
  let '(s, r) := db_statement (λ t, (t, table_list t)) (au_store l) in
  let all := default [] r in
  let failures := length (filter (λ e, ev_outcome e = Failure) all) in
  (mkAuditLog s (au_max_entries l) (au_writes l), (length all, (length all - failures)%nat, failures)).

(** ** The key of the interface

    A request, by its path and the two headers that may hold the key; whether
    the handlers of the routes get it. *)
Definition API : bytes := Ebcdic.utf8 (lit "/api/").
Definition BEARER : bytes := Ebcdic.utf8 (lit "Bearer ").

Definition strip_prefix (pat s : bytes) : option bytes :=
  if decide (pat `prefix_of` s) then Some (drop (length pat) s) else None.

Definition require_api_key (expected : option bytes) (path : bytes) (x_api_key authorization : option bytes) : bool :=
  match expected with
  | None => true
  | Some expected =>
      if negb (bool_decide (API `prefix_of` path)) then true
      else
        match (match x_api_key with Some v => Some v | None => authorization end) with
        | Some v => bool_decide (v = expected) || bool_decide (strip_prefix BEARER v = Some expected)
        | None => false
        end
  end.
