(* ===== verification/EventLogProps.v ===== *)
(** * The audit log and the key of the interface: properties *)

From Stdlib Require Import String.
From S2P Require Import Prelude Diag Ebcdic Params Link DocStore NodeModel Schedule EventLog.
Open Scope Z_scope.

(** ** Retention *)

(** A cap that a signed number of 64 bits holds. *)
Definition capped (max : Z) : Prop := 0 < max < 2 ^ 63.

Lemma prune_eq max t : capped max → (prune_oldest max t).1 = drop (length t - Z.to_nat max) t.
Proof.
  intros H. unfold capped in H. assert (E : i64 max = max) by (unfold i64; rewrite Z.mod_small; lia).
  unfold prune_oldest. rewrite E. by rewrite (proj2 (Z.ltb_ge max 0)) by lia.
Qed.

(** The rows of a log whose database answers. *)
Definition logged_rows (l : AuditLog) : Table AuditEvent := docs (au_store l).

(** The log holds the last events of [all]: at least [max] of them when there are so
    many, and at most as many more as the writes since the last pruning. *)
Record retains (max : Z) (all : Table AuditEvent) (l : AuditLog) : Prop := mkRetains {
  rt_healthy : healthy (au_store l);
  rt_max : au_max_entries l = max;
  rt_writes : 0 ≤ au_writes l;
  rt_rows : ∃ j, logged_rows l = drop j all ∧ (j ≤ length all - Z.to_nat max)%nat;
  rt_bound : Z.of_nat (length (logged_rows l)) ≤
    max + (if au_writes l mod PRUNE_INTERVAL =? 0 then 255 else au_writes l mod PRUNE_INTERVAL - 1);
}.

Lemma retains_new max s :
  capped max → healthy s → retains max (docs s) (with_retention s max).
Proof.
  intros Hc Hs. assert (Hc' := Hc). unfold capped in Hc'. unfold with_retention.
  rewrite (proj2 (Z.ltb_lt 0 max)) by lia.
  destruct (db_statement_healthy (prune_oldest max) s Hs) as (s'&E&Hs'&Ed). rewrite prune_eq in Ed by done.
  split; cbn -[Z.mul]; rewrite ?E; cbn; try done; unfold logged_rows; cbn; rewrite Ed.
  - by eexists.
  - rewrite length_drop. change (0 mod PRUNE_INTERVAL =? 0) with true. lia.
Qed.

Lemma drop_put_new {T} k (v : T) j (all : Table T) :
  k ∉ all.*1 → table_put k v (drop j all) = drop j all ++ [(k, v)].
Proof.
  intros Hk. assert (Hd : k ∉ (drop j all).*1).
  { rewrite fmap_drop. intros H. by apply Hk, (subseteq_drop j). }
  clear Hk. induction (drop j all) as [|[k0 v0] t IH]; [done|]. cbn in *. apply not_elem_of_cons in Hd as [H1 H2].
  rewrite decide_False by done. by rewrite IH.
Qed.

Lemma writes_next w : 0 ≤ w →
  let r := w mod PRUNE_INTERVAL in
  ((w + 1) mod 2 ^ 64) mod PRUNE_INTERVAL = (if r =? 255 then 0 else r + 1) ∧ 0 ≤ r < 256.
Proof.
  intros Hw r. unfold PRUNE_INTERVAL in *.
  assert (E : ((w + 1) mod 2 ^ 64) mod 256 = (w + 1) mod 256).
  { apply Z.mod_mod_divide. by exists (2 ^ 56). }
  rewrite E. assert (Hr : 0 ≤ r < 256) by (apply Z.mod_pos_bound; lia). split; [|done].
  destruct (Z.eqb_spec r 255); subst r; lia_dm.
Qed.

Lemma retains_record max all l ev :
  capped max → retains max all l → ev_id ev ∉ all.*1 → retains max (all ++ [(ev_id ev, ev)]) (record ev l).
Proof.
  intros Hc [Hh Hm Hw (j&Hj&Hle) Hb] Hid. unfold logged_rows in Hj, Hb. assert (Hc' := Hc). unfold capped in Hc'.
  destruct (db_statement_healthy (λ t, (table_put (ev_id ev) ev t, tt)) (au_store l) Hh) as (s1&E1&Hh1&D1).
  cbn in D1. rewrite Hj, drop_put_new in D1 by done. rewrite <- drop_app_le in D1 by lia.
  assert (Hlen : length (drop j (all ++ [(ev_id ev, ev)])) = S (length (docs (au_store l)))).
  { rewrite Hj, !length_drop, length_app. cbn. lia. }
  destruct (writes_next _ Hw) as [Hn Hr]. unfold record. rewrite Hm, (proj2 (Z.ltb_lt 0 max)), E1 by lia. cbn [fst].
  destruct (Z.eqb_spec (au_writes l mod PRUNE_INTERVAL) 0) as [E0|E0].
  - destruct (db_statement_healthy (prune_oldest max) s1 Hh1) as (s2&E2&Hh2&D2). rewrite prune_eq, D1, Hlen in D2 by done.
    split; unfold logged_rows; cbn -[Z.pow Z.modulo]; rewrite ?E2; try done.
    + apply Z.mod_pos_bound. lia.
    + cbn [fst]. rewrite D2, drop_drop. eexists. split; [done|]. rewrite length_app. cbn. rewrite Hj, length_drop. lia.
    + cbn [fst]. rewrite D2, length_drop, Hlen, Hn, E0. 
      change (if (if 0 =? 255 then 0 else 0 + 1) =? 0 then 255 else (if 0 =? 255 then 0 else 0 + 1) - 1) with 0. lia.
  - split; unfold logged_rows; cbn -[Z.pow Z.modulo]; try done.
    + apply Z.mod_pos_bound. lia.
    + exists j. split; [done|]. rewrite length_app. cbn. lia.
    + rewrite D1, Hlen, Hn. destruct (Z.eqb_spec (au_writes l mod PRUNE_INTERVAL) 255) as [E5|E5]; [change (0 =? 0) with true; lia|].
      destruct (Z.eqb_spec (au_writes l mod PRUNE_INTERVAL + 1) 0); lia.
Qed.

Definition event_row (e : AuditEvent) : ustring * AuditEvent := (ev_id e, e).

Lemma retains_records max all evs l :
  capped max → retains max all l → NoDup (all.*1 ++ map ev_id evs) →
  retains max (all ++ map event_row evs) (foldl (λ l e, record e l) l evs).
Proof.
  intros Hc. induction evs as [|e evs IH] in all, l |- *; intros Hl Hn; cbn; [by rewrite app_nil_r|].
  replace (all ++ event_row e :: map event_row evs) with ((all ++ [event_row e]) ++ map event_row evs) by (by rewrite <- app_assoc).
  apply IH.
  - apply retains_record; [done|done|]. apply NoDup_app in Hn as (_&Hn&_). intros Hin. apply (Hn _ Hin). left.
  - rewrite fmap_app. cbn. by rewrite <- app_assoc.
Qed.

(** C20: the audit log is bounded and keeps the newest events. From any table of a
    database that answers, a log with a cap prunes it and then records events
    under new identifiers: whatever their number, the table never has more than 255 rows above the cap, and the most
    recent events, up to the cap, are those that were recorded last, the newest
    first. *)
Theorem audit_bounded max s evs k :
  capped max → healthy s → NoDup ((docs s).*1 ++ map ev_id evs) → Z.of_nat k ≤ max →
  let l := foldl (λ l e, record e l) (with_retention s max) evs in
  Z.of_nat (length (logged_rows l)) ≤ max + 255
  ∧ (recent_events k l).2 = take k (rev (map snd (docs s) ++ evs)).
Proof.
  intros Hc Hs Hn Hk l. assert (Hl : retains max (docs s ++ map event_row evs) l).
  { apply retains_records; [done|by apply retains_new|done]. }
  destruct Hl as [Hh _ Hw (j&Hj&Hle) Hb]. split.
  - destruct (writes_next _ Hw) as [_ Hr]. destruct (_ =? 0); lia.
  - unfold recent_events. destruct (db_statement_healthy (λ t, (t, table_list_recent k t)) (au_store l) Hh) as (s'&E&_&_).
    rewrite E. cbn. unfold logged_rows in Hj. rewrite Hj. unfold table_list_recent.
    assert (Em : map snd (docs s) ++ evs = map snd (docs s ++ map event_row evs)).
    { rewrite map_app. f_equal. clear. induction evs as [|e evs IH]; [done|]. cbn. by rewrite <- IH. }
    rewrite Em. set (all := docs s ++ map event_row evs) in *. destruct j as [|j]; [done|].
    rewrite <- (take_drop (S j) all) at 2. rewrite map_app, rev_app_distr, take_app_le; [done|].
    rewrite length_rev, length_map, length_drop. lia.
Qed.

(** ** The key *)

Lemma require_api_key_spec key path x auth :
  require_api_key (Some key) path x auth = true ↔
  ¬ (API `prefix_of` path)
  ∨ (x = Some key ∨ x = Some (BEARER ++ key))
  ∨ (x = None ∧ (auth = Some key ∨ auth = Some (BEARER ++ key))).
Proof.
  unfold require_api_key. case_bool_decide as Hp; cbn; [|by split; [left|]].
  assert (Hv : ∀ v, bool_decide (v = key) || bool_decide (strip_prefix BEARER v = Some key) = true ↔ v = key ∨ v = BEARER ++ key).
  { intros v. rewrite orb_true_iff, !bool_decide_eq_true. unfold strip_prefix. destruct (decide (BEARER `prefix_of` v)) as [[w ->]|Hn].
    - rewrite drop_app_length. split; (intros [H|H]; [by left|right]); [by injection H as ->|].
      apply app_inv_head in H. by subst.
    - split; [by intros [H|H]; [left|]|]. intros [H|H]; [by left|]. exfalso. apply Hn. subst. by eexists. }
  destruct x as [v|]; [|destruct auth as [v|]]; rewrite ?Hv; naive_solver.
Qed.

(** The transfer interface of the node is mounted under another path. *)
Example client_is_open : require_api_key (Some [1]) (Ebcdic.utf8 (lit "/client/api/v1/transfers/send")) None None = true.
Proof. by vm_compute. Qed.

Module Sample.

Definition event (id : string) : AuditEvent := mkAuditEvent (lit id) [] (lit "config") (lit "create") None None None Success.
Definition table : Table AuditEvent := map event_row [event "a"; event "b"; event "c"].

End Sample.

Example audit_bounded_witness :
  let l := foldl (λ l e, record e l) (with_retention (mkDb Sample.table []) 2) [Sample.event "d"; Sample.event "e"; Sample.event "f"] in
  length (logged_rows l) = 4%nat
  ∧ Z.of_nat (length (logged_rows l)) ≤ 2 + 255
  ∧ (recent_events 2 l).2 = [Sample.event "f"; Sample.event "e"].
Proof.
  split; [by vm_compute|].
  apply (audit_bounded 2 (mkDb Sample.table []) [Sample.event "d"; Sample.event "e"; Sample.event "f"] 2); [done|done|by_compute|done].
Defined.
