(* ===== verification/Connectors.v ===== *)
(** * The connectors of storage ([crates/pesit-connector/src], [crates/pesit-node/src/connector.rs])

    A connector copies a file between the node and a local directory, an S3
    bucket or an SFTP server, and tries again when a copy fails. One copy by S3
    or SFTP is what their libraries do; the file system is that of the system. *)

From Stdlib Require Import String.
From S2P Require Import Prelude Diag Ebcdic Params Builder Checkpoint Link Datapath Requester DocStore NodeModel NodeHandler ClientModel ClientEngine Schedule Replicas Admin.
Open Scope Z_scope.

(** ** Attempts *)

(** [Duration] in milliseconds: its seconds are a number of 64 bits, and a product
    that does not fit panics. *)
Definition DURATION_END : Z := 2 ^ 64 * 1000.
Definition RETRY_BASE_DELAY : Z := 200.

Definition with_max_attempts (attempts : Z) : Z := Z.max attempts 1.

Section Retry.
Context {W A E : Type} (op : W → W * (A + E)).

(** The loop from an attempt on: the world, the delays slept so far, and the result.
    The iterations of [attempt..=max_attempts] are the fuel. *)
Fixpoint retry_from (fuel : nat) (attempt max_attempts delay : Z) (slept : list Z) (w : W) : W * list Z * outcome E A :=
  match fuel with
  | O => (w, slept, Panic)
  | S fuel =>
      match op w with
      | (w, inl v) => (w, slept, Ok v)
      | (w, inr e) =>
          if attempt <? max_attempts then
            if DURATION_END <=? delay * 2 then (w, slept ++ [delay], Panic)
            else retry_from fuel (attempt + 1) max_attempts (delay * 2) (slept ++ [delay]) w
          else (w, slept, Err e)
      end
  end.

Definition retry (max_attempts : Z) (w : W) : W * list Z * outcome E A :=
  retry_from (Z.to_nat max_attempts) 1 max_attempts RETRY_BASE_DELAY [] w.
End Retry.

(** ** Paths *)

Fixpoint trim_start_matches (c : Z) (s : ustring) : ustring :=
  match s with x :: s' => if x =? c then trim_start_matches c s' else s | [] => [] end.
Definition trim_end_matches (c : Z) (s : ustring) : ustring := rev (trim_start_matches c (rev s)).

Definition SLASH : Z := 47.

(** The path of a local file under the base directory, and of a remote one. *)
Definition local_resolve (base remote : ustring) : ustring := path_join base (trim_start_matches SLASH remote).
Definition sftp_path (base_path : option ustring) (remote : ustring) : ustring :=
  match filled base_path with
  | Some base => trim_end_matches SLASH base ++ lit "/" ++ trim_start_matches SLASH remote
  | None => remote
  end.

(** ** Backends *)

(** The calls of the file system; an error has a text. *)
Class FileSystem (W : Type) : Type := {
  create_parents : ustring → W → W * (unit + ustring);
  copy : ustring → ustring → W → W * (Z + ustring);
  metadata : ustring → W → W * (unit + ustring);
}.

Record S3Config : Type := mkS3Config {
  s3_bucket : ustring;
  s3_region : option ustring;
  s3_endpoint : option ustring;
  s3_access_key : option ustring;
  s3_secret_key : option ustring;
  s3_path_style : bool;
}.

Record SftpConfig : Type := mkSftpConfig {
  sf_host : ustring;
  sf_port : Z;
  sf_user : ustring;
  sf_password : option ustring;
  sf_base_path : option ustring;
}.

Inductive Backend : Type := Local (base : ustring) | S3 (cfg : S3Config) | Sftp (cfg : SftpConfig).

Definition kind (b : Backend) : ustring :=
  match b with Local _ => lit "local" | S3 _ => lit "s3" | Sftp _ => lit "sftp" end.

Record Connector : Type := mkConnector { cn_backend : Backend; cn_max_attempts : Z }.

(** One copy by a library: of an object, or of the file at a path of a server. *)
Class Libraries (W : Type) : Type := {
  s3_fetch : S3Config → ustring → ustring → W → W * (Z + ustring);
  s3_store : S3Config → ustring → ustring → W → W * (unit + ustring);
  s3_test : S3Config → W → W * (unit + ustring);
  sftp_fetch : SftpConfig → ustring → ustring → W → W * (Z + ustring);
  sftp_store : SftpConfig → ustring → ustring → W → W * (unit + ustring);
  sftp_test : SftpConfig → ustring → W → W * (unit + ustring);
}.

Section Connectors.
Context {W : Type} `{!FileSystem W} `{!Libraries W}.

Definition tagged {A} (r : W * (A + ustring)) : W * (A + ustring) :=
  match r with (w, inl a) => (w, inl a) | (w, inr e) => (w, inr (lit "local: " ++ e)) end.

Definition local_fetch (base remote dest : ustring) (w : W) : W * (Z + ustring) :=
  match create_parents dest w with
  | (w, inl _) => copy (local_resolve base remote) dest w
  | (w, inr e) => (w, inr e)
  end.

Definition local_store (base src remote : ustring) (w : W) : W * (unit + ustring) :=
  let dest := local_resolve base remote in
  match create_parents dest w with
  | (w, inl _) => match copy src dest w with (w, inl _) => (w, inl tt) | (w, inr e) => (w, inr e) end
  | (w, inr e) => (w, inr e)
  end.

Definition fetch_once (b : Backend) (remote dest : ustring) (w : W) : W * (Z + ustring) :=
  match b with
  | Local base => tagged (local_fetch base remote dest w)
  | S3 cfg => s3_fetch cfg remote dest w
  | Sftp cfg => sftp_fetch cfg (sftp_path (sf_base_path cfg) remote) dest w
  end.

Definition store_once (b : Backend) (src remote : ustring) (w : W) : W * (unit + ustring) :=
  match b with
  | Local base => tagged (local_store base src remote w)
  | S3 cfg => s3_store cfg src remote w
  | Sftp cfg => sftp_store cfg src (sftp_path (sf_base_path cfg) remote) w
  end.

Definition fetch (c : Connector) (remote dest : ustring) : W → W * list Z * outcome ustring Z :=
  retry (fetch_once (cn_backend c) remote dest) (cn_max_attempts c).
Definition store (c : Connector) (src remote : ustring) : W → W * list Z * outcome ustring unit :=
  retry (store_once (cn_backend c) src remote) (cn_max_attempts c).

Definition test_connector (c : Connector) (w : W) : W * (unit + ustring) :=
  match cn_backend c with
  | Local base => tagged (metadata base w)
  | S3 cfg => s3_test cfg w
  | Sftp cfg => sftp_test cfg (default (lit ".") (sf_base_path cfg)) w
  end.
End Connectors.

(** ** From a configuration *)

Definition from_config (c : ConnectorConfig) : Connector + ApiError :=
  let wrap b := inl (mkConnector b (with_max_attempts (cc_max_retries c))) in
  let bad text := inr (mkApiError BadRequest (Some text)) in
  if decide (cc_kind c = lit "s3") then
    match filled (cc_bucket c) with
    | Some bucket =>
        wrap (S3 (mkS3Config bucket (cc_region c) (cc_endpoint c) (cc_access_key c) (cc_secret_key c) (cc_path_style c)))
    | None => bad (lit "S3 connector needs a bucket")
    end
  else if decide (cc_kind c = lit "sftp") then
    match filled (cc_host c) with
    | Some host =>
        wrap (Sftp (mkSftpConfig host (if cc_port c =? 0 then 22 else cc_port c) (default [] (cc_user c)) (cc_password c)
                      (cc_base_path c)))
    | None => bad (lit "SFTP connector needs a host")
    end
  else wrap (Local (default (lit "/") (cc_base_path c))).

(** The connector of an identifier. *)
Definition build `{!Serde ConnectorConfig} (id : ustring) : ApiM App Connector :=
  found ← get_doc ConnectorConfig id;
  match found return ApiM App Connector with
  | None => reject NotFound_ (lit "connector '" ++ id ++ lit "' not found")
  | Some c => (λ a, (a, from_config c)) : ApiM App Connector
  end.
