(* ===== verification/ConnectorsProps.v ===== *)
(** * The connectors of storage: properties *)

From Stdlib Require Import String.
From S2P Require Import Prelude Diag Ebcdic Params DocStore NodeModel NodeHandler Connectors.
Open Scope Z_scope.

(** ** Attempts *)

Section Attempts.
Context {W A F : Type} (op : W → W * (A + F)).

(** The world before the attempt [i], counted from 0, and what the attempt gives. *)
Definition world_at (w : W) (i : nat) : W := Nat.iter i (λ w, (op w).1) w.
Definition result_at (w : W) (i : nat)   : A + F := (op (world_at w i)).2.
Definition succeeds (w : W) (i : nat) : Prop := ∃ v, result_at w i = inl v.

Definition delays (from : nat) (k : nat) : list Z := map (λ i, RETRY_BASE_DELAY * 2 ^ Z.of_nat i) (seq from k).

Definition given (r : A + F) : outcome F A := match r with inl v => Ok v | inr e => Err e end.

Lemma world_at_shift w i : world_at w (S i) = world_at ((op w).1) i.
Proof. induction i as [|i IH]; [done|]. unfold world_at in *. cbn in *. by rewrite IH. Qed.

Lemma result_at_shift w i : result_at w (S i) = result_at ((op w).1) i.
Proof. unfold result_at. by rewrite world_at_shift. Qed.

(** A delay after at most 66 others can be doubled. *)
Lemma delay_fits a : (a ≤ 65)%nat → RETRY_BASE_DELAY * 2 ^ Z.of_nat a * 2 < DURATION_END.
Proof.
  intros Ha. unfold RETRY_BASE_DELAY, DURATION_END. assert (2 ^ Z.of_nat a ≤ 2 ^ 65) by (apply Z.pow_le_mono_r; lia). lia.
Qed.

Lemma retry_from_spec fuel a max slept w :
  Z.of_nat (S a + fuel) = max + 1 → (0 < fuel)%nat → max ≤ 67 →
  ∃ k, (k < fuel)%nat ∧ (∀ i, (i < k)%nat → ¬ succeeds w i) ∧ (succeeds w k ∨ S k = fuel)
    ∧ retry_from op fuel (Z.of_nat (S a)) max (RETRY_BASE_DELAY * 2 ^ Z.of_nat a) slept w
      = (world_at w (S k), slept ++ delays a k, given (result_at w k)).
Proof.
  induction fuel as [|fuel IH] in a, slept, w |- *; intros Hf Hpos Hmax; [lia|]. cbn [retry_from].
  destruct (op w) as [w1 [v|e]] eqn:Ew.
  - exists 0%nat. split_and!; [lia|by intros i Hi; lia|left; exists v; unfold result_at; cbn; by rewrite Ew|].
    unfold result_at, delays. cbn. by rewrite Ew, app_nil_r.
  - assert (H0 : ¬ succeeds w 0) by (unfold succeeds, result_at; cbn; rewrite Ew; by intros [? ?]).
    destruct (Z.ltb_spec (Z.of_nat (S a)) max) as [Hlt|Hge].
    + rewrite (proj2 (Z.leb_gt _ _)) by (apply delay_fits; lia).
      destruct (IH (S a) (slept ++ [RETRY_BASE_DELAY * 2 ^ Z.of_nat a]) w1) as (k&Hk&Hno&Hs&E); [lia..|].
      assert (Esh : ∀ i, result_at w (S i) = result_at w1 i) by (intros i; by rewrite result_at_shift, Ew).
      exists (S k). split_and!; [lia| | |].
      * intros [|i] Hi; [done|]. unfold succeeds. rewrite Esh. apply Hno. lia.
      * destruct Hs as [Hs|Hs]; [left; unfold succeeds; by rewrite Esh|right; lia].
      * replace (Z.of_nat (S a) + 1) with (Z.of_nat (S (S a))) by lia.
        replace (RETRY_BASE_DELAY * 2 ^ Z.of_nat a * 2) with (RETRY_BASE_DELAY * 2 ^ Z.of_nat (S a)).
        2: { rewrite Nat2Z.inj_succ, Z.pow_succ_r by lia. lia. }
        rewrite E, Esh, (world_at_shift w), Ew. by rewrite <- app_assoc.
    + exists 0%nat. assert (fuel = 0%nat) as -> by lia. split_and!; [lia|by intros i Hi; lia|by right|].
      unfold result_at, delays. cbn. by rewrite Ew, app_nil_r.
Qed.

(** C19: a copy that fails is tried again, as often as the connector allows and no more.
    With from 1 to 67 attempts, the copy is run up to its first success, or as
    often as allowed when there is none, each time in the world that the last
    attempt has left; the result is that of the last attempt; and the delays
    between the attempts double from 200 milliseconds. The statement behind the
    loop is not reached, and no delay overflows. *)
Theorem retry_spec max w :
  1 ≤ max ≤ 67 →
  ∃ k, Z.of_nat k < max ∧ (∀ i, (i < k)%nat → ¬ succeeds w i) ∧ (succeeds w k ∨ Z.of_nat (S k) = max)
    ∧ retry op max w = (world_at w (S k), delays 0 k, given (result_at w k)).
Proof.
  intros Hmax. destruct (retry_from_spec (Z.to_nat max) 0 max [] w) as (k&Hk&Hno&Hs&E); [lia..|].
  exists k. split_and!; [lia|done|destruct Hs; [by left|right; lia]|exact E].
Qed.
End Attempts.

(** An operation that fails twice. *)
Definition third (w : nat) : nat * (Z + ustring) := if (w <? 2)%nat then (S w, inr (lit "busy")) else (S w, inl 5).

Example retry_spec_witness :
  retry third 3 0%nat = (3%nat, [200; 400], Ok 5)
  ∧ ∃ k, Z.of_nat k < 3 ∧ (∀ i, (i < k)%nat → ¬ succeeds third 0%nat i) ∧ (succeeds third 0%nat k ∨ Z.of_nat (S k) = 3)
    ∧ retry third 3 0%nat = (world_at third 0%nat (S k), delays 0 k, given (result_at third 0%nat k)).
Proof. split; [by vm_compute|]. apply (retry_spec third 3 0%nat). lia. Defined.

(** ** Paths *)

(** The names of a path. *)
Definition names (path : ustring) : list ustring := filter (λ n, n ≠ []) (split_on SLASH path).

Lemma split_on_cons c s : split_on SLASH (c :: s) = if c =? SLASH then [] :: split_on SLASH s
  else match split_on SLASH s with p :: ps => (c :: p) :: ps | [] => [[c]] end.
Proof. done. Qed.

Lemma names_slash s : names (SLASH :: s) = names s.
Proof. unfold names. rewrite split_on_cons, Z.eqb_refl, filter_cons. by destruct (decide ([] ≠ [])). Qed.

Lemma names_trim s : names (trim_start_matches SLASH s) = names s.
Proof.
  induction s as [|c s IH]; [done|]. cbn [trim_start_matches]. destruct (Z.eqb_spec c SLASH) as [->|]; [|done].
  by rewrite names_slash.
Qed.

Lemma split_on_app s t : split_on SLASH (s ++ SLASH :: t) = split_on SLASH s ++ split_on SLASH t.
Proof.
  induction s as [|c s IH]; cbn [app]; [by rewrite split_on_cons, Z.eqb_refl|]. rewrite !split_on_cons.
  destruct (c =? SLASH); [by rewrite IH|]. rewrite IH. destruct (split_on SLASH s) as [|p ps] eqn:E; [|done].
  exfalso. clear -E. destruct s as [|c s]; [done|]. rewrite split_on_cons in E. destruct (c =? SLASH); [done|].
  by destruct (split_on SLASH s).
Qed.

Lemma names_app s t : names (s ++ SLASH :: t) = names s ++ names t.
Proof. unfold names. by rewrite split_on_app, filter_app. Qed.

Lemma names_app_slash s t : List.last s SLASH = SLASH → names (s ++ t) = names s ++ names t.
Proof.
  intros Hl. destruct s as [|c s] using rev_ind; [done|]. rewrite last_last in Hl. subst c.
  rewrite <- app_assoc. cbn [app]. rewrite names_app. replace (s ++ [SLASH]) with (s ++ SLASH :: []) by done.
  rewrite names_app. cbn. unfold names at 3. cbn. by rewrite app_nil_r.
Qed.

(** The names of the remote path follow those of the base: nothing takes [..] away. *)
Lemma local_resolve_names base remote : names (local_resolve base remote) = names base ++ names remote.
Proof.
  unfold local_resolve, path_join. assert (Hh : head (trim_start_matches SLASH remote) ≠ Some SLASH).
  { induction remote as [|c s IH]; [done|]. cbn. destruct (Z.eqb_spec c SLASH) as [->|Hne]; [done|]. cbn. congruence. }
  rewrite <- (names_trim remote). set (r := trim_start_matches SLASH remote) in *.
  replace (match head r with Some 47 => r | _ => base ++ match List.last base 47 with 47 => [] | _ => [47] end ++ r end)
    with (base ++ match List.last base 47 with 47 => [] | _ => [47] end ++ r).
  - destruct (decide (List.last base 47 = 47)) as [E|E].
    + rewrite E. cbn. by apply names_app_slash.
    + replace (match List.last base 47 with 47 => [] | _ => [47] end) with [SLASH].
      * cbn. apply names_app.
      * destruct (List.last base 47) as [|p|p]; [done| |done]. repeat (destruct p as [p|p|]; try done).
  - destruct (head r) as [[|p|p]|]; try done. repeat (destruct p as [p|p|]; try done).
Qed.

Example dots_escape : names (local_resolve (lit "/srv/store") (lit "../keys")) = [lit "srv"; lit "store"; lit ".."; lit "keys"].
Proof. by vm_compute. Qed.
