(* ===== verification/Certs.v ===== *)
(** * Certificates ([crates/pesit-pki/src/store.rs], [crates/pesit-pki/src/ocsp.rs], [crates/pesit-node/src/pki.rs])

    Keystores and truststores on disk under checked names, the authority of the
    node, their export and import, revocation and the two ways in which it is
    published, and the rotation of keystores. X.509, signatures and the issue of
    certificates are those of libraries. *)

From Stdlib Require Import String.
From S2P Require Import Prelude Diag Ebcdic Params Link DocStore NodeModel NodeHandler Schedule Replicas.
Open Scope Z_scope.

(** ** Files

    The texts of a directory by file names. A call takes the next fault: one that
    fails leaves a text, or nothing, in the file that it was to write. *)
Record Disk : Type := mkDisk {
  ca_dir : gmap ustring ustring;
  keystores : gmap ustring ustring;
  truststores : gmap ustring ustring;
  disk_faults : list (option (option ustring));
}.

Inductive Dir : Type := CaDir | KeyDir | TrustDir.

Definition dir_of (dir : Dir) (d : Disk) : gmap ustring ustring :=
  match dir with CaDir => ca_dir d | KeyDir => keystores d | TrustDir => truststores d end.
Definition set_dir (dir : Dir) (files : gmap ustring ustring) (d : Disk) : Disk :=
  match dir with
  | CaDir => mkDisk files (keystores d) (truststores d) (disk_faults d)
  | KeyDir => mkDisk (ca_dir d) files (truststores d) (disk_faults d)
  | TrustDir => mkDisk (ca_dir d) (keystores d) files (disk_faults d)
  end.
Definition next_fault (d : Disk) : Disk := mkDisk (ca_dir d) (keystores d) (truststores d) (tail (disk_faults d)).
Definition fault_of (d : Disk) : option (option ustring) := default None (head (disk_faults d)).

Definition write_file (dir : Dir) (name contents : ustring) (d : Disk) : Disk * bool :=
  let d' := next_fault d in
  match fault_of d with
  | None => (set_dir dir (<[name := contents]> (dir_of dir d')) d', true)
  | Some (Some remains) => (set_dir dir (<[name := remains]> (dir_of dir d')) d', false)
  | Some None => (d', false)
  end.

Definition read_file (dir : Dir) (name : ustring) (d : Disk) : Disk * option ustring :=
  (next_fault d, match fault_of d with None => dir_of dir d !! name | Some _ => None end).

(** [remove_if]: a file that is not there is no error. *)
Definition remove_file (dir : Dir) (name : ustring) (d : Disk) : Disk * bool :=
  let d' := next_fault d in
  match fault_of d with
  | None => (set_dir dir (delete name (dir_of dir d')) d', true)
  | Some _ => (d', false)
  end.

Definition file_exists (dir : Dir) (name : ustring) (d : Disk) : bool := bool_decide (is_Some (dir_of dir d !! name)).

(** ** The store of certificates

    The descriptions of stores are without the paths of their files, which their
    names give. *)

Inductive StoreError : Type := Io | Cert (text : ustring) | Name (name : ustring) | MissingKey.

Record CertInfo : Type := mkCertInfo {
  ci_subject : ustring;
  ci_issuer : ustring;
  ci_serial : ustring;
  ci_not_before : ustring;
  ci_not_after : ustring;
  ci_valid : bool;
  ci_is_ca : bool;
  ci_sans : list ustring;
  ci_fingerprint : ustring;
}.

Record KeystoreMeta : Type := mkKeystoreMeta { ks_name : ustring; ks_info : CertInfo }.
Record TruststoreMeta : Type := mkTruststoreMeta { tm_name : ustring; tm_certs : list CertInfo }.

Definition name_char (c : Z) : bool := is_ascii_alphanumeric c || (c =? 45) || (c =? 95) || (c =? 46).

Definition sanitize (name : ustring) : ustring + StoreError :=
  if negb (is_empty name) && (length (Ebcdic.utf8 name) <=? 128)%nat && forallb name_char name
     && negb (bool_decide (name = lit ".")) && negb (bool_decide (name = lit ".."))
  then inl name else inr (Name name).

Definition CRT : ustring := lit ".crt.pem".
Definition KEY : ustring := lit ".key.pem".
Definition PEM : ustring := lit ".pem".
Definition key_cert (name : ustring) : ustring := name ++ CRT.
Definition key_key (name : ustring) : ustring := name ++ KEY.
Definition trust_path (name : ustring) : ustring := name ++ PEM.

(** [str::contains]. *)
Fixpoint contains_text (pat s : ustring) : bool :=
  bool_decide (pat `prefix_of` s) || match s with [] => false | _ :: s => contains_text pat s end.

(** A call on the disk. *)
Definition OnDisk (A : Type) : Type := Disk → Disk * (A + StoreError).

#[global] Instance OnDisk_ret : MRet OnDisk := λ _ a d, (d, inl a).
#[global] Instance OnDisk_bind : MBind OnDisk := λ _ _ f x d,
  match x d with
  | (d, inl a) => f a d
  | (d, inr e) => (d, inr e)
  end.

Definition raise {A} (e : StoreError) : OnDisk A := λ d, (d, inr e).
Definition named (name : ustring) : OnDisk ustring := λ d, (d, sanitize name).
Definition io (call : Disk → Disk * bool) : OnDisk unit := λ d,
  match call d with (d, true) => (d, inl tt) | (d, false) => (d, inr Io) end.

Section Store.
(** The certificates of a text, and those of a bundle. *)
Context (inspect_pem : ustring → CertInfo + ustring) (inspect_all : ustring → list CertInfo + ustring).

Definition of_cert {A} (r : A + ustring) : OnDisk A := λ d, (d, match r with inl a => inl a | inr e => inr (Cert e) end).

Definition put_keystore (name cert_pem key_pem : ustring) : OnDisk KeystoreMeta :=
  name ← named name;
  (if contains_text (lit "PRIVATE KEY") key_pem then mret tt else raise MissingKey) ;;
  info ← of_cert (inspect_pem cert_pem);
  io (write_file KeyDir (key_cert name) cert_pem) ;;
  io (write_file KeyDir (key_key name) key_pem) ;;
  mret (mkKeystoreMeta name info).

Definition put_truststore (name bundle_pem : ustring) : OnDisk TruststoreMeta :=
  name ← named name;
  certs ← of_cert (inspect_all bundle_pem);
  io (write_file TrustDir (trust_path name) bundle_pem) ;;
  mret (mkTruststoreMeta name certs).

(** Reading: any error is an absent store. *)
Definition keystore (name : ustring) (d : Disk) : Disk * option KeystoreMeta :=
  match sanitize name with
  | inr _ => (d, None)
  | inl name =>
      let '(d, cert) := read_file KeyDir (key_cert name) d in
      (d, c ← cert; match inspect_pem c with inl info => Some (mkKeystoreMeta name info) | inr _ => None end)
  end.

Definition truststore (name : ustring) (d : Disk) : Disk * option TruststoreMeta :=
  match sanitize name with
  | inr _ => (d, None)
  | inl name =>
      let '(d, data) := read_file TrustDir (trust_path name) d in
      (d, b ← data; match inspect_all b with inl certs => Some (mkTruststoreMeta name certs) | inr _ => None end)
  end.

Definition keystore_files (name : ustring) (d : Disk) : option (ustring * ustring) :=
  match sanitize name with
  | inl name =>
      if file_exists KeyDir (key_cert name) d && file_exists KeyDir (key_key name) d
      then Some (key_cert name, key_key name) else None
  | inr _ => None
  end.

Definition truststore_file (name : ustring) (d : Disk) : option ustring :=
  match sanitize name with
  | inl name => if file_exists TrustDir (trust_path name) d then Some (trust_path name) else None
  | inr _ => None
  end.

Definition delete_keystore (name : ustring) : OnDisk bool :=
  name ← named name;
  existed ← (λ d, (d, inl (file_exists KeyDir (key_cert name) d)));
  io (remove_file KeyDir (key_cert name)) ;;
  io (remove_file KeyDir (key_key name)) ;;
  mret existed.

Definition delete_truststore (name : ustring) : OnDisk bool :=
  name ← named name;
  existed ← (λ d, (d, inl (file_exists TrustDir (trust_path name) d)));
  io (remove_file TrustDir (trust_path name)) ;;
  mret existed.

(** [strip_suffix], and the names of a directory in their order. *)
Definition strip_suffix (suffix s : ustring) : option ustring :=
  if decide (suffix `suffix_of` s) then Some (take (length s - length suffix) s) else None.
Definition list_names (suffix : ustring) (files : gmap ustring ustring) : list ustring :=
  sorted (omap (strip_suffix suffix) (map_to_list files).*1).

Fixpoint collect {A} (get : ustring → Disk → Disk * option A) (names : list ustring) (d : Disk) : Disk * list A :=
  match names with
  | [] => (d, [])
  | n :: names =>
      let '(d, x) := get n d in
      let '(d, xs) := collect get names d in
      (d, match x with Some x => x :: xs | None => xs end)
  end.

Definition list_keystores (d : Disk) : Disk * list KeystoreMeta := collect keystore (list_names CRT (keystores d)) d.
Definition list_truststores (d : Disk) : Disk * list TruststoreMeta := collect truststore (list_names PEM (truststores d)) d.
End Store.

(** ** Serial numbers *)

Definition is_hex (c : Z) : bool := (48 <=? c) && (c <=? 57) || (65 <=? c) && (c <=? 70) || (97 <=? c) && (c <=? 102).

(** The digits of a serial, in lower case; and without zeros before them in upper
    case, as the responder compares them. *)
Definition normalize_serial (s : ustring) : ustring := map to_ascii_lowercase (filter (λ c, is_hex c = true) s).

Definition to_upper (c : Z) : Z := if (97 <=? c) && (c <=? 122) then c - 32 else c.
Fixpoint trim_zeros (s : ustring) : ustring := match s with c :: s' => if c =? 48 then trim_zeros s' else s | [] => [] end.
Definition norm_serial (s : ustring) : ustring :=
  let trimmed := trim_zeros (map to_upper (filter (λ c, is_hex c = true) s)) in
  if is_empty trimmed then lit "0" else trimmed.

Definition hex_value (c : Z) : Z := if c <=? 57 then c - 48 else if c <=? 70 then c - 55 else c - 87.

(** Pairs of digits as bytes. *)
Fixpoint pairs (s : ustring) : list Z :=
  match s with a :: b :: s => hex_value a * 16 + hex_value b :: pairs s | _ => [] end.
Definition hex_to_bytes (s : ustring) : option (list Z) :=
  let h := normalize_serial s in
  if is_empty h || negb (length h mod 2 =? 0)%nat then None else Some (pairs h).

Definition hex_digit (n : Z) : Z := if n <? 10 then 48 + n else 55 + n.
Definition bytes_to_hex (l : list Z) : ustring := concat (map (λ b, [hex_digit (b / 16); hex_digit (b mod 16)]) l).

(** ** Revocation *)

Record RevokedEntry : Type := mkRevokedEntry { re_serial : ustring; re_revoked_at : ustring }.

(** The document of the revoked serials; an error of the database is an empty list. *)
Definition RevokedDoc : Type := Db (option (list RevokedEntry)).

Definition revoked_list (s : RevokedDoc) : RevokedDoc * list RevokedEntry :=
  let '(s, r) := db_statement (λ d, (d, d)) s in (s, default [] (default None r)).

Inductive PkiError : Type := Gen (text : option ustring) | Vault (text : ustring) | NoCa | IoError.

Definition revoke (now serial : ustring) (s : RevokedDoc) : RevokedDoc * (unit + PkiError) :=
  let norm := normalize_serial serial in
  if is_empty norm then (s, inr (Gen (Some (lit "invalid serial"))))
  else
    let '(s, l) := revoked_list s in
    if existsb (λ e, bool_decide (re_serial e = norm)) l then (s, inl tt)
    else
      match db_statement (λ _, (Some (l ++ [mkRevokedEntry norm now]), tt)) s with
      | (s, Some _) => (s, inl tt)
      | (s, None) => (s, inr (Gen None))
      end.

(** What a list of revocations says: the serials of the signed list, with the
    seconds of their time, and the answer of the responder about a serial. *)
Definition seconds (parse_millis : ustring → option Z) (t : ustring) : Z :=
  match parse_millis t with Some ms => Z.quot ms 1000 | None => 0 end.

Definition crl_entries (parse_millis : ustring → option Z) (l : list RevokedEntry) : list (list Z * Z) :=
  omap (λ e, bytes ← hex_to_bytes (re_serial e); Some (bytes, seconds parse_millis (re_revoked_at e))) l.

Definition ocsp_status (parse_millis : ustring → option Z) (l : list RevokedEntry) (serial : list Z) : option Z :=
  e ← List.find (λ e, bool_decide (norm_serial (re_serial e) = norm_serial (bytes_to_hex serial))) l;
  Some (seconds parse_millis (re_revoked_at e)).

(** ** The authority, and what a backup carries *)

Record Authority : Type := mkAuthority { ca_cert : ustring; ca_key : ustring }.

Definition CA_CRT : ustring := lit "ca.crt.pem".
Definition CA_KEY : ustring := lit "ca.key.pem".

(** The state of the certificates: the disk and the authority that is loaded. *)
Record PkiState : Type := mkPkiState { pk_disk : Disk; pk_ca : option Authority }.

Definition load_ca (d : Disk) : Disk * option Authority :=
  match read_file CaDir CA_CRT d with
  | (d, Some cert) =>
      match read_file CaDir CA_KEY d with
      | (d, Some key) => (d, Some (mkAuthority cert key))
      | (d, None) => (d, None)
      end
  | (d, None) => (d, None)
  end.

Section Material.
Context (inspect_pem : ustring → CertInfo + ustring) (inspect_all : ustring → list CertInfo + ustring).

(** The fields of a value, in the order of their names. *)
Definition fields_of (l : list (ustring * Json)) : Json := Object (foldr (λ e, field_insert e.1 e.2) [] l).

(** A keystore with its two texts, which are read one after the other. *)
Definition export_keystore (name : ustring) (d : Disk) : Disk * option Json :=
  match keystore_files name d with
  | None => (d, None)
  | Some (cp, kp) =>
      let '(d, cert) := read_file KeyDir cp d in
      match cert with
      | None => (d, None)
      | Some cert =>
          let '(d, key) := read_file KeyDir kp d in
          (d, k ← key; Some (fields_of [(lit "name", Text name); (lit "certificate", Text cert); (lit "privateKey", Text k)]))
      end
  end.

Definition export_truststore (name : ustring) (d : Disk) : Disk * option Json :=
  match truststore_file name d with
  | None => (d, None)
  | Some p =>
      let '(d, bundle) := read_file TrustDir p d in
      (d, b ← bundle; Some (fields_of [(lit "name", Text name); (lit "certificates", Text b)]))
  end.

Definition export_ca (d : Disk) : Disk * Json :=
  let '(d, cert) := read_file CaDir CA_CRT d in
  let '(d, key) := read_file CaDir CA_KEY d in
  (d, match cert, key with
      | Some c, Some k => fields_of [(lit "certificate", Text c); (lit "privateKey", Text k)]
      | _, _ => Null
      end).

Definition export_material (d : Disk) : Disk * Json :=
  let '(d, ca) := export_ca d in
  let '(d, metas) := list_keystores inspect_pem d in
  let '(d, ks) := collect export_keystore (map ks_name metas) d in
  let '(d, metas) := list_truststores inspect_all d in
  let '(d, ts) := collect export_truststore (map tm_name metas) d in
  (d, fields_of [(lit "ca", ca); (lit "keystores", Array ks); (lit "truststores", Array ts)]).

(** The import: an error stops it, with what is imported before it. *)
Definition text_field (k : string) (v : Json) : option ustring := get (lit k) v ≫= as_str.
Definition items (k : string) (v : Json) : list Json := default [] (get (lit k) v ≫= as_array).

Definition import_ca (value : Json) (p : PkiState) : PkiState * (unit + StoreError) :=
  match (ca ← get (lit "ca") value; _ ← as_object ca; c ← text_field "certificate" ca; k ← text_field "privateKey" ca; Some (c, k)) with
  | Some (cert, key) =>
      match io (write_file CaDir CA_CRT cert) (pk_disk p) with
      | (d, inl _) =>
          match io (write_file CaDir CA_KEY key) d with
          | (d, inl _) => (mkPkiState d (Some (mkAuthority cert key)), inl tt)
          | (d, inr e) => (mkPkiState d (pk_ca p), inr e)
          end
      | (d, inr e) => (mkPkiState d (pk_ca p), inr e)
      end
  | None => (p, inl tt)
  end.

Fixpoint import_each (import : Json → OnDisk unit) (l : list Json) : OnDisk unit :=
  match l with
  | [] => mret tt
  | v :: l => import v ;; import_each import l
  end.

Definition import_keystore (v : Json) : OnDisk unit :=
  match text_field "name" v, text_field "certificate" v, text_field "privateKey" v with
  | Some name, Some cert, Some key => put_keystore inspect_pem name cert key ;; mret tt
  | _, _, _ => mret tt
  end.
Definition import_truststore (v : Json) : OnDisk unit :=
  match text_field "name" v, text_field "certificates" v with
  | Some name, Some bundle => put_truststore inspect_all name bundle ;; mret tt
  | _, _ => mret tt
  end.

Definition import_material (value : Json) (p : PkiState) : PkiState * (unit + StoreError) :=
  match import_ca value p with
  | (p, inl _) =>
      match (import_each import_keystore (items "keystores" value) ;;
             import_each import_truststore (items "truststores" value)) (pk_disk p) with
      | (d, r) => (mkPkiState d (pk_ca p), r)
      end
  | (p, inr e) => (p, inr e)
  end.

(** ** Rotation *)

Record CertRequest : Type := mkCertRequest {
  cr_common_name : ustring;
  cr_sans : list ustring;
  cr_ttl_days : Z;
  cr_is_ca : bool;
  cr_server_auth : bool;
  cr_client_auth : bool;
  cr_organization : option ustring;
}.

Record Issued : Type := mkIssued {
  is_certificate : ustring;
  is_private_key : option ustring;
  is_ca_chain : list ustring;
  is_serial : option ustring;
}.

Definition cn_of (subject : ustring) : ustring :=
  default subject (head (omap (λ p, if decide (lit "CN=" `prefix_of` p) then Some (drop 3 p) else None)
                              (map trim (split_on 44 subject)))).

(** The request for a keystore, from what was recorded when it was issued. *)
Definition rotation_request (meta : option Json) (current : KeystoreMeta) : CertRequest :=
  let field (k : ustring) : option Json := m ← meta; get k m in
  mkCertRequest
    (default (cn_of (ci_subject (ks_info current))) (field (lit "commonName") ≫= as_str))
    (match field (lit "sans") ≫= as_array with Some l => omap as_str l | None => ci_sans (ks_info current) end)
    (match field (lit "ttlDays") with
     | Some (Number n) => if (0 <=? n) && (n <? 2 ^ 64) then n mod 2 ^ 32 else 365
     | _ => 365
     end)
    false true true None.

Definition rotation_backend (meta : option Json) : ustring :=
  default (lit "local") (m ← meta; b ← get (lit "backend") m; as_str b).

(** The keystores whose certificate ends before a horizon; [end_of] parses dates. *)
Definition expiring_keystores (end_of : ustring → option Z) (now days : Z) (d : Disk) : Disk * list ustring :=
  let horizon := i64 (now + i64 (days * 86400000)) in
  let '(d, metas) := list_keystores inspect_pem d in
  (d, map ks_name (filter (λ m, match end_of (ci_not_after (ks_info m)) with Some ms => ms <=? horizon | None => false end = true) metas)).
End Material.
