(* ===== verification/Monitor.v ===== *)
(** * What the node shows of its transfers ([crates/pesit-node/src/api.rs], [cluster.rs], [metrics.rs], [audit.rs])

    The lists of transfers and their statistics, the cancellation of a transfer,
    the transfers of all the members of a cluster, and the metrics as a text. The
    lists work on the records of the server; the metrics and the lists of a
    cluster on the JSON documents that the store holds. *)

From Stdlib Require Import String.
From Stdlib Require Import Sorting.Sorted.
From stdpp Require Import sorting.
From S2P Require Import Prelude Diag Ebcdic Params Link DocStore ClientModel ClientEngine ClientApi NodeModel NodeHandler Schedule ScheduleProps Replicas ReplicasProps EventLog.
Open Scope Z_scope.

(** ** The transfers of the server

    The store and the registry of cancellations, which the handlers share. *)
Record Desk : Type := mkDesk { dk_store : Store; dk_cancels : CancelRegistry }.

Abbreviation DeskM := (ApiM Desk).

Definition consulted {A} (op : Store → Store * option A) : DeskM A := λ d,
  match op (dk_store d) with
  | (s, Some a) => (mkDesk s (dk_cancels d), inl a)
  | (s, None) => (mkDesk s (dk_cancels d), inr (mkApiError Internal None))
  end.

(** The names in the documents, and the one of an error. *)
Definition status_text (s : TransferStatus.TransferStatus) : ustring :=
  match s with
  | TransferStatus.Initiated => lit "INITIATED"
  | TransferStatus.InProgress => lit "IN_PROGRESS"
  | TransferStatus.Paused => lit "PAUSED"
  | TransferStatus.Interrupted => lit "INTERRUPTED"
  | TransferStatus.Completed => lit "COMPLETED"
  | TransferStatus.Failed => lit "FAILED"
  | TransferStatus.Cancelled => lit "CANCELLED"
  end.
Definition status_shown (s : TransferStatus.TransferStatus) : ustring :=
  match s with
  | TransferStatus.Initiated => lit "Initiated"
  | TransferStatus.InProgress => lit "InProgress"
  | TransferStatus.Paused => lit "Paused"
  | TransferStatus.Interrupted => lit "Interrupted"
  | TransferStatus.Completed => lit "Completed"
  | TransferStatus.Failed => lit "Failed"
  | TransferStatus.Cancelled => lit "Cancelled"
  end.
Definition direction_text (d : TransferDirection.TransferDirection) : ustring :=
  match d with
  | TransferDirection.Send => lit "SEND"
  | TransferDirection.Receive => lit "RECEIVE"
  | TransferDirection.Message => lit "MESSAGE"
  end.

Record TransferQuery : Type := mkTransferQuery {
  qy_limit : option nat;
  qy_direction : option ustring;
  qy_status : option ustring;
  qy_partner_id : option ustring;
  qy_server_id : option ustring;
}.
Definition query_default : TransferQuery := mkTransferQuery None None None None None.

Definition is_none_or {A} (f : A → bool) (o : option A) : bool := match o with Some a => f a | None => true end.

Definition selected (q : TransferQuery) (r : TransferRecord) : bool :=
  is_none_or (λ d, bool_decide (direction_text <$> r_direction r = Some (uppercase d))) (qy_direction q)
  && is_none_or (λ s, bool_decide (status_text (r_status r) = uppercase s)) (qy_status q)
  && is_none_or (λ p, bool_decide (r_partner_id r = Some p)) (qy_partner_id q)
  && is_none_or (λ s, bool_decide (r_server_id r = Some s)) (qy_server_id q).

Definition filter_transfers (records : list TransferRecord) (q : TransferQuery) : list TransferRecord :=
  take (default 100%nat (qy_limit q)) (filter (λ r, selected q r = true) records).

Definition recent_records : DeskM (list TransferRecord) :=
  consulted (statement (λ s, (s, table_list_recent RECENT (transfers s)))).
Definition record_of (id : ustring) : DeskM (option TransferRecord) :=
  consulted (statement (λ s, (s, table_get id (transfers s)))).
Definition no_transfer {A} (id : ustring) : DeskM A := reject NotFound_ (lit "transfer '" ++ id ++ lit "' not found").

Definition list_transfers (q : TransferQuery) : DeskM (list TransferRecord) :=
  records ← recent_records; mret (filter_transfers records q).

Definition is_active (r : TransferRecord) : bool :=
  match r_status r with
  | TransferStatus.Initiated | TransferStatus.InProgress | TransferStatus.Paused => true
  | _ => false
  end.
Definition active_transfers : DeskM (list TransferRecord) :=
  records ← recent_records; mret (filter (λ r, is_active r = true) records).

Definition transfers_by_partner (partner_id : ustring) : DeskM (list TransferRecord) :=
  records ← recent_records; mret (filter_transfers records (mkTransferQuery None None None (Some partner_id) None)).
Definition transfers_by_status (status : ustring) : DeskM (list TransferRecord) :=
  records ← recent_records; mret (filter_transfers records (mkTransferQuery None None (Some status) None None)).

Definition get_transfer (id : ustring) : DeskM TransferRecord :=
  found ← record_of id;
  match found with Some r => mret r | None => no_transfer id end.

(** [listening]: whether the data phase of the transfer holds the other end. *)
Definition cancel_transfer (listening : bool) (id : ustring) : DeskM unit :=
  found ← record_of id;
  match found with
  | None => no_transfer id
  | Some r =>
      requested ← (λ d, let '(c, b) := NodeHandler.cancel listening id (dk_cancels d) in (mkDesk (dk_store d) c, inl b));
      check requested Conflict
        (lit "transfer '" ++ id ++ lit "' is not in progress (status " ++ status_shown (r_status r) ++ lit ")")
  end.

Record TransferStats : Type := mkTransferStats {
  ts_total : nat;
  ts_completed : nat;
  ts_failed : nat;
  ts_in_progress : nat;
  ts_interrupted : nat;
  ts_cancelled : nat;
  ts_bytes_transferred : Z;
}.

(** Sums of bytes are machine integers. *)
Definition sum_u64 (l : list Z) : Z := foldl (λ a n, (a + n) mod 2 ^ 64) 0 l.

Definition count_status (records : list TransferRecord) (s : TransferStatus.TransferStatus) : nat :=
  length (filter (λ r, r_status r = s) records).
Definition stats_of (records : list TransferRecord) : TransferStats :=
  mkTransferStats (length records)
    (count_status records TransferStatus.Completed) (count_status records TransferStatus.Failed)
    (count_status records TransferStatus.InProgress + count_status records TransferStatus.Initiated)
    (count_status records TransferStatus.Interrupted) (count_status records TransferStatus.Cancelled)
    (sum_u64 (map r_bytes_transferred (filter (λ r, r_status r = TransferStatus.Completed) records))).
Definition transfer_stats : DeskM TransferStats :=
  records ← consulted (statement (λ s, (s, table_list (transfers s)))); mret (stats_of records).

(** ** The transfers of a cluster *)

Definition TRANSFERS : ustring := lit "transfers".
Definition OUTBOUND_TABLE : ustring := lit "outbound_transfers".

Definition doc_list_recent (t : ustring) (limit : nat) : Q (list Json) := query t (λ rows, (rows, table_list_recent limit rows)).

(** A statement whose error is an empty list. *)
Definition listed (x : Q (list Json)) (s : Db (Table (Table Json))) : Db (Table (Table Json)) * list Json :=
  let '(s, l) := x s in (s, default [] l).

Definition mark (fields : list (ustring * Json)) (v : Json) : Json :=
  match v with
  | Object m => Object (foldl (λ m e, field_insert e.1 e.2 m) m fields)
  | _ => v
  end.

Definition WAY : ustring := lit "way".
Definition local_transfers (limit : nat) (s : Db (Table (Table Json))) : Db (Table (Table Json)) * list Json :=
  let '(s, l) := listed (doc_list_recent TRANSFERS limit) s in
  (s, map (mark [(WAY, Text (lit "IN"))]) l).

Record MemberInfo : Type := mkMemberInfo {
  mb_node_id : ustring;
  mb_addr : ustring;
  mb_version : ustring;
  mb_last_seen : ustring;
}.

(** [sort_by_key] with the order reversed, which keeps equal keys in their order. *)
Fixpoint insert_latest (v : Json) (l : list Json) : list Json :=
  match l with
  | [] => [v]
  | w :: l' => if string_le (started_at w) (started_at v) then v :: l else w :: insert_latest v l'
  end.
Definition latest_first (l : list Json) : list Json := foldr insert_latest [] l.

Section Members.
(** What a member answers to a request, with its key: nothing when there is no
    answer, or none that is a list. *)
Context (send : ustring → option ustring → option (list Json)).

Definition url_of (m : MemberInfo) (path : ustring) (limit : nat) : ustring :=
  lit "http://" ++ mb_addr m ++ path ++ lit "?limit=" ++ decimal (Z.of_nat limit).

Definition PATHS : list (ustring * ustring * bool) :=
  [(lit "/api/v1/transfers", lit "IN", true); (lit "/client/api/v1/transfers", lit "OUT", false)].

Definition answers_of (key : option ustring) (limit : nat) (m : MemberInfo) : list Json :=
  concat (map (λ '(path, way, with_key),
    map (mark [(lit "node", Text (mb_node_id m)); (WAY, Text way)])
        (default [] (send (url_of m path limit) (if with_key : bool then key else None)))) PATHS).

(** [members] is nothing on a node that is in no cluster. *)
Definition cluster_transfers (members : option (list MemberInfo)) (key : option ustring) (limit : option nat)
    (s : Db (Table (Table Json))) : Db (Table (Table Json)) * list Json :=
  let limit := default 100%nat limit in
  match members with
  | None => local_transfers limit s
  | Some members => (s, take limit (latest_first (concat (map (answers_of key limit) members))))
  end.
End Members.

(** ** The metrics *)

Definition status_of (v : Json) : ustring := map to_ascii_lowercase (default (lit "unknown") (get (lit "status") v ≫= as_str)).
Definition as_u64 (v : Json) : option Z := match v with Number n => if (0 <=? n) && (n <? 2 ^ 64) then Some n else None | _ => None end.

Definition completed_bytes (l : list Json) : Z :=
  sum_u64 (omap (λ v, get (lit "bytesTransferred") v ≫= as_u64) (filter (λ v, status_of v = lit "completed") l)).

(** A map in the order of its keys: one more of a key. *)
Fixpoint bump (k : ustring) (m : list (ustring * nat)) : list (ustring * nat) :=
  match m with
  | [] => [(k, 1%nat)]
  | (k', n) :: m' =>
      if decide (k' = k) then (k', S n) :: m'
      else if string_le k k' then (k, 1%nat) :: m
      else (k', n) :: bump k m'
  end.
Definition by_status (l : list Json) : list (ustring * nat) := foldl (λ m v, bump (status_of v) m) [] l.

Definition line (parts : list ustring) : ustring := concat parts ++ [10].
Definition quoted (s : ustring) : ustring := [34] ++ s ++ [34].
Definition shown (n : nat) : ustring := decimal (Z.of_nat n).

Definition gauge (name help : ustring) (val : nat) : ustring :=
  line [lit "# HELP "; name; lit " "; help] ++ line [lit "# TYPE "; name; lit " gauge"] ++ line [name; lit " "; shown val].

Definition transfers_lines (kind : ustring) (l : list Json) : ustring :=
  concat (map (λ '(status, n),
    line [lit "pesitwizard_transfers_total{kind="; quoted kind; lit ",status="; quoted status; lit "} "; shown n]) (by_status l)).
Definition bytes_line (kind : ustring) (l : list Json) : ustring :=
  line [lit "pesitwizard_bytes_transferred_total{kind="; quoted kind; lit "} "; decimal (completed_bytes l)].

(** The listeners of the store that run. *)
Definition listeners_up (is_running : ustring → bool) (servers : list Json) : nat :=
  length (filter (λ v, match get (lit "serverId") v ≫= as_str with Some id => is_running id | None => false end = true) servers).

Definition metrics (version : ustring) (is_running : ustring → bool) (s : Db (Table (Table Json)))
    : Db (Table (Table Json)) * ustring :=
  let '(s, inbound) := listed (doc_list TRANSFERS) s in
  let '(s, outbound) := listed (doc_list OUTBOUND_TABLE) s in
  let '(s, partners) := listed (doc_list PARTNERS) s in
  let '(s, files) := listed (doc_list FILES) s in
  let '(s, servers) := listed (doc_list SERVERS) s in
  let IN := lit "inbound" in
  let OUT := lit "outbound" in
  (s,
    line [lit "# HELP pesitwizard_build_info Build information."]
    ++ line [lit "# TYPE pesitwizard_build_info gauge"]
    ++ line [lit "pesitwizard_build_info{version="; quoted version; lit "} 1"]
    ++ line [lit "# HELP pesitwizard_transfers_total Transfers by kind (inbound = served, outbound = initiated) and status."]
    ++ line [lit "# TYPE pesitwizard_transfers_total counter"]
    ++ transfers_lines IN inbound ++ transfers_lines OUT outbound
    ++ line [lit "# HELP pesitwizard_bytes_transferred_total Bytes transferred by completed transfers, by kind."]
    ++ line [lit "# TYPE pesitwizard_bytes_transferred_total counter"]
    ++ bytes_line IN inbound ++ bytes_line OUT outbound
    ++ gauge (lit "pesitwizard_partners") (lit "Configured partners.") (length partners)
    ++ gauge (lit "pesitwizard_virtual_files") (lit "Configured virtual files.") (length files)
    ++ gauge (lit "pesitwizard_listeners") (lit "Configured listeners.") (length servers)
    ++ gauge (lit "pesitwizard_listeners_up") (lit "Running listeners.") (listeners_up is_running servers)).

(** ** The audit log *)

Definition audit_list (category : option ustring) (limit : option nat) : AuditLog → AuditLog * list AuditEvent :=
  filtered category (default 200%nat limit).

(** ** Properties

    The metrics count what the statistics count, and the list of a cluster is made
    of the latest transfers of its members. *)

(** *** Counters by status *)

Definition before (a b : ustring) : Prop := a ⪯ b ∧ a ≠ b.
Definition ordered (m : list (ustring * nat)) : Prop := StronglySorted before m.*1.

Lemma before_not_le a b : string_le a b = false → before b a.
Proof.
  intros H. destruct (string_le_total a b) as [E|E]; [congruence|]. split; [done|]. intros ->. congruence.
Qed.

Lemma bump_keys k m : (bump k m).*1 ⊆ k :: m.*1.
Proof.
  induction m as [|[k' n] m IH]; cbn [bump]; [set_solver|].
  destruct (decide (k' = k)) as [->|]; [set_solver|]. destruct (string_le k k'); [set_solver|]. cbn. set_solver.
Qed.

Lemma bump_ordered k m : ordered m → ordered (bump k m).
Proof.
  unfold ordered. induction m as [|[k' n] m IH]; intros H; [by repeat constructor|]. cbn [bump].
  apply StronglySorted_inv in H as [H1 H2]. destruct (decide (k' = k)) as [->|Hne]; [by constructor|].
  destruct (string_le k k') eqn:E.
  - constructor; [by constructor|]. constructor; [by split|]. eapply Forall_impl; [exact H2|].
    intros x [Hx Hx']. cbn in *. split; [exact (string_le_trans k k' x E Hx)|]. intros <-. by apply Hne, (anti_symm (λ a b, a ⪯ b)).
  - cbn. constructor; [by apply IH|]. apply Forall_forall. intros x [->|Hx]%bump_keys%elem_of_cons.
    + by apply before_not_le.
    + by eapply Forall_forall in H2.
Qed.

Lemma ordered_absent k k' n m : ordered ((k', n) :: m) → k ⪯ k' → k ≠ k' → table_get k ((k', n) :: m) = None.
Proof.
  intros [_ H2]%StronglySorted_inv Hle Hne. cbn. rewrite decide_False by congruence.
  destruct (table_get k m) as [v|] eqn:E; [|done]. exfalso. apply table_get_in in E.
  apply Hne. apply (anti_symm (λ a b, a ⪯ b)); [done|].
  eapply Forall_forall in H2 as [H2 _]; [exact H2|]. apply list_elem_of_fmap. by exists (k, v).
Qed.

Lemma bump_get k j m :
  ordered m → table_get j (bump k m) = if decide (j = k) then Some (S (default 0%nat (table_get k m))) else table_get j m.
Proof.
  induction m as [|[k' n] m IH]; intros Ho; cbn [bump].
  - destruct (decide (j = k)) as [->|Hj]; cbn; [by rewrite decide_True|by rewrite decide_False by congruence].
  - destruct (decide (k' = k)) as [->|Hne].
    + destruct (decide (j = k)) as [->|Hj]; cbn; [by rewrite !decide_True|by rewrite !decide_False by congruence].
    + destruct (string_le k k') eqn:E.
      * rewrite (ordered_absent k k' n m Ho E) by done.
        destruct (decide (j = k)) as [->|Hj]; cbn; [by rewrite decide_True|by rewrite (decide_False (P := k = j)) by congruence].
      * apply StronglySorted_inv in Ho as [Ho _]. cbn [table_get]. rewrite (IH Ho), (decide_False (P := k' = k)) by done.
        destruct (decide (j = k)) as [->|Hj]; [by rewrite decide_False by done|done].
Qed.

Definition counted (m : list (ustring * nat)) : nat := foldr Nat.add 0%nat m.*2.
Lemma bump_counted k m : counted (bump k m) = S (counted m).
Proof.
  unfold counted. induction m as [|[k' n] m IH]; [done|]. cbn [bump]. destruct (decide (k' = k)); [done|].
  destruct (string_le k k'); [done|]. cbn in *. lia.
Qed.

Lemma by_status_snoc l v : by_status (l ++ [v]) = bump (status_of v) (by_status l).
Proof. unfold by_status. by rewrite foldl_app. Qed.

Lemma by_status_spec l :
  ordered (by_status l) ∧ counted (by_status l) = length l
  ∧ ∀ k, default 0%nat (table_get k (by_status l)) = length (filter (λ v, status_of v = k) l)
         ∧ (table_get k (by_status l) = None ↔ length (filter (λ v, status_of v = k) l) = 0%nat).
Proof.
  induction l as [|v l (Ho & Hc & Hg)] using rev_ind.
  { split; [constructor|]. split; [done|]. by intros k. }
  rewrite by_status_snoc. split; [by apply bump_ordered|]. split; [rewrite bump_counted, length_app; cbn; lia|].
  intros k. rewrite (bump_get _ _ _ Ho), filter_app, length_app. destruct (Hg k) as [H1 H2].
  destruct (decide (k = status_of v)) as [->|Hne].
  - rewrite filter_cons_True, filter_nil by done. cbn. rewrite H1. split; [lia|]. split; [done|lia].
  - rewrite filter_cons_False, filter_nil by congruence. cbn. rewrite Nat.add_0_r. done.
Qed.

(** *** The records and their documents *)

(** How a record is written, as far as the metrics read it. *)
Class Written (to_value : TransferRecord → Json) : Prop := {
  written_status r : get (lit "status") (to_value r) = Some (Text (status_text (r_status r)));
  written_bytes r : get (lit "bytesTransferred") (to_value r) = Some (Number (r_bytes_transferred r));
}.

Definition counter_name (s : TransferStatus.TransferStatus) : ustring := map to_ascii_lowercase (status_text s).

Lemma counter_name_inj s s' : counter_name s = counter_name s' → s = s'.
Proof. destruct s, s'; intros H; (done || (exfalso; revert H; by vm_compute)). Qed.

Lemma count_cons r l s : count_status (r :: l) s = ((if decide (r_status r = s) then 1 else 0) + count_status l s)%nat.
Proof. unfold count_status. destruct (decide (r_status r = s)); [by rewrite filter_cons_True|by rewrite filter_cons_False]. Qed.

Section Written.
Context (to_value : TransferRecord → Json) `{!Written to_value}.

Lemma status_of_written r : status_of (to_value r) = counter_name (r_status r).
Proof. unfold status_of. by rewrite written_status. Qed.

Lemma filter_written s (l : list TransferRecord) :
  filter (λ v, status_of v = counter_name s) (map to_value l) = map to_value (filter (λ r, r_status r = s) l).
Proof.
  induction l as [|r l IH]; [done|]. cbn [map]. destruct (decide (r_status r = s)) as [E|E].
  - rewrite filter_cons_True by (by rewrite status_of_written, E). rewrite filter_cons_True by done. cbn. by rewrite IH.
  - rewrite filter_cons_False by (rewrite status_of_written; by intros ?%counter_name_inj).
    by rewrite filter_cons_False by done.
Qed.

Lemma bytes_written (l : list TransferRecord) :
  Forall (λ r, 0 ≤ r_bytes_transferred r < 2 ^ 64) l →
  omap (λ v, get (lit "bytesTransferred") v ≫= as_u64) (map to_value l) = map r_bytes_transferred l.
Proof.
  induction 1 as [|r l [H1 H2] Hl IH]; [done|]. cbn [map omap list_omap]. rewrite written_bytes. cbn [mbind option_bind as_u64].
  rewrite (proj2 (Z.leb_le _ _) H1), (proj2 (Z.ltb_lt _ _) H2). cbn. by f_equal.
Qed.

(** The metrics and the statistics are computed from the same table in two ways,
    one from the documents and one from the records. They agree: for each status
    the counter of the metrics is the number of its records (and absent when
    there is none), the counters add up to the total, and so do the numbers of
    the statistics with that of the paused transfers, which they leave out; the
    bytes are the same. *)
Theorem metrics_agree records :
  Forall (λ r, 0 ≤ r_bytes_transferred r < 2 ^ 64) records →
  let counters := by_status (map to_value records) in
  let stats := stats_of records in
  (∀ s, default 0%nat (table_get (counter_name s) counters) = count_status records s
        ∧ (table_get (counter_name s) counters = None ↔ count_status records s = 0%nat))
  ∧ ordered counters ∧ counted counters = ts_total stats
  ∧ (ts_total stats = ts_completed stats + ts_failed stats + ts_in_progress stats + ts_interrupted stats
                      + ts_cancelled stats + count_status records TransferStatus.Paused)%nat
  ∧ completed_bytes (map to_value records) = ts_bytes_transferred stats.
Proof.
  intros Hb counters stats. destruct (by_status_spec (map to_value records)) as (Ho & Hc & Hg).
  split; [|split; [done|split; [by unfold counters; rewrite Hc, length_map|split]]].
  - intros s. unfold count_status. rewrite <- (length_map to_value), <- filter_written. apply Hg.
  - cbn. clear. induction records as [|r l IH]; [done|]. cbn [length]. rewrite IH, !count_cons.
    destruct (r_status r) eqn:Er; repeat case_decide; (lia || congruence).
  - unfold completed_bytes. change (lit "completed") with (counter_name TransferStatus.Completed).
    rewrite filter_written, bytes_written; [done|]. apply Forall_forall. intros r [_ Hr]%list_elem_of_filter.
    by eapply Forall_forall in Hb.
Qed.
End Written.

(** *** The transfers of a cluster *)

Definition later (v w : Json) : Prop := started_at w ⪯ started_at v.

Lemma insert_latest_perm v l : insert_latest v l ≡ₚ v :: l.
Proof. induction l as [|w l IH]; [done|]. cbn. destruct (string_le _ _); [done|]. rewrite IH. by constructor. Qed.
Lemma latest_first_perm l : latest_first l ≡ₚ l.
Proof. induction l as [|v l IH]; [done|]. cbn. rewrite insert_latest_perm. by constructor. Qed.

Lemma insert_latest_sorted v l : StronglySorted later l → StronglySorted later (insert_latest v l).
Proof.
  induction 1 as [|w l Hl IH Hw]; cbn; [by repeat constructor|].
  destruct (string_le (started_at w) (started_at v)) eqn:E.
  - constructor; [by constructor|]. constructor; [done|]. eapply Forall_impl; [exact Hw|].
    intros x Hx. exact (string_le_trans _ _ _ Hx E).
  - constructor; [done|]. rewrite insert_latest_perm. constructor; [|done]. by apply before_not_le in E as [E _].
Qed.
Lemma latest_first_sorted l : StronglySorted later (latest_first l).
Proof. induction l as [|v l IH]; [constructor|]. by apply insert_latest_sorted. Qed.

(** A field of what is marked. *)
Lemma mark_get fields m k x :
  NoDup fields.*1 → (k, x) ∈ fields → get k (mark fields (Object m)) = Some x.
Proof.
  cbn. unfold get. cbn [mbind option_bind as_object]. induction fields as [|[k' x'] fields IH] in m |- *; cbn; [by intros _ ?%not_elem_of_nil|].
  intros [Hn Hd]%NoDup_cons [[= -> ->]|Hin]%elem_of_cons; [|by apply IH].
  assert (∀ m', table_get k' (foldl (λ m e, field_insert e.1 e.2 m) m' fields) = table_get k' m') as ->.
  { clear -Hn. induction fields as [|[k2 x2] fields IH]; intros m'; [done|]. cbn in *.
    apply not_elem_of_cons in Hn as [H1 H2]. rewrite (IH H2), field_insert_get. by rewrite decide_False. }
  rewrite field_insert_get. by rewrite decide_True.
Qed.

Lemma answers_marked send key limit mb m :
  Object m ∈ answers_of send key limit mb →
  get (lit "node") (Object m) = Some (Text (mb_node_id mb))
  ∧ ∃ way, get WAY (Object m) = Some (Text way) ∧ way ∈ [lit "IN"; lit "OUT"].
Proof.
  assert (H : ∀ way l, Object m ∈ map (mark [(lit "node", Text (mb_node_id mb)); (WAY, Text way)]) l →
    get (lit "node") (Object m) = Some (Text (mb_node_id mb)) ∧ get WAY (Object m) = Some (Text way)).
  { intros way l (v & E & _)%list_elem_of_fmap. destruct v; try done. rewrite E.
    assert (NoDup [lit "node"; WAY]) by (apply (bool_decide_unpack _); by vm_compute).
    split; apply mark_get; set_solver. }
  unfold answers_of, PATHS. cbn [map concat]. rewrite app_nil_r, elem_of_app.
  intros [[H1 H2]%H|[H1 H2]%H]; (split; [done|]); eexists; (split; [done|]); set_solver.
Qed.

(** What a cluster shows, from what its members answer: at most as many transfers
    as asked, the latest first, and none that is left out is later than one that
    is shown; each one that is an object says which member it is from and whether
    it was served or initiated there. *)
Theorem cluster_shows_latest send members key limit s :
  let all := concat (map (answers_of send key (default 100%nat limit)) members) in
  let '(s', out) := cluster_transfers send (Some members) key limit s in
  s' = s ∧ StronglySorted later out ∧ length out = (default 100 limit `min` length all)%nat
  ∧ (∃ rest, all ≡ₚ out ++ rest ∧ ∀ v w, v ∈ out → w ∈ rest → later v w)
  ∧ ∀ m, Object m ∈ out → ∃ mb way, mb ∈ members ∧ get (lit "node") (Object m) = Some (Text (mb_node_id mb))
       ∧ get WAY (Object m) = Some (Text way) ∧ way ∈ [lit "IN"; lit "OUT"].
Proof.
  intros all. cbn [cluster_transfers]. fold all. set (n := default 100%nat limit).
  assert (Hs := latest_first_sorted all). assert (Hp := latest_first_perm all).
  assert (Happ : StronglySorted later (take n (latest_first all) ++ drop n (latest_first all))) by (by rewrite take_drop).
  split; [done|]. split; [by apply StronglySorted_app_1_l in Happ|].
  split; [by rewrite length_take, Hp|]. split.
  - exists (drop n (latest_first all)). split; [by rewrite take_drop|]. intros v w Hv Hw.
    by eapply StronglySorted_app_1_elem_of.
  - intros m Hm. assert (Ha : Object m ∈ all) by (rewrite <- Hp, <- (take_drop n (latest_first all)); set_solver).
    apply list_elem_of_In, in_concat in Ha as (l & (mb & <- & Hmb)%in_map_iff & Hl%list_elem_of_In).
    apply answers_marked in Hl as (H1 & way & H2 & H3). exists mb, way. by rewrite list_elem_of_In.
Qed.
