(* ===== verification/Issuing.v ===== *)
(** * The issue of certificates ([crates/pesit-pki/src/provider.rs], [ca.rs], [vault.rs])

    The names of a request, the parameters of the certificates that the local
    authority signs, and the client of Vault with its token. The signature itself,
    the HTTP client and the parser of JSON are those of libraries. *)

From Stdlib Require Import String.
From S2P Require Import Prelude Diag Ebcdic Params Link DocStore NodeModel Replicas Connectors Certs.
Open Scope Z_scope.

(** ** Addresses

    [IpAddr::from_str] of the standard library: a parser gives what it read and
    the rest. *)
Definition Parser (A : Type) : Type := ustring → option (A * ustring).

Definition to_digit (radix c : Z) : option Z :=
  let d := if (48 <=? c) && (c <=? 57) then Some (c - 48)
           else if (97 <=? c) && (c <=? 122) then Some (c - 87)
           else if (65 <=? c) && (c <=? 90) then Some (c - 55) else None in
  match d with Some d => if d <? radix then Some d else None | None => None end.

(** The digits of a number, at most [fuel] of them; one more is an error. *)
Fixpoint read_digits (radix limit : Z) (fuel : nat) (acc : Z) (any : bool) (s : ustring) : option (Z * ustring) :=
  match s with
  | c :: s' =>
      match to_digit radix c with
      | Some d =>
          match fuel with
          | O => None
          | S fuel => if limit <? acc * radix + d then None else read_digits radix limit fuel (acc * radix + d) true s'
          end
      | None => if any then Some (acc, s) else None
      end
  | [] => if any then Some (acc, []) else None
  end.

Definition read_number (radix limit : Z) (max_digits : nat) (allow_zero_prefix : bool) : Parser Z := λ s,
  match read_digits radix limit max_digits 0 false s with
  | Some (n, rest) =>
      if negb allow_zero_prefix && bool_decide (head s = Some 48) && (1 <? length s - length rest)%nat then None
      else Some (n, rest)
  | None => None
  end.

Definition read_char (c : Z) (s : ustring) : option ustring :=
  match s with x :: s' => if x =? c then Some s' else None | [] => None end.

Definition read_separator {A} (sep : Z) (index : nat) (inner : Parser A) : Parser A := λ s,
  match index with
  | O => inner s
  | S _ => rest ← read_char sep s; inner rest
  end.

Definition DOT : Z := 46.
Definition COLON : Z := 58.

Fixpoint read_octets (n index : nat) : Parser (list Z) := λ s,
  match n with
  | O => Some ([], s)
  | S n =>
      '(d, s) ← read_separator DOT index (read_number 10 255 3 false) s;
      '(l, s) ← read_octets n (S index) s;
      Some (d :: l, s)
  end.
Definition read_ipv4_addr : Parser (list Z) := read_octets 4 0.

(** [read_groups]: groups up to a limit, with the number of them and whether the
    last two are an address of version 4. *)
Fixpoint read_groups (room index : nat) (s : ustring) : nat * bool * ustring :=
  match room with
  | O => (index, false, s)
  | S room =>
      match (if (0 <? room)%nat then read_separator COLON index read_ipv4_addr s else None) with
      | Some (_, s) => (index + 2, true, s)%nat
      | None =>
          match read_separator COLON index (read_number 16 65535 4 true) s with
          | Some (_, s) => read_groups room (S index) s
          | None => (index, false, s)
          end
      end
  end.

(** What is left of the text after an address of version 6. *)
Definition read_ipv6_addr (s : ustring) : option ustring :=
  let '(head_size, head_ipv4, s) := read_groups 8 0 s in
  if (head_size =? 8)%nat then Some s
  else if head_ipv4 then None
  else
    s ← read_char COLON s;
    s ← read_char COLON s;
    Some (read_groups (8 - (head_size + 1)) 0 s).2.

Definition is_ip_addr (s : ustring) : bool :=
  match read_ipv4_addr s with
  | Some (_, rest) => is_empty rest
  | None => match read_ipv6_addr s with Some rest => is_empty rest | None => false end
  end.

(** ** The names of a request *)

Definition DNS : ustring := lit "DNS:".
Definition IP : ustring := lit "IP:".

Definition strip (prefix s : ustring) : option ustring :=
  if decide (prefix `prefix_of` s) then Some (drop (length prefix) s) else None.

Definition dns_name (san : ustring) : option ustring :=
  let s := trim san in
  match strip DNS s with
  | Some d => Some d
  | None => if bool_decide (IP `prefix_of` s) || is_ip_addr s then None else Some s
  end.
Definition ip_name (san : ustring) : option ustring :=
  let s := default (trim san) (strip IP (trim san)) in
  if is_ip_addr s then Some s else None.

Definition same_name (a b : ustring) : bool := bool_decide (map to_ascii_lowercase a = map to_ascii_lowercase b).

Definition dns_names (r : CertRequest) : list ustring :=
  let v := omap dns_name (cr_sans r) in
  if existsb (λ d, same_name d (cr_common_name r)) v then v else cr_common_name r :: v.
Definition ip_names (r : CertRequest) : list ustring := omap ip_name (cr_sans r).

(** ** The local authority *)

Inductive KeyUsage : Type := KeyCertSign | CrlSign | DigitalSignature | KeyEncipherment.
Inductive ExtendedUsage : Type := ServerAuth | ClientAuth.
Inductive IsCa : Type := ExplicitNoCa | Unconstrained | Constrained (path : Z).

(** What a certificate is signed with. Moments are seconds. *)
Record CertificateParams : Type := mkCertificateParams {
  pm_names : list ustring;
  pm_ips : list ustring;
  pm_common_name : ustring;
  pm_organization : option ustring;
  pm_is_ca : IsCa;
  pm_key_usages : list KeyUsage;
  pm_extended : list ExtendedUsage;
  pm_not_before : Z;
  pm_not_after : Z;
}.

Record CrlParams : Type := mkCrlParams {
  rl_this_update : Z;
  rl_next_update : Z;
  rl_number : Z;
  rl_revoked : list (list Z * Z);
}.

Definition CA_USAGES : list KeyUsage := [KeyCertSign; CrlSign; DigitalSignature].

Definition ca_params (common_name : ustring) (organization : option ustring) (now after : Z) : CertificateParams :=
  mkCertificateParams [] [] common_name organization Unconstrained CA_USAGES [] (now - 3600) after.

Definition leaf_params (r : CertRequest) (now after : Z) : CertificateParams :=
  let build is_ca usages extended :=
    mkCertificateParams (dns_names r) (ip_names r) (cr_common_name r) (cr_organization r) is_ca usages extended (now - 3600) after in
  if cr_is_ca r then build (Constrained 0) CA_USAGES []
  else build ExplicitNoCa [DigitalSignature; KeyEncipherment]
         ((if cr_server_auth r then [ServerAuth] else []) ++ (if cr_client_auth r then [ClientAuth] else [])).

(** What the library does: [days] is a moment some days after another, with a
    panic outside of its calendar; [valid_time] a moment of the calendar;
    [prepare] makes a key and takes the names. *)
Record Signing : Type := mkSigning {
  sg_days : Z → Z → option Z;
  sg_valid_time : Z → bool;
  sg_prepare : list ustring → unit + ustring;
  sg_self_signed : CertificateParams → Authority + ustring;
  sg_loads : Authority → unit + ustring;
  sg_signed : Authority → CertificateParams → (ustring * ustring) + ustring;
  sg_crl : Authority → CrlParams → ustring + ustring;
}.

Section Authority.
Context (lib : Signing) (now : Z).

Definition days_later (d : Z) : outcome ustring Z := match sg_days lib now d with Some t => Ok t | None => Panic end.
Definition of_library {A} (r : A + ustring) : outcome ustring A := match r with inl a => Ok a | inr e => Err e end.

Definition generate (common_name : ustring) (organization : option ustring) (ttl_days : Z) : outcome ustring Authority :=
  of_library (sg_prepare lib []) ;;
  after ← days_later ttl_days;
  of_library (sg_self_signed lib (ca_params common_name organization now after)).

Definition issue_local (ca : Authority) (r : CertRequest) : outcome ustring Issued :=
  of_library (sg_loads lib ca) ;;
  of_library (sg_prepare lib (dns_names r)) ;;
  after ← days_later (cr_ttl_days r);
  '(cert, key) ← of_library (sg_signed lib ca (leaf_params r now after));
  mret (mkIssued cert (Some key) [ca_cert ca] None).

Definition sign_crl (ca : Authority) (revoked : list (list Z * Z)) (crl_number valid_days : Z) : outcome ustring ustring :=
  of_library (sg_loads lib ca) ;;
  next ← days_later (Z.max valid_days 1);
  of_library (sg_crl lib ca
    (mkCrlParams now next crl_number (map (λ e, (e.1, if sg_valid_time lib e.2 then e.2 else now)) revoked))).
End Authority.

(** ** Vault *)

Inductive VaultAuth : Type :=
  | Token (token : ustring)
  | AppRole (role_id secret_id : ustring) (mount : option ustring).

Record VaultConfig : Type := mkVaultConfig {
  vc_address : ustring;
  vc_mount : option ustring;
  vc_role : ustring;
  vc_auth : VaultAuth;
  vc_namespace : option ustring;
  vc_ca_pem : option ustring;
  vc_insecure : bool;
}.

Definition pki_mount (c : VaultConfig) : ustring := default (lit "pki") (vc_mount c).

Inductive Method : Type := Get | Post.

Record Request : Type := mkRequest {
  hq_method : Method;
  hq_url : ustring;
  hq_token : option ustring;
  hq_namespace : option ustring;
  hq_body : option Json;
}.

(** An answer has a status and a text, which may fail to arrive. *)
Definition Response : Type := Z * (ustring + ustring).

(** [str::lines] and [split_pem]. *)
Definition chomp (l : ustring) : ustring := match rev l with 13 :: r => rev r | _ => l end.
Definition lines_of (s : ustring) : list ustring :=
  let l := split_on 10 s in
  map chomp (match rev l with [] :: r => rev r | _ => l end).

Definition BEGIN_CERT : ustring := lit "BEGIN CERTIFICATE".
Definition END_CERT : ustring := lit "END CERTIFICATE".

Fixpoint split_lines (ls : list ustring) (cur : ustring) (out : list ustring) : list ustring :=
  match ls with
  | [] => out
  | line :: ls =>
      let cur := if contains_text BEGIN_CERT line then [] else cur in
      let cur := if negb (is_empty cur) || contains_text BEGIN_CERT line then cur ++ line ++ [10] else cur in
      if contains_text END_CERT line then split_lines ls [] (out ++ [cur]) else split_lines ls cur out
  end.
Definition split_pem (bundle : ustring) : list ustring := split_lines (lines_of bundle) [] [].

Fixpoint join (sep : ustring) (l : list ustring) : ustring :=
  match l with
  | [] => []
  | [s] => s
  | s :: l => s ++ sep ++ join sep l
  end.

Section Vault.
(** The server and the network; the texts of the libraries. *)
Context {W : Type} (send : W → Request → W * (Response + ustring))
  (parse : ustring → Json + ustring) (status_text : Z → ustring) (cfg : VaultConfig).

(** A call of the client: the world and the token that is kept. *)
Definition OnVault (A : Type) : Type := W → option ustring → W * option ustring * (A + ustring).

#[local] Instance OnVault_ret : MRet OnVault := λ _ a w t, (w, t, inl a).
#[local] Instance OnVault_bind : MBind OnVault := λ _ _ f x w t,
  match x w t with
  | (w, t, inl a) => f a w t
  | (w, t, inr e) => (w, t, inr e)
  end.

Definition failed {A} (e : ustring) : OnVault A := λ w t, (w, t, inr e).
Definition kept : OnVault (option ustring) := λ w t, (w, t, inl t).
Definition keep (token : ustring) : OnVault unit := λ w _, (w, Some token, inl tt).
Definition lifted {A} (r : A + ustring) : OnVault A := λ w t, (w, t, r).

Definition vault_url (path : ustring) : ustring :=
  trim_end_matches SLASH (vc_address cfg) ++ lit "/v1/" ++ trim_start_matches SLASH path.

Definition requested (method : Method) (path : ustring) (token : option ustring) (body : option Json) : OnVault Response :=
  λ w t, let '(w, r) := send w (mkRequest method (vault_url path) token (vc_namespace cfg) body) in (w, t, r).

Definition is_success (status : Z) : bool := (200 <=? status) && (status <? 300).

(** The errors that the server lists, or its text. *)
Definition error_of (text : ustring) : ustring :=
  match (v ← match parse text with inl v => Some v | inr _ => None end; e ← get (lit "errors") v; as_array e) with
  | Some l => let msg := join (lit "; ") (omap as_str l) in if is_empty msg then text else msg
  | None => text
  end.

Definition json (r : Response) : OnVault Json :=
  let '(status, text) := r in
  text ← lifted text;
  if is_success status then lifted (parse text)
  else failed (lit "HTTP " ++ status_text status ++ lit ": " ++ error_of text).

Definition object (l : list (ustring * Json)) : Json := Object (foldr (λ e, field_insert e.1 e.2) [] l).

Definition token : OnVault ustring :=
  match vc_auth cfg with
  | Token token => mret token
  | AppRole role_id secret_id mount =>
      cached ← kept;
      match cached with
      | Some t => mret t
      | None =>
          resp ← requested Post (lit "auth/" ++ default (lit "approle") mount ++ lit "/login") None
                   (Some (object [(lit "role_id", Text role_id); (lit "secret_id", Text secret_id)]));
          value ← json resp;
          match (a ← get (lit "auth") value; t ← get (lit "client_token") a; as_str t) with
          | Some t => keep t ;; mret t
          | None => failed (lit "AppRole login returned no token")
          end
      end
  end.

Definition issue_body (r : CertRequest) : Json :=
  object [(lit "common_name", Text (cr_common_name r));
          (lit "alt_names", Text (join (lit ",") (dns_names r)));
          (lit "ip_sans", Text (join (lit ",") (ip_names r)));
          (lit "ttl", Text (decimal (cr_ttl_days r * 24) ++ lit "h"))].

(** The fields of an answer; [parse_issued] is the derived reader of the structure. *)
Record IssueData : Type := mkIssueData {
  id_certificate : ustring;
  id_issuing_ca : option ustring;
  id_ca_chain : list ustring;
  id_private_key : option ustring;
  id_serial_number : option ustring;
}.

Definition issued_of (d : IssueData) : Issued :=
  mkIssued (id_certificate d) (id_private_key d)
    (match id_ca_chain d with [] => match id_issuing_ca d with Some ca => [ca] | None => [] end | chain => chain end)
    (id_serial_number d).

Definition issue_vault (parse_issued : Json → IssueData + ustring) (r : CertRequest) : OnVault Issued :=
  t ← token;
  resp ← requested Post (pki_mount cfg ++ lit "/issue/" ++ vc_role cfg) (Some t) (Some (issue_body r));
  value ← json resp;
  data ← lifted (parse_issued value);
  mret (issued_of data).

Definition ca_chain : OnVault (list ustring) :=
  '(status, text) ← requested Get (pki_mount cfg ++ lit "/ca_chain") None None;
  text ← lifted text;
  if negb (is_success status) || is_empty (trim text) then
    '(_, text) ← requested Get (pki_mount cfg ++ lit "/ca/pem") None None;
    text ← lifted text;
    mret (split_pem text)
  else mret (split_pem text).

Definition health : OnVault ustring :=
  resp ← requested Get (lit "sys/health") None None;
  value ← json resp;
  mret (default (lit "unknown") (get (lit "version") value ≫= as_str)).
End Vault.

(** ** Properties

    Where the names of a request go, the certificates of a bundle, and the token
    that the client of Vault keeps. *)

(** *** Names *)

Lemma dns_prefix_no_ip x : is_ip_addr (DNS ++ x) = false.
Proof. reflexivity. Qed.

Lemma strip_some p s d : strip p s = Some d → s = p ++ d.
Proof.
  unfold strip. case_decide as H; [|done]. intros [= <-]. destruct H as [k ->]. by rewrite drop_app_length.
Qed.
Lemma strip_none p s : strip p s = None ↔ ¬ p `prefix_of` s.
Proof. unfold strip. by case_decide. Qed.

Lemma dns_not_ip_prefix s : DNS `prefix_of` s → ¬ IP `prefix_of` s.
Proof. intros [k ->] [k' H]. discriminate H. Qed.

(** What becomes of an alternative name: it is a host or an address, never both,
    and it is dropped when it announces an address and is none. *)
Lemma san_cases s :
  match dns_name s, ip_name s with
  | Some _, Some _ => False
  | None, None => ∃ x, trim s = IP ++ x ∧ is_ip_addr x = false
  | _, Some x => is_ip_addr x = true
  | Some d, None => d = trim s ∨ trim s = DNS ++ d
  end.
Proof.
  unfold dns_name, ip_name. destruct (strip DNS (trim s)) as [d|] eqn:E.
  - apply strip_some in E. assert (Hp : DNS `prefix_of` trim s) by (rewrite E; by exists d).
    rewrite (proj2 (strip_none IP _) (dns_not_ip_prefix _ Hp)). cbn [default]. rewrite E, dns_prefix_no_ip. by right.
  - destruct (strip IP (trim s)) as [x|] eqn:Ei; cbn [default].
    + apply strip_some in Ei. rewrite bool_decide_eq_true_2 by (rewrite Ei; by exists x). cbn.
      destruct (is_ip_addr x) eqn:Ex; [done|by exists x].
    + rewrite bool_decide_eq_false_2 by (by apply strip_none). cbn.
      destruct (is_ip_addr (trim s)) eqn:Ex; [done|by left].
Qed.

(** The names of a certificate: the common name is one of them, in some case; each
    of the addresses is an address; and each alternative name that is asked for is
    found as a host or as an address, unless it announces an address and is none. *)
Theorem names_of_request r :
  (∃ d, d ∈ dns_names r ∧ same_name d (cr_common_name r) = true)
  ∧ Forall (λ x, is_ip_addr x = true) (ip_names r)
  ∧ ∀ s, s ∈ cr_sans r →
      (∃ d, d ∈ dns_names r ∧ (d = trim s ∨ trim s = DNS ++ d))
      ∨ (∃ x, x ∈ ip_names r ∧ (x = trim s ∨ trim s = IP ++ x))
      ∨ (∃ x, trim s = IP ++ x ∧ is_ip_addr x = false).
Proof.
  split_and!.
  - unfold dns_names. destruct (existsb _ _) eqn:E.
    + apply existsb_exists in E as (d & Hd%list_elem_of_In & H). by exists d.
    + exists (cr_common_name r). split; [set_solver|]. by apply bool_decide_eq_true.
  - apply Forall_forall. intros x (s & _ & Hs)%list_elem_of_omap. unfold ip_name in Hs.
    destruct (is_ip_addr _) eqn:E in Hs; [congruence|done].
  - intros s Hs. assert (H := san_cases s). destruct (dns_name s) as [d|] eqn:Ed; destruct (ip_name s) as [x|] eqn:Ex; [done| | |].
    + left. exists d. split; [|done]. assert (Hd : d ∈ omap dns_name (cr_sans r)) by (apply list_elem_of_omap; by exists s).
      unfold dns_names. destruct (existsb _ _); [done|]. set_solver.
    + right. left. exists x. split; [apply list_elem_of_omap; by exists s|].
      unfold ip_name in Ex. destruct (is_ip_addr _) in Ex; [|done]. injection Ex as <-.
      destruct (strip IP (trim s)) as [y|] eqn:Ei; [right; by apply strip_some|by left].
    + by right; right.
Qed.

(** *** Bundles *)

Definition plain (l : ustring) : Prop := 10 ∉ l ∧ last l ≠ Some 13.
Definition unmarked (l : ustring) : Prop := contains_text BEGIN_CERT l = false ∧ contains_text END_CERT l = false.

Record Pem : Type := mkPem { pem_first : ustring; pem_body : list ustring; pem_last : ustring }.
Definition pem_lines (p : Pem) : list ustring := pem_first p :: pem_body p ++ [pem_last p].
Definition rendered (ls : list ustring) : ustring := concat (map (λ l, l ++ [10]) ls).

Definition pem_ok (p : Pem) : Prop :=
  Forall plain (pem_lines p)
  ∧ contains_text BEGIN_CERT (pem_first p) = true ∧ contains_text END_CERT (pem_first p) = false
  ∧ Forall unmarked (pem_body p)
  ∧ contains_text BEGIN_CERT (pem_last p) = false ∧ contains_text END_CERT (pem_last p) = true.

(** A bundle: certificates, each after lines that are none. *)
Definition bundle_lines (l : list (list ustring * Pem)) (tail : list ustring) : list ustring :=
  concat (map (λ e, e.1 ++ pem_lines e.2) l) ++ tail.

Lemma split_on_line l s : 10 ∉ l → split_on 10 (l ++ 10 :: s) = l :: split_on 10 s.
Proof.
  induction l as [|c l IH]; [done|]. intros [Hc Hl]%not_elem_of_cons. cbn [app split_on].
  rewrite (proj2 (Z.eqb_neq _ _)) by congruence. by rewrite (IH Hl).
Qed.

Lemma chomp_plain l : last l ≠ Some 13 → chomp l = l.
Proof.
  unfold chomp. intros H. destruct l as [|c l _] using rev_ind; [done|]. rewrite rev_app_distr. cbn.
  rewrite last_snoc in H. destruct (decide (c = 13)) as [->|Hc]; [done|].
  by repeat (case_match; subst; try done).
Qed.

Lemma lines_of_rendered ls : Forall plain ls → lines_of (rendered ls) = ls.
Proof.
  intros H. unfold lines_of.
  assert (split_on 10 (rendered ls) = ls ++ [[]]) as ->.
  { induction H as [|l ls [Hl _] _ IH]; [done|]. unfold rendered in *. cbn [map concat]. rewrite <- app_assoc.
    cbn [app]. by rewrite split_on_line, IH. }
  rewrite rev_app_distr. cbn. rewrite rev_involutive.
  induction H as [|l ls [_ Hl] _ IH]; [done|]. cbn. by rewrite chomp_plain, IH.
Qed.

Lemma split_junk js ls out : Forall unmarked js → split_lines (js ++ ls) [] out = split_lines ls [] out.
Proof. induction 1 as [|l js [H1 H2] _ IH]; [done|]. cbn [app split_lines]. by rewrite H1, H2. Qed.

Lemma split_body body ls cur out :
  Forall unmarked body → is_empty cur = false → split_lines (body ++ ls) cur out = split_lines ls (cur ++ rendered body) out.
Proof.
  intros H. induction H as [|l body [H1 H2] _ IH] in cur |- *; intros Hc; [by rewrite app_nil_r|].
  cbn [app split_lines]. rewrite H1, H2, Hc. cbn. rewrite IH by (by destruct cur).
  unfold rendered. cbn. by rewrite <- !app_assoc.
Qed.

Lemma split_certificate p ls out :
  pem_ok p → split_lines (pem_lines p ++ ls) [] out = split_lines ls [] (out ++ [rendered (pem_lines p)]).
Proof.
  intros (_ & B1 & E1 & Hb & B2 & E2). unfold pem_lines. cbn [app split_lines]. rewrite B1, E1. cbn [is_empty negb orb].
  rewrite <- app_assoc. rewrite split_body by (done || by destruct (pem_first p)). cbn [app split_lines]. rewrite B2, E2.
  assert (∀ a b : ustring, is_empty ((a ++ [10]) ++ b) = false) as Hn by (by intros [] ?). rewrite Hn. cbn [negb orb].
  unfold rendered. cbn [map concat]. rewrite map_app, concat_app. cbn. by rewrite app_nil_r, <- !app_assoc.
Qed.

(** Whatever lines that are none come before, between and after the certificates
    of a bundle, [split_pem] finds these certificates and nothing else. *)
Theorem split_pem_finds l tail :
  Forall (λ e, Forall plain e.1 ∧ Forall unmarked e.1 ∧ pem_ok e.2) l → Forall plain tail → Forall unmarked tail →
  split_pem (rendered (bundle_lines l tail)) = map (λ e, rendered (pem_lines e.2)) l.
Proof.
  intros Hl Ht Hm. unfold split_pem. rewrite lines_of_rendered.
  2:{ unfold bundle_lines. apply Forall_app. split; [|done]. apply Forall_concat, Forall_map.
      eapply Forall_impl; [exact Hl|]. intros e (H1 & _ & H2 & _). by apply Forall_app. }
  assert (∀ out, split_lines (bundle_lines l tail) [] out = out ++ map (λ e, rendered (pem_lines e.2)) l) as ->; [|done].
  unfold bundle_lines. clear Ht. induction Hl as [|[js p] l (_ & H1 & H2) _ IH]; intros out; cbn [map concat fst snd] in *.
  - by rewrite <- (app_nil_r ([] ++ tail)), split_junk, app_nil_r.
  - rewrite <- !app_assoc, split_junk, split_certificate by done. rewrite IH. by rewrite <- app_assoc.
Qed.

(** *** The token of Vault *)

Section Vault.
Context {W : Type} (answer : W → Request → W * (Response + ustring)).
Context (parse : ustring → Json + ustring) (status_text : Z → ustring) (parse_issued : Json → IssueData + ustring).
Context (cfg : VaultConfig).

(** The requests are recorded. *)
Definition logged_send (w : W * list Request) (q : Request) : (W * list Request) * (Response + ustring) :=
  let '(w', r) := answer w.1 q in ((w', w.2 ++ [q]), r).

Inductive VaultCall : Type := IssueCall (r : CertRequest) | ChainCall | HealthCall.

(** A call of the client, whatever comes of it. *)
Definition run_call (c : VaultCall) (s : (W * list Request) * option ustring) : (W * list Request) * option ustring :=
  match c with
  | IssueCall r => (issue_vault logged_send parse status_text cfg parse_issued r s.1 s.2).1
  | ChainCall => (ca_chain logged_send cfg s.1 s.2).1
  | HealthCall => (health logged_send parse status_text cfg s.1 s.2).1
  end.
Definition run_calls (cs : list VaultCall) (s : (W * list Request) * option ustring) : (W * list Request) * option ustring :=
  foldl (λ s c, run_call c s) s cs.

(** A request to log in is the only one that posts without a token. *)
Definition logs_in (q : Request) : Prop := hq_method q = Post ∧ hq_token q = None.

(** A computation that keeps a token [t] and sends only requests that are no
    logins and have no other token. *)
Definition uses {A} (t : ustring) (x : OnVault (W := W * list Request) A) : Prop :=
  ∀ w, ∃ new, (x w (Some t)).1.2 = Some t ∧ (x w (Some t)).1.1.2 = w.2 ++ new
    ∧ Forall (λ q, ¬ logs_in q ∧ (hq_token q = None ∨ hq_token q = Some t)) new.

Lemma uses_pure {A} t (r : A + ustring) : uses t (λ w t, (w, t, r)).
Proof. intros w. exists []. by rewrite app_nil_r. Qed.

Lemma uses_bind {A B} t (x : OnVault (W := W * list Request) A) (f : A → OnVault (W := W * list Request) B) :
  uses t x → (∀ a, uses t (f a)) → uses t (OnVault_bind _ _ f x).
Proof.
  intros Hx Hf w. destruct (Hx w) as (n1 & E1 & L1 & F1). unfold OnVault_bind.
  destruct (x w (Some t)) as [[w1 t1] [a|e]]; cbn in *; subst; [|by exists n1].
  destruct (Hf a w1) as (n2 & E2 & L2 & F2). exists (n1 ++ n2). rewrite L2, L1, app_assoc.
  split_and!; try done. by apply Forall_app.
Qed.

Lemma uses_requested t method path tok body :
  tok = Some t ∨ (tok = None ∧ method = Get) → uses t (requested logged_send cfg method path tok body).
Proof.
  intros H w. unfold requested, logged_send. destruct (answer w.1 _) as [w' r]. eexists. cbn. split_and!; [done..|].
  apply Forall_singleton. unfold logs_in. cbn. destruct H as [->|[-> ->]]; (split; [by intros []|]); auto.
Qed.

Lemma uses_json t r : uses t (json (W := W * list Request) parse status_text r).
Proof.
  destruct r as [status text]. apply uses_bind; [apply uses_pure|]. intros a.
  destruct (is_success status); apply uses_pure.
Qed.

Lemma uses_token t role_id secret_id mount :
  vc_auth cfg = AppRole role_id secret_id mount → uses t (token logged_send parse status_text cfg)
  ∧ ∀ w, token logged_send parse status_text cfg w (Some t) = (w, Some t, inl t).
Proof. unfold token. intros ->. split; [|done]. intros w. exists []. by rewrite app_nil_r. Qed.

Lemma run_call_uses c t role_id secret_id mount :
  vc_auth cfg = AppRole role_id secret_id mount →
  ∀ w, ∃ new, run_call c (w, Some t) = (((run_call c (w, Some t)).1.1, w.2 ++ new), Some t)
    ∧ Forall (λ q, ¬ logs_in q ∧ (hq_token q = None ∨ hq_token q = Some t)) new.
Proof.
  intros Ha w.
  assert (H : ∀ A (x : OnVault (W := W * list Request) A), uses t x → ∃ new, (x w (Some t)).1 = (((x w (Some t)).1.1.1, w.2 ++ new), Some t)
    ∧ Forall (λ q, ¬ logs_in q ∧ (hq_token q = None ∨ hq_token q = Some t)) new).
  { intros A x (new & E & L & F)%(λ H, H w). exists new. split; [|done].
    destruct (x w (Some t)) as [[[w' log] t'] r]. cbn in *. by subst. }
  destruct c; apply H.
  - intros w0. unfold issue_vault, mbind, OnVault_bind. rewrite (proj2 (uses_token t _ _ _ Ha)). revert w0.
    apply uses_bind; [by apply uses_requested; left|]. intros resp. apply uses_bind; [apply uses_json|]. intros v.
    apply uses_bind; [apply uses_pure|]. intros d. apply uses_pure.
  - apply uses_bind; [by apply uses_requested; right|]. intros [status text]. apply uses_bind; [apply uses_pure|]. intros a.
    destruct (_ || _); [|apply uses_pure].
    apply uses_bind; [by apply uses_requested; right|]. intros [status' text']. apply uses_bind; [apply uses_pure|]. intros b. apply uses_pure.
  - apply uses_bind; [by apply uses_requested; right|]. intros resp. apply uses_bind; [apply uses_json|]. intros v. apply uses_pure.
Qed.

(** The client of Vault logs in once. When it has a token, no sequence of calls
    sends another login, every request that needs a token has that one and it is
    still kept, whatever the server answers: also when the server refuses it
    because it has expired. *)
Theorem vault_keeps_token cs t w role_id secret_id mount :
  vc_auth cfg = AppRole role_id secret_id mount →
  ∃ w' new, run_calls cs (w, Some t) = ((w', w.2 ++ new), Some t)
    ∧ Forall (λ q, ¬ logs_in q ∧ (hq_token q = None ∨ hq_token q = Some t)) new.
Proof.
  intros Ha. induction cs as [|c cs IH] in w |- *.
  - exists w.1, []. rewrite app_nil_r. by destruct w.
  - destruct (run_call_uses c t _ _ _ Ha w) as (n1 & E1 & F1).
    unfold run_calls. cbn [foldl]. rewrite E1. edestruct IH as (w' & n2 & E2 & F2).
    exists w', (n1 ++ n2). split; [|by apply Forall_app]. etrans; [exact E2|]. cbn. by rewrite app_assoc.
Qed.
End Vault.
