(* ===== verification/PkiApi.v ===== *)
(** * The interface of the certificates ([crates/pesit-node/src/pki.rs])

    The operations on stores, on the authority, on certificates that are issued by
    it or by Vault, on revocations, and the rotation of keystores. The state of the
    node has the disk and the authority ([Certs.PkiState]), the documents of the
    certificates, the revocations, and the client of Vault when there is one. *)

From Stdlib Require Import String.
From S2P Require Import Prelude Diag Ebcdic Params Link DocStore ClientEngine NodeModel NodeHandler Schedule Replicas Admin Connectors Certs Issuing.
Open Scope Z_scope.

Section Pki.
(** The libraries: the description of certificates, signatures, JSON and HTTP. *)
Context (inspect_pem : ustring → CertInfo + ustring) (inspect_all : ustring → list CertInfo + ustring).
Context (lib : Signing) (now : Z) (parse_millis : ustring → option Z).
Context {W : Type} (send : W → Request → W * (Response + ustring)).
Context (parse : ustring → Json + ustring) (status_text : Z → ustring) (parse_issued : Json → IssueData + ustring).
Context (accepts_ca : ustring → unit + ustring) `{Serde VaultConfig}.

(** A client of Vault, with the token that it keeps. *)
Record VaultPki : Type := mkVaultPki { vp_cfg : VaultConfig; vp_token : option ustring }.

Record PkiNode : Type := mkPkiNode {
  pn_state : PkiState;
  pn_docs : Db (Table (Table Json));
  pn_revoked : RevokedDoc;
  pn_counter : Db Z;
  pn_vault : option VaultPki;
  pn_world : W;
}.

Definition set_pn_state (p : PkiState) (n : PkiNode) : PkiNode :=
  mkPkiNode p (pn_docs n) (pn_revoked n) (pn_counter n) (pn_vault n) (pn_world n).
Definition set_pn_docs (d : Db (Table (Table Json))) (n : PkiNode) : PkiNode :=
  mkPkiNode (pn_state n) d (pn_revoked n) (pn_counter n) (pn_vault n) (pn_world n).
Definition set_pn_revoked (d : RevokedDoc) (n : PkiNode) : PkiNode :=
  mkPkiNode (pn_state n) (pn_docs n) d (pn_counter n) (pn_vault n) (pn_world n).
Definition set_pn_counter (d : Db Z) (n : PkiNode) : PkiNode :=
  mkPkiNode (pn_state n) (pn_docs n) (pn_revoked n) d (pn_vault n) (pn_world n).
Definition set_pn_vault (v : option VaultPki) (n : PkiNode) : PkiNode :=
  mkPkiNode (pn_state n) (pn_docs n) (pn_revoked n) (pn_counter n) v (pn_world n).
Definition set_pn_world (w : W) (n : PkiNode) : PkiNode :=
  mkPkiNode (pn_state n) (pn_docs n) (pn_revoked n) (pn_counter n) (pn_vault n) w.
Definition set_pn_disk (d : Disk) (n : PkiNode) : PkiNode := set_pn_state (mkPkiState d (pk_ca (pn_state n))) n.

Abbreviation PkiM := (ApiM PkiNode).

(** ** Errors *)

Definition map_pki (e : PkiError) : ApiError :=
  match e with
  | NoCa => mkApiError BadRequest (Some (lit "no local CA configured — generate one first"))
  | Vault m => mkApiError BadRequest (Some (lit "vault: " ++ m))
  | Gen text => mkApiError Internal ((λ t, lit "certificate generation: " ++ t) <$> text)
  | IoError => mkApiError Internal None
  end.

Definition map_store (e : StoreError) : ApiError :=
  match e with
  | Name n => mkApiError BadRequest (Some (lit "invalid name '" ++ n ++ lit "'"))
  | MissingKey => mkApiError BadRequest (Some (lit "a keystore needs both a certificate and a private key"))
  | Cert c => mkApiError BadRequest (Some c)
  | Io => mkApiError Internal None
  end.

(** A call on the disk with its errors as those of the interface, one that cannot
    fail, and a statement on the documents whose error is answered or dropped. *)
Definition on_store {A} (call : OnDisk A) : PkiM A := λ n,
  match call (pk_disk (pn_state n)) with
  | (d, inl a) => (set_pn_disk d n, inl a)
  | (d, inr e) => (set_pn_disk d n, inr (map_store e))
  end.
Definition on_disk {A} (call : Disk → Disk * A) : PkiM A := λ n,
  let '(d, a) := call (pk_disk (pn_state n)) in (set_pn_disk d n, inl a).
Definition on_docs {A} (x : Q A) : PkiM A := λ n,
  match x (pn_docs n) with
  | (d, Some a) => (set_pn_docs d n, inl a)
  | (d, None) => (set_pn_docs d n, inr (mkApiError Internal None))
  end.
Definition tried_docs {A} (x : Q A) : PkiM (option A) := λ n, let '(d, a) := x (pn_docs n) in (set_pn_docs d n, inl a).
Definition refused {A} (e : ApiError) : PkiM A := λ n, (n, inr e).

(** Without certificates, every operation is refused. *)
Definition managed {A} (x : PkiM A) : ApiM (option PkiNode) A := λ app,
  match app with
  | Some n => let '(n, r) := x n in (Some n, r)
  | None => (None, inr (mkApiError Internal (Some (lit "certificate management is not enabled"))))
  end.

(** ** Stores *)

Definition inspect (pem : ustring) : PkiM (list CertInfo) :=
  match inspect_all pem with inl l => mret l | inr e => reject BadRequest e end.

Definition no_keystore {A} (name : ustring) : PkiM A := reject NotFound_ (lit "keystore '" ++ name ++ lit "' not found").
Definition no_truststore {A} (name : ustring) : PkiM A := reject NotFound_ (lit "truststore '" ++ name ++ lit "' not found").

Definition list_keystores_call : PkiM (list KeystoreMeta) := on_disk (list_keystores inspect_pem).
Definition get_keystore (name : ustring) : PkiM KeystoreMeta :=
  found ← on_disk (keystore inspect_pem name);
  match found with Some m => mret m | None => no_keystore name end.
Definition delete_keystore_call (name : ustring) : PkiM unit :=
  existed ← on_store (delete_keystore name);
  if existed : bool then mret tt else no_keystore name.
Definition import_keystore_call (name certificate private_key : ustring) : PkiM KeystoreMeta :=
  on_store (put_keystore inspect_pem name certificate private_key).

Definition list_truststores_call : PkiM (list TruststoreMeta) := on_disk (list_truststores inspect_all).
Definition get_truststore (name : ustring) : PkiM TruststoreMeta :=
  found ← on_disk (truststore inspect_all name);
  match found with Some m => mret m | None => no_truststore name end.
Definition delete_truststore_call (name : ustring) : PkiM unit :=
  existed ← on_store (delete_truststore name);
  if existed : bool then mret tt else no_truststore name.
Definition import_truststore_call (name certificates : ustring) : PkiM TruststoreMeta :=
  on_store (put_truststore inspect_all name certificates).

(** ** The authority

    A panic is no answer. *)
Definition write_ca (ca : Authority) : PkiM unit :=
  on_store (io (write_file CaDir CA_CRT (ca_cert ca))) ;;
  on_store (io (write_file CaDir CA_KEY (ca_key ca))).

Definition generate_ca (common_name : ustring) (organization : option ustring) (ttl_days : Z) : PkiM (option CertInfo) :=
  match generate lib now common_name organization ttl_days with
  | Panic => mret None
  | Err e => refused (map_pki (Gen (Some e)))
  | Ok ca =>
      write_ca ca ;;
      match inspect_pem (ca_cert ca) with
      | inr e => reject Internal e
      | inl info => api_modify (λ n, set_pn_state (mkPkiState (pk_disk (pn_state n)) (Some ca)) n) ;; mret (Some info)
      end
  end.

Definition get_ca : PkiM (ustring * CertInfo) :=
  ca ← api_gets (λ n, pk_ca (pn_state n));
  match ca with
  | None => reject NotFound_ (lit "no local CA configured")
  | Some ca => match inspect_pem (ca_cert ca) with inl info => mret (ca_cert ca, info) | inr e => reject Internal e end
  end.

(** ** Issuing *)

(** A call of the client of Vault, which keeps its token. *)
Definition with_vault {A} (v : VaultPki) (x : OnVault A) (n : PkiNode) : PkiNode * VaultPki * (A + ustring) :=
  let '(w, token, r) := x (pn_world n) (vp_token v) in (set_pn_world w n, mkVaultPki (vp_cfg v) token, r).

Definition vault_issues (v : VaultPki) (r : CertRequest) : PkiM Issued := λ n,
  let '(n, v, a) := with_vault v (issue_vault send parse status_text (vp_cfg v) parse_issued r) n in
  (set_pn_vault (Some v) n, match a with inl i => inl i | inr e => inr (map_pki (Vault e)) end).

(** [None] is a panic of the calendar. *)
Definition local_issues (ca : Authority) (r : CertRequest) : PkiM (option Issued) :=
  match issue_local lib now ca r with
  | Ok i => mret (Some i)
  | Err e => refused (map_pki (Gen (Some e)))
  | Panic => mret None
  end.

Definition ks_key (name : ustring) : ustring := lit "ks:" ++ name.

Definition meta_of (kind : ustring) (r : CertRequest) : Json :=
  object [(lit "backend", Text kind); (lit "commonName", Text (cr_common_name r)); (lit "sans", Array (map Text (cr_sans r)));
          (lit "ttlDays", Number (cr_ttl_days r)); (lit "serverAuth", Bool (cr_server_auth r));
          (lit "clientAuth", Bool (cr_client_auth r))].

Record IssueResult : Type := mkIssueResult { ir_issued : Issued; ir_backend : ustring; ir_stored_as : option ustring }.

Definition issue (r : CertRequest) (backend : ustring) (store_as : option ustring) : PkiM (option IssueResult) :=
  n ← api_gets id;
  made ← (if bool_decide (backend = lit "vault")
          then match pn_vault n with
               | None => reject BadRequest (lit "no Vault backend configured")
               | Some v => i ← vault_issues v r; mret (Some (i, lit "vault"))
               end
          else match pk_ca (pn_state n) with
               | None => reject BadRequest (lit "no local CA configured — generate one first")
               | Some ca => i ← local_issues ca r; mret ((λ i, (i, lit "local")) <$> i)
               end);
  match made with
  | None => mret None
  | Some (issued, kind) =>
      stored ← match store_as, is_private_key issued with
               | Some name, Some key =>
                   on_store (put_keystore inspect_pem name (is_certificate issued) key) ;;
                   tried_docs (doc_put PKI (ks_key name) (meta_of kind r)) ;;
                   mret (Some name)
               | _, _ => mret None
               end;
      mret (Some (mkIssueResult issued kind stored))
  end.

(** [issue_via] and [rotate]. *)
Definition issue_via (backend : ustring) (r : CertRequest) : PkiM (option Issued) :=
  n ← api_gets id;
  if same_name backend (lit "vault")
  then match pn_vault n with
       | None => refused (map_pki (Vault (lit "no Vault backend configured")))
       | Some v => i ← vault_issues v r; mret (Some i)
       end
  else match pk_ca (pn_state n) with
       | None => refused (map_pki NoCa)
       | Some ca => local_issues ca r
       end.

Definition generation {A} (text : option ustring) : PkiM A := refused (map_pki (Gen text)).

(** What is issued takes the place of the keystore. *)
Definition replace_keystore (name : ustring) (made : option Issued) : PkiM (option unit) :=
  match made with
  | None => mret None
  | Some issued =>
      match is_private_key issued with
      | None => generation (Some (lit "no private key returned"))
      | Some key =>
          put ← (λ n, let '(d, r) := put_keystore inspect_pem name (is_certificate issued) key (pk_disk (pn_state n)) in
                      (set_pn_disk d n, inl r));
          match put with inl _ => mret (Some tt) | inr _ => generation None end
      end
  end.

Definition rotate (name : ustring) : PkiM (option unit) :=
  current ← on_disk (keystore inspect_pem name);
  match current with
  | None => generation (Some (lit "keystore '" ++ name ++ lit "' not found"))
  | Some current =>
      meta ← tried_docs (doc_get PKI (ks_key name));
      let meta := default None meta in
      made ← issue_via (rotation_backend meta) (rotation_request meta current);
      replace_keystore name made
  end.

Definition rotate_keystore (name : ustring) : PkiM (option (option CertInfo)) :=
  done ← rotate name;
  match done with
  | None => mret None
  | Some _ => info ← on_disk (keystore inspect_pem name); mret (Some (ks_info <$> info))
  end.

(** A turn of the task that rotates: nothing on a member that does not lead. Each
    name has its outcome in the audit log. *)
Fixpoint rotate_each (names : list ustring) : PkiM (list (ustring * bool)) :=
  match names with
  | [] => mret []
  | name :: names =>
      ok ← (λ n, let '(n, r) := rotate name n in (n, inl (match r with inl (Some _) => true | _ => false end)));
      rest ← rotate_each names;
      mret ((name, ok) :: rest)
  end.

Definition rotation_turn (end_of : ustring → option Z) (leads : option bool) (now_millis days : Z) : PkiM (list (ustring * bool)) :=
  if bool_decide (leads = Some false) then mret []
  else names ← on_disk (expiring_keystores inspect_pem end_of now_millis days); rotate_each names.

(** ** Vault *)

Definition read_vault (found : option Json) : PkiM (option VaultConfig) :=
  match found with
  | None => mret None
  | Some v => match from_value v with Some c => mret (Some c) | None => refused (mkApiError Internal None) end
  end.

Record VaultStatus : Type := mkVaultStatus {
  vs_configured : bool;
  vs_address : option ustring;
  vs_role : option ustring;
  vs_mount : ustring;
}.

Definition vault_status : PkiM VaultStatus :=
  found ← on_docs (doc_get PKI VAULT);
  cfg ← read_vault found;
  mret (mkVaultStatus (bool_decide (is_Some cfg)) (vc_address <$> cfg) (vc_role <$> cfg)
          (default (lit "pki") (cfg ≫= vc_mount))).

(** [VaultPki::new]: the certificate of the server is read. *)
Definition vault_new (cfg : VaultConfig) : VaultPki + ustring :=
  match vc_ca_pem cfg with
  | None => inl (mkVaultPki cfg None)
  | Some pem => match accepts_ca pem with inl _ => inl (mkVaultPki cfg None) | inr e => inr (lit "invalid Vault CA: " ++ e) end
  end.

(** The health of a server, with the client that asked. *)
Definition asked_health (v : VaultPki) : PkiM (VaultPki * (ustring + ustring)) := λ n,
  let '(n, v, r) := with_vault v (health send parse status_text (vp_cfg v)) n in (n, inl (v, r)).

Definition set_vault (cfg : VaultConfig) : PkiM ustring :=
  match vault_new cfg with
  | inr e => refused (map_pki (Vault e))
  | inl v =>
      '(v, version) ← asked_health v;
      match version with
      | inr e => refused (map_pki (Vault e))
      | inl version => on_docs (doc_put PKI VAULT (to_value cfg)) ;; api_modify (set_pn_vault (Some v)) ;; mret version
      end
  end.

Definition clear_vault : PkiM unit := on_docs (doc_delete PKI VAULT) ;; api_modify (set_pn_vault None).

Definition test_vault : PkiM (ustring + ustring) :=
  n ← api_gets id;
  match pn_vault n with
  | None => reject BadRequest (lit "no Vault backend configured")
  | Some v =>
      '(v, r) ← asked_health v;
      api_modify (set_pn_vault (Some v)) ;;
      mret (match r with inl version => inl version | inr e => inr (lit "vault: " ++ e) end)
  end.

(** ** Revocation *)

Definition on_revoked {A} (x : RevokedDoc → RevokedDoc * A) : PkiM A := λ n,
  let '(d, a) := x (pn_revoked n) in (set_pn_revoked d n, inl a).

Definition revoke_call (time serial : ustring) : PkiM ustring :=
  r ← on_revoked (revoke time serial);
  match r with inl _ => mret (normalize_serial serial) | inr e => refused (map_pki e) end.
Definition revoked : PkiM (list RevokedEntry) := on_revoked revoked_list.

Definition crl_number (n : PkiNode) : PkiNode * Z :=
  let '(d, r) := match db_statement (λ k, (k + 1, tt)) (pn_counter n) with
                 | (d, Some _) => db_statement (λ k, (k, k)) d
                 | (d, None) => (d, None)
                 end in
  (set_pn_counter d n, default 1 r).

Definition build_crl : PkiM (option ustring) :=
  ca ← api_gets (λ n, pk_ca (pn_state n));
  match ca with
  | None => refused (map_pki NoCa)
  | Some ca =>
      l ← revoked;
      number ← (λ n, let '(n, k) := crl_number n in (n, inl k));
      match sign_crl lib now ca (crl_entries parse_millis l) number 7 with
      | Ok pem => mret (Some pem)
      | Err e => generation (Some e)
      | Panic => mret None
      end
  end.

(** The answer to a request about serials, [None] when it is good. *)
Definition ocsp_respond (serials : list (list Z)) : PkiM (list (option Z)) :=
  ca ← api_gets (λ n, pk_ca (pn_state n));
  match ca with
  | None => refused (map_pki NoCa)
  | Some _ => l ← revoked; mret (map (ocsp_status parse_millis l) serials)
  end.
End Pki.

(** ** Opening *)

(** [PkiState::open]: the authority of the disk, and the client of Vault when its
    settings are there and can be used. *)
Definition open_pki {W : Type} (accepts_ca : ustring → unit + ustring) `{Serde VaultConfig} (d : Disk) (docs : Db (Table (Table Json)))
    (revoked : RevokedDoc) (counter : Db Z) (w : W) : option (@PkiNode W) :=
  match ensure_table PKI docs with
  | (docs, None) => None
  | (docs, Some _) =>
      let '(d, ca) := load_ca d in
      let '(docs, found) := doc_get PKI VAULT docs in
      let vault := v ← default None found; cfg ← from_value v; match vault_new accepts_ca cfg with inl v => Some v | inr _ => None end in
      Some (mkPkiNode (mkPkiState d ca) docs revoked counter vault w)
  end.
