(* ===== verification/PkiApiProps.v ===== *)
(** * The interface of the certificates: properties

    What is issued under a name is kept with what the rotation needs, and a
    rotation replaces the two texts of a keystore by those of one certificate, or
    nothing at all. *)

From Stdlib Require Import String.
From S2P Require Import Prelude Diag Ebcdic Params Link DocStore ClientEngine NodeModel NodeHandler Schedule Replicas ReplicasProps Admin Connectors Certs CertsProps Issuing PkiApi.
Open Scope Z_scope.

(** ** A disk without faults *)

Lemma keystore_no_fault ip name d : disk_faults d = [] → (keystore ip name d).1 = d.
Proof.
  intros H. unfold keystore, read_file, next_fault. destruct (sanitize name); [|done]. rewrite H. cbn. rewrite <- H. by destruct d.
Qed.

Lemma write_no_fault dir name c d :
  disk_faults d = [] → write_file dir name c d = (set_dir dir (<[name := c]> (dir_of dir d)) d, true).
Proof. destruct d as [a k t f]. cbn. intros ->. by destruct dir. Qed.

(** A put writes both texts or, when it is refused, nothing. *)
Lemma put_no_fault ip name cert key d d' r :
  disk_faults d = [] → put_keystore ip name cert key d = (d', r) →
  match r with
  | inl _ => texts_of name d' = (Some cert, Some key) ∧ disk_faults d' = []
  | inr _ => d' = d
  end.
Proof.
  intros Hf E. destruct (put_keystore_inv ip name cert key d) as [[e H]|(m & _ & _ & _ & H)].
  - rewrite E in H. by injection H as -> ->.
  - rewrite !write_no_fault in H by (try rewrite write_no_fault by done; done). rewrite E in H. injection H as -> ->.
    split; [|done]. unfold texts_of. cbn. rewrite lookup_insert_eq, lookup_insert_ne, lookup_insert_eq; [done|].
    apply not_eq_sym, key_cert_key.
Qed.

Lemma keystore_after_put ip name cert key d d' m :
  disk_faults d' = [] → texts_of name d' = (Some cert, Some key) → put_keystore ip name cert key d = (d', inl m) →
  (keystore ip name d').2 = Some m.
Proof.
  intros Hf Ht E. destruct (put_keystore_inv ip name cert key d) as [[e H]|(m' & Hs & Hi & Hm & H)]; [by rewrite E in H|].
  assert (m' = m) as ->.
  { destruct (write_file KeyDir _ cert d) as [d1 ok1], (write_file KeyDir _ key d1) as [d2 ok2]. rewrite E in H.
    by destruct ok1; [destruct ok2|]; injection H. }
  injection Ht as H1 H2. unfold keystore, read_file, fault_of. rewrite Hs, Hf. cbn. rewrite H1. cbn. rewrite Hi.
  by destruct m; cbn in Hm; subst.
Qed.

Section Pki.
Context (ip : ustring → CertInfo + ustring) (lib : Signing) (now : Z).
Context {W : Type} (send : W → Request → W * (Response + ustring)).
Context (parse : ustring → Json + ustring) (status_text : Z → ustring) (parse_issued : Json → IssueData + ustring).

Abbreviation issue := (issue ip lib now send parse status_text parse_issued).
Abbreviation issue_via := (issue_via lib now send parse status_text parse_issued).
Abbreviation vault_issues := (vault_issues send parse status_text parse_issued).
Abbreviation rotate := (rotate ip lib now send parse status_text parse_issued).

(** What an issue leaves as it is: all but the world and the token of Vault. *)
Definition same_node (n n' : @PkiNode W) : Prop :=
  pn_state n' = pn_state n ∧ pn_docs n' = pn_docs n ∧ pn_revoked n' = pn_revoked n ∧ pn_counter n' = pn_counter n.

Lemma vault_issues_same v r n : same_node n (vault_issues v r n).1.
Proof. unfold PkiApi.vault_issues, with_vault. by destruct (issue_vault _ _ _ _ _ _ _ _) as [[w t] a]. Qed.

Lemma local_issues_same ca r (n : @PkiNode W) : (local_issues lib now ca r n).1 = n.
Proof. unfold local_issues. by destruct (issue_local lib now ca r). Qed.

Lemma issue_via_same backend r n n' x : issue_via backend r n = (n', x) → same_node n n'.
Proof.
  unfold PkiApi.issue_via, mbind, Api_bind, api_gets, refused. cbn [id]. destruct (same_name backend _).
  - destruct (pn_vault n) as [v|]; [|by intros [= <- _]].
    assert (H := vault_issues_same v r n). destruct (vault_issues v r n) as [n1 [i|e]]; by intros [= <- _].
  - destruct (pk_ca (pn_state n)) as [ca|]; [|by intros [= <- _]].
    assert (H := local_issues_same ca r n). intros E. rewrite E in H. cbn in H. by subst.
Qed.

Lemma set_pn_disk_id (n : @PkiNode W) : set_pn_disk (pk_disk (pn_state n)) n = n.
Proof. by destruct n as [[d ca] docs rv k v w]. Qed.

Lemma put_texts_other name other cert key d : other ≠ name → texts_of other (put_keystore ip name cert key d).1 = texts_of other d.
Proof.
  intros Hn. destruct (put_keystore_inv ip name cert key d) as [[e ->]|(m & _ & _ & _ & H)]; [done|].
  assert (T1 := texts_write_other other name _ cert d ltac:(done) (or_introl eq_refl)).
  destruct (write_file KeyDir (key_cert name) cert d) as [d1 ok1]; cbn in T1.
  assert (T2 := texts_write_other other name _ key d1 ltac:(done) (or_intror eq_refl)).
  destruct (write_file KeyDir (key_key name) key d1) as [d2 ok2]; cbn in T2.
  rewrite H. destruct ok1; [destruct ok2|]; cbn; congruence.
Qed.

(** The description that the rotation finds: an error of the database is none. *)
Definition recorded (name : ustring) (n : @PkiNode W) : @PkiNode W * option Json :=
  let '(d, found) := doc_get PKI (ks_key name) (pn_docs n) in (set_pn_docs d n, default None found).

Lemma rotate_eq name n :
  disk_faults (pk_disk (pn_state n)) = [] →
  rotate name n = match (keystore ip name (pk_disk (pn_state n))).2 with
                  | None => (n, inr (map_pki (Gen (Some (lit "keystore '" ++ name ++ lit "' not found")))))
                  | Some current =>
                      let '(n, meta) := recorded name n in
                      (made ← issue_via (rotation_backend meta) (rotation_request meta current); replace_keystore ip name made) n
                  end.
Proof.
  intros Hf. unfold PkiApi.rotate, mbind, Api_bind, on_disk, tried_docs, generation, refused, recorded.
  assert (K := keystore_no_fault ip name _ Hf). destruct (keystore ip name _) as [d c]. cbn [fst snd] in K |- *. subst d.
  rewrite set_pn_disk_id. destruct c as [current|]; [|done]. by destruct (doc_get PKI (ks_key name) (pn_docs n)).
Qed.

(** A rotation on a disk without faults replaces both texts of its keystore by
    the certificate and the key of one answer of the authority or of Vault, asked
    as the record of the keystore says; or it leaves every store as it is, whatever
    refused it: the name, the record, the backend, or a certificate that the store
    does not take. Other keystores, the truststores, the authority and the
    revocations are never changed by it. *)
Theorem rotation_all_or_nothing name n n' r :
  disk_faults (pk_disk (pn_state n)) = [] → rotate name n = (n', r) →
  pk_ca (pn_state n') = pk_ca (pn_state n) ∧ pn_revoked n' = pn_revoked n
  ∧ (∀ other, other ≠ name → texts_of other (pk_disk (pn_state n')) = texts_of other (pk_disk (pn_state n)))
  ∧ match r with
    | inl (Some _) =>
        ∃ meta current n1 n2 i key, keystore ip name (pk_disk (pn_state n)) = (pk_disk (pn_state n), Some current)
          ∧ issue_via (rotation_backend meta) (rotation_request meta current) n1 = (n2, inl (Some i))
          ∧ is_private_key i = Some key ∧ texts_of name (pk_disk (pn_state n')) = (Some (is_certificate i), Some key)
    | _ => pn_state n' = pn_state n
    end.
Proof.
  intros Hf. rewrite rotate_eq by done.
  assert (K := keystore_no_fault ip name _ Hf). destruct (keystore ip name _) as [d c] eqn:Ek. cbn [fst snd] in K |- *. subst d.
  destruct c as [current|]; [|by intros [= <- <-]].
  destruct (recorded name n) as [n1 meta] eqn:Er.
  assert (S1 : pn_state n1 = pn_state n ∧ pn_revoked n1 = pn_revoked n).
  { revert Er. unfold recorded. destruct (doc_get _ _ _). by intros [= <- _]. }
  unfold mbind, Api_bind. destruct (issue_via _ _ n1) as [n2 x] eqn:Ei. pose proof (issue_via_same _ _ _ _ _ Ei) as (S2&_&R2&_).
  destruct S1 as [S1 R1]. rewrite <- S1, <- S2, <- R1, <- R2 in *.
  destruct x as [[i|]|e]; [|by intros [= <- <-]..]. unfold replace_keystore.
  destruct (is_private_key i) as [key|] eqn:Ey; [|by intros [= <- <-]].
  unfold mbind, Api_bind. assert (T := λ other H, put_texts_other name other (is_certificate i) key (pk_disk (pn_state n2)) H).
  destruct (put_keystore _ _ _ _ _) as [d [m|e]] eqn:Ep; cbn [fst] in T; pose proof (put_no_fault _ _ _ _ _ _ _ Hf Ep) as P; cbn in P;
    intros [= <- <-]; cbn; split_and!; try done.
  - exists meta, current, n1, n2, i, key. by destruct P.
  - subst d. by destruct n2 as [[d ca] docs rv k v w].
Qed.
(** ** What is recorded of a request *)

Lemma omap_texts l : omap as_str (map Text l) = l.
Proof. induction l as [|s l IH]; cbn; by rewrite ?IH. Qed.

Lemma recorded_request kind r current :
  0 ≤ cr_ttl_days r < 2 ^ 32 →
  rotation_backend (Some (meta_of kind r)) = kind
  ∧ rotation_request (Some (meta_of kind r)) current
    = mkCertRequest (cr_common_name r) (cr_sans r) (cr_ttl_days r) false true true None.
Proof.
  intros Ht. split; [done|]. unfold rotation_request.
  assert (E1 : get (lit "commonName") (meta_of kind r) = Some (Text (cr_common_name r))) by done.
  assert (E2 : get (lit "sans") (meta_of kind r) = Some (Array (map Text (cr_sans r)))) by done.
  assert (E3 : get (lit "ttlDays") (meta_of kind r) = Some (Number (cr_ttl_days r))) by done.
  unfold mbind, option_bind. rewrite E1, E2, E3. cbn [as_str as_array default]. unfold default, id.
  rewrite omap_texts, (proj2 (Z.leb_le 0 _)), (proj2 (Z.ltb_lt _ _)) by lia. cbn [andb]. by rewrite Z.mod_small by lia.
Qed.

Lemma doc_get_put t k v (docs0 : Db (Table (Table Json))) :
  healthy docs0 → is_Some (table_get t (docs docs0)) →
  doc_get t k (doc_put t k v docs0).1 = ((doc_put t k v docs0).1, Some (Some v)).
Proof.
  destruct docs0 as [d fs]. unfold healthy. cbn. intros -> [rows E]. fold (no_fault d). unfold doc_put.
  rewrite query_eq, E. cbn [fst snd].
  unfold doc_get. rewrite query_eq, table_get_put_eq. cbn [fst snd].
  rewrite table_get_put_eq, table_put_same; [done|]. apply table_get_put_eq.
Qed.

(** A certificate that is stored: the two writes, then the record. *)
Lemma issue_stored r backend name n n1 res :
  disk_faults (pk_disk (pn_state n)) = [] → issue r backend (Some name) n = (n1, inl (Some res)) → ir_stored_as res = Some name →
  ∃ n0 key m d, same_node n n0 ∧ is_private_key (ir_issued res) = Some key
    ∧ put_keystore ip name (is_certificate (ir_issued res)) key (pk_disk (pn_state n)) = (d, inl m)
    ∧ n1 = set_pn_docs (doc_put PKI (ks_key name) (meta_of (ir_backend res) r) (pn_docs n)).1 (set_pn_disk d n0).
Proof.
  intros Hf. unfold PkiApi.issue, mbind, Api_bind, api_gets. cbn [id].
  match goal with |- context [match ?x with (_, _) => _ end] => assert (Hx : same_node n x.1); [|destruct x as [n0 [[[i kind]|]|e]]] end.
  { destruct (bool_decide _).
    - destruct (pn_vault n) as [v|]; [|done]. assert (H := vault_issues_same v r n). by destruct (vault_issues v r n) as [n2 [i|e]].
    - destruct (pk_ca _) as [ca|]; [|done]. assert (H := local_issues_same ca r n). destruct (local_issues _ _ ca r n) as [n2 [i|e]]; by rewrite <- H. }
  2-3: done.
  cbn [fst] in Hx. destruct (is_private_key i) as [key|] eqn:Ey.
  2: { intros [= _ <-]. done. }
  unfold on_store. pose proof Hx as (E1&E2&_). rewrite E1. destruct (put_keystore _ _ _ _ _) as [d [m|e]] eqn:Ep; [|done].
  unfold tried_docs. cbn [pn_docs set_pn_disk set_pn_state]. rewrite E2.
  destruct (doc_put _ _ _ (pn_docs n)) as [d2 a] eqn:Ed. intros [= <- <-] _. cbn [ir_issued ir_backend]. rewrite Ed.
  by exists n0, key, m, d.
Qed.

(** C24: a certificate that is issued under a name, for a lifetime of a u32 and
    without faults of the disk and the database, can be renewed under it: the
    store has its two texts, and the rotation asks the same backend for the same
    common name, the same alternative names and the same lifetime, and puts the
    answer in the place of the keystore. What it does not keep is written out: the
    new certificate is for servers and for clients alike, is no authority, and has
    no organization. *)
Theorem rotation_keeps_identity r backend name n n1 res :
  disk_faults (pk_disk (pn_state n)) = [] → healthy (pn_docs n) → is_Some (table_get PKI (docs (pn_docs n))) →
  0 ≤ cr_ttl_days r < 2 ^ 32 →
  issue r backend (Some name) n = (n1, inl (Some res)) → ir_stored_as res = Some name →
  texts_of name (pk_disk (pn_state n1)) = (Some (is_certificate (ir_issued res)), is_private_key (ir_issued res))
  ∧ rotate name n1
    = (made ← issue_via (ir_backend res) (mkCertRequest (cr_common_name r) (cr_sans r) (cr_ttl_days r) false true true None);
       replace_keystore ip name made) n1.
Proof.
  intros Hf Hd Hk Ht Hi Hs. destruct (issue_stored _ _ _ _ _ _ Hf Hi Hs) as (n0&key&m&d&(E1&E2&E3&E4)&Ey&Ep&->).
  assert (P := put_no_fault _ _ _ _ _ _ _ Hf Ep). cbn in P. destruct P as [Pt Pf].
  rewrite Ey. split; [done|]. rewrite rotate_eq by done.
  assert (Kd := keystore_after_put _ _ _ _ _ _ _ Pf Pt Ep). cbn [pn_state pk_disk set_pn_docs set_pn_disk set_pn_state]. rewrite Kd.
  unfold recorded. cbn [pn_docs set_pn_docs set_pn_disk set_pn_state]. rewrite doc_get_put by done. cbn [default].
  unfold id. by destruct (recorded_request (ir_backend res) r m Ht) as [-> ->].
Qed.
End Pki.

(** ** An authority that signs *)

Definition PRIVATE : ustring := lit "PRIVATE KEY".
Definition signs : Signing :=
  mkSigning (λ now d, Some (now + d * 86400)) (λ _, true) (λ _, inl tt) (λ p, inl (mkAuthority (pm_common_name p) PRIVATE))
    (λ _, inl tt) (λ ca p, inl (pm_common_name p ++ decimal (pm_not_after p), PRIVATE)) (λ _ _, inl []).
Definition no_server (w : unit) (_ : Request) : unit * (Response + ustring) := (w, inr []).

Definition node_with_ca : @PkiNode unit :=
  mkPkiNode (mkPkiState (mkDisk ∅ ∅ ∅ []) (Some (mkAuthority (lit "ca") PRIVATE))) (mkDb [(PKI, [])] []) (mkDb None []) (mkDb 0 []) None tt.
Definition for_host : CertRequest := mkCertRequest (lit "host") [lit "DNS:alias"] 90 false true false (Some (lit "org")).

Abbreviation issue1 := (issue described signs 0 no_server (λ _, inr []) decimal (λ _, inr [])).
Abbreviation rotate1 now := (rotate described signs now no_server (λ _, inr []) decimal (λ _, inr [])).
Abbreviation issued1 := (issue1 for_host (lit "local") (Some (lit "web")) node_with_ca).

Lemma rotation_keeps_identity_witness :
  texts_of (lit "web") (pk_disk (pn_state issued1.1)) = (Some (lit "host7776000"), Some PRIVATE)
  ∧ texts_of (lit "web") (pk_disk (pn_state (rotate1 5 (lit "web") issued1.1).1)) = (Some (lit "host7776005"), Some PRIVATE).
Proof.
  set (res := mkIssueResult (mkIssued (lit "host7776000") (Some PRIVATE) [lit "ca"] None) (lit "local") (Some (lit "web"))).
  assert (E : issued1 = (issued1.1, inl (Some res))) by (vm_compute; reflexivity).
  destruct (rotation_keeps_identity described signs 0 no_server (λ _, inr []) decimal (λ _, inr []) for_host (lit "local")
              (lit "web") node_with_ca issued1.1 res eq_refl eq_refl ltac:(eexists; reflexivity) ltac:(cbn; lia) E eq_refl) as [H _].
  split; [exact H|]. vm_compute. reflexivity.
Defined.

Lemma rotation_all_or_nothing_witness :
  let n := issued1.1 in let n' := (rotate1 5 (lit "web") n).1 in
  pk_ca (pn_state n') = pk_ca (pn_state n) ∧ texts_of (lit "other") (pk_disk (pn_state n')) = (None, None).
Proof.
  intros n n'.
  destruct (rotation_all_or_nothing described signs 5 no_server (λ _, inr []) decimal (λ _, inr []) (lit "web") n n'
              (rotate1 5 (lit "web") n).2 ltac:(vm_compute; reflexivity) ltac:(vm_compute; reflexivity)) as (H1&_&H3&_).
  split; [exact H1|]. rewrite H3; [vm_compute; reflexivity|vm_compute; discriminate].
Defined.

(** A certificate of clients alone comes back as one of servers as well, and the
    name of the backend is compared in two ways. *)
Example rotation_widens :
  rotation_request (Some (meta_of (lit "local") (mkCertRequest (lit "c") [] 90 false false true None))) (mkKeystoreMeta (lit "k") (mkCertInfo [] [] [] [] [] true false [] []))
  = mkCertRequest (lit "c") [] 90 false true true None.
Proof. vm_compute. reflexivity. Qed.

Example backend_compared_twice :
  (issue1 for_host (lit "Vault") None node_with_ca).2
  = inl (Some (mkIssueResult (mkIssued (lit "host7776000") (Some PRIVATE) [lit "ca"] None) (lit "local") None))
  ∧ (issue_via signs 0 no_server (λ _, inr []) decimal (λ _, inr []) (lit "Vault") for_host node_with_ca).2
    = inr (map_pki (Vault (lit "no Vault backend configured"))).
Proof. by vm_compute. Qed.
