(* ===== verification/Tls.v ===== *)
(** * TLS settings ([crates/pesit-io/src/tls.rs], [Engine::open] of [crates/pesit-client/src/engine.rs])

    How a connector and an acceptor are built from their settings, which server
    certificates a connector takes, and how the engine reaches a server. PEM, the
    verification of certificate chains and handshakes are those of libraries; the
    order of the calls and of their errors is that of the sources. *)

From Stdlib Require Import String.
From S2P Require Import Prelude Diag Ebcdic Params Link Transport DocStore NodeModel Listeners ClientModel Connectors Issuing.
Open Scope Z_scope.

(** ** Settings and errors *)

Record TlsClientSettings : Type := mkTlsClientSettings {
  tc_ca_file : option ustring;
  tc_cert_file : option ustring;
  tc_key_file : option ustring;
  tc_verify_hostname : option bool;
  tc_insecure : bool;
  tc_min_version : option TlsVersion;
}.

Inductive TlsError : Type :=
  | TlsIo (path : ustring)
  | Pem (path : ustring)
  | Rustls (text : ustring)
  | Verifier (text : ustring)
  | ServerName (host : ustring).

Definition TLS13_ONLY : list TlsVersion := [V1_3].
Definition TLS12_UP : list TlsVersion := [V1_2; V1_3].
Definition versions (min : option TlsVersion) : list TlsVersion :=
  match min with Some V1_3 => TLS13_ONLY | _ => TLS12_UP end.

(** The roots of a verification, how a server is verified, and how a client is. *)
Inductive Roots : Type := SystemRoots | Given (certs : list bytes).
Inductive ServerCheck : Type := NoVerify | WithName (roots : Roots) | IgnoreHostname (roots : Roots).
Inductive ClientCheck : Type := NoClientAuth | ClientCerts (roots : list bytes) (unauthenticated : bool).

Record Connector : Type := mkConnector {
  co_versions : list TlsVersion;
  co_check : ServerCheck;
  co_identity : option (list bytes * bytes);
}.
Record Acceptor : Type := mkAcceptor {
  ac_versions : list TlsVersion;
  ac_check : ClientCheck;
  ac_identity : list bytes * bytes;
}.

(** What the libraries answer. A chain is verified for a name, and a wrong name is
    an error that is told apart from the others. *)
Inductive Refusal : Type := NotValidForName | OtherRefusal (text : ustring).

Record TlsLibrary : Type := mkTlsLibrary {
  tl_read : ustring → option bytes;
  tl_certs : bytes → option (list bytes);
  tl_private_key : bytes → option (option bytes);
  tl_protocol_versions : list TlsVersion → unit + ustring;
  tl_add_root : bytes → unit + ustring;
  tl_server_verifier : Roots → unit + ustring;
  tl_client_verifier : list bytes → bool → unit + ustring;
  tl_pair : list bytes → bytes → unit + ustring;
  tl_server_name : ustring → bool;
  tl_verify : Roots → list bytes → ustring → unit + Refusal;
}.

Section Tls.
Context (lib : TlsLibrary).

Definition of_rustls {A} (r : A + ustring) : outcome TlsError A := match r with inl a => Ok a | inr e => Err (Rustls e) end.

Definition load_certs (path : ustring) : outcome TlsError (list bytes) :=
  data ← ok_or (tl_read lib path) (TlsIo path);
  ok_or (tl_certs lib data) (Pem path).

Definition load_key (path : ustring) : outcome TlsError bytes :=
  data ← ok_or (tl_read lib path) (TlsIo path);
  key ← ok_or (tl_private_key lib data) (Pem path);
  ok_or key (Pem path).

Fixpoint add_roots (certs : list bytes) : outcome TlsError unit :=
  match certs with
  | [] => mret tt
  | c :: certs => of_rustls (tl_add_root lib c) ;; add_roots certs
  end.
Definition load_roots (path : ustring) : outcome TlsError (list bytes) :=
  certs ← load_certs path; add_roots certs ;; mret certs.

(** ** The client *)

Definition server_check (s : TlsClientSettings) : outcome TlsError ServerCheck :=
  if tc_insecure s then mret NoVerify
  else
    roots ← match tc_ca_file s with
            | Some ca => certs ← load_roots ca; mret (Given certs)
            | None => mret SystemRoots
            end;
    if default true (tc_verify_hostname s) then mret (WithName roots)
    else
      match tl_server_verifier lib roots with
      | inl _ => mret (IgnoreHostname roots)
      | inr e => Err (Verifier e)
      end.

Definition connector (s : TlsClientSettings) : outcome TlsError Connector :=
  of_rustls (tl_protocol_versions lib (versions (tc_min_version s))) ;;
  check ← server_check s;
  identity ← match tc_cert_file s, tc_key_file s with
             | Some c, Some k =>
                 certs ← load_certs c;
                 key ← load_key k;
                 of_rustls (tl_pair lib certs key) ;;
                 mret (Some (certs, key))
             | _, _ => mret None
             end;
  mret (mkConnector (versions (tc_min_version s)) check identity).

(** [verify_server_cert] of the three verifiers. *)
Definition verify_server_cert (check : ServerCheck) (chain : list bytes) (name : ustring) : unit + Refusal :=
  match check with
  | NoVerify => inl tt
  | WithName roots => tl_verify lib roots chain name
  | IgnoreHostname roots =>
      match tl_verify lib roots chain name with
      | inr NotValidForName => inl tt
      | other => other
      end
  end.

(** ** The server *)

Definition client_check (s : TlsServerSettings) : outcome TlsError ClientCheck :=
  match ts_ca_file s with
  | Some ca =>
      roots ← load_roots ca;
      let unauthenticated := negb (ts_require_client_cert s) in
      of_rustls (tl_client_verifier lib roots unauthenticated) ;;
      mret (ClientCerts roots unauthenticated)
  | None => mret NoClientAuth
  end.

Definition acceptor (s : TlsServerSettings) : outcome TlsError Acceptor :=
  of_rustls (tl_protocol_versions lib (versions (ts_min_version s))) ;;
  check ← client_check s;
  certs ← load_certs (ts_cert_file s);
  key ← load_key (ts_key_file s);
  of_rustls (tl_pair lib certs key) ;;
  mret (mkAcceptor (versions (ts_min_version s)) check (certs, key)).

Definition server_name (host : ustring) : outcome TlsError ustring :=
  if tl_server_name lib host then mret host else Err (ServerName host).

(** ** The connection of the engine

    [connect] is the system's within a number of milliseconds, [None] when it takes
    longer; [handshake] is the library's. *)
Inductive OpenError : Type :=
  | ConnectTimeout
  | Unreachable (addr text : ustring)
  | TlsConfiguration (e : TlsError)
  | BadName (e : TlsError)
  | HandshakeFailed.

(** [Option::or]. *)
Definition or_else {A} (a b : option A) : option A := match a with Some x => Some x | None => b end.

Definition outbound_tls (defaults : TlsClientSettings) (s : PesitServer) : TlsClientSettings :=
  mkTlsClientSettings
    (or_else (ps_ca_file s) (tc_ca_file defaults)) (or_else (ps_cert_file s) (tc_cert_file defaults))
    (or_else (ps_key_file s) (tc_key_file defaults)) (Some (ps_hostname_verification s))
    (ps_insecure s || tc_insecure defaults)
    (or_else (tc_min_version defaults) (Some V1_2)).

Definition open_server (connect : ustring → Z → option (unit + ustring)) (handshake : Connector → ustring → bool)
    (defaults : TlsClientSettings) (s : PesitServer) : outcome OpenError Framing :=
  let addr := ps_host s ++ lit ":" ++ decimal (ps_port s) in
  match connect addr (Z.max (ps_connection_timeout s) 1000) with
  | None => Err ConnectTimeout
  | Some (inr text) => Err (Unreachable addr text)
  | Some (inl _) =>
      if negb (ps_tls_enabled s) then mret LengthPrefixed
      else
        c ← map_err TlsConfiguration (connector (outbound_tls defaults s));
        name ← map_err BadName (server_name (ps_host s));
        if handshake c name then mret (if ps_tcpip_header s then LengthPrefixed else Raw)
        else Err HandshakeFailed
  end.

(** ** Names of files *)

(** [Path::extension] of the last component: empty ones and dots are none. *)
Definition last_component (path : ustring) : ustring :=
  default [] (last (filter (λ c, c ≠ [] ∧ c ≠ lit ".") (split_on 47 path))).
Fixpoint extension_from (s : ustring) (found : option ustring) (some_before : bool) : option ustring :=
  match s with
  | [] => found
  | c :: s => extension_from s (if (c =? 46) && some_before then Some s else found) true
  end.
Definition extension (path : ustring) : option ustring :=
  let name := last_component path in
  if bool_decide (name = lit "..") then None else extension_from name None false.

Definition is_pem (path : ustring) : bool :=
  match extension path with
  | Some e => same_name e (lit "pem") || same_name e (lit "crt") || same_name e (lit "key")
  | None => false
  end.
End Tls.
