(* ===== verification/TlsProps.v ===== *)
(** * TLS settings: properties

    What a connector takes of a server, what an acceptor asks of a client, and how
    the engine reaches a server. *)

From Stdlib Require Import String.
From S2P Require Import Prelude Diag Ebcdic Params Link Transport DocStore NodeModel Listeners ClientModel Connectors Issuing Tls.
Open Scope Z_scope.

Section Tls.
Context (lib : TlsLibrary).

Lemma of_rustls_ok {A} (r : A + ustring) a : of_rustls r = Ok a → r = inl a.
Proof. destruct r; by intros [= ->]. Qed.

Lemma load_roots_ok path l :
  load_roots lib path = Ok l → load_certs lib path = Ok l ∧ Forall (λ c, tl_add_root lib c = inl tt) l.
Proof.
  unfold load_roots. intros (certs & Hc & (u & Ha & [= <-])%bind_ok)%bind_ok. split; [done|]. clear Hc.
  induction certs as [|c certs IH]; [done|]. cbn in Ha. apply bind_ok in Ha as ([] & Hc%of_rustls_ok & Ha). by constructor; [|apply IH].
Qed.

(** The roots of a client. *)
Definition roots_of (s : TlsClientSettings) (r : Roots) : Prop :=
  match tc_ca_file s, r with
  | None, SystemRoots => True
  | Some ca, Given l => load_certs lib ca = Ok l
  | _, _ => False
  end.

Lemma server_check_ok s check :
  server_check lib s = Ok check →
  if tc_insecure s then check = NoVerify
  else ∃ roots, roots_of s roots ∧ check = (if default true (tc_verify_hostname s) then WithName roots else IgnoreHostname roots).
Proof.
  unfold server_check, roots_of. destruct (tc_insecure s); [by intros [= <-]|].
  intros (roots & Hr & H)%bind_ok. exists roots. split.
  - destruct (tc_ca_file s) as [ca|].
    + apply bind_ok in Hr as (l & Hl & [= <-]). by apply load_roots_ok in Hl as [? _].
    + injection Hr as <-. done.
  - destruct (default true _); [by injection H|]. destruct (tl_server_verifier lib roots); [|done]. by injection H.
Qed.

Lemma versions_min min v : v ∈ versions min → min = Some V1_3 → v = V1_3.
Proof. intros Hv ->. by apply list_elem_of_singleton in Hv. Qed.

Lemma connector_ok s c :
  connector lib s = Ok c → co_versions c = versions (tc_min_version s) ∧ server_check lib s = Ok (co_check c).
Proof. intros ([] & _ & (check & Hc & (i & _ & [= <-])%bind_ok)%bind_ok)%bind_ok. done. Qed.

Lemma acceptor_ok s a :
  acceptor lib s = Ok a → ac_versions a = versions (ts_min_version s) ∧ client_check lib s = Ok (ac_check a)
    ∧ load_certs lib (ts_cert_file s) = Ok (ac_identity a).1 ∧ load_key lib (ts_key_file s) = Ok (ac_identity a).2.
Proof.
  intros ([] & _ & (check & Hc & (certs & H1 & (key & H2 & ([] & _ & [= <-])%bind_ok)%bind_ok)%bind_ok)%bind_ok)%bind_ok. done.
Qed.

Lemma client_check_ok s check :
  client_check lib s = Ok check →
  match ts_ca_file s with
  | None => check = NoClientAuth
  | Some ca => ∃ roots, load_certs lib ca = Ok roots ∧ check = ClientCerts roots (negb (ts_require_client_cert s))
  end.
Proof.
  unfold client_check. destruct (ts_ca_file s) as [ca|]; [|by intros [= <-]].
  intros (roots & [Hr _]%load_roots_ok & ([] & _ & [= <-])%bind_ok)%bind_ok. by exists roots.
Qed.

(** C22: a connection of the engine to a server with TLS, when neither the server nor
    the defaults of the process allow insecure connections, is made with the
    certificates of the given file, or of the system when there is none: a chain of
    the server is taken when it verifies under them for the host of the server, or
    when only the name is wrong and the verification of host names is off for this
    server; and never with a version below the least one of the process. *)
Theorem outbound_verified connect handshake d s f chain :
  open_server lib connect handshake d s = Ok f → ps_tls_enabled s = true → ps_insecure s || tc_insecure d = false →
  ∃ c roots, handshake c (ps_host s) = true ∧ roots_of (outbound_tls d s) roots
    ∧ (tc_min_version d = Some V1_3 → ∀ v, v ∈ co_versions c → v = V1_3)
    ∧ f = (if ps_tcpip_header s then LengthPrefixed else Raw)
    ∧ (verify_server_cert lib (co_check c) chain (ps_host s) = inl tt ↔
       tl_verify lib roots chain (ps_host s) = inl tt
       ∨ ps_hostname_verification s = false ∧ tl_verify lib roots chain (ps_host s) = inr NotValidForName).
Proof.
  unfold open_server. destruct (connect _ _) as [[?|]|]; [|done..]. intros H Ht Hi. rewrite Ht in H. cbn in H.
  apply bind_ok in H as (c & Hc & (name & Hn & H)%bind_ok).
  destruct (connector lib (outbound_tls d s)) as [c'| |] eqn:Ec; [|done..]. injection Hc as ->.
  unfold server_name in Hn. destruct (tl_server_name lib (ps_host s)); [|done]. injection Hn as <-.
  destruct (handshake c (ps_host s)) eqn:Eh; [|done]. injection H as <-.
  apply connector_ok in Ec as [Ev Ek]. apply server_check_ok in Ek. cbn in Ek. rewrite Hi in Ek.
  destruct Ek as (roots & Hr & Ek). exists c, roots. split_and!; try done.
  - intros Hm v Hv. rewrite Ev in Hv. eapply versions_min; [done|]. cbn. by rewrite Hm.
  - rewrite Ek. destruct (ps_hostname_verification s); cbn.
    + split; [by left|]. by intros [?|[]].
    + destruct (tl_verify lib roots chain (ps_host s)) as [[]|[|text]]; naive_solver.
Qed.
End Tls.

(** A library of two files, in which a chain is one root, or has another name. *)
Definition two_files : TlsLibrary :=
  mkTlsLibrary (λ p, if bool_decide (p = lit "ca") then Some [1] else Some [2]) (λ d, Some [d]) (λ d, Some (Some d))
    (λ _, inl tt) (λ _, inl tt) (λ _, inl tt) (λ _ _, inl tt) (λ _ _, inl tt) (λ _, true)
    (λ r chain name, match r with
                     | Given l => if bool_decide (chain = l) then (if bool_decide (name = lit "h") then inl tt else inr NotValidForName)
                                  else inr (OtherRefusal [])
                     | SystemRoots => inr (OtherRefusal [])
                     end).
Definition no_tls_defaults : TlsClientSettings := mkTlsClientSettings (Some (lit "ca")) None None None false (Some V1_3).
Definition tls_server (verify_name : bool) : PesitServer :=
  mkPesitServer (lit "s") (lit "s") (lit "h2") 5000 (lit "S") None true verify_name false None None None false false false
    30000 60000 true false false None None None None.

Example outbound_verified_witness :
  ∃ c : Connector, (∀ v, v ∈ co_versions c → v = V1_3) ∧ verify_server_cert two_files (co_check c) [[9]] (lit "h2") ≠ inl tt.
Proof.
  destruct (outbound_verified two_files (λ _ _, Some (inl tt)) (λ _ _, true) no_tls_defaults (tls_server false) Raw [[9]]
              ltac:(vm_compute; reflexivity) eq_refl eq_refl) as (c & roots & _ & Hr & Hv & _ & H).
  exists c. split; [exact (Hv eq_refl)|]. intros E. apply H in E.
  destruct roots as [|l]; [exact Hr|]. unfold roots_of in Hr. vm_compute in Hr. injection Hr as <-.
  vm_compute in E. destruct E as [E|[_ E]]; discriminate E.
Defined.

(** A listener that requires the certificates of its clients, without a file to
    verify them, asks for none. *)
Example required_but_not_asked :
  acceptor two_files (mkTlsServerSettings (lit "c") (lit "k") None true (Some V1_2))
  = Ok (mkAcceptor TLS12_UP NoClientAuth ([[2]], [2])).
Proof. by vm_compute. Qed.

(** One file of two is no identity. *)
Example half_identity :
  co_identity <$> connector two_files (mkTlsClientSettings None (Some (lit "c")) None None false None) = Ok None.
Proof. by vm_compute. Qed.

Example pem_names :
  map is_pem [lit "a.pem"; lit "d/a.CRT"; lit ".pem"; lit "a.pem/b"; lit "a.key/"; lit "pem"] = [true; true; false; false; true; false].
Proof. by vm_compute. Qed.
