(* ===== verification/Members.v ===== *)
(** * The members of a cluster ([crates/pesit-cluster/src/lib.rs], [crates/pesit-node/src/cluster.rs])

    What a node tells of itself, the members that it sees, the leader, and the
    answer to a node that joins. The buckets of the message server are an interface
    with its laws: an entry is there until its age. *)

From Stdlib Require Import String.
From S2P Require Import Prelude Diag Ebcdic Params Link DocStore NodeModel NodeHandler Schedule ScheduleProps Replicas Monitor.
Open Scope Z_scope.

(** ** The configuration of a member *)

Record ClusterConfig : Type := mkClusterConfig {
  cf_url : ustring;
  cf_name : ustring;
  cf_node_id : ustring;
  cf_node_addr : ustring;
  cf_version : ustring;
  cf_heartbeat : Z;
}.

Definition members_bucket (c : ClusterConfig) : ustring := lit "pesit_" ++ cf_name c ++ lit "_members".
Definition leader_bucket (c : ClusterConfig) : ustring := lit "pesit_" ++ cf_name c ++ lit "_leader".
Definition members_age (c : ClusterConfig) : Z := cf_heartbeat c * 3.
Definition leader_age (c : ClusterConfig) : Z := cf_heartbeat c * 2.
Definition config_subject (c : ClusterConfig) : ustring := lit "pesit." ++ cf_name c ++ lit ".config".
Definition sync_subject (c : ClusterConfig) : ustring := lit "pesit." ++ cf_name c ++ lit ".sync".

(** The stamp of a heartbeat: seconds. *)
Definition stamp (secs : Z) : ustring := lit "@" ++ decimal secs.
Definition member_info (c : ClusterConfig) (secs : Z) : MemberInfo :=
  mkMemberInfo (cf_node_id c) (cf_node_addr c) (cf_version c) (stamp secs).

(** ** A bucket

    What it has at a moment. *)
Class KeyValue (B : Type) : Type := {
  kv_entries_put : Z → ustring → bytes → B → B;
  kv_keys : Z → B → list ustring;
  kv_get : Z → ustring → B → option bytes;
}.

Class KeyValueLaws (B : Type) `{!KeyValue B} (age : Z) : Prop := {
  kv_get_put now t k v (b : B) : t ≤ now → kv_get now k (kv_entries_put t k v b) = if now <? t + age then Some v else None;
  kv_get_other now t k k' v (b : B) : k ≠ k' → kv_get now k (kv_entries_put t k' v b) = kv_get now k b;
  kv_keys_nodup now (b : B) : NoDup (kv_keys now b);
  kv_keys_get now (b : B) k : k ∈ kv_keys now b ↔ is_Some (kv_get now k b);
}.

(** Members by their identifiers. *)
Fixpoint insert_member (m : MemberInfo) (l : list MemberInfo) : list MemberInfo :=
  match l with
  | [] => [m]
  | x :: l => if string_le (mb_node_id m) (mb_node_id x) then m :: x :: l else x :: insert_member m l
  end.
Definition sort_members (l : list MemberInfo) : list MemberInfo := foldr insert_member [] l.

Section Members.
Context {B : Type} `{!KeyValue B} (to_vec : MemberInfo → bytes) (from_slice : bytes → option MemberInfo).

(** A turn of the heartbeat at [now], the clock of the node showing [secs]. *)
Definition heartbeat (now secs : Z) (c : ClusterConfig) (b : B) : B :=
  kv_entries_put now (cf_node_id c) (to_vec (member_info c secs)) b.

(** An entry that is gone or cannot be read is left out. *)
Definition members (now : Z) (b : B) : list MemberInfo :=
  sort_members (omap (λ k, kv_get now k b ≫= from_slice) (kv_keys now b)).
End Members.

(** ** The state of a member *)

Record Cluster : Type := mkCluster { cl_cfg : ClusterConfig; cl_is_leader : bool }.

Definition cluster_new (c : ClusterConfig) : Cluster := mkCluster c false.
Definition set_leader (leads : bool) (c : Cluster) : Cluster := mkCluster (cl_cfg c) leads.

(** A turn of the election, on the bucket of the lease. *)
Definition election {B} `{!Bucket B} (c : Cluster) (b : B) : Cluster * B :=
  let '(b, leads) := leader_tick (cf_node_id (cl_cfg c)) b in (set_leader leads c, b).

(** The answer to a node that joins, when it can be answered. *)
Definition answer_sync (reply : option ustring) (s : Db (Table (Table Json))) : Db (Table (Table Json)) * option Json :=
  match reply with
  | None => (s, None)
  | Some _ => let '(s, snap) := snapshot s in (s, Some snap)
  end.

Record ClusterStatus : Type := mkClusterStatus {
  cs_node_id : ustring;
  cs_is_leader : bool;
  cs_leader : option ustring;
  cs_members : list MemberInfo;
}.

(** [None] without a cluster. *)
Definition cluster_status (cluster : option Cluster) (leader : option ustring) (seen : list MemberInfo) : option ClusterStatus :=
  (λ c, mkClusterStatus (cf_node_id (cl_cfg c)) (cl_is_leader c) leader seen) <$> cluster.

(** ** Properties

    A node sees the members whose last heartbeat is young enough, each once, in
    the order of their identifiers, with what they told last. *)

Lemma insert_member_perm m l : insert_member m l ≡ₚ m :: l.
Proof. induction l as [|x l IH]; cbn; [done|]. case_match; [done|]. rewrite IH. apply Permutation_swap. Qed.

Lemma sort_members_perm l : sort_members l ≡ₚ l.
Proof. induction l as [|x l IH]; [done|]. cbn. fold (sort_members l). rewrite insert_member_perm. by constructor. Qed.

(** The identifiers are sorted as the scheduler sorts them. *)
Lemma insert_member_ids m l : map mb_node_id (insert_member m l) = insert_sorted (mb_node_id m) (map mb_node_id l).
Proof. induction l as [|x l IH]; cbn; [done|]. case_match; cbn; congruence. Qed.

Lemma sort_members_ids l : map mb_node_id (sort_members l) = sorted (map mb_node_id l).
Proof. induction l as [|x l IH]; [done|]. cbn. fold (sort_members l). by rewrite insert_member_ids, IH. Qed.

Section Seen.
Context {B : Type} `{!KeyValue B} (age : Z) `{!KeyValueLaws B age}.
Context (to_vec : MemberInfo → bytes) (from_slice : bytes → option MemberInfo) (read_back : ∀ m, from_slice (to_vec m) = Some m).

(** Heartbeats with their moments and the clocks of the nodes. *)
Record Beat : Type := mkBeat { be_at : Z; be_secs : Z; be_node : ClusterConfig }.

Definition beaten (beats : list Beat) (b : B) : B :=
  foldl (λ b x, heartbeat to_vec (be_at x) (be_secs x) (be_node x) b) b beats.
Definition last_beat (id : ustring) (beats : list Beat) : option Beat := last (filter (λ x, cf_node_id (be_node x) = id) beats).

Lemma beaten_get beats b now id :
  Forall (λ x, be_at x ≤ now) beats → (∀ k, kv_get now k b = None) →
  kv_get now id (beaten beats b) =
    match last_beat id beats with
    | Some x => if now <? be_at x + age then Some (to_vec (member_info (be_node x) (be_secs x))) else None
    | None => None
    end.
Proof.
  intros Hb He. unfold last_beat, beaten. induction beats as [|x beats IH] using rev_ind; [apply He|].
  apply Forall_app in Hb as [Hb Hx]. apply (proj1 (Forall_singleton _ _)) in Hx. specialize (IH Hb).
  rewrite foldl_app, filter_app. cbn [foldl]. unfold heartbeat at 1. rewrite filter_cons. case_decide as Hk.
  - subst id. cbn [filter list_filter]. rewrite last_snoc. by apply kv_get_put.
  - rewrite kv_get_other by done. cbn. by rewrite app_nil_r.
Qed.

(** The members that a node sees at a moment are those whose last heartbeat is
    younger than the age of the bucket, with what they told in it, each of them once,
    in the order of their identifiers that the scheduler uses for its slots; when
    they last beat and who else did makes no difference. *)
Theorem members_live beats b now :
  Forall (λ x, be_at x ≤ now) beats → (∀ k, kv_get now k b = None) →
  let seen := members from_slice now (beaten beats b) in
  NoDup (map mb_node_id seen) ∧ map mb_node_id seen = sorted (map mb_node_id seen)
  ∧ ∀ m, m ∈ seen ↔ ∃ x, last_beat (mb_node_id m) beats = Some x ∧ now < be_at x + age ∧ m = member_info (be_node x) (be_secs x).
Proof.
  intros Hb He seen. unfold seen, members.
  set (raw := omap _ (kv_keys now (beaten beats b))).
  assert (R : ∀ k m, kv_get now k (beaten beats b) ≫= from_slice = Some m ↔
    ∃ x, last_beat k beats = Some x ∧ now < be_at x + age ∧ m = member_info (be_node x) (be_secs x)).
  { intros k m. rewrite beaten_get by done. destruct (last_beat k beats) as [x|]; [|by split; [|intros (?&?&_)]].
    destruct (Z.ltb_spec now (be_at x + age)); cbn; [rewrite read_back|].
    - split; [intros [= <-]; by exists x|by intros (?&[= <-]&_&->)].
    - split; [done|]. intros (?&[= <-]&?&_). lia. }
  assert (K : ∀ k m, kv_get now k (beaten beats b) ≫= from_slice = Some m → mb_node_id m = k).
  { intros k m (x & Hx & _ & ->)%R. apply last_Some in Hx as [l Hx].
    assert (Hin : x ∈ filter (λ x, cf_node_id (be_node x) = k) beats) by (rewrite Hx; set_solver).
    by apply list_elem_of_filter in Hin as [? _]. }
  assert (Hm : ∀ m, m ∈ raw ↔ kv_get now (mb_node_id m) (beaten beats b) ≫= from_slice = Some m).
  { intros m. unfold raw. rewrite list_elem_of_omap. split.
    - intros (k & Hk & H). by rewrite (K _ _ H).
    - intros H. exists (mb_node_id m). split; [|done]. rewrite kv_keys_get. destruct (kv_get _ _ _); [by eexists|done]. }
  assert (Hn : NoDup (map mb_node_id raw)).
  { clear Hm. unfold raw. clear raw. assert (N := kv_keys_nodup (age := age) now (beaten beats b)). induction N as [|k ks Hk N IH]; [constructor|]. cbn.
    destruct (kv_get now k (beaten beats b) ≫= from_slice) as [m|] eqn:E; [|apply IH]. cbn. constructor; [|apply IH].
    rewrite (K _ _ E). intros (m' & E' & (k' & Hk' & H')%list_elem_of_omap)%list_elem_of_fmap. apply K in H'. congruence. }
  split_and!.
  - by rewrite sort_members_perm.
  - rewrite sort_members_ids. apply sorted_canonical. by rewrite sorted_perm.
  - intros m. rewrite sort_members_perm, Hm. apply R.
Qed.
End Seen.

(** A bucket: entries with their moments. *)
#[local] Instance timed (age : Z) : KeyValue (gmap ustring (Z * bytes)) := {|
  kv_entries_put t k v b := <[k := (t, v)]> b;
  kv_keys now b := (map_to_list (filter (λ e, now < e.2.1 + age) b)).*1;
  kv_get now k b := '(t, v) ← b !! k; if now <? t + age then Some v else None;
|}.

Lemma timed_laws age : @KeyValueLaws (gmap ustring (Z * bytes)) (timed age) age.
Proof.
  split; cbn.
  - intros now t k v b _. by rewrite lookup_insert_eq.
  - intros now t k k' v b Hne. by rewrite lookup_insert_ne.
  - intros now b. apply NoDup_fst_map_to_list.
  - intros now b k. rewrite list_elem_of_fmap. split.
    + intros ([k0 [t v]] & -> & H%elem_of_map_to_list). apply map_lookup_filter_Some in H as [E H]. cbn in *.
      rewrite E. cbn. rewrite (proj2 (Z.ltb_lt _ _)) by done. by eexists.
    + destruct (b !! k) as [[t v]|] eqn:E; [|by intros []]. cbn. destruct (Z.ltb_spec now (t + age)); [|by intros []].
      intros _. exists (k, (t, v)). split; [done|]. apply elem_of_map_to_list, map_lookup_filter_Some. done.
Qed.

(** Three nodes beat; one of them is silent for longer than the age. *)
Example silent_member_gone :
  let to_vec m := mb_node_id m in let from_slice v := Some (mkMemberInfo v [] [] (stamp 0)) in
  let node id := mkClusterConfig [] [] id [] [] 5 in
  let beats := [mkBeat 0 0 (node (lit "b")); mkBeat 3 0 (node (lit "c")); mkBeat 9 0 (node (lit "a")); mkBeat 12 0 (node (lit "c"))] in
  map mb_node_id (@members _ (timed 10) from_slice 15 (@beaten _ (timed 10) to_vec beats ∅)) = [lit "a"; lit "c"].
Proof. by vm_compute. Qed.
