(* ===== verification/Uploads.v ===== *)
(** * Certificates and transfers at the client's interface ([crates/pesit-client/src/api.rs])

    The upload of certificate files for a server, the test of its connection, and
    the requests of transfers with their answers. The parts of a form are what a
    library reads of it; a call on the disk takes the next fault. *)

From Stdlib Require Import String.
From S2P Require Import Prelude Diag Ebcdic Params Builder Checkpoint Link Datapath Requester Transport DocStore ClientModel ClientEngine ClientApi ClientProps Tls.
Open Scope Z_scope.

(** ** The parts of a form *)

Record Part : Type := mkPart {
  pt_name : option ustring;
  pt_file_name : option ustring;
  pt_bytes : bytes + ustring;
  pt_text : option ustring;
}.

Record Upload : Type := mkUpload { up_data : bytes; up_name : ustring; up_password : option ustring }.

Definition bad {A} (text : ustring) : A + ApiError := inr (mkApiError BadRequest (Some text)).

(** The loop over the parts; an error of the form ends it. *)
Fixpoint read_parts (parts : list (Part + ustring)) (u : Upload) : Upload + ApiError :=
  match parts with
  | [] => inl u
  | inr e :: _ => bad e
  | inl p :: parts =>
      let name := default [] (pt_name p) in
      if bool_decide (name = lit "file") then
        match pt_bytes p with
        | inl data => read_parts parts (mkUpload data (default (lit "upload") (pt_file_name p)) (up_password u))
        | inr e => bad e
        end
      else if bool_decide (name = lit "password") then read_parts parts (mkUpload (up_data u) (up_name u) (filled (pt_text p)))
      else read_parts parts u
  end.

Definition read_upload (parts : list (Part + ustring)) : Upload + ApiError :=
  match read_parts parts (mkUpload [] [] None) with
  | inr e => inr e
  | inl u => match up_data u with [] => bad (lit "missing 'file' part") | _ => inl u end
  end.

(** ** The application

    The engine, the files of the uploads by their paths, and what the next calls on
    the disk do: a write that fails leaves a text, or nothing. *)
Inductive DiskCall : Type := Works | Fails (remains : option bytes).

Record ClientApp : Type := mkClientApp {
  ca_engine : Engine;
  ca_tls_dir : ustring;
  ca_files : gmap ustring bytes;
  ca_calls : list DiskCall;
}.

Abbreviation AppM := (ApiM ClientApp).

Definition set_ca_engine (e : Engine) (a : ClientApp) : ClientApp := mkClientApp e (ca_tls_dir a) (ca_files a) (ca_calls a).

Definition on_engine {A} (x : Api A) : AppM A := λ a, let '(e, r) := x (ca_engine a) in (set_ca_engine e a, r).
Definition answered {A} (r : A + ApiError) : AppM A := λ a, (a, r).

Definition next_call (a : ClientApp) : ClientApp * DiskCall :=
  (mkClientApp (ca_engine a) (ca_tls_dir a) (ca_files a) (tail (ca_calls a)), default Works (head (ca_calls a))).

Definition create_dir_all : AppM unit := λ a,
  match next_call a with
  | (a, Works) => (a, inl tt)
  | (a, Fails _) => (a, inr (mkApiError Internal None))
  end.

Definition write_upload (path : ustring) (data : bytes) : AppM unit := λ a,
  let wrote x (a : ClientApp) := mkClientApp (ca_engine a) (ca_tls_dir a) (<[path := x]> (ca_files a)) (ca_calls a) in
  match next_call a with
  | (a, Works) => (wrote data a, inl tt)
  | (a, Fails (Some remains)) => (wrote remains a, inr (mkApiError Internal None))
  | (a, Fails None) => (a, inr (mkApiError Internal None))
  end.

(** [Path::join]. *)
Definition join_path (dir name : ustring) : ustring :=
  if is_absolute name then name
  else if is_empty dir || bool_decide (last dir = Some 47) then dir ++ name
  else dir ++ [47] ++ name.

(** ** Uploads *)

(** What is answered: the number of certificates that were found, or the text of an
    error in an answer of success. *)
Definition keep_file (now : ustring) (name : ustring) (data : bytes) (place : ustring → PesitServer → PesitServer) (s : PesitServer)
    : AppM unit :=
  dir ← api_gets ca_tls_dir;
  create_dir_all ;;
  let path := join_path (join_path dir (ps_id s)) name in
  write_upload path data ;;
  on_engine (put_server (set_ps_updated_at (Some now) (refresh_tls_flags (place path s)))).

Definition upload_truststore (now id : ustring) (parts : list (Part + ustring)) : AppM (nat + ustring) :=
  s ← on_engine (find_server id);
  u ← answered (read_upload parts);
  if negb (ClientApi.is_pem (up_data u))
  then mret (inr (lit "'" ++ up_name u ++ lit "' is not a PEM file: PKCS#12 truststores are not supported, upload the CA certificate(s) in PEM format"))
  else
    let certs := rustls_pem_count (up_data u) in
    if (certs =? 0)%nat then mret (inr (lit "no certificate found in the uploaded file"))
    else keep_file now (lit "ca.pem") (up_data u) (λ p s, set_ps_tls_enabled true (set_ps_ca_file (Some p) s)) s ;; mret (inl certs).

Definition upload_keystore (now id : ustring) (parts : list (Part + ustring)) : AppM (unit + ustring) :=
  s ← on_engine (find_server id);
  u ← answered (read_upload parts);
  if negb (ClientApi.is_pem (up_data u))
  then mret (inr (lit "'" ++ up_name u ++ lit "' is not a PEM file: upload a PEM bundle containing the client certificate and its private key"))
  else keep_file now (lit "client.pem") (up_data u) (λ p s, set_ps_key_file (Some p) (set_ps_cert_file (Some p) s)) s ;; mret (inl tt).

(** ** The test of a connection

    Its time in milliseconds is that of the clock. *)
Definition test_server (lib : TlsLibrary) (connect : ustring → Z → option (unit + ustring)) (handshake : Connector → ustring → bool)
    (defaults : TlsClientSettings) (elapsed : Z) (error_text : OpenError → ustring) (id : ustring) : AppM (outcome ustring (ustring * Z)) :=
  s ← on_engine (find_server id);
  mret (match open_server lib connect handshake defaults s with
        | Ok _ => Ok (lit "connected to " ++ ps_host s ++ lit ":" ++ decimal (ps_port s) ++ lit " in " ++ decimal elapsed ++ lit " ms", elapsed)
        | Err e => Err (error_text e)
        | Panic => Panic
        end).

(** ** Transfers

    A request that is accepted is answered with the record of its transfer, which
    goes on in a task. *)
Section Transfers.
Context (parse_millis : ustring → option Z).

Definition accepted_transfer (x : Api Task) : AppM (Task * TransferResponse) :=
  t ← on_engine x; mret (t, response_of parse_millis (ta_history t)).

Definition send_call (su : Submission) (req : TransferRequest) : AppM (Task * TransferResponse) := accepted_transfer (submit_send su req).
Definition receive_call (su : Submission) (req : TransferRequest) : AppM (Task * TransferResponse) := accepted_transfer (submit_receive su req).
Definition retry_call (su : Submission) (id : ustring) : AppM (Task * TransferResponse) := accepted_transfer (retry su id).
Definition replay_call (su : Submission) (id : ustring) : AppM (Task * TransferResponse) := accepted_transfer (replay su id).

Definition message_call (fuel : nat) (su : Submission) (now : ustring) (w : Attempt) (req : MessageRequest) : AppM (option TransferResponse) :=
  on_engine (send_message_request parse_millis fuel su now w req).

Definition get_transfer_call (id : ustring) : AppM TransferHistory :=
  found ← on_engine (get_transfer id);
  match found with
  | Some h => mret h
  | None => answered (inr (mkApiError NotFound_ (Some (lit "transfer '" ++ id ++ lit "' not found"))))
  end.
End Transfers.

Definition list_servers_call : AppM (list PesitServer) := on_engine (stored list_servers).
Definition server_by_name (name : ustring) : AppM PesitServer := on_engine (find_server name).
Definition get_server_call (id : ustring) : AppM PesitServer := on_engine (find_server id).
Definition list_partners_call : AppM (list Identity) := on_engine (stored list_identities).

(** ** Properties

    An upload that is accepted is the one that a connection uses; one that fails
    leaves the documents as they are. *)

(** The documents of the servers, as the application has them. *)
Definition server_docs (e : Engine) : Table PesitServer := servers (docs (en_store e)).

(** Reading changes no document. *)
Lemma find_server_docs id e : server_docs (find_server id e).1 = server_docs e.
Proof.
  unfold find_server, get_server_doc, stored, mbind, Api_bind, db_statement, list_servers, server_docs.
  destruct (default false (head (db_faults (en_store e)))); cbn; [done|].
  destruct (table_get id _); cbn; [done|]. unfold db_statement. cbn.
  destruct (default false (head (tail (db_faults (en_store e))))); cbn; [done|]. by destruct (List.find _ _).
Qed.

Lemma put_server_docs s e :
  match put_server s e with
  | (e', inl _) => server_docs e' = table_put (ps_id s) s (server_docs e)
  | (e', inr _) => server_docs e' = server_docs e
  end.
Proof.
  unfold put_server, stored, db_statement, server_docs. by destruct (default false (head (db_faults (en_store e)))).
Qed.

(** The steps of keeping a file: the disk, then the document. *)
Lemma keep_file_cases now name data place s a :
  let path := join_path (join_path (ca_tls_dir a) (ps_id s)) name in
  let s' := set_ps_updated_at (Some now) (refresh_tls_flags (place path s)) in
  match keep_file now name data place s a with
  | (a', inl _) => ca_files a' !! path = Some data
      ∧ server_docs (ca_engine a') = table_put (ps_id s') s' (server_docs (ca_engine a))
  | (a', inr _) => server_docs (ca_engine a') = server_docs (ca_engine a)
  end.
Proof.
  intros path s'. unfold keep_file, mbind, Api_bind, api_gets, create_dir_all, next_call. fold path. fold s'.
  destruct (default Works (head (ca_calls a))); [|done]. cbn. unfold write_upload, next_call. cbn.
  destruct (default Works (head (tail (ca_calls a)))) as [|[remains|]]; [|done..]. unfold on_engine. cbn.
  assert (P := put_server_docs s' (ca_engine a)). destruct (put_server s' (ca_engine a)) as [e [[]|err]]; cbn; [|done].
  by rewrite lookup_insert_eq.
Qed.

(** The authorities that are uploaded for a server are those of its connections: when
    an upload is accepted, the file has the bytes of the form, with at least one
    certificate in them, and the document of the server tells this file, whatever
    the defaults of the process; anything else, whichever step fails, leaves the
    documents as they are. *)
Theorem uploads_used now id parts a a' r :
  upload_truststore now id parts a = (a', r) →
  match r with
  | inl (inl n) =>
      ∃ u s path, read_upload parts = inl u ∧ n = rustls_pem_count (up_data u) ∧ (0 < n)%nat
        ∧ ca_files a' !! path = Some (up_data u)
        ∧ table_get (ps_id s) (server_docs (ca_engine a')) = Some s ∧ ps_truststore_configured s = true ∧ ps_tls_enabled s = true
        ∧ ∀ d, tc_ca_file (outbound_tls d s) = Some path
  | inl (inr _) => server_docs (ca_engine a') = server_docs (ca_engine a) ∧ ca_files a' = ca_files a
  | inr _ => server_docs (ca_engine a') = server_docs (ca_engine a)
  end.
Proof.
  unfold upload_truststore, mbind, Api_bind. unfold on_engine at 1. assert (F := find_server_docs id (ca_engine a)).
  destruct (find_server id (ca_engine a)) as [e [s|err]]; cbn [fst] in F; [|by intros [= <- <-]].
  unfold answered. destruct (read_upload parts) as [u|err] eqn:Eu; [|by intros [= <- <-]].
  destruct (negb (ClientApi.is_pem (up_data u))); [by intros [= <- <-]|].
  destruct (Nat.eqb_spec (rustls_pem_count (up_data u)) 0) as [|Hn]; [by intros [= <- <-]|].
  match goal with |- context [keep_file ?n ?f ?x ?p ?s ?b] => assert (K := keep_file_cases n f x p s b); destruct (keep_file n f x p s b) as [a1 [[]|err]] end;
    intros [= <- <-]; cbn in K; [|congruence].
  destruct K as [K1 K2]. match type of K2 with _ = table_put _ ?x _ => exists u, x end. eexists.
  split_and!; [done|done|lia|exact K1|rewrite K2; apply table_get_put_eq|done|done|done].
Qed.

(** A truststore and a keystore are told apart by one marker only, and a certificate
    without a key is taken for a keystore. *)
Example certificate_as_keystore :
  let data := Ebcdic.utf8 (lit "-----BEGIN CERTIFICATE-----") in
  let s := set_ps_id (lit "S") pesit_server_default in
  let e := mkEngine (mkDb (mkTables [(lit "S", s)] [] [] []) []) (mkEngineSettings [] [] [] 0 0 0 0) ∅ (λ _, Checkpoint.mkDisk None None) [] in
  let a := mkClientApp e (lit "/tls") ∅ [] in
  let r := upload_keystore [] (lit "S") [inl (mkPart (Some (lit "file")) None (inl data) None)] a in
  r.2 = inl (inl tt) ∧ ca_files r.1 !! lit "/tls/S/client.pem" = Some data
  ∧ (ps_keystore_configured <$> table_get (lit "S") (server_docs (ca_engine r.1))) = Some true.
Proof. by vm_compute. Qed.
