(* ===== verification/Process.v ===== *)
(** * The process of the node ([crates/pesit-node/src/config.rs], [crates/pesit-node/src/main.rs])

    The options with their defaults, what they mean for TLS and for the engine, the
    bootstrap file and its reload, the commands that run once, the backup without
    the interface, and the start. Command lines, YAML and signals are parsed by
    libraries. *)

From Stdlib Require Import String.
From S2P Require Import Prelude Diag Ebcdic Params Link DocStore ClientModel ClientEngine NodeModel Listeners Replicas Admin Connectors Certs Issuing Tls Monitor Members.
Open Scope Z_scope.

(** ** Options *)

Definition min_tls (protocol : ustring) : TlsVersion :=
  let upper := map to_upper protocol in
  if bool_decide (upper = lit "TLSV1.3") || bool_decide (upper = lit "TLS1.3") || bool_decide (upper = lit "1.3")
  then V1_3 else V1_2.

Record NodeOptions : Type := mkNodeOptions {
  no_api_port : Z;
  no_transfer_port : Z;
  no_api_bind : ustring;
  no_api_key : option ustring;
  no_security_enabled : bool;
  no_db : ustring;
  no_pki_dir : ustring;
  no_checkpoint_dir : ustring;
  no_client_checkpoint_dir : ustring;
  no_receive_dir : ustring;
  no_client_tls_dir : ustring;
  no_client_id : ustring;
  no_config : option ustring;
  no_cert_rotation_days : Z;
  no_audit_max_entries : Z;
  no_node_id : ustring;
  no_cluster_nats : option ustring;
  no_cluster_name : ustring;
  no_advertise_addr : option ustring;
  no_client_sync_kb : Z;
  no_client_sync_window : Z;
  no_client_record_length : Z;
  no_client_max_entity : Z;
  no_ssl_enabled : bool;
  no_ssl_cert : option ustring;
  no_ssl_key : option ustring;
  no_ssl_ca : option ustring;
  no_ssl_client_auth : ustring;
  no_ssl_protocol : ustring;
  no_client_ssl_ca : option ustring;
  no_client_ssl_cert : option ustring;
  no_client_ssl_key : option ustring;
  no_client_ssl_insecure : bool;
  no_client_ssl_protocol : ustring;
}.

(** The options of a command line without arguments. *)
Definition node_options_default : NodeOptions :=
  mkNodeOptions 8080 9081 (lit "0.0.0.0") None true (lit "/data/pesitwizard.db") (lit "/data/pki")
    (lit "/data/checkpoints") (lit "/data/checkpoints-out") (lit "/data/received") (lit "/data/tls") (lit "PWCLIENT") None
    0 50000 (lit "node-1") None (lit "default") None 100 4 4096 65535
    false None None None (lit "NONE") (lit "TLSv1.2") None None None false (lit "TLSv1.2").

Definition listener_tls (o : NodeOptions) : option TlsServerSettings + ustring :=
  if negb (no_ssl_enabled o) then inl None
  else
    match no_ssl_cert o, no_ssl_key o with
    | Some cert, Some key =>
        inl (Some (mkTlsServerSettings cert key (no_ssl_ca o) (same_name (no_ssl_client_auth o) (lit "NEED"))
                     (Some (min_tls (no_ssl_protocol o)))))
    | _, _ => inr (lit "PESIT_SSL_ENABLED is set but PESIT_SSL_CERT_PATH / PESIT_SSL_KEY_PATH are missing")
    end.

Definition client_tls_defaults (o : NodeOptions) : TlsClientSettings :=
  mkTlsClientSettings (no_client_ssl_ca o) (no_client_ssl_cert o) (no_client_ssl_key o) None (no_client_ssl_insecure o)
    (Some (min_tls (no_client_ssl_protocol o))).

(** The settings of the engine, with those of its TLS connections beside them. *)
Definition engine_settings (o : NodeOptions) : EngineSettings * TlsClientSettings :=
  (mkEngineSettings (no_client_checkpoint_dir o) (no_receive_dir o) (no_client_id o) (no_client_sync_kb o)
     (no_client_sync_window o) (no_client_record_length o) (no_client_max_entity o), client_tls_defaults o).

(** ** The bootstrap file *)

Record Bootstrap : Type := mkBootstrap {
  bs_partners : list Partner;
  bs_files : list VirtualFile;
  bs_remote_partners : list RemotePartner;
  bs_servers : list PesitServerConfig;
}.

(** The tables of the node, and that of the remote partners, with its own faults. *)
Record Boot : Type := mkBoot { bo_store : Store; bo_remote : Db (Table RemotePartner) }.

(** A step that may fail, and then ends the bootstrap. *)
Definition BootM (A : Type) : Type := Boot → Boot * option A.

#[global] Instance BootM_ret : MRet BootM := λ _ a b, (b, Some a).
#[global] Instance BootM_bind : MBind BootM := λ _ _ f x b,
  match x b with
  | (b, Some a) => f a b
  | (b, None) => (b, None)
  end.

Definition on_node {A} (op : Store → Store * option A) : BootM A := λ b,
  let '(s, r) := op (bo_store b) in (mkBoot s (bo_remote b), r).
Definition on_remote {A} (op : Table RemotePartner → Table RemotePartner * A) : BootM A := λ b,
  let '(d, r) := db_statement op (bo_remote b) in (mkBoot (bo_store b) d, r).

Definition set_partners (t : Table Partner) (s : Store) : Store :=
  mkStore t (virtual_files s) (servers s) (transfers s) (counters s) (st_faults s).
Definition set_virtual_files (t : Table VirtualFile) (s : Store) : Store :=
  mkStore (partners s) t (servers s) (transfers s) (counters s) (st_faults s).

(** The clock is read for each entry; an entry keeps a creation that it tells. *)
Definition put_partner (c : Clock) (p : Partner) : BootM unit :=
  on_node (statement (λ s, (set_partners (table_put (p_id p) (touch c false p) (partners s)) s, tt))).
Definition put_file (c : Clock) (v : VirtualFile) : BootM unit :=
  on_node (statement (λ s, (set_virtual_files (table_put (vf_id v) (touch c false v) (virtual_files s)) s, tt))).
Definition put_remote (c : Clock) (r : RemotePartner) : BootM unit :=
  let made := match rp_created_at r with Some t => Some t | None => Some (now_created c) end in
  on_remote (λ t, (table_put (rp_id r) (set_times made (rp_updated_at r) r) t, tt)).

Definition with_clock (c : Clock) (n : Z) (s : PesitServerConfig) : PesitServerConfig :=
  let made := match sc_created_at s with Some t => t | None => now_created c end in
  mkPesitServerConfig (Some n) (sc_server_id s) (sc_port s) (sc_bind_address s) (sc_protocol_version s)
    (sc_max_connections s) (sc_connection_timeout s) (sc_read_timeout s) (sc_receive_directory s)
    (sc_send_directory s) (sc_max_entity_size s) (sc_sync_points_enabled s) (sc_sync_interval_kb s)
    (sc_sync_window s) (sc_resync_enabled s) (sc_auto_start s) (sc_ssl_enabled s) (sc_ssl_keystore s)
    (sc_ssl_truststore s) (sc_tcpip_header s) (sc_compression s) (sc_status s) (Some made) (Some (now_updated c))
    (sc_last_started_at s) (sc_last_stopped_at s).

Definition put_server (c : Clock) (s : PesitServerConfig) : BootM unit :=
  n ← match sc_id s with Some n => mret n | None => on_node (next_counter (lit "server_id")) end;
  on_node (put_server_doc (sc_server_id s) (with_clock c n s)).

Fixpoint each {A} (f : A → BootM unit) (l : list A) : BootM unit :=
  match l with
  | [] => mret tt
  | x :: l => f x ;; each f l
  end.

Definition bootstrap (c : Clock) (boot : Bootstrap) : BootM unit :=
  each (put_partner c) (bs_partners boot) ;;
  each (put_file c) (bs_files boot) ;;
  each (put_remote c) (bs_remote_partners boot) ;;
  each (put_server c) (bs_servers boot).

(** ** The reload

    The signal of a running node: the file is read again, and the listeners that
    start with the process are started. The outcome tells whether it was applied. *)
Definition reload (c : Clock) (ws : nat → Call) (loaded : option Bootstrap) (remote : Db (Table RemotePartner)) (m : ServerManager)
    : ServerManager * Db (Table RemotePartner) * bool :=
  match loaded with
  | None => (m, remote, false)
  | Some boot =>
      match bootstrap c boot (mkBoot (sm_store m) remote) with
      | (b, Some _) => ((start_auto ws (set_sm_store (bo_store b) m)).1, bo_remote b, true)
      | (b, None) => (set_sm_store (bo_store b) m, bo_remote b, false)
      end
  end.

(** ** The commands that run once *)

Record Target : Type := mkTarget {
  tg_host : ustring;
  tg_port : Z;
  tg_server_id : ustring;
  tg_partner : option ustring;
  tg_password : option ustring;
  tg_tls : bool;
  tg_crc : bool;
  tg_no_sync : bool;
  tg_sync_kb : option Z;
  tg_preconnect_id : option ustring;
  tg_preconnect_password : option ustring;
  tg_no_tcpip_header : bool;
}.

Definition target_default : Target :=
  mkTarget (lit "127.0.0.1") 5001 (lit "PWSERVER") None None false false false None None None false.

Definition target_server (t : Target) : PesitServer :=
  mkPesitServer (lit "cli") (lit "cli") (tg_host t) (tg_port t) (tg_server_id t) None (tg_tls t) false false None None None
    (negb (tg_no_tcpip_header t)) false false 30000 60000 true false (tg_crc t) (tg_preconnect_id t)
    (tg_preconnect_password t) None None.

(** The server of the command stays in the store under its name. *)
Definition register_cli_server (c : Clock) (s : PesitServer) : Api PesitServer :=
  let s := set_ps_updated_at (Some (now_updated c)) (set_ps_created_at (Some (now_created c)) s) in
  stored (db_statement (λ d, (set_servers (table_put (ps_id s) s (ClientEngine.servers d)) d, tt))) ;;
  mret s.

Definition send_request (t : Target) (server file remote : ustring) (text compress : bool) : TransferRequest :=
  mkTransferRequest (Some server) (tg_partner t) (tg_password t) (Some file) (Some remote) None None None None
    (Some compress) None (Some (negb (tg_no_sync t))) None (tg_sync_kb t) None None None (Some text) None
    (Some (tg_crc t)) None None None None None.
Definition receive_request (t : Target) (server remote : ustring) (file : option ustring) (text : bool) : TransferRequest :=
  mkTransferRequest (Some server) (tg_partner t) (tg_password t) file (Some remote) None None None None
    None None (Some (negb (tg_no_sync t))) None (tg_sync_kb t) None None None (Some text) None
    (Some (tg_crc t)) None None None None None.
Definition message_request (t : Target) (server message : ustring) (reply : bool) : MessageRequest :=
  mkMessageRequest (Some server) (tg_partner t) (tg_password t) message None None reply.

Definition cli_send (c : Clock) (su : Submission) (t : Target) (file remote : ustring) (text compress : bool) : Api Task :=
  server ← register_cli_server c (target_server t);
  submit_send su (send_request t (ps_name server) file remote text compress).
Definition cli_receive (c : Clock) (su : Submission) (t : Target) (remote : ustring) (file : option ustring) (text : bool) : Api Task :=
  server ← register_cli_server c (target_server t);
  submit_receive su (receive_request t (ps_name server) remote file text).
Definition cli_message (fuel : nat) (c : Clock) (su : Submission) (parse_millis : ustring → option Z) (now : ustring) (w : Attempt)
    (t : Target) (message : ustring) (reply : bool) : Api (option TransferResponse) :=
  server ← register_cli_server c (target_server t);
  send_message_request parse_millis fuel su now w (message_request t (ps_name server) message reply).

(** How a command ends: with the status 0 or 1, or with an error. *)
Inductive Exit : Type := Exited (status : Z) | Failed (text : option ustring).

Definition exit_of (s : Outbound.TransferStatus) : Exit :=
  match s with Outbound.Completed => Exited 0 | _ => Exited 1 end.

(** The polls of the wait, each one what [Engine::get] answers; [None] when they are
    over and the transfer is not. *)
Fixpoint wait_and_report (id : ustring) (polls : list (option (option TransferHistory))) : option Exit :=
  match polls with
  | [] => None
  | None :: _ => Some (Failed None)
  | Some None :: _ => Some (Failed (Some (lit "transfer " ++ id ++ lit " vanished")))
  | Some (Some h) :: polls =>
      if Outbound.is_final (th_status h) then Some (exit_of (th_status h)) else wait_and_report id polls
  end.

(** ** Backup without the interface *)

Section Backup.
Context (to_vec : Json → bytes) (encode : bytes → ustring) (decode : ustring → option bytes).
Context (verify_bytes : ustring → bytes → bytes → bool + ustring).

(** The certificates, when they can be opened: their signature and their material. *)
Definition offline_export (now version : ustring) (pki : option ((bytes → option bytes) * Json)) : Q Json :=
  tables ← dump;
  let material := match pki with Some p => p.2 | None => Null end in
  let bundle := object [(lit "version", Number 1); (lit "generatedAt", Text now); (lit "node", Text version);
                        (lit "tables", tables); (lit "pki", material)] in
  mret (sign_bundle to_vec encode (match pki with Some p => p.1 | None => λ _, None end) bundle).

Inductive ImportError : Type := NotJson (text : ustring) | NoTables | NotRestored (e : RestoreError).

(** A bundle, or the map of its tables alone. *)
Definition offline_import (parse : ustring → Json + ustring) (import_material : option (Json → unit + ustring)) (text : ustring)
    (s : Db (Table (Table Json))) : Db (Table (Table Json)) * (nat + ImportError) :=
  match parse text with
  | inr e => (s, inr (NotJson e))
  | inl bundle =>
      match verify_bundle to_vec decode verify_bytes bundle with
      | inr e => (s, inr (NotRestored (Rejected e)))
      | inl _ =>
          match as_object (default bundle (get (lit "tables") bundle)) with
          | None => (s, inr NoTables)
          | Some tables =>
              match apply_tables tables s with
              | (s, None) => (s, inr (NotRestored Database))
              | (s, Some restored) =>
                  match get (lit "pki") bundle, import_material with
                  | Some Null, _ | None, _ | _, None => (s, inl restored)
                  | Some v, Some import =>
                      match import v with inl _ => (s, inl restored) | inr e => (s, inr (NotRestored (Material e))) end
                  end
              end
          end
      end
  end.
End Backup.

(** ** The start *)


(** A node is a member when it has the address of the servers. *)
Definition cluster_config (hostname : option ustring) (version : ustring) (o : NodeOptions) : option ClusterConfig :=
  url ← filled (no_cluster_nats o);
  let addr := match no_advertise_addr o with
              | Some a => a
              | None => default (no_api_bind o) (filled hostname) ++ lit ":" ++ decimal (no_api_port o)
              end in
  Some (mkClusterConfig url (no_cluster_name o) (no_node_id o) addr version 5).

(** The key of the interface; [header] is the library's check of a header value. *)
Definition api_key (header : ustring → bytes + ustring) (o : NodeOptions) : option bytes + ustring :=
  if no_security_enabled o then
    match filled (no_api_key o) with
    | Some k => match header k with inl v => inl (Some v) | inr e => inr e end
    | None => inl None
    end
  else inl None.

(** What the process finds when it starts: the cluster, the certificates, the calls
    of the listeners, and the sockets of the two interfaces. *)
Record World : Type := mkWorld {
  wo_hostname : option ustring;
  wo_version : ustring;
  wo_join : ClusterConfig → option ustring;
  wo_pki : option PkiFiles;
  wo_calls : nat → Call;
  wo_header : ustring → bytes + ustring;
  wo_bind : ustring → unit + ustring;
}.

Record Node : Type := mkNode {
  nd_cluster : option ustring;
  nd_manager : ServerManager;
  nd_rotates : bool;
  nd_reloads : bool;
  nd_api_key : option bytes;
  nd_admin_addr : ustring;
  nd_transfer_addr : ustring;
}.

Definition http_address (o : NodeOptions) (port : Z) : ustring := no_api_bind o ++ lit ":" ++ decimal port.

(** The listeners are started before the interfaces; an error after it ends the
    process as well. The tables are those that the manager leaves. *)
Definition serve (w : World) (o : NodeOptions) (store : Store) : Store * (Node + ustring) :=
  let cluster := cfg ← cluster_config (wo_hostname w) (wo_version w) o; wo_join w cfg in
  match listener_tls o with
  | inr e => (store, inr e)
  | inl tls =>
      let settings := mkListenerSettings (no_checkpoint_dir o) (no_node_id o) tls (wo_pki w) in
      let manager := (start_auto (wo_calls w) (manager_new store settings)).1 in
      let ends e := (sm_store manager, inr e) in
      let rotates := (0 <? no_cert_rotation_days o) && bool_decide (is_Some (wo_pki w)) in
      match api_key (wo_header w) o with
      | inr e => ends e
      | inl key =>
          match wo_bind w (http_address o (no_api_port o)) with
          | inr e => ends e
          | inl _ =>
              match wo_bind w (http_address o (no_transfer_port o)) with
              | inr e => ends e
              | inl _ =>
                  (sm_store manager,
                   inl (mkNode cluster manager rotates (bool_decide (is_Some (no_config o))) key
                          (http_address o (no_api_port o)) (http_address o (no_transfer_port o))))
              end
          end
      end
  end.

(** The end. The two interfaces run until the signal or an error of one of them;
    [run] is what the requests, the sessions and the reloads make of the manager
    until then, with the result of the interfaces. The listeners are stopped,
    and the result is that of the process. The runtime is dropped when [main]
    returns, and with it the tasks of the sessions that go on, wherever they
    wait: what remains is the tables. When the start fails, after the listeners
    have been started as well as before, the process ends at once (connections
    that arrive in between are left out). *)
Record Ending : Type := mkEnding { ex_store : Store; ex_result : unit + ustring }.

Definition shutdown (ws : nat → Call) (m : ServerManager) (served : unit + ustring) : Ending :=
  mkEnding (sm_store (stop_all ws m).1) served.

Definition serve_to_end (w : World) (o : NodeOptions) (run : Node → ServerManager * (unit + ustring)) (ws : nat → Call)
    (store : Store) : Ending :=
  match serve w o store with
  | (s, inr e) => mkEnding s (inr e)
  | (s, inl n) => let '(m, served) := run n in shutdown ws m served
  end.
