(* ===== verification/ProcessProps.v ===== *)
(** * The process of the node: properties

    What a bootstrap file makes of the tables, what a reload and a shutdown do to
    the listeners, and the backup without the interface. *)

From Stdlib Require Import String.
From S2P Require Import Prelude Diag Ebcdic Params Link DocStore ClientModel ClientEngine NodeModel NodeHandler Listeners ListenersProps Replicas Admin Connectors Certs Issuing Tls TlsProps Process.
Open Scope Z_scope.

(** ** The bootstrap *)

(** The last entry of a list under a name. *)
Definition last_with {A} (key : A → ustring) (id : ustring) (l : list A) : option A := last (filter (λ x, key x = id) l).

Definition boot_healthy (b : Boot) : Prop := st_faults (bo_store b) = [] ∧ healthy (bo_remote b).

Section Each.
(** A step that puts the document of an entry in a table and leaves the rest. *)
Context {A V X : Type} (f : A → BootM unit) (key : A → ustring) (D : A → V → Prop) (tab : Boot → Table V) (rest : Boot → X).
Context (step : ∀ x b, boot_healthy b →
  ∃ b' v, f x b = (b', Some tt) ∧ boot_healthy b' ∧ D x v ∧ tab b' = table_put (key x) v (tab b) ∧ rest b' = rest b).

Lemma each_puts l b : boot_healthy b →
  ∃ b', each f l b = (b', Some tt) ∧ boot_healthy b' ∧ rest b' = rest b
    ∧ ∀ id, match last_with key id l with
            | Some x => ∃ v, table_get id (tab b') = Some v ∧ D x v
            | None => table_get id (tab b') = table_get id (tab b)
            end.
Proof.
  induction l as [|x l IH] in b |- *; intros Hb; [by exists b|].
  destruct (step x b Hb) as (b1 & v & E1 & H1 & Hv & T1 & R1). destruct (IH b1 H1) as (b2 & E2 & H2 & R2 & G).
  exists b2. cbn [each]. unfold mbind, BootM_bind. rewrite E1, E2. split_and!; [done|done|congruence|].
  intros id. specialize (G id). unfold last_with in *. rewrite filter_cons. case_decide as Hk.
  - subst id. rewrite last_cons. destruct (last (filter _ l)); [done|]. exists v. by rewrite G, T1, table_get_put_eq.
  - destruct (last (filter _ l)); [done|]. by rewrite G, T1, table_get_put_ne.
Qed.
End Each.

Lemma put_server_step c s b : boot_healthy b →
  ∃ b' v, put_server c s b = (b', Some tt) ∧ boot_healthy b' ∧ (∃ n, v = with_clock c n s ∧ (sc_id s = None ∨ sc_id s = Some n))
    ∧ servers (bo_store b') = table_put (sc_server_id s) v (servers (bo_store b))
    ∧ (partners (bo_store b'), virtual_files (bo_store b'), transfers (bo_store b'), docs (bo_remote b'))
      = (partners (bo_store b), virtual_files (bo_store b), transfers (bo_store b), docs (bo_remote b)).
Proof.
  intros [Hs Hr]. unfold put_server, mbind, BootM_bind, on_node, put_server_doc, next_counter.
  destruct (sc_id s) as [n|] eqn:En.
  - cbn. rewrite statement_sound by done. eexists _, _. split_and!; [done|by split|exists n; by split; [|right]|done..].
  - rewrite statement_sound by done. destruct (table_next_counter _ _) as [t n] eqn:Et. cbn.
    rewrite !statement_sound by done.
    eexists _, _. split_and!; [done|by split|exists n; by split; [|left]|done..].
Qed.

(** A bootstrap on a store without faults runs to its end, and each table then
    has, under every name of the file, the last entry of the file with this name
    (its creation as it tells or else the present, its change now, a listener with
    a number), and under any other name what it had. Records of transfers stay. *)
Theorem bootstrap_applies c boot b :
  boot_healthy b →
  ∃ b', bootstrap c boot b = (b', Some tt) ∧ boot_healthy b' ∧ transfers (bo_store b') = transfers (bo_store b)
    ∧ ∀ id,
      match last_with p_id id (bs_partners boot) with
      | Some p => table_get id (partners (bo_store b')) = Some (touch c false p)
      | None => table_get id (partners (bo_store b')) = table_get id (partners (bo_store b))
      end
      ∧ match last_with vf_id id (bs_files boot) with
        | Some v => table_get id (virtual_files (bo_store b')) = Some (touch c false v)
        | None => table_get id (virtual_files (bo_store b')) = table_get id (virtual_files (bo_store b))
        end
      ∧ match last_with rp_id id (bs_remote_partners boot) with
        | Some r => table_get id (docs (bo_remote b'))
            = Some (set_times (Some (default (now_created c) (rp_created_at r))) (rp_updated_at r) r)
        | None => table_get id (docs (bo_remote b')) = table_get id (docs (bo_remote b))
        end
      ∧ match last_with sc_server_id id (bs_servers boot) with
        | Some s => ∃ n, table_get id (servers (bo_store b')) = Some (with_clock c n s) ∧ (sc_id s = None ∨ sc_id s = Some n)
        | None => table_get id (servers (bo_store b')) = table_get id (servers (bo_store b))
        end.
Proof.
  intros Hb.
  destruct (each_puts (put_partner c) p_id (λ p v, v = touch c false p) (λ b, partners (bo_store b))
              (λ b, (virtual_files (bo_store b), servers (bo_store b), transfers (bo_store b), docs (bo_remote b))))
    with (l := bs_partners boot) (b := b) as (b1 & E1 & H1 & R1 & G1); [|done|].
  { intros x b0 [Hs Hr]. unfold put_partner, on_node. rewrite statement_sound by done. cbn. by eexists _, _. }
  destruct (each_puts (put_file c) vf_id (λ p v, v = touch c false p) (λ b, virtual_files (bo_store b))
              (λ b, (partners (bo_store b), servers (bo_store b), transfers (bo_store b), docs (bo_remote b))))
    with (l := bs_files boot) (b := b1) as (b2 & E2 & H2 & R2 & G2); [|done|].
  { intros x b0 [Hs Hr]. unfold put_file, on_node. rewrite statement_sound by done. cbn. by eexists _, _. }
  destruct (each_puts (put_remote c) rp_id
              (λ r v, v = set_times (Some (default (now_created c) (rp_created_at r))) (rp_updated_at r) r)
              (λ b, docs (bo_remote b))
              (λ b, (partners (bo_store b), virtual_files (bo_store b), servers (bo_store b), transfers (bo_store b))))
    with (l := bs_remote_partners boot) (b := b2) as (b3 & E3 & H3 & R3 & G3); [|done|].
  { intros x b0 [Hs Hr]. unfold put_remote, on_remote.
    destruct (db_statement_healthy (λ t : Table RemotePartner, (table_put (rp_id x) (set_times (match rp_created_at x with
      Some t => Some t | None => Some (now_created c) end) (rp_updated_at x) x) t, tt)) (bo_remote b0) Hr) as (d & -> & Hd & Ed).
    eexists _, _. split_and!; [done|by split|done| |done]. cbn in *. rewrite Ed. by destruct (rp_created_at x). }
  destruct (each_puts (put_server c) sc_server_id (λ s v, ∃ n, v = with_clock c n s ∧ (sc_id s = None ∨ sc_id s = Some n))
              (λ b, servers (bo_store b))
              (λ b, (partners (bo_store b), virtual_files (bo_store b), transfers (bo_store b), docs (bo_remote b)))
              (put_server_step c) (bs_servers boot) b3 H3) as (b4 & E4 & H4 & R4 & G4).
  exists b4. unfold bootstrap, mbind, BootM_bind. rewrite E1, E2, E3, E4. simplify_eq. split_and!; [done|done|congruence|].
  intros id. specialize (G1 id). specialize (G2 id). specialize (G3 id). specialize (G4 id).
  repeat match goal with H : _ = _ |- _ => rewrite H end. split_and!.
  - destruct (last_with p_id id _); [|congruence]. destruct G1 as (x & G & ->). congruence.
  - destruct (last_with vf_id id _); [|congruence]. destruct G2 as (x & G & ->). congruence.
  - destruct (last_with rp_id id _); [|congruence]. destruct G3 as (x & G & ->). congruence.
  - destruct (last_with sc_server_id id _); [|congruence]. destruct G4 as (x & G & n & -> & Hn). by exists n.
Qed.

(** ** The listeners *)

(** Entries and loops stay as they are, next to new ones. *)
Definition kept (m m' : ServerManager) : Prop :=
  (∀ id r, sm_running m !! id = Some r → sm_running m' !! id = Some r) ∧ (∀ i l, sm_loops m !! i = Some l → sm_loops m' !! i = Some l).

#[global] Instance kept_preorder : PreOrder kept.
Proof. split; [by split|]. intros x y z [H1 H2] [H3 H4]. split; eauto. Qed.

Lemma kept_store s m : kept m (set_sm_store s m).
Proof. by split. Qed.

Lemma kept_start w id m : kept m (start w id m).1.
Proof.
  destruct (start_cases w id m) as [[s ->]|(s & cfg & tls & Hr & ->)]; [apply kept_store|]. split; cbn.
  - intros id' r H. rewrite lookup_insert_ne; [done|]. congruence.
  - intros i l H. rewrite lookup_app_l; [done|]. by apply lookup_lt_Some in H.
Qed.

Lemma kept_start_all ws n all m : kept m (start_all ws n all m).1.
Proof.
  induction all as [|s all IH] in n, m |- *; [done|]. cbn [start_all]. rewrite mgr_bind_eq. destruct (sc_auto_start s).
  - unfold logged at 1. etrans; [apply kept_start|apply IH].
  - destruct (only_store_set_status (ws n) (sc_server_id s) Stopped m) as [s' E].
    destruct (set_status _ _ _ m) as [m1 [[]|e]]; cbn in E; subst m1; [|apply kept_store].
    etrans; [apply kept_store|apply IH].
Qed.

(** A reload, whatever the file holds and whichever statements fail, leaves every
    listener that runs and every accept loop, with its sessions and the settings it
    was started with, as they are; a file that cannot be read changes nothing. *)
Theorem reload_keeps_sessions c ws loaded remote m m' remote' applied :
  reload c ws loaded remote m = (m', remote', applied) →
  (∀ id r, sm_running m !! id = Some r → sm_running m' !! id = Some r)
  ∧ (∀ i l, sm_loops m !! i = Some l → sm_loops m' !! i = Some l)
  ∧ (loaded = None → m' = m ∧ applied = false).
Proof.
  unfold reload. destruct loaded as [boot|]; [|by intros [= <- _ <-]].
  destruct (bootstrap c boot _) as [b [[]|]]; intros [= <- _ _].
  - unfold start_auto. rewrite mgr_bind_eq. unfold unasked. cbn [sm_store set_sm_store].
    destruct (list_server_docs (bo_store b)) as [s all]. rewrite set_sm_store_store.
    destruct (kept_start_all ws 0 (default [] all) (set_sm_store s m)) as [H1 H2]. by split_and!.
  - by split_and!.
Qed.

(** ** The end *)

(** The states of the entries [ids] after they are stopped: no entry, a loop that
    has its signal, a document that says so. *)
Definition over (m m' : ServerManager) (ids : list ustring) : Prop :=
  sound m'
  ∧ (∀ id, sm_running m' !! id = if decide (id ∈ ids) then None else sm_running m !! id)
  ∧ (∀ id, id ∈ ids → ∀ cfg, table_get id (servers (sm_store m')) = Some cfg → sc_status cfg = Stopped)
  ∧ (∀ id, id ∉ ids → table_get id (servers (sm_store m')) = table_get id (servers (sm_store m)))
  ∧ (∀ i l, sm_loops m !! i = Some l → ∃ l', sm_loops m' !! i = Some l' ∧ al_cfg l' = al_cfg l ∧ al_active l' = al_active l
      ∧ (al_signalled l = true ∨ (∃ id r, id ∈ ids ∧ sm_running m !! id = Some r ∧ rn_loop r = i) → al_signalled l' = true)).

(** What a stop leaves: the sessions of the loops, and the other tables. *)
Definition untouched (m : ServerManager) : list nat * (Table Partner * Table VirtualFile * Table TransferRecord) :=
  (map al_active (sm_loops m), (partners (sm_store m), virtual_files (sm_store m), transfers (sm_store m))).

Lemma set_status_missing w id st m :
  sound m → table_get id (servers (sm_store m)) = None → set_status w id st m = (m, inl tt).
Proof.
  intros Hm Hc. unfold set_status. rewrite mgr_bind_eq. unfold unasked, update_server_doc, get_server_doc.
  rewrite statement_sound by done. cbn. rewrite Hc. cbn. by rewrite set_sm_store_id.
Qed.

Lemma stop_over w id r m : sound m → sm_running m !! id = Some r → over m (stop w id m).1 [id].
Proof.
  intros Hm Hr. unfold stop. rewrite mgr_bind_eq. cbn. rewrite Hr, mgr_bind_eq. cbn.
  assert (L : ∀ i l, sm_loops m !! i = Some l → ∃ l', alter signalled (rn_loop r) (sm_loops m) !! i = Some l'
    ∧ al_cfg l' = al_cfg l ∧ al_active l' = al_active l
    ∧ (al_signalled l = true ∨ (∃ id0 r0, id0 ∈ [id] ∧ sm_running m !! id0 = Some r0 ∧ rn_loop r0 = i) → al_signalled l' = true)).
  { intros i l Hl. destruct (decide (rn_loop r = i)) as [<-|Hne].
    - rewrite list_lookup_alter_eq, Hl. by eexists.
    - rewrite list_lookup_alter_ne, Hl by done. eexists. split_and!; [done..|].
      intros [?|(id0 & r0 & H0%list_elem_of_singleton & H1 & H2)]; [done|]. congruence. }
  assert (R : ∀ id' : ustring, base.delete id (sm_running m) !! id' = if decide (id' ∈ [id]) then None else sm_running m !! id').
  { intros id'. case_decide as H; rewrite list_elem_of_singleton in H; [subst; apply lookup_delete_eq|by rewrite lookup_delete_ne]. }
  destruct (table_get id (servers (sm_store m))) as [c|] eqn:Hc.
  - rewrite (set_status_doc w id Stopped (unlink id r m) c Hm Hc). split_and!; [done|done| |intros id' H|done].
    + intros id' ->%list_elem_of_singleton cfg. cbn. rewrite table_get_put_eq. by intros [= <-].
    + cbn. rewrite table_get_put_ne; [done|]. rewrite list_elem_of_singleton in H. done.
  - rewrite set_status_missing by done. split_and!; [done|done| |done|done].
    intros id' ->%list_elem_of_singleton cfg. cbn. congruence.
Qed.

Lemma stop_sound w id m : sound m → sound (stop w id m).1.
Proof.
  intros Hm. unfold stop. rewrite mgr_bind_eq. cbn. destruct (sm_running m !! id) as [r|] eqn:Hr.
  - rewrite mgr_bind_eq. cbn. set (m1 := unlink id r m).
    destruct (table_get id (servers (sm_store m1))) as [c|] eqn:Hc; [by rewrite (set_status_doc w id Stopped m1 c Hm Hc)|].
    by rewrite set_status_missing.
  - rewrite mgr_bind_eq. unfold asked, server_doc_exists. by rewrite statement_sound.
Qed.

Lemma stop_untouched w id m : sound m → untouched (stop w id m).1 = untouched m.
Proof.
  intros Hm. unfold stop. rewrite mgr_bind_eq. cbn. destruct (sm_running m !! id) as [r|].
  - rewrite mgr_bind_eq. cbn. set (m1 := unlink id r m). trans (untouched m1).
    + destruct (table_get id (servers (sm_store m1))) as [c|] eqn:Hc; [by rewrite (set_status_doc w id Stopped m1 c Hm Hc)|].
      by rewrite set_status_missing.
    + unfold untouched. f_equal. cbn. generalize (rn_loop r). induction (sm_loops m) as [|l ls IH]; intros [|i]; cbn; [done..|].
      by rewrite IH.
  - rewrite mgr_bind_eq. unfold asked, server_doc_exists. by rewrite statement_sound.
Qed.

Lemma stop_each_over ws n ids m :
  sound m → NoDup ids → (∀ id, id ∈ ids → is_Some (sm_running m !! id)) → over m (stop_each ws n ids m).1 ids.
Proof.
  induction ids as [|id ids IH] in n, m |- *; intros Hm Hn Hr.
  { split_and!; [done| | |done|]; try by intros ? ?%not_elem_of_nil.
    - intros id. by rewrite decide_False by apply not_elem_of_nil.
    - intros i l Hl. exists l. split_and!; [done..|]. intros [?|(id0 & r0 & []%not_elem_of_nil & _)]; done. }
  apply NoDup_cons in Hn as [Hid Hn]. destruct (Hr id) as [r Er]; [left|].
  cbn [stop_each]. rewrite mgr_bind_eq. unfold logged.
  destruct (stop_over (ws n) id r m Hm Er) as (S1 & R1 & D1 & O1 & L1). set (m1 := (stop (ws n) id m).1) in *.
  assert (Hr1 : ∀ id', id' ∈ ids → sm_running m1 !! id' = sm_running m !! id').
  { intros id' H. rewrite R1, decide_False; [done|]. rewrite list_elem_of_singleton. by intros ->. }
  destruct (IH (S n) m1 S1 Hn) as (S2 & R2 & D2 & O2 & L2).
  { intros id' H. rewrite Hr1 by done. apply Hr. by right. }
  set (m2 := (stop_each ws (S n) ids m1).1) in *. split_and!; [done|..].
  - intros id'. rewrite R2, R1. repeat case_decide; set_solver.
  - intros id' [->|H]%elem_of_cons cfg; [|by apply D2]. rewrite O2 by done. apply D1. by apply list_elem_of_singleton.
  - intros id' [H1 H2]%not_elem_of_cons. rewrite O2, O1; [done| |done]. by rewrite list_elem_of_singleton.
  - intros i l Hl. destruct (L1 i l Hl) as (l1 & E1 & C1 & A1 & G1). destruct (L2 i l1 E1) as (l2 & E2 & C2 & A2 & G2).
    exists l2. split_and!; [done|congruence|congruence|]. intros [H|(id0 & r0 & [->|H0]%elem_of_cons & H1 & H2)].
    + apply G2. left. apply G1. by left.
    + apply G2. left. apply G1. right. exists id, r0. split; [by apply list_elem_of_singleton|done].
    + apply G2. right. exists id0, r0. split_and!; [done| |done]. by rewrite Hr1.
Qed.

Lemma stop_each_untouched ws n ids m : sound m → untouched (stop_each ws n ids m).1 = untouched m ∧ sound (stop_each ws n ids m).1.
Proof.
  induction ids as [|id ids IH] in n, m |- *; intros Hm; [done|]. cbn [stop_each]. rewrite mgr_bind_eq. unfold logged.
  destruct (IH (S n) (stop (ws n) id m).1) as [U H]; [by apply stop_sound|]. split; [|done].
  rewrite U. by apply stop_untouched.
Qed.

Lemma stop_all_stops ws m :
  sound m → let m' := (stop_all ws m).1 in
  over m m' (map_to_list (sm_running m)).*1 ∧ sm_running m' = ∅ ∧ untouched m' = untouched m.
Proof.
  intros Hm m'. set (ids := (map_to_list (sm_running m)).*1).
  assert (Hin : ∀ id, id ∈ ids ↔ is_Some (sm_running m !! id)).
  { intros id. unfold ids. rewrite list_elem_of_fmap. split.
    - intros ([k r] & -> & H%elem_of_map_to_list). by eexists.
    - intros [r H]. exists (id, r). by rewrite elem_of_map_to_list. }
  assert (Hover : over m m' ids).
  { apply (stop_each_over ws 0 ids m Hm); [apply NoDup_fst_map_to_list|]. intros id. apply Hin. }
  split; [done|]. split; [|by apply stop_each_untouched].
  apply map_empty. intros id. destruct Hover as (_ & R & _). rewrite R. case_decide as H; [done|]. rewrite Hin in H. by apply eq_None_not_Some.
Qed.

(** C25: how the process of the node ends. When it has started, and whatever the
    calls and the sessions have made of the manager by the time the interfaces
    end, without faults of the store from then on: its result is that of the
    interfaces; no listener has an entry; the loop of each listener that ran has
    its signal, and no session has been waited for or ended (they are dropped
    with the runtime), so that the records of transfers are as the sessions left
    them, in progress or not; no document of a listener that ran says that it
    still does; all other documents are as they were. When the start fails the
    process ends with its error, and nothing stops the listeners: the tables are
    those of before, or those that the start of the listeners left, in which
    they are said to run. *)
Theorem shutdown_stops w o run ws store :
  match serve w o store with
  | (s, inr e) => serve_to_end w o run ws store = mkEnding s (inr e)
      ∧ (s = store ∨ ∃ settings, s = sm_store (start_auto (wo_calls w) (manager_new store settings)).1)
  | (_, inl n) => let '(m, served) := run n in sound m →
      ∃ m', serve_to_end w o run ws store = mkEnding (sm_store m') served
      ∧ sm_running m' = ∅ ∧ st_faults (sm_store m') = []
      ∧ map al_active (sm_loops m') = map al_active (sm_loops m)
      ∧ (partners (sm_store m'), virtual_files (sm_store m'), transfers (sm_store m'))
        = (partners (sm_store m), virtual_files (sm_store m), transfers (sm_store m))
      ∧ (∀ id r l, sm_running m !! id = Some r → sm_loops m !! rn_loop r = Some l →
           ∃ l', sm_loops m' !! rn_loop r = Some l' ∧ al_signalled l' = true ∧ al_active l' = al_active l)
      ∧ ∀ id, if decide (is_Some (sm_running m !! id))
              then ∀ cfg, table_get id (servers (sm_store m')) = Some cfg → sc_status cfg = Stopped
              else table_get id (servers (sm_store m')) = table_get id (servers (sm_store m))
  end.
Proof.
  unfold serve_to_end. destruct (serve w o store) as [s [n|e]] eqn:Es.
  - destruct (run n) as [m served]. intros Hm. exists (stop_all ws m).1. split; [done|].
    destruct (stop_all_stops ws m Hm) as ((S1 & R1 & D1 & O1 & L1) & Hr & [= U1 U2 U3 U4]).
    assert (Hin : ∀ id, id ∈ (map_to_list (sm_running m)).*1 ↔ is_Some (sm_running m !! id)).
    { intros id. specialize (R1 id). rewrite Hr, lookup_empty in R1. case_decide as H; [|by rewrite <- R1; split; [|intros []]].
      split; [|done]. intros ([k r] & -> & Hk%elem_of_map_to_list)%list_elem_of_fmap. by eexists. }
    split_and!; [done|done|done|congruence| |].
    + intros id r l Hr' Hl. destruct (L1 _ l Hl) as (l' & E & _ & A & G). exists l'. split_and!; [done| |done]. apply G.
      right. exists id, r. split; [|done]. apply Hin. by eexists.
    + intros id. case_decide as H; rewrite <- Hin in H; [by apply D1|by apply O1].
  - split; [done|]. unfold serve in Es. destruct (listener_tls o) as [tls|e']; [|left; congruence]. right.
    eexists. destruct (api_key _ o) as [key|e1]; [|injection Es as <- _; reflexivity].
    destruct (wo_bind w _) as [[]|e2]; [|injection Es as <- _; reflexivity].
    destruct (wo_bind w _) as [[]|e3]; [done|injection Es as <- _; reflexivity].
Qed.

(** ** The backup without the interface *)

(** C26: the command of a backup restores a bundle as the interface does: the same
    checks of its signature, the same documents, the same count and the same errors,
    as long as the bundle tells its tables. A bundle without them is taken for the
    map of its tables, of which the interface restores nothing. *)
Theorem offline_import_restores to_vec decode verify_bytes parse import text bundle s :
  parse text = inl bundle →
  let offline := offline_import to_vec decode verify_bytes parse import text s in
  let online b := restore_bundle to_vec decode verify_bytes import b s in
  match get (lit "tables") bundle with
  | Some (Object tables) =>
      offline = ((online bundle).1, match (online bundle).2 with inl n => inl n | inr e => inr (NotRestored e) end)
  | Some _ =>
      offline.1 = s ∧ (offline.2 = inr NoTables ∨ ∃ e, offline.2 = inr (NotRestored (Rejected e)) ∧ (online bundle).2 = inr (Rejected e))
  | None =>
      ∀ map, bundle = Object map → verify_bundle to_vec decode verify_bytes bundle = inl tt →
        offline.1 = (apply_tables map s).1
        ∧ ∀ n, offline.2 = inl n → (apply_tables map s).2 = Some n ∧ (online bundle).1 = s
  end.
Proof.
  intros E. unfold offline_import, restore_bundle. rewrite E. destruct (get (lit "tables") bundle) as [t|] eqn:Et.
  - destruct t; try (cbn [default]; unfold id; destruct (verify_bundle _ _ _ bundle) as [[]|e]; [by split; [|left]|split; [done|right; by exists e]]).
    cbn [default]. unfold id, default, mbind, option_bind. cbn [as_object].
    destruct (verify_bundle _ _ _ bundle) as [[]|e]; [|done].
    destruct (apply_tables fields s) as [s1 [k|]]; [|done].
    destruct (get (lit "pki") bundle) as [[]|], import as [i|]; try done; by destruct (i _).
  - intros map -> Hv. rewrite Hv. cbn [default as_object]. unfold id, mbind, option_bind. unfold default at 1.
    destruct (apply_tables map s) as [s1 [k|]]; [|done].
    assert (F : (apply_tables [] s) = (s, Some 0%nat)) by done. cbn [default]. rewrite F.
    destruct (get (lit "pki") (Object map)) as [v|], import as [i|]; try (destruct v); try destruct (i _); cbn; split; try done; by intros ? [= <-].
Qed.

(** ** The certificates of clients *)

(** The file of authorities of a listener: with a keystore of its own, its
    truststore, or else that of the process; without one that of the process, and
    its truststore is not looked at. *)
Definition authorities (o : NodeOptions) (settings : ListenerSettings) (cfg : PesitServerConfig) : option ustring :=
  let of_process := if no_ssl_enabled o then no_ssl_ca o else None in
  match filled (sc_ssl_keystore cfg), filled (sc_ssl_truststore cfg) with
  | Some _, Some name => or_else (pki ← ls_pki settings; Listeners.truststore_file pki name) of_process
  | _, _ => of_process
  end.

(** C23: when a listener of the node has its acceptor, a client must have a certificate
    exactly when TLS is enabled for the process with the client authentication NEED
    and the listener has a file of authorities: with a keystore of its own, the file
    of its truststore or else that of the process; without one that of the process
    only, and its own truststore is ignored. The certificate is then verified with
    the authorities of this very file, and so is one that a client shows without
    being asked for it with NEED. Without a file no client is asked, whatever NEED
    says. The versions are those of the process, or from 1.2 on when TLS is not
    enabled for it: with TLSv1.3 no lower one is offered. *)
Theorem listeners_ask_clients lib o settings cfg t a :
  Process.listener_tls o = inl (ls_tls settings) → Listeners.listener_tls settings cfg = inl t → acceptor lib t = Ok a →
  let need := no_ssl_enabled o && same_name (no_ssl_client_auth o) (lit "NEED") in
  match authorities o settings cfg with
  | Some file => ∃ roots, load_certs lib file = Ok roots ∧ ac_check a = ClientCerts roots (negb need)
  | None => ac_check a = NoClientAuth
  end
  ∧ ((∃ roots, ac_check a = ClientCerts roots false) ↔ need = true ∧ is_Some (authorities o settings cfg))
  ∧ ac_versions a = versions (Some (if no_ssl_enabled o then min_tls (no_ssl_protocol o) else V1_2))
  ∧ (no_ssl_enabled o = true → min_tls (no_ssl_protocol o) = V1_3 → ∀ v, v ∈ ac_versions a → v = V1_3).
Proof.
  intros Ho Ht Ha need. apply acceptor_ok in Ha as (Ev & Ec & _). apply client_check_ok in Ec.
  assert (P : ts_require_client_cert t = need ∧ ts_ca_file t = authorities o settings cfg
              ∧ ts_min_version t = Some (if no_ssl_enabled o then min_tls (no_ssl_protocol o) else V1_2)).
  { unfold need, authorities. unfold Process.listener_tls in Ho. unfold Listeners.listener_tls in Ht.
    destruct (no_ssl_enabled o) eqn:En; cbn [negb andb] in *.
    - destruct (no_ssl_cert o) as [c|], (no_ssl_key o) as [k|]; try done. injection Ho as Hs. rewrite <- Hs in Ht.
      destruct (filled (sc_ssl_keystore cfg)) as [ks|]; [|by injection Ht as <-].
      destruct (ls_pki settings) as [pki|]; [|done]. destruct (Listeners.keystore_files pki ks) as [[cert key]|]; [|done].
      injection Ht as <-. cbn. by destruct (filled (sc_ssl_truststore cfg)).
    - injection Ho as Hs. rewrite <- Hs in Ht. destruct (filled (sc_ssl_keystore cfg)) as [ks|]; [|done].
      destruct (ls_pki settings) as [pki|]; [|done]. destruct (Listeners.keystore_files pki ks) as [[cert key]|]; [|done].
      injection Ht as <-. cbn. by destruct (filled (sc_ssl_truststore cfg)). }
  destruct P as (Pr & Pc & Pv). rewrite Pc, Pr in Ec. rewrite Pv in Ev. split; [|split; [|split]].
  - destruct (authorities o settings cfg); [|done]. destruct Ec as (roots & Hroots & ->). by exists roots.
  - destruct (authorities o settings cfg) as [ca|].
    + destruct Ec as (roots & _ & ->). split; [|by intros [-> _]; exists roots].
      intros [r [= _ H]]. by apply negb_false_iff in H as ->.
    + rewrite Ec. split; [by intros []|]. by intros (_ & [? ?]).
  - done.
  - intros En Hv v Hin. rewrite Ev, En, Hv in Hin. by apply list_elem_of_singleton in Hin.
Qed.

(** ** A node *)

Module Reloaded.

Definition clock : Clock := mkClock (lit "now") (lit "now").

(** The listener of the sample runs; a file has it again, and another one. *)
Definition file : Bootstrap :=
  mkBootstrap [] [] [mkRemotePartner (lit "R") None (lit "h") 1 None None true 1 false None None]
    [ListenersProps.Sample.listener (lit "MAIN") false; ListenersProps.Sample.listener (lit "NEW") false].
Definition after : ServerManager * Db (Table RemotePartner) * bool :=
  reload clock (λ _, ListenersProps.Sample.call) (Some file) (mkDb [] []) ListenersProps.Sample.started.

End Reloaded.

(** The reload starts the listener that is new. The one that runs stays, but its
    document has the status of the file, which is that of a listener that is
    stopped, and a new number: the agreement of entries and documents, which the
    interface keeps, is lost. *)
Example reload_forgets_status :
  map (λ c, (sc_server_id c, sc_status c, sc_id c)) (table_list (servers (sm_store Reloaded.after.1.1)))
    = [(lit "MAIN", Stopped, Some 1); (lit "SAFE", Error, None); (lit "NEW", Running, Some 2)]
  ∧ is_running (lit "MAIN") Reloaded.after.1.1 = true
  ∧ Reloaded.after.2 = true.
Proof. by vm_compute. Qed.

Example bootstrap_applies_witness :
  let b := mkBoot ListenersProps.Sample.store (mkDb [] []) in
  ∃ b', bootstrap Reloaded.clock Reloaded.file b = (b', Some tt) ∧ ∃ n, table_get (lit "NEW") (servers (bo_store b'))
    = Some (with_clock Reloaded.clock n (ListenersProps.Sample.listener (lit "NEW") false)).
Proof.
  intros b. destruct (bootstrap_applies Reloaded.clock Reloaded.file b) as (b' & E & _ & _ & H); [by split|].
  exists b'. split; [exact E|]. destruct (H (lit "NEW")) as (_ & _ & _ & Hs).
  change (last_with sc_server_id (lit "NEW") (bs_servers Reloaded.file)) with (Some (ListenersProps.Sample.listener (lit "NEW") false)) in Hs.
  destruct Hs as (n & Hn & _). by exists n.
Defined.

Example reload_keeps_sessions_witness :
  sm_loops Reloaded.after.1.1 !! 0%nat = sm_loops ListenersProps.Sample.started !! 0%nat.
Proof.
  assert (E0 : Reloaded.after = (Reloaded.after.1.1, Reloaded.after.1.2, Reloaded.after.2)) by (rewrite <- !surjective_pairing; reflexivity).
  destruct (reload_keeps_sessions Reloaded.clock (λ _, ListenersProps.Sample.call) (Some Reloaded.file) (mkDb [] [])
              ListenersProps.Sample.started Reloaded.after.1.1 Reloaded.after.1.2 Reloaded.after.2 E0) as (_ & H & _).
  assert (E : sm_loops ListenersProps.Sample.started !! 0%nat = Some ListenersProps.Sample.loop) by (vm_compute; reflexivity).
  rewrite E. exact (H _ _ E).
Defined.

(** A start whose two interfaces can be reached, or whose second cannot. *)
Definition surroundings (second : bool) : World :=
  mkWorld None [] (λ _, None) None (λ _, ListenersProps.Sample.call) (λ k, inl (Ebcdic.utf8 k))
    (λ addr, if second || bool_decide (addr = http_address node_options_default 8080) then inl tt else inr (lit "in use")).

Example shutdown_stops_witness :
  let ending := serve_to_end (surroundings true) node_options_default (λ n, (nd_manager n, inl tt))
                  (λ _, ListenersProps.Sample.call) ListenersProps.Sample.store in
  ex_result ending = inl tt ∧ (sc_status <$> table_get (lit "MAIN") (servers (ex_store ending))) = Some Stopped.
Proof.
  intros ending.
  assert (H := shutdown_stops (surroundings true) node_options_default (λ n, (nd_manager n, inl tt))
    (λ _, ListenersProps.Sample.call) ListenersProps.Sample.store).
  destruct (serve (surroundings true) node_options_default ListenersProps.Sample.store) as [s [n|e]] eqn:Es; [|vm_compute in Es; discriminate].
  assert (En : n = match (serve (surroundings true) node_options_default ListenersProps.Sample.store).2 with inl n => n | inr _ => n end)
    by (rewrite Es; reflexivity).
  assert (Hs : sound (nd_manager n)) by (rewrite En; vm_compute; reflexivity).
  destruct (H Hs) as (m' & E & _ & _ & _ & _ & _ & Hd). specialize (Hd (lit "MAIN")). unfold ending. rewrite E. split; [reflexivity|].
  assert (Hc : ∃ cfg, table_get (lit "MAIN") (servers (sm_store m')) = Some cfg).
  { change (sm_store m') with (ex_store (mkEnding (sm_store m') (inl tt))). rewrite <- E. eexists. vm_compute. reflexivity. }
  destruct Hc as [cfg Ec]. cbn [ex_store]. rewrite Ec. destruct (decide _) as [_|Hno].
  - cbn. f_equal. exact (Hd cfg Ec).
  - exfalso. apply Hno. rewrite En. eexists. vm_compute. reflexivity.
Defined.

(** The listener has started when the second interface cannot be reached: the
    process ends with the error and its document says that it runs. *)
Example failed_start_says_running :
  let ending := serve_to_end (surroundings false) node_options_default (λ n, (nd_manager n, inl tt))
                  (λ _, ListenersProps.Sample.call) ListenersProps.Sample.store in
  ex_result ending = inr (lit "in use") ∧ (sc_status <$> table_get (lit "MAIN") (servers (ex_store ending))) = Some Running.
Proof. by vm_compute. Qed.

(** A map of tables: the command restores its two partners, the interface nothing. *)
Definition bare : Json := Object [(PARTNERS, Array [Object [(lit "id", Text (lit "A"))]; Object [(lit "id", Text (lit "B"))]])].

Example offline_import_restores_witness :
  let offline := offline_import (λ _, []) (λ _, None) (λ _ _ _, inl true) (λ _, inl bare) None [] (mkDb [] []) in
  offline.2 = inl 2%nat ∧ (restore_bundle (λ _, []) (λ _, None) (λ _ _ _, inl true) None bare (mkDb [] [])).1 = mkDb [] [].
Proof.
  intros offline.
  destruct (offline_import_restores (λ _, []) (λ _, None) (λ _ _ _, inl true) (λ _, inl bare) None [] bare (mkDb [] []) eq_refl
              [(PARTNERS, Array [Object [(lit "id", Text (lit "A"))]; Object [(lit "id", Text (lit "B"))]])] eq_refl eq_refl) as [_ H].
  assert (E : offline.2 = inl 2%nat) by (vm_compute; reflexivity). split; [exact E|]. exact (proj2 (H _ E)).
Defined.

(** A node whose clients need a certificate, with a file of authorities. *)
Definition needs (ca : option ustring) : NodeOptions :=
  mkNodeOptions 8080 9081 [] None true [] [] [] [] [] [] [] None 0 50000 [] None [] None 100 4 4096 65535
    true (Some (lit "c")) (Some (lit "k")) ca (lit "need") (lit "tlsv1.3") None None None false (lit "TLSv1.2").
Definition needs_settings (ca : option ustring) : ListenerSettings :=
  mkListenerSettings [] [] (Some (mkTlsServerSettings (lit "c") (lit "k") ca true (Some V1_3))) None.

Example listeners_ask_clients_witness :
  ∃ a roots, acceptor two_files (mkTlsServerSettings (lit "c") (lit "k") (Some (lit "ca")) true (Some V1_3)) = Ok a
    ∧ ac_check a = ClientCerts roots false.
Proof.
  set (t := mkTlsServerSettings (lit "c") (lit "k") (Some (lit "ca")) true (Some V1_3)).
  set (a := mkAcceptor TLS13_ONLY (ClientCerts [[1]] false) ([[2]], [2])). exists a.
  destruct (listeners_ask_clients two_files (needs (Some (lit "ca"))) (needs_settings (Some (lit "ca")))
              (ListenersProps.Sample.listener (lit "SAFE") true) t a eq_refl eq_refl ltac:(vm_compute; reflexivity)) as (_ & H & _).
  destruct H as [_ H]. destruct H as [roots H]; [split; [vm_compute; reflexivity|by eexists]|].
  exists roots. split; [vm_compute; reflexivity|exact H].
Defined.

Example needed_but_not_asked :
  ac_check <$> acceptor two_files (mkTlsServerSettings (lit "c") (lit "k") None true (Some V1_3)) = Ok NoClientAuth
  ∧ Process.listener_tls (needs None) = inl (ls_tls (needs_settings None)).
Proof. by vm_compute. Qed.

(** ** Defaults and ends *)

Example defaults :
  min_tls (lit "tlsv1.3") = V1_3 ∧ min_tls (lit "TLSv1.1") = V1_2
  ∧ Process.listener_tls node_options_default = inl None
  ∧ cluster_config None [] node_options_default = None
  ∧ api_key (λ k, inl (Ebcdic.utf8 k)) node_options_default = inl None.
Proof. by vm_compute. Qed.
